(** * custom::vector and custom::stack

    A shallow embedding of [vector.h] and [stack.h].  Every member function
    is a computation in a state-and-error monad over a store that holds
      - the free store: raw regions handed out by the allocation strategy,
        each with an extent and the set of slots that hold a live object;
      - the vector objects themselves, addressed by location, so that
        [this] and [rhs] may denote the same object.
    The [const T&] and [T&&] parameters of [push_back], [push] and
    [resize] are modelled as references, not as values: they are read where
    the code reads them, so that an argument which points into a buffer the
    call releases is seen to dangle.
    [size_t] is 64 bits wide and [int] 32 bits wide; arithmetic on them is
    written out with its wrap-around. *)

From stdpp Require Import base gmap list.
Local Open Scope Z_scope.

(** ** Machine integers *)

Definition SIZE_WIDTH : Z := 64.
Definition INT_MAX : Z := 2 ^ 31 - 1.
Definition PTRDIFF_MAX : Z := 2 ^ 63 - 1.

(** Conversion of an integer result to [size_t]. *)
Definition to_size_t (z : Z) : Z := z mod 2 ^ SIZE_WIDTH.

(** ** Pointers *)

Definition block := nat.
Definition loc := nat.

(** A [T*] is a region and an element offset into it.  Region [0] is never
    handed out; [nullptr] is its origin. *)
Record ptr : Type := Ptr { blk : block; off : Z }.

Definition nullptr : ptr := Ptr 0%nat 0.

Definition ptr_add (p : ptr) (n : Z) : ptr := Ptr (blk p) (off p + n).

Infix "+ₚ" := ptr_add (at level 50, left associativity).

#[global] Instance ptr_eq_dec : EqDecision ptr.
Proof. solve_decision. Defined.

(** ** The free store *)

(** A region of raw storage for [extent] objects; [cells] holds the slots in
    which an object has been constructed and not yet destroyed. *)
Record region (T : Type) : Type := Region { extent : Z; cells : gmap Z T }.
Arguments Region {T} _ _.
Arguments extent {T} _.
Arguments cells {T} _.

(** ** Reference parameters

    The object a [const T&] or [T&&] parameter is bound to: an object outside
    the free store (a local variable, a temporary, a literal), given by its
    value, or the object in a slot of a region of the free store. *)
Inductive ref (T : Type) : Type :=
  | Val (x : T)
  | At (p : ptr).
Arguments Val {T} _.
Arguments At {T} _.

(** ** The allocation strategy and the element type *)

(** Modelled from the spec: the allocation strategy [A] is a template
    parameter (by default [std::allocator<T>] from [<memory>]) and is not
    part of the sources.  Section 9 of the specification gives its four
    operations: allocate-raw, deallocate-raw, construct-in-place and
    destroy-in-place.  A value of [A] is the state the strategy carries;
    [A_default] is [A()].  What [allocate(0)] returns is left open by the
    allocator requirements: [allocate_zero_is_null a] says whether [a] hands
    out a null pointer for it ([true]) or a fresh region of extent zero
    ([false], as [::operator new(0)] does). *)
Class Allocator (A : Type) : Type := {
  A_default : A;
  allocate_zero_is_null : A → bool;
}.

(** The largest request a strategy can serve ([max_size()], at most
    [PTRDIFF_MAX] elements); a larger request raises [std::bad_alloc]. *)
Definition max_size : Z := PTRDIFF_MAX.

(** [T()], the value an element has after [construct(p)] with no argument. *)
Class DefaultConstructible (T : Type) : Type := T_default : T.

(** ** Objects and the store *)

(** The private members of [custom::vector<T, A>]. *)
Record vector (A : Type) : Type := Vector {
  alloc : A;
  data : ptr;
  numCapacity : Z;
  numElements : Z;
}.
Arguments Vector {A} _ _ _ _.
Arguments alloc {A} _.
Arguments data {A} _.
Arguments numCapacity {A} _.
Arguments numElements {A} _.

Record state (T A : Type) : Type := State {
  heap : gmap block (region T);
  next_block : block;
  objs : gmap loc (vector A);
}.
Arguments State {T A} _ _ _.
Arguments heap {T A} _.
Arguments next_block {T A} _.
Arguments objs {T A} _.

(** The store before anything has been allocated or constructed. *)
Definition initial_state {T A : Type} : state T A := State ∅ 1%nat ∅.

(** ** The monad *)

(** A call returns normally ([Ok]), leaves by an exception ([Throw], here
    always [std::bad_alloc]), or has undefined behaviour ([UB]). *)
Inductive outcome (S X : Type) : Type :=
  | Ok (x : X) (s : S)
  | Throw (s : S)
  | UB.
Arguments Ok {S X} _ _.
Arguments Throw {S X} _.
Arguments UB {S X}.

Definition M (T A X : Type) : Type := state T A → outcome (state T A) X.

Definition ret {T A X : Type} (x : X) : M T A X := λ s, Ok x s.

Definition bind {T A X Y : Type} (m : M T A X) (k : X → M T A Y) : M T A Y :=
  λ s, match m s with
       | Ok x s' => k x s'
       | Throw s' => Throw s'
       | UB => UB
       end.

Definition undefined {T A X : Type} : M T A X := λ _, UB.

Declare Scope vec_scope.
Delimit Scope vec_scope with vec.
Notation "x ← m ; k" := (bind m (λ x, k))
  (at level 20, m at level 100, k at level 200, only parsing) : vec_scope.
Notation "m ;; k" := (bind m (λ _, k))
  (at level 100, k at level 200, right associativity) : vec_scope.
Local Open Scope vec_scope.

Section Store.
Context {T A : Type} `{!Allocator A}.

(** *** Member access *)

Definition get (this : loc) : M T A (vector A) := λ s,
  match objs s !! this with
  | Some v => Ok v s
  | None => UB
  end.

Definition put (this : loc) (v : vector A) : M T A unit := λ s,
  Ok () (State (heap s) (next_block s) (<[this := v]> (objs s))).

Definition set_alloc (this : loc) (a : A) : M T A unit :=
  v ← get this;
  put this (Vector a (data v) (numCapacity v) (numElements v)).

Definition set_data (this : loc) (p : ptr) : M T A unit :=
  v ← get this;
  put this (Vector (alloc v) p (numCapacity v) (numElements v)).

Definition set_numCapacity (this : loc) (n : Z) : M T A unit :=
  v ← get this;
  put this (Vector (alloc v) (data v) n (numElements v)).

Definition set_numElements (this : loc) (n : Z) : M T A unit :=
  v ← get this;
  put this (Vector (alloc v) (data v) (numCapacity v) n).

(** *** The four operations of the allocation strategy *)

(** Modelled from the spec: [a.allocate(n)], raw storage for [n] objects.
    The region is fresh and no slot of it holds an object. *)
Definition allocate (a : A) (n : Z) : M T A ptr := λ s,
  if decide (max_size < n) then Throw s
  else if decide (n = 0 ∧ allocate_zero_is_null a = true) then Ok nullptr s
  else Ok (Ptr (next_block s) 0)
          (State (<[next_block s := Region n ∅]> (heap s))
                 (S (next_block s)) (objs s)).

(** Modelled from the spec: [a.deallocate(p, n)].  [p] must have come from
    [allocate(n)]; releasing the null pointer does nothing (as
    [::operator delete] does). *)
Definition deallocate (p : ptr) (n : Z) : M T A unit := λ s,
  if decide (p = nullptr) then Ok () s
  else match heap s !! blk p with
       | Some r =>
           if decide (off p = 0 ∧ extent r = n)
           then Ok () (State (delete (blk p) (heap s)) (next_block s) (objs s))
           else UB
       | None => UB
       end.

(** Modelled from the spec: [a.construct(p, x)], an object with value [x]
    begins to live in the slot [p]. *)
Definition construct (p : ptr) (x : T) : M T A unit := λ s,
  match heap s !! blk p with
  | Some r =>
      if decide (0 ≤ off p < extent r)
      then Ok () (State (<[blk p := Region (extent r) (<[off p := x]> (cells r))]> (heap s))
                        (next_block s) (objs s))
      else UB
  | None => UB
  end.

(** Modelled from the spec: [a.destroy(p)], the object in slot [p] ends. *)
Definition destroy (p : ptr) : M T A unit := λ s,
  match heap s !! blk p with
  | Some r =>
      match cells r !! off p with
      | Some _ =>
          Ok () (State (<[blk p := Region (extent r) (delete (off p) (cells r))]> (heap s))
                       (next_block s) (objs s))
      | None => UB
      end
  | None => UB
  end.

(** Reading through a [T&] or [T*]: the slot must hold a live object. *)
Definition load (p : ptr) : M T A T := λ s,
  match heap s !! blk p with
  | Some r =>
      match cells r !! off p with
      | Some x => Ok x s
      | None => UB
      end
  | None => UB
  end.

(** Assigning through a [T&] ([T::operator=]): the slot must hold a live
    object, which takes the value [x]. *)
Definition store (p : ptr) (x : T) : M T A unit := λ s,
  match heap s !! blk p with
  | Some r =>
      match cells r !! off p with
      | Some _ =>
          Ok () (State (<[blk p := Region (extent r) (<[off p := x]> (cells r))]> (heap s))
                       (next_block s) (objs s))
      | None => UB
      end
  | None => UB
  end.

(** Reading the object a reference parameter is bound to. *)
Definition read (t : ref T) : M T A T :=
  match t with
  | Val x => ret x
  | At p => load p
  end.

(** *** Loops *)

(** [n] rounds of [body], the counter starting at [i] and stepping by one. *)
Fixpoint loop (n : nat) (i : Z) (body : Z → M T A unit) : M T A unit :=
  match n with
  | O => ret ()
  | S n' => body i;; loop n' (i + 1) body
  end.

(** [for (size_t i = from; i < to; i++) body(i)]. *)
Definition for_size_t (from to : Z) (body : Z → M T A unit) : M T A unit :=
  loop (Z.to_nat (to - from)) from body.

(** [for (int i = 0; i < to; i++) body(i)] with [to] a [size_t]: [i] is
    converted to [size_t] for the comparison.  When [to] exceeds [INT_MAX]
    the round for [i = INT_MAX] is followed by [i++], a signed overflow. *)
Definition for_int (to : Z) (body : Z → M T A unit) : M T A unit :=
  loop (Z.to_nat (Z.min to (INT_MAX + 1))) 0 body;;
  if decide (INT_MAX < to) then undefined else ret ().

End Store.

(** ** [custom::vector<T, A>] *)

Module vector.
Section Members.
Context {T A : Type} `{!Allocator A} `{!DefaultConstructible T}.

(** *** Status *)

(** [size_t size() const] *)
Definition size (this : loc) : M T A Z :=
  v ← get this; ret (numElements v).

(** [size_t capacity() const] *)
Definition capacity (this : loc) : M T A Z :=
  v ← get this; ret (numCapacity v).

(** [bool empty() const] *)
Definition empty (this : loc) : M T A bool :=
  v ← get this; ret (bool_decide (numElements v = 0)).

(** *** Construct *)

(** [vector(const A& a = A())] *)
Definition vector_default (this : loc) (a : A) : M T A unit :=
  put this (Vector a nullptr 0 0).

(** [vector(size_t num, const T& t, const A& a = A())].  The constructor
    releases nothing and constructs into a region that is new, so the
    object [t] is bound to is the same in every round; it is given by its
    value. *)
Definition vector_fill (this : loc) (num : Z) (t : T) (a : A) : M T A unit :=
  p ← allocate a num;
  put this (Vector a p num num);;
  for_int num (λ i, construct (p +ₚ i) t).

(** The loop of the initializer-list constructor: [it] walks the list
    while [current] walks the buffer. *)
Fixpoint construct_each (current : ptr) (l : list T) : M T A unit :=
  match l with
  | [] => ret ()
  | x :: l' => construct current x;; construct_each (current +ₚ 1) l'
  end.

(** [vector(const std::initializer_list<T>& l, const A& a = A())] *)
Definition vector_init_list (this : loc) (l : list T) (a : A) : M T A unit :=
  p ← allocate a (Z.of_nat (length l));
  put this (Vector a p (Z.of_nat (length l)) (Z.of_nat (length l)));;
  construct_each p l.

(** [vector(size_t num, const A& a = A())] *)
Definition vector_sized (this : loc) (num : Z) (a : A) : M T A unit :=
  p ← allocate a num;
  put this (Vector a p num num);;
  for_int num (λ i, construct (p +ₚ i) T_default).

(** [vector(const vector& rhs)].  The member [alloc] is not named by the
    constructor and so is default-constructed; [rhs] is an object other
    than the one under construction. *)
Definition vector_copy (this rhs : loc) : M T A unit :=
  r ← get rhs;
  e ← empty rhs;
  if negb e then
    p ← allocate A_default (numElements r);
    put this (Vector A_default p (numElements r) (numElements r));;
    for_int (numElements r)
      (λ i, x ← load (data r +ₚ i); construct (p +ₚ i) x)
  else
    put this (Vector A_default nullptr 0 0).

(** [vector(vector&& rhs)].  As for the copy constructor, [alloc] is
    default-constructed. *)
Definition vector_move (this rhs : loc) : M T A unit :=
  r ← get rhs;
  put this (Vector A_default (data r) (numCapacity r) (numElements r));;
  set_data rhs nullptr;;
  set_numElements rhs 0;;
  set_numCapacity rhs 0.

(** [~vector()]; the object's storage is given up afterwards. *)
Definition vector_destroy (this : loc) : M T A unit :=
  v ← get this;
  for_int (numElements v) (λ i, destroy (data v +ₚ i));;
  deallocate (data v) (numCapacity v);;
  (λ s, Ok () (State (heap s) (next_block s) (delete this (objs s)))).

(** *** Assign: swap *)

(** [void swap(vector& rhs)]: four [std::swap]s, member by member. *)
Definition swap (this rhs : loc) : M T A unit :=
  (v ← get this; r ← get rhs; set_data this (data r);; set_data rhs (data v));;
  (v ← get this; r ← get rhs;
   set_numElements this (numElements r);; set_numElements rhs (numElements v));;
  (v ← get this; r ← get rhs;
   set_numCapacity this (numCapacity r);; set_numCapacity rhs (numCapacity v));;
  (v ← get this; r ← get rhs; set_alloc this (alloc r);; set_alloc rhs (alloc v)).

(** *** Iterator *)

(** [class vector<T, A>::iterator], a wrapped [T* p]. *)
Record iterator : Type := Iterator { p : ptr }.

(** [bool operator == (const iterator& rhs) const] *)
Definition iterator_eq (it rhs : iterator) : bool :=
  bool_decide (p it = p rhs).

(** [bool operator != (const iterator& rhs) const] *)
Definition iterator_ne (it rhs : iterator) : bool :=
  negb (bool_decide (p it = p rhs)).

(** [T& operator * ()] *)
Definition iterator_deref (it : iterator) : ptr := p it.

(** [iterator& operator ++ ()] *)
Definition iterator_incr (it : iterator) : iterator := Iterator (p it +ₚ 1).

(** [iterator& operator -- ()] *)
Definition iterator_decr (it : iterator) : iterator := Iterator (p it +ₚ (-1)).

(** [iterator() : p(nullptr) {}] *)
Definition iterator_default : iterator := Iterator nullptr.

(** [iterator(const iterator& rhs) : p(rhs.p) {}] *)
Definition iterator_copy (rhs : iterator) : iterator := Iterator (p rhs).

(** [iterator& operator = (const iterator& rhs)] *)
Definition iterator_assign (it rhs : iterator) : iterator := Iterator (p rhs).

(** [iterator operator ++ (int postfix)]: the iterator that is returned,
    and [*this] after the call. *)
Definition iterator_post_incr (it : iterator) : iterator * iterator :=
  let temp := Iterator (p it) in
  (temp, Iterator (p it +ₚ 1)).

(** [iterator operator -- (int postfix)] *)
Definition iterator_post_decr (it : iterator) : iterator * iterator :=
  let temp := Iterator (p it) in
  (temp, Iterator (p it +ₚ (-1))).

(** [iterator begin()] *)
Definition begin (this : loc) : M T A iterator :=
  v ← get this; ret (Iterator (data v)).

(** [iterator end()] *)
Definition end_ (this : loc) : M T A iterator :=
  v ← get this; ret (Iterator (data v +ₚ numElements v)).

(** [iterator(size_t index, vector<T>& v) : p(v.data + index) { }] *)
Definition iterator_at (index : Z) (v : loc) : M T A iterator :=
  r ← get v; ret (Iterator (data r +ₚ index)).

(** *** Access; a [T&] is the address of the element *)

(** [T& operator [] (size_t index)] *)
Definition subscript (this : loc) (index : Z) : M T A ptr :=
  v ← get this; ret (data v +ₚ index).

(** [T& front()] *)
Definition front (this : loc) : M T A ptr :=
  v ← get this; ret (data v).

(** [T& back()]; the index [numElements - 1] is computed in [size_t]. *)
Definition back (this : loc) : M T A ptr :=
  v ← get this; ret (data v +ₚ to_size_t (numElements v - 1)).

(** *** Insert *)

(** [void reserve(size_t newCapacity)] *)
Definition reserve (this : loc) (newCapacity : Z) : M T A unit :=
  v ← get this;
  if decide (newCapacity ≤ numCapacity v) then ret ()
  else
    dataNew ← allocate (alloc v) newCapacity;
    for_size_t 0 (numElements v)
      (λ i, x ← load (data v +ₚ i);
            construct (dataNew +ₚ i) x;;
            destroy (data v +ₚ i));;
    deallocate (data v) (numCapacity v);;
    set_data this dataNew;;
    set_numCapacity this newCapacity.

(** [void push_back(const T& t)].  The parameter is a reference: the
    object it is bound to is read by [construct], after [reserve] has moved
    the elements and released the old buffer. *)
Definition push_back (this : loc) (t : ref T) : M T A unit :=
  v ← get this;
  (if decide (numCapacity v = numElements v)
   then reserve this (if decide (numCapacity v ≠ 0)
                      then to_size_t (numCapacity v * 2) else 1)
   else ret ());;
  v' ← get this;
  x ← read t;
  construct (data v' +ₚ numElements v') x;;
  set_numElements this (to_size_t (numElements v' + 1)).

(** [void push_back(T&& t)]: the new element is move-constructed from the
    object [t] is bound to, which is read at the same point as in the
    overload above.  What a moved-from object holds is up to [T]; it is
    left as it is. *)
Definition push_back_move (this : loc) (t : ref T) : M T A unit :=
  v ← get this;
  (if decide (numCapacity v = numElements v)
   then reserve this (if decide (numCapacity v ≠ 0)
                      then to_size_t (numCapacity v * 2) else 1)
   else ret ());;
  v' ← get this;
  x ← read t;
  construct (data v' +ₚ numElements v') x;;
  set_numElements this (to_size_t (numElements v' + 1)).

(** [void resize(size_t newElements)] *)
Definition resize (this : loc) (newElements : Z) : M T A unit :=
  v ← get this;
  (if decide (newElements < numElements v) then
     for_size_t newElements (numElements v) (λ i, destroy (data v +ₚ i))
   else if decide (newElements > numElements v) then
     (if decide (newElements > numCapacity v)
      then reserve this newElements else ret ());;
     v' ← get this;
     for_size_t (numElements v') newElements
       (λ i, construct (data v' +ₚ i) T_default)
   else ret ());;
  set_numElements this newElements.

(** [void resize(size_t newElements, const T& t)].  The parameter is a
    reference: the object it is bound to is read in every round of the loop
    that constructs the new elements, after [reserve]. *)
Definition resize_fill (this : loc) (newElements : Z) (t : ref T) : M T A unit :=
  v ← get this;
  (if decide (newElements < numElements v) then
     for_size_t newElements (numElements v) (λ i, destroy (data v +ₚ i))
   else if decide (newElements > numElements v) then
     (if decide (newElements > numCapacity v)
      then reserve this newElements else ret ());;
     v' ← get this;
     for_size_t (numElements v') newElements
       (λ i, x ← read t; construct (data v' +ₚ i) x)
   else ret ());;
  set_numElements this newElements.

(** *** Remove *)

(** [void clear()] *)
Definition clear (this : loc) : M T A unit :=
  v ← get this;
  for_size_t 0 (numElements v) (λ i, destroy (data v +ₚ i));;
  set_numElements this 0.

(** [void pop_back()] *)
Definition pop_back (this : loc) : M T A unit :=
  v ← get this;
  if decide (numElements v ≠ 0) then
    destroy (data v +ₚ numElements v +ₚ (-1));;
    set_numElements this (numElements v - 1)
  else ret ().

(** [void shrink_to_fit()] *)
Definition shrink_to_fit (this : loc) : M T A unit :=
  v ← get this;
  if decide (numCapacity v > numElements v) then
    if decide (numElements v > 0) then
      newData ← allocate (alloc v) (numElements v);
      for_size_t 0 (numElements v)
        (λ i, x ← load (data v +ₚ i);
              construct (newData +ₚ i) x;;
              destroy (data v +ₚ i));;
      deallocate (data v) (numCapacity v);;
      set_data this newData;;
      set_numCapacity this (numElements v)
    else
      deallocate (data v) (numCapacity v);;
      set_data this nullptr;;
      set_numCapacity this 0
  else ret ().

(** *** Assign *)

(** [vector& operator = (const vector& rhs)] *)
Definition assign_copy (this rhs : loc) : M T A unit :=
  if decide (this ≠ rhs) then
    v ← get this;
    r ← get rhs;
    (if decide (numCapacity v < numElements r) then
       for_size_t 0 (numElements v) (λ i, destroy (data v +ₚ i));;
       (if decide (data v ≠ nullptr)
        then deallocate (data v) (numCapacity v) else ret ());;
       set_numCapacity this (numElements r);;
       dataNew ← allocate (alloc v) (numElements r);
       set_data this dataNew;;
       for_size_t 0 (numElements r)
         (λ i, x ← load (data r +ₚ i); construct (dataNew +ₚ i) x)
     else
       for_size_t 0 (Z.min (numElements r) (numElements v))
         (λ i, x ← load (data r +ₚ i); store (data v +ₚ i) x);;
       if decide (numElements r < numElements v) then
         for_size_t (numElements r) (numElements v)
           (λ i, destroy (data v +ₚ i))
       else if decide (numElements r > numElements v) then
         for_size_t (numElements v) (numElements r)
           (λ i, x ← load (data r +ₚ i); construct (data v +ₚ i) x)
       else ret ());;
    set_numElements this (numElements r)
  else ret ().

(** [vector& operator = (vector&& rhs)] *)
Definition assign_move (this rhs : loc) : M T A unit :=
  clear this;;
  shrink_to_fit this;;
  swap this rhs.

End Members.
End vector.

(** ** [std::swap] on two vectors *)

Section StdSwap.
Context {T A : Type} `{!Allocator A} `{!DefaultConstructible T}.

(** Modelled from the C++ standard: [std::swap] of [<utility>] is not part
    of the sources.  For a type without a [swap] of its own found by the
    qualified call it is
    [T tmp(std::move(a)); a = std::move(b); b = std::move(tmp);]
    and [tmp], a local object at a location not in use, is destroyed when
    the call returns. *)
Definition std_swap (a b : loc) : M T A unit := λ s,
  let tmp := fresh (dom (objs s)) in
  (vector.vector_move tmp a;;
   vector.assign_move a b;;
   vector.assign_move b tmp;;
   vector.vector_destroy tmp) s.

End StdSwap.

(** ** [custom::stack<T, custom::vector<T>>] *)

Module stack.
Section Members.
Context {T A : Type} `{!Allocator A} `{!DefaultConstructible T}.

(** The only member, [Container container], lies at the address of the
    stack object itself. *)
Definition container (this : loc) : loc := this.

(** [stack() {}]: the container is default-constructed. *)
Definition stack_default (this : loc) : M T A unit :=
  vector.vector_default (container this) A_default.

(** [stack(const stack<T>& rhs) : container(rhs.container) {}] *)
Definition stack_copy (this rhs : loc) : M T A unit :=
  vector.vector_copy (container this) (container rhs).

(** [stack(stack<T>&& rhs) : container(std::move(rhs.container)) {}] *)
Definition stack_move (this rhs : loc) : M T A unit :=
  vector.vector_move (container this) (container rhs).

(** [stack(const Container& rhs) : container(rhs) {}] *)
Definition stack_of_container (this rhs : loc) : M T A unit :=
  vector.vector_copy (container this) rhs.

(** [stack(Container&& rhs) : container(std::move(rhs)) {}] *)
Definition stack_of_container_move (this rhs : loc) : M T A unit :=
  vector.vector_move (container this) rhs.

(** [~stack() {}]: the member [container] is destroyed. *)
Definition stack_destroy (this : loc) : M T A unit :=
  vector.vector_destroy (container this).

(** [stack<T>& operator = (const stack<T>& rhs)] *)
Definition assign_copy (this rhs : loc) : M T A unit :=
  vector.assign_copy (container this) (container rhs).


(** [stack<T>& operator = (stack<T>&& rhs)] *)
Definition assign_move (this rhs : loc) : M T A unit :=
  vector.assign_move (container this) (container rhs).

(** [void swap(stack<T>& rhs)]: [std::swap(container, rhs.container)]. *)
Definition swap (this rhs : loc) : M T A unit :=
  std_swap (container this) (container rhs).

(** [T& top()] *)
Definition top (this : loc) : M T A ptr :=
  vector.back (container this).

(** [void push(const T& t)] *)
Definition push (this : loc) (t : ref T) : M T A unit :=
  vector.push_back (container this) t.

(** [void push(T&& t)]: [container.push_back(std::move(t))]. *)
Definition push_move (this : loc) (t : ref T) : M T A unit :=
  vector.push_back_move (container this) t.

(** [void pop()] *)
Definition pop (this : loc) : M T A unit :=
  vector.pop_back (container this).

(** [size_t size() const] *)
Definition size (this : loc) : M T A Z :=
  vector.size (container this).

(** [bool empty() const] *)
Definition empty (this : loc) : M T A bool :=
  vector.empty (container this).

End Members.
End stack.

(** ** Concrete instances used by the examples *)

(** A stateless strategy that answers [allocate(0)] with a null pointer. *)
#[global] Instance unit_Allocator : Allocator unit :=
  {| A_default := (); allocate_zero_is_null := λ _, true |}.

(** A strategy that carries a state (an identifier, [0] by default) and
    obtains its storage from [::operator new]: [allocate(0)] is not null. *)
#[global] Instance Z_Allocator : Allocator Z :=
  {| A_default := 0; allocate_zero_is_null := λ _, false |}.

(** [int()] is [0]. *)
#[global] Instance Z_DefaultConstructible : DefaultConstructible Z := 0.

(** ** Representation invariants *)

Section Invariants.
Context {T A : Type}.

(** [repr h v xs]: in the free store [h] the vector [v] holds exactly the
    elements [xs].  Slots [0 .. count) of its buffer hold [xs], the slots
    from [count] on hold no object, and the buffer has room for
    [numCapacity] objects.  A null buffer goes with capacity zero. *)
Definition repr (h : gmap block (region T)) (v : vector A) (xs : list T) : Prop :=
  numElements v = Z.of_nat (length xs) ∧
  numElements v ≤ numCapacity v ≤ max_size ∧
  (data v = nullptr ∧ numCapacity v = 0 ∨
   blk (data v) ≠ 0%nat ∧ off (data v) = 0 ∧
   h !! blk (data v) = Some (Region (numCapacity v) (map_seqZ 0 xs))).

(** Invariant I2 of the specification. *)
Definition null_iff_no_capacity (v : vector A) : Prop :=
  data v = nullptr ↔ numCapacity v = 0.

(** The reference [t] is bound to no slot of the buffer of [v]: to an
    object outside the free store, or to one in another region. *)
Definition outside (t : ref T) (v : vector A) : Prop :=
  match t with
  | Val _ => True
  | At p => blk p ≠ blk (data v)
  end.

(** A well-formed store: regions carry identifiers below [next_block] and
    never [0]; every vector object represents some list; two distinct
    objects never share a buffer. *)
Record wf (s : state T A) : Prop := {
  wf_next : (0 < next_block s)%nat;
  wf_fresh : ∀ b, is_Some (heap s !! b) → (0 < b < next_block s)%nat;
  wf_repr : ∀ l v, objs s !! l = Some v → ∃ xs, repr (heap s) v xs;
  wf_own : ∀ l1 l2 v1 v2,
    l1 ≠ l2 → objs s !! l1 = Some v1 → objs s !! l2 = Some v2 →
    data v1 ≠ nullptr → blk (data v1) ≠ blk (data v2);
}.

(** I2 for every object of the store. *)
Definition all_null_iff_no_capacity (s : state T A) : Prop :=
  ∀ l v, objs s !! l = Some v → null_iff_no_capacity v.

(** *** The shapes a completed member function leaves the store in *)

Definition heap_put (p : ptr) (r : region T) (h : gmap block (region T))
  : gmap block (region T) :=
  if decide (p = nullptr) then h else <[blk p := r]> h.

(** The elements become [xs'] in the buffer the vector already has. *)
Definition in_place (this : loc) (v : vector A) (xs' : list T) (s : state T A)
  : state T A :=
  State (heap_put (data v) (Region (numCapacity v) (map_seqZ 0 xs')) (heap s))
        (next_block s)
        (<[this := Vector (alloc v) (data v) (numCapacity v)
                          (Z.of_nat (length xs'))]> (objs s)).

(** The old buffer is released; the elements [xs'] live in a fresh region
    of capacity [cap']. *)
Definition relocated (this : loc) (v : vector A) (cap' : Z) (xs' : list T)
    (s : state T A) : state T A :=
  State (<[next_block s := Region cap' (map_seqZ 0 xs')]>
           (delete (blk (data v)) (heap s)))
        (S (next_block s))
        (<[this := Vector (alloc v) (Ptr (next_block s) 0) cap'
                          (Z.of_nat (length xs'))]> (objs s)).

(** The buffer is released and the vector is left in the empty state. *)
Definition released (this : loc) (v : vector A) (s : state T A) : state T A :=
  State (delete (blk (data v)) (heap s))
        (next_block s)
        (<[this := Vector (alloc v) nullptr 0 0]> (objs s)).

(** A new object with allocator state [a] holds [xs] in a fresh region of
    capacity [cap]. *)
Definition created (this : loc) (a : A) (cap : Z) (xs : list T)
    (s : state T A) : state T A :=
  State (<[next_block s := Region cap (map_seqZ 0 xs)]> (heap s))
        (S (next_block s))
        (<[this := Vector a (Ptr (next_block s) 0) cap
                          (Z.of_nat (length xs))]> (objs s)).

(** The capacity [push_back] asks for when the buffer is full. *)
Definition grown (c : Z) : Z := if decide (c = 0) then 1 else c * 2.

(** The buffer is released and the object itself is gone. *)
Definition destroyed (this : loc) (v : vector A) (s : state T A) : state T A :=
  State (delete (blk (data v)) (heap s)) (next_block s) (delete this (objs s)).

(** A new object with allocator state [a] and no buffer. *)
Definition created_empty (this : loc) (a : A) (s : state T A) : state T A :=
  State (heap s) (next_block s) (<[this := Vector a nullptr 0 0]> (objs s)).

(** The objects [this] and [rhs] have exchanged their four members. *)
Definition swapped (this rhs : loc) (v r : vector A) (s : state T A) : state T A :=
  State (heap s) (next_block s) (<[rhs := v]> (<[this := r]> (objs s))).

(** The new object [this] has taken over the buffer of [rhs], which is
    left in the empty state. *)
Definition handed_over `{!Allocator A} (this rhs : loc) (r : vector A)
    (s : state T A) : state T A :=
  State (heap s) (next_block s)
        (<[rhs := Vector (alloc r) nullptr 0 0]>
           (<[this := Vector A_default (data r) (numCapacity r) (numElements r)]>
              (objs s))).

(** Move assignment has completed: the buffer [this] had is released when
    it had room for anything, [this] holds what [rhs] held, and [rhs] is
    left with the allocator state of [this] and no elements. *)
Definition move_assigned (this rhs : loc) (v r : vector A) (s : state T A)
  : state T A :=
  State (if decide (0 < numCapacity v) then delete (blk (data v)) (heap s)
         else heap s)
        (next_block s)
        (<[rhs := Vector (alloc v)
                    (if decide (0 < numCapacity v) then nullptr else data v)
                    0 0]>
           (<[this := r]> (objs s))).

(** The store after the specification's move assignment. *)
Definition move_assigned_spec (this rhs : loc) (v r : vector A) (s : state T A)
  : state T A :=
  State (delete (blk (data v)) (heap s)) (next_block s)
        (<[rhs := Vector (if decide (this = rhs) then alloc v else alloc r)
                    nullptr 0 0]>
           (<[this := Vector (alloc v) (data r) (numCapacity r) (numElements r)]>
              (objs s))).

(** One region of the free store is replaced. *)
Definition with_region (b : block) (r : region T) (s : state T A) : state T A :=
  State (<[b := r]> (heap s)) (next_block s) (objs s).

End Invariants.

(** ** Sequences of calls and what they cost *)

Section Sequences.
Context {T A : Type} `{!Allocator A} `{!DefaultConstructible T}.

(** [for (t : ts) v.push_back(t);], the list [ts] being outside the free
    store. *)
Fixpoint push_all (this : loc) (ts : list T) : M T A unit :=
  match ts with
  | [] => ret ()
  | t :: ts' => vector.push_back this (Val t);; push_all this ts'
  end.

(** [for (t : ts) v.push_back(t);] for a sequence of objects anywhere. *)
Fixpoint push_each (this : loc) (ts : list (ref T)) : M T A unit :=
  match ts with
  | [] => ret ()
  | t :: ts' => vector.push_back this t;; push_each this ts'
  end.

(** The number of regions the allocation strategy handed out between the
    store [s] and the later store [s']. *)
Definition regions_allocated (s s' : state T A) : Z :=
  Z.of_nat (next_block s') - Z.of_nat (next_block s).

(** *** Move assignment, as the specification words it *)

(** "Release own resources": the live elements are destroyed in index
    order, the raw region is freed, and the vector is left in the empty
    state. *)
Definition release_resources (this : loc) : M T A unit :=
  v ← get this;
  for_size_t 0 (numElements v) (λ i, destroy (data v +ₚ i));;
  deallocate (data v) (numCapacity v);;
  put this (Vector (alloc v) nullptr 0 0).

(** "Release own resources, then adopt the source's resources and leave
    the source empty": the receiver takes over the buffer, the count and
    the capacity of the source. *)
Definition assign_move_spec (this rhs : loc) : M T A unit :=
  release_resources this;;
  r ← get rhs;
  v ← get this;
  put this (Vector (alloc v) (data r) (numCapacity r) (numElements r));;
  r' ← get rhs;
  put rhs (Vector (alloc r') nullptr 0 0).

(** What the public interface shows of the object at [l]: [size()],
    [capacity()], and what the slots [0 .. size()) hold. *)
Definition observe (s : state T A) (l : loc)
  : option (Z * Z * list (option T)) :=
  objs s !! l ≫= λ v,
    Some (numElements v, numCapacity v,
          (λ i, heap s !! blk (data v) ≫= λ reg, cells reg !! (off (data v) + i))
            <$> seqZ 0 (numElements v)).

(** *** The public operations *)

Inductive op : Type :=
  | Vector_default (this : loc) (a : A)
  | Vector_sized (this : loc) (num : Z) (a : A)
  | Vector_fill (this : loc) (num : Z) (t : T) (a : A)
  | Vector_init_list (this : loc) (l : list T) (a : A)
  | Vector_copy (this rhs : loc)
  | Vector_move (this rhs : loc)
  | Swap (this rhs : loc)
  | Assign_copy (this rhs : loc)
  | Assign_move (this rhs : loc)
  | Push_back (this : loc) (t : ref T)
  | Push_back_move (this : loc) (t : ref T)
  | Reserve (this : loc) (newCapacity : Z)
  | Resize (this : loc) (newElements : Z)
  | Resize_fill (this : loc) (newElements : Z) (t : ref T)
  | Clear (this : loc)
  | Pop_back (this : loc)
  | Shrink_to_fit (this : loc)
  | Size (this : loc)
  | Capacity (this : loc)
  | Empty (this : loc)
  | Begin (this : loc)
  | End_ (this : loc)
  | Subscript (this : loc) (index : Z)
  | Front (this : loc)
  | Back (this : loc).

(** A call of a public operation; what an observer returns is dropped. *)
Definition run (o : op) : M T A unit :=
  match o with
  | Vector_default this a => vector.vector_default this a
  | Vector_sized this num a => vector.vector_sized this num a
  | Vector_fill this num t a => vector.vector_fill this num t a
  | Vector_init_list this l a => vector.vector_init_list this l a
  | Vector_copy this rhs => vector.vector_copy this rhs
  | Vector_move this rhs => vector.vector_move this rhs
  | Swap this rhs => vector.swap this rhs
  | Assign_copy this rhs => vector.assign_copy this rhs
  | Assign_move this rhs => vector.assign_move this rhs
  | Push_back this t => vector.push_back this t
  | Push_back_move this t => vector.push_back_move this t
  | Reserve this n => vector.reserve this n
  | Resize this n => vector.resize this n
  | Resize_fill this n t => vector.resize_fill this n t
  | Clear this => vector.clear this
  | Pop_back this => vector.pop_back this
  | Shrink_to_fit this => vector.shrink_to_fit this
  | Size this => vector.size this;; ret ()
  | Capacity this => vector.capacity this;; ret ()
  | Empty this => vector.empty this;; ret ()
  | Begin this => vector.begin this;; ret ()
  | End_ this => vector.end_ this;; ret ()
  | Subscript this i => vector.subscript this i;; ret ()
  | Front this => vector.front this;; ret ()
  | Back this => vector.back this;; ret ()
  end.

(** The [size_t] arguments of a call are not negative, and a constructor
    is given storage that holds no object yet. *)
Definition well_called (o : op) (s : state T A) : Prop :=
  match o with
  | Vector_default this _ => objs s !! this = None
  | Vector_sized this num _ | Vector_fill this num _ _ =>
      objs s !! this = None ∧ 0 ≤ num
  | Vector_init_list this _ _ | Vector_copy this _ | Vector_move this _ =>
      objs s !! this = None
  | Reserve _ n | Resize _ n | Resize_fill _ n _ => 0 ≤ n
  | _ => True
  end.

(** The constructors that ask the allocation strategy for zero objects. *)
Definition allocates_nothing (o : op) : Prop :=
  match o with
  | Vector_sized _ num a | Vector_fill _ num _ a =>
      num = 0 ∧ allocate_zero_is_null a = false
  | Vector_init_list _ l a => l = [] ∧ allocate_zero_is_null a = false
  | _ => False
  end.

(** The operations that pass a buffer from one object to another. *)
Definition exchanges_buffers (o : op) : Prop :=
  match o with
  | Swap _ _ | Assign_move _ _ | Vector_move _ _ => True
  | _ => False
  end.

(** [shrink_to_fit] on a vector that has capacity but no elements. *)
Definition frees_empty_buffer (o : op) (s : state T A) : Prop :=
  match o with
  | Shrink_to_fit this =>
      ∃ v, objs s !! this = Some v ∧ numElements v = 0 ∧ 0 < numCapacity v
  | _ => False
  end.

(** The operations that may leave a vector with less capacity than it
    had: [shrink_to_fit], and those that pass buffers between objects. *)
Definition gives_up_capacity (o : op) : Prop :=
  match o with
  | Shrink_to_fit _ | Swap _ _ | Assign_move _ _ | Vector_move _ _ => True
  | _ => False
  end.

(** Every object of [s] is still there in [s'], with at least the
    capacity and with the allocation strategy it had. *)
Definition capacity_kept (s s' : state T A) : Prop :=
  ∀ l v, objs s !! l = Some v →
    ∃ v', objs s' !! l = Some v' ∧ numCapacity v ≤ numCapacity v' ∧
          alloc v' = alloc v.

(** What a completed call has done to the store. *)
Inductive effect (s : state T A) : op → state T A → Prop :=
  | eff_none o : effect s o s
  | eff_in_place o this v xs xs' :
      objs s !! this = Some v → repr (heap s) v xs →
      Z.of_nat (length xs') ≤ numCapacity v →
      effect s o (in_place this v xs' s)
  | eff_relocated o this v xs cap' xs' :
      objs s !! this = Some v → repr (heap s) v xs →
      0 < cap' → Z.of_nat (length xs') ≤ cap' ≤ max_size →
      effect s o (relocated this v cap' xs' s)
  | eff_released this v :
      objs s !! this = Some v → repr (heap s) v [] → 0 < numCapacity v →
      effect s (Shrink_to_fit this) (released this v s)
  | eff_created o this a cap xs :
      objs s !! this = None →
      Z.of_nat (length xs) ≤ cap ≤ max_size →
      (cap = 0 → allocates_nothing o) →
      effect s o (created this a cap xs s)
  | eff_created_empty o this a :
      objs s !! this = None → effect s o (created_empty this a s)
  | eff_handed_over this rhs r :
      objs s !! this = None → objs s !! rhs = Some r →
      effect s (Vector_move this rhs) (handed_over this rhs r s)
  | eff_swapped this rhs v r :
      objs s !! this = Some v → objs s !! rhs = Some r →
      effect s (Swap this rhs) (swapped this rhs v r s)
  | eff_move_assigned this rhs v r :
      objs s !! this = Some v → objs s !! rhs = Some r →
      effect s (Assign_move this rhs) (move_assigned this rhs v r s).

End Sequences.

(** ** Example programs and stores *)

(** The scenario of section 8 on a stack constructed at [this]: three
    pushes, then [size()] and [top()], a pop, [size()] and [top()] again,
    two more pops and [empty()].  The pushed values are literals, as in
    [push(1), push(2), push(3)]: temporaries outside the free store, for
    which overload resolution selects [push(T&&)]. *)
Definition stack_scenario {T A : Type} `{!Allocator A} `{!DefaultConstructible T}
    (this : loc) (x1 x2 x3 : T) : M T A (Z * T * Z * T * bool) :=
  stack.stack_default this;;
  stack.push_move this (Val x1);;
  stack.push_move this (Val x2);;
  stack.push_move this (Val x3);;
  n ← stack.size this; p ← stack.top this; x ← load p;
  stack.pop this;;
  n' ← stack.size this; p' ← stack.top this; x' ← load p';
  stack.pop this;; stack.pop this;;
  e ← stack.empty this;
  ret (n, x, n', x', e).

(** The same scenario with the three values pushed from named variables,
    for which overload resolution selects [push(const T&)]. *)
Definition stack_scenario_lvalues {T A : Type} `{!Allocator A}
    `{!DefaultConstructible T}
    (this : loc) (x1 x2 x3 : T) : M T A (Z * T * Z * T * bool) :=
  stack.stack_default this;;
  stack.push this (Val x1);;
  stack.push this (Val x2);;
  stack.push this (Val x3);;
  n ← stack.size this; p ← stack.top this; x ← load p;
  stack.pop this;;
  n' ← stack.size this; p' ← stack.top this; x' ← load p';
  stack.pop this;; stack.pop this;;
  e ← stack.empty this;
  ret (n, x, n', x', e).

(** One default-constructed vector whose allocator is in state [7]. *)
Definition one_empty_vector : state Z Z := created_empty 0%nat 7 initial_state.

(** One vector holding [1; 2; 3] in a buffer for four. *)
Definition one_vector : state Z Z := created 0%nat 7 4 [1; 2; 3] initial_state.

(** One vector holding [1; 2; 3] in a buffer for three: it is full. *)
Definition full_vector : state Z Z := created 0%nat 7 3 [1; 2; 3] initial_state.

(** [one_vector] after its last element has been destroyed by hand, as by
    [v[2].~T()]: the slot holds no object while [size()] still counts it. *)
Definition vector_with_dead_slot : state Z Z :=
  with_region 1%nat (Region 4 (map_seqZ 0 [1; 2])) one_vector.

(** A second vector, holding [8; 9], beside it. *)
Definition two_vectors : state Z Z := created 1%nat 0 2 [8; 9] one_vector.

(** A default-constructed vector beside [one_vector]. *)
Definition empty_beside_one_vector : state Z Z :=
  created_empty 1%nat 0 one_vector.

(** One vector of [2 ^ 31] elements, one more than [INT_MAX]. *)
Definition huge_vector : state Z Z :=
  created 0%nat 0 (2 ^ 31) (replicate (Z.to_nat (2 ^ 31)) 0) initial_state.

(** One vector of [2 ^ 31 + 1] elements, two more than [INT_MAX]. *)
Definition overlong_vector : state Z Z :=
  created 0%nat 0 (2 ^ 31 + 1) (replicate (Z.to_nat (2 ^ 31 + 1)) 0)
    initial_state.

(** The capacity after [n] calls of [push_back] on a vector that started
    without a buffer, and the number of reallocations they needed. *)
Definition capacity_after (n : Z) : Z :=
  if decide (n = 0) then 0 else 2 ^ Z.log2_up n.

Definition reallocations_after (n : Z) : Z :=
  if decide (n = 0) then 0 else Z.log2_up n + 1.

(** * Proofs *)

(** ** Running the primitives *)

Section Exec.
Context {T A : Type} `{!Allocator A}.
Implicit Types (s : state T A) (h : gmap block (region T)) (m : gmap Z T).

Lemma bind_Ok {X Y : Type} (c : M T A X) (k : X → M T A Y) s x s' :
  c s = Ok x s' → bind c k s = k x s'.
Proof. unfold bind. by intros ->. Qed.

Lemma bind_Throw {X Y : Type} (c : M T A X) (k : X → M T A Y) s s' :
  c s = Throw s' → bind c k s = Throw s'.
Proof. unfold bind. by intros ->. Qed.

Lemma bind_UB {X Y : Type} (c : M T A X) (k : X → M T A Y) s :
  c s = UB → bind c k s = UB.
Proof. unfold bind. by intros ->. Qed.

Lemma get_Ok this v s : objs s !! this = Some v → get this s = Ok v s.
Proof. unfold get. by intros ->. Qed.

Lemma ptr_add_origin b j : Ptr b 0 +ₚ j = Ptr b j.
Proof. unfold ptr_add. simpl. by rewrite Z.add_0_l. Qed.

Lemma with_region_heap b r s : heap (with_region b r s) !! b = Some r.
Proof. apply lookup_insert_eq. Qed.

Lemma with_region_heap_ne b b' r s :
  b ≠ b' → heap (with_region b r s) !! b' = heap s !! b'.
Proof. intros. by apply lookup_insert_ne. Qed.

Lemma with_region_twice b r1 r2 s :
  with_region b r2 (with_region b r1 s) = with_region b r2 s.
Proof. unfold with_region. simpl. by rewrite insert_insert_eq. Qed.

Lemma with_region_comm b1 b2 r1 r2 s :
  b1 ≠ b2 →
  with_region b1 r1 (with_region b2 r2 s) = with_region b2 r2 (with_region b1 r1 s).
Proof. intros. unfold with_region. simpl. by rewrite insert_insert_ne. Qed.

Lemma with_region_id b r s : heap s !! b = Some r → with_region b r s = s.
Proof. intros. destruct s. unfold with_region. simpl in *. by rewrite insert_id. Qed.

Lemma construct_Ok b ext m i x s :
  heap s !! b = Some (Region ext m) → 0 ≤ i < ext →
  construct (Ptr b i) x s = Ok () (with_region b (Region ext (<[i := x]> m)) s).
Proof.
  intros Hb Hi. unfold construct. simpl. rewrite Hb. simpl.
  by rewrite decide_True.
Qed.

Lemma destroy_Ok b ext m i y s :
  heap s !! b = Some (Region ext m) → m !! i = Some y →
  destroy (Ptr b i) s = Ok () (with_region b (Region ext (delete i m)) s).
Proof. intros Hb Hi. unfold destroy. simpl. rewrite Hb. simpl. by rewrite Hi. Qed.

Lemma load_Ok b ext m i y s :
  heap s !! b = Some (Region ext m) → m !! i = Some y →
  load (Ptr b i) s = Ok y s.
Proof. intros Hb Hi. unfold load. simpl. rewrite Hb. simpl. by rewrite Hi. Qed.

Lemma store_Ok b ext m i x y s :
  heap s !! b = Some (Region ext m) → m !! i = Some y →
  store (Ptr b i) x s = Ok () (with_region b (Region ext (<[i := x]> m)) s).
Proof. intros Hb Hi. unfold store. simpl. rewrite Hb. simpl. by rewrite Hi. Qed.

(** *** Loops over a buffer *)

(** Destroying the objects [ys] that live from slot [i] on. *)
Lemma loop_destroy b ext ys : ∀ m i s,
  heap s !! b = Some (Region ext (m ∪ map_seqZ i ys)) →
  (∀ j, i ≤ j → m !! j = None) →
  loop (length ys) i (λ j, destroy (Ptr b 0 +ₚ j)) s
  = Ok () (with_region b (Region ext m) s).
Proof.
  induction ys as [|y ys IH]; intros m i s Hb Hm; simpl in *.
  - rewrite (right_id_L ∅ (∪)) in Hb.
    unfold ret. by rewrite with_region_id.
  - erewrite bind_Ok; last first.
    { rewrite ptr_add_origin. eapply (destroy_Ok _ _ _ i y); [exact Hb|].
      rewrite lookup_union_r by (apply Hm; lia). apply lookup_insert_eq. }
    erewrite IH; [by rewrite with_region_twice| |intros; apply Hm; lia].
    rewrite with_region_heap. do 2 f_equal.
    rewrite delete_union, delete_insert_eq.
    rewrite (delete_id m) by (apply Hm; lia).
    rewrite delete_id; [done|]. apply map_seqZ_cons_disjoint.
Qed.

(** Constructing the values [ys] behind the elements [xs]. *)
Lemma loop_construct b ext (f : Z → T) ys : ∀ xs s,
  heap s !! b = Some (Region ext (map_seqZ 0 xs)) →
  Z.of_nat (length xs + length ys) ≤ ext →
  (∀ k y, ys !! k = Some y → f (Z.of_nat (length xs + k)) = y) →
  loop (length ys) (Z.of_nat (length xs)) (λ j, construct (Ptr b 0 +ₚ j) (f j)) s
  = Ok () (with_region b (Region ext (map_seqZ 0 (xs ++ ys))) s).
Proof.
  induction ys as [|y ys IH]; intros xs s Hb Hext Hf; simpl.
  - rewrite (right_id_L [] (++)). unfold ret. by rewrite with_region_id.
  - erewrite bind_Ok; last first.
    { rewrite ptr_add_origin. eapply construct_Ok; [exact Hb|]. simpl in *. lia. }
    assert (f (Z.of_nat (length xs)) = y) as ->.
    { rewrite <- (Hf 0%nat y) by done. f_equal. lia. }
    replace (Z.of_nat (length xs) + 1) with (Z.of_nat (length (xs ++ [y])))
      by (rewrite length_app; simpl; lia).
    erewrite IH.
    + rewrite with_region_twice. by rewrite <- (assoc_L (++)).
    + rewrite with_region_heap. do 2 f_equal.
      by rewrite map_seqZ_snoc.
    + rewrite length_app. simpl in *. lia.
    + intros k y' Hk. rewrite length_app. simpl.
      rewrite <- (Hf (S k) y') by done. f_equal. lia.
Qed.

(** *** Reading a reference parameter *)

Lemma read_state (t : ref T) x s s' : read t s = Ok x s' → s' = s.
Proof.
  destruct t as [y|p]; simpl.
  - unfold ret. by intros [= _ <-].
  - unfold load. destruct (heap s !! blk p) as [r|]; [|done].
    destruct (cells r !! off p); [|done]. by intros [= _ <-].
Qed.

Lemma read_cases (t : ref T) s : read t s = UB ∨ ∃ x, read t s = Ok x s.
Proof.
  destruct t as [y|p]; simpl.
  - right. by exists y.
  - unfold load. destruct (heap s !! blk p) as [r|]; [|by left].
    destruct (cells r !! off p) as [x|]; [right; by exists x|by left].
Qed.

Lemma read_At_Ok p x s :
  read (At p) s = Ok x s ↔
  ∃ r, heap s !! blk p = Some r ∧ cells r !! off p = Some x.
Proof.
  simpl. unfold load. split.
  - destruct (heap s !! blk p) as [r|]; [|done].
    destruct (cells r !! off p) as [y|] eqn:Hy; [|done].
    intros [= ->]. by exists r.
  - intros (r & -> & ->). done.
Qed.

(** Two stores that agree on the region of [p] give the same reading. *)
Lemma read_frame (t : ref T) x s s' :
  (∀ p, t = At p → heap s' !! blk p = heap s !! blk p) →
  read t s = Ok x s → read t s' = Ok x s'.
Proof.
  destruct t as [y|p]; simpl; intros Hh.
  - unfold ret. by intros [= ->].
  - unfold load. rewrite (Hh p) by done.
    destruct (heap s !! blk p) as [r|]; [|done].
    destruct (cells r !! off p); [|done]. by intros [= ->].
Qed.

(** The object [t] is bound to outlives the construction of another one in
    a slot that was empty. *)
Lemma read_construct (t : ref T) x b ext m i y s :
  heap s !! b = Some (Region ext m) → m !! i = None →
  read t s = Ok x s →
  read t (with_region b (Region ext (<[i := y]> m)) s)
  = Ok x (with_region b (Region ext (<[i := y]> m)) s).
Proof.
  intros Hb Hi. destruct t as [z|p]; [simpl; unfold ret; by intros [= ->]|].
  rewrite !read_At_Ok. intros (r & Hr & Hx).
  destruct (decide (blk p = b)) as [Heq|Hne].
  - rewrite Heq in *. rewrite Hb in Hr. injection Hr as <-. simpl in Hx.
    eexists. split; [apply with_region_heap|]. simpl.
    rewrite lookup_insert_ne; [done|]. intros Hip. rewrite Hip in Hi.
    by rewrite Hi in Hx.
  - exists r. split; [|done]. by rewrite with_region_heap_ne.
Qed.

(** Constructing [k] copies of the object [t] is bound to behind the
    elements [xs]; [t] is read anew in every round. *)
Lemma loop_construct_read b ext (t : ref T) x : ∀ k xs s,
  heap s !! b = Some (Region ext (map_seqZ 0 xs)) →
  Z.of_nat (length xs + k) ≤ ext →
  read t s = Ok x s →
  loop k (Z.of_nat (length xs))
       (λ j, y ← read t; construct (Ptr b 0 +ₚ j) y) s
  = Ok () (with_region b (Region ext (map_seqZ 0 (xs ++ replicate k x))) s).
Proof.
  induction k as [|k IH]; intros xs s Hb Hext Ht; simpl.
  - rewrite (right_id_L [] (++)). unfold ret. by rewrite with_region_id.
  - erewrite bind_Ok; last first.
    { erewrite bind_Ok by exact Ht.
      rewrite ptr_add_origin. eapply construct_Ok; [exact Hb|]. lia. }
    replace (Z.of_nat (length xs) + 1) with (Z.of_nat (length (xs ++ [x])))
      by (rewrite length_app; simpl; lia).
    assert (map_seqZ (M:=gmap Z T) 0 xs !! Z.of_nat (length xs) = None) as Hnone.
    { apply lookup_map_seqZ_None. lia. }
    erewrite IH.
    + rewrite with_region_twice. by rewrite <- (assoc_L (++)).
    + rewrite with_region_heap. do 2 f_equal.
      by rewrite map_seqZ_snoc.
    + rewrite length_app. simpl. lia.
    + by eapply read_construct.
Qed.

Lemma loop_read_UB (t : ref T) (f : Z → T → M T A unit) k i s :
  read t s = UB → loop (S k) i (λ j, y ← read t; f j y) s = UB.
Proof. intros Ht. simpl. apply bind_UB. by apply bind_UB. Qed.

(** Copy-constructing the values [ys], read from the buffer [bs], behind
    the elements [xs] of the buffer [bd]. *)
Lemma loop_copy bs bd exts extd src ys : ∀ xs s,
  bs ≠ bd →
  heap s !! bs = Some (Region exts (map_seqZ 0 src)) →
  heap s !! bd = Some (Region extd (map_seqZ 0 xs)) →
  Z.of_nat (length xs + length ys) ≤ extd →
  (∀ k y, ys !! k = Some y → src !! (length xs + k)%nat = Some y) →
  loop (length ys) (Z.of_nat (length xs))
       (λ j, x ← load (Ptr bs 0 +ₚ j); construct (Ptr bd 0 +ₚ j) x) s
  = Ok () (with_region bd (Region extd (map_seqZ 0 (xs ++ ys))) s).
Proof.
  induction ys as [|y ys IH]; intros xs s Hne Hs Hd Hext Hsrc; simpl.
  - rewrite (right_id_L [] (++)). unfold ret. by rewrite with_region_id.
  - erewrite bind_Ok; last first.
    { erewrite bind_Ok; last first.
      { rewrite ptr_add_origin. eapply (load_Ok _ _ _ _ y); [exact Hs|].
        rewrite lookup_map_seqZ_0 by lia. rewrite Nat2Z.id.
        rewrite <- (Hsrc 0%nat y) by done. f_equal. lia. }
      rewrite ptr_add_origin. eapply construct_Ok; [exact Hd|]. simpl in *. lia. }
    replace (Z.of_nat (length xs) + 1) with (Z.of_nat (length (xs ++ [y])))
      by (rewrite length_app; simpl; lia).
    erewrite IH.
    + rewrite with_region_twice. by rewrite <- (assoc_L (++)).
    + done.
    + by rewrite with_region_heap_ne.
    + rewrite with_region_heap. do 2 f_equal. by rewrite map_seqZ_snoc.
    + rewrite length_app. simpl in *. lia.
    + intros k y' Hk. rewrite length_app. simpl.
      rewrite <- (Hsrc (S k) y') by done. f_equal. lia.
Qed.

(** Moving the objects [ys] out of the buffer [bs], behind the elements
    [xs] of the buffer [bd]; each source slot is destroyed in turn. *)
Lemma loop_move bs bd exts extd ys : ∀ xs s,
  bs ≠ bd →
  heap s !! bs = Some (Region exts (map_seqZ (Z.of_nat (length xs)) ys)) →
  heap s !! bd = Some (Region extd (map_seqZ 0 xs)) →
  Z.of_nat (length xs + length ys) ≤ extd →
  loop (length ys) (Z.of_nat (length xs))
       (λ j, x ← load (Ptr bs 0 +ₚ j);
             construct (Ptr bd 0 +ₚ j) x;;
             destroy (Ptr bs 0 +ₚ j)) s
  = Ok () (with_region bs (Region exts ∅)
             (with_region bd (Region extd (map_seqZ 0 (xs ++ ys))) s)).
Proof.
  induction ys as [|y ys IH]; intros xs s Hne Hs Hd Hext; simpl in *.
  - rewrite (right_id_L [] (++)). unfold ret.
    rewrite (with_region_id bd) by done. by rewrite with_region_id.
  - erewrite bind_Ok; last first.
    { erewrite bind_Ok; last first.
      { rewrite ptr_add_origin. eapply (load_Ok _ _ _ _ y); [exact Hs|].
        apply lookup_insert_eq. }
      erewrite bind_Ok; last first.
      { rewrite ptr_add_origin. eapply construct_Ok; [exact Hd|]. simpl in *. lia. }
      rewrite ptr_add_origin. eapply (destroy_Ok _ _ _ _ y).
      - by rewrite with_region_heap_ne.
      - apply lookup_insert_eq. }
    replace (Z.of_nat (length xs) + 1) with (Z.of_nat (length (xs ++ [y])))
      by (rewrite length_app; simpl; lia).
    erewrite IH.
    + rewrite (with_region_comm bd bs) by done.
      rewrite !with_region_twice. by rewrite <- (assoc_L (++)).
    + done.
    + rewrite with_region_heap. do 2 f_equal.
      rewrite delete_insert_eq. rewrite delete_id.
      * f_equal. rewrite length_app. simpl. lia.
      * apply map_seqZ_cons_disjoint.
    + rewrite with_region_heap_ne by done. rewrite with_region_heap.
      do 2 f_equal. by rewrite map_seqZ_snoc.
    + rewrite length_app. simpl in *. lia.
Qed.

(** Assigning the values [ys], read from the buffer [bs], over the live
    elements of the buffer [bd] that follow [xs]. *)
Lemma loop_assign bs bd exts extd src ys : ∀ xs zs s,
  bs ≠ bd →
  heap s !! bs = Some (Region exts (map_seqZ 0 src)) →
  heap s !! bd = Some (Region extd (map_seqZ 0 (xs ++ zs))) →
  (length ys ≤ length zs)%nat →
  (∀ k y, ys !! k = Some y → src !! (length xs + k)%nat = Some y) →
  loop (length ys) (Z.of_nat (length xs))
       (λ j, x ← load (Ptr bs 0 +ₚ j); store (Ptr bd 0 +ₚ j) x) s
  = Ok () (with_region bd
             (Region extd (map_seqZ 0 (xs ++ ys ++ drop (length ys) zs))) s).
Proof.
  induction ys as [|y ys IH]; intros xs zs s Hne Hs Hd Hlen Hsrc; simpl.
  - rewrite drop_0. unfold ret. by rewrite with_region_id.
  - destruct zs as [|z zs]; [simpl in Hlen; lia|].
    erewrite bind_Ok; last first.
    { erewrite bind_Ok; last first.
      { rewrite ptr_add_origin. eapply (load_Ok _ _ _ _ y); [exact Hs|].
        rewrite lookup_map_seqZ_0 by lia. rewrite Nat2Z.id.
        rewrite <- (Hsrc 0%nat y) by done. f_equal. lia. }
      rewrite ptr_add_origin. eapply (store_Ok _ _ _ _ _ z); [exact Hd|].
      rewrite lookup_map_seqZ_0 by lia. rewrite Nat2Z.id.
      by rewrite list_lookup_middle. }
    replace (Z.of_nat (length xs) + 1) with (Z.of_nat (length (xs ++ [y])))
      by (rewrite length_app; simpl; lia).
    erewrite (IH (xs ++ [y]) zs).
    + rewrite with_region_twice. simpl. by rewrite <- (assoc_L (++)).
    + done.
    + by rewrite with_region_heap_ne.
    + rewrite with_region_heap. do 2 f_equal. simpl.
      rewrite insert_map_seqZ_0 by (rewrite length_app; simpl; lia).
      f_equal. rewrite Nat2Z.id.
      rewrite insert_app_r_alt by lia. rewrite Nat.sub_diag. simpl.
      by rewrite <- (assoc_L (++)).
    + simpl in Hlen. lia.
    + intros k y' Hk. rewrite length_app. simpl.
      rewrite <- (Hsrc (S k) y') by done. f_equal. lia.
Qed.

Lemma for_size_t_loop from to (n : nat) body s :
  to - from = Z.of_nat n →
  for_size_t from to body s = loop n from body s.
Proof. intros Hn. unfold for_size_t. by rewrite Hn, Nat2Z.id. Qed.

Lemma for_size_t_nil from to body s :
  to ≤ from → for_size_t from to body s = Ok () s.
Proof.
  intros. unfold for_size_t. by replace (Z.to_nat (to - from)) with 0%nat by lia.
Qed.

(** An [int] counter that stays within range behaves as a [size_t] one. *)
Lemma for_int_loop to (n : nat) body s :
  to = Z.of_nat n → to ≤ INT_MAX →
  for_int to body s = (loop n 0 body;; ret ()) s.
Proof.
  intros -> Hle. unfold for_int.
  rewrite Z.min_l by lia. rewrite Nat2Z.id.
  by rewrite decide_False by lia.
Qed.

(** A loop never leaves by an exception unless its body does. *)
Lemma loop_no_Throw body :
  (∀ i s s', body i s ≠ Throw s') →
  ∀ n i s s', loop n i body s ≠ Throw s'.
Proof.
  intros Hbody. induction n as [|n IH]; intros i s s'; simpl; [done|].
  unfold bind. destruct (body i s) eqn:Hb; [apply IH| |done].
  exfalso. by eapply Hbody.
Qed.

(** Past [INT_MAX] rounds the counter overflows: the loop cannot complete. *)
Lemma for_int_overflow to body s :
  INT_MAX < to →
  (∀ i s s', body i s ≠ Throw s') →
  for_int to body s = UB.
Proof.
  intros Hlt Hbody. unfold for_int, bind.
  destruct (loop _ 0 body s) eqn:Hl; [|by apply loop_no_Throw in Hl|done].
  by rewrite decide_True.
Qed.

(** The same loops as the member functions write them. *)
Lemma for_destroy q b ext m ys from to s :
  q = Ptr b 0 →
  heap s !! b = Some (Region ext (m ∪ map_seqZ from ys)) →
  (∀ j, from ≤ j → m !! j = None) →
  to - from = Z.of_nat (length ys) →
  for_size_t from to (λ j, destroy (q +ₚ j)) s
  = Ok () (with_region b (Region ext m) s).
Proof.
  intros -> Hb Hm Hlen. rewrite (for_size_t_loop _ _ (length ys)) by done.
  by apply loop_destroy.
Qed.

Lemma for_copy q q' bs bd exts extd src xs ys from to s :
  q = Ptr bs 0 → q' = Ptr bd 0 → bs ≠ bd →
  heap s !! bs = Some (Region exts (map_seqZ 0 src)) →
  heap s !! bd = Some (Region extd (map_seqZ 0 xs)) →
  from = Z.of_nat (length xs) → to - from = Z.of_nat (length ys) →
  to ≤ extd →
  (∀ k y, ys !! k = Some y → src !! (length xs + k)%nat = Some y) →
  for_size_t from to (λ j, x ← load (q +ₚ j); construct (q' +ₚ j) x) s
  = Ok () (with_region bd (Region extd (map_seqZ 0 (xs ++ ys))) s).
Proof.
  intros -> -> Hne Hs Hd -> Hlen Hext Hsrc.
  rewrite (for_size_t_loop _ _ (length ys)) by done.
  eapply loop_copy; [done..|lia|done].
Qed.

End Exec.

(** ** Members of an object *)

Section Objects.
Context {T A : Type} `{!Allocator A}.
Implicit Types (s : state T A) (v r : vector A) (xs : list T).

Lemma set_alloc_Ok this v a s :
  objs s !! this = Some v →
  set_alloc this a s
  = Ok () (State (heap s) (next_block s)
             (<[this := Vector a (data v) (numCapacity v) (numElements v)]> (objs s))).
Proof. intros Hv. unfold set_alloc. by erewrite bind_Ok by by apply get_Ok. Qed.

Lemma set_data_Ok this v q s :
  objs s !! this = Some v →
  set_data this q s
  = Ok () (State (heap s) (next_block s)
             (<[this := Vector (alloc v) q (numCapacity v) (numElements v)]> (objs s))).
Proof. intros Hv. unfold set_data. by erewrite bind_Ok by by apply get_Ok. Qed.

Lemma set_numCapacity_Ok this v n s :
  objs s !! this = Some v →
  set_numCapacity this n s
  = Ok () (State (heap s) (next_block s)
             (<[this := Vector (alloc v) (data v) n (numElements v)]> (objs s))).
Proof. intros Hv. unfold set_numCapacity. by erewrite bind_Ok by by apply get_Ok. Qed.

Lemma set_numElements_Ok this v n s :
  objs s !! this = Some v →
  set_numElements this n s
  = Ok () (State (heap s) (next_block s)
             (<[this := Vector (alloc v) (data v) (numCapacity v) n]> (objs s))).
Proof. intros Hv. unfold set_numElements. by erewrite bind_Ok by by apply get_Ok. Qed.

(** *** Facts about [repr] *)

Lemma repr_length h v xs : repr h v xs → numElements v = Z.of_nat (length xs).
Proof. by intros [? _]. Qed.

Lemma repr_bounds h v xs :
  repr h v xs → 0 ≤ numElements v ≤ numCapacity v ∧ numCapacity v ≤ max_size.
Proof. intros (? & ? & _). lia. Qed.

Lemma repr_null h v xs : repr h v xs → data v = nullptr → xs = [].
Proof.
  intros (Hn & Hc & [[_ H0]|(Hb & _)]) Hnull.
  - apply length_zero_iff_nil. lia.
  - by rewrite Hnull in Hb.
Qed.

Lemma repr_region h v xs :
  repr h v xs → data v ≠ nullptr →
  data v = Ptr (blk (data v)) 0 ∧ blk (data v) ≠ 0%nat ∧
  h !! blk (data v) = Some (Region (numCapacity v) (map_seqZ 0 xs)).
Proof.
  intros (Hn & Hc & [[? _]|(Hb & Ho & Hh)]) Hnn; [done|].
  split_and!; [|done..]. destruct (data v); simpl in *. by subst.
Qed.

Lemma repr_unique h v xs ys : repr h v xs → repr h v ys → xs = ys.
Proof.
  intros Hx Hy. destruct (decide (data v = nullptr)) as [Hnull|Hnn].
  - by rewrite (repr_null _ _ _ Hx Hnull), (repr_null _ _ _ Hy Hnull).
  - destruct (repr_region _ _ _ Hx Hnn) as (_ & _ & H1).
    destruct (repr_region _ _ _ Hy Hnn) as (_ & _ & H2).
    rewrite H1 in H2. injection H2 as H2.
    by eapply (map_seqZ_inj (M:=gmap Z)).
Qed.

(** Only the vector's own region matters to [repr]. *)
Lemma repr_frame h h' v xs :
  repr h v xs →
  (data v ≠ nullptr → h' !! blk (data v) = h !! blk (data v)) →
  repr h' v xs.
Proof.
  intros (Hn & Hc & [[? ?]|(Hb & Ho & Hh)]) Hsame.
  - split; [done|split; [done|]]. by left.
  - split; [done|split; [done|]]. right. split; [done|split; [done|]].
    rewrite Hsame; [done|]. intros Hnull. by rewrite Hnull in Hb.
Qed.

(** The element at index [i], read through [operator[]]. *)
Lemma repr_load s v xs i x :
  repr (heap s) v xs → xs !! i = Some x →
  load (data v +ₚ Z.of_nat i) s = Ok x s.
Proof.
  intros Hr Hi.
  assert (data v ≠ nullptr) as Hnn.
  { intros Hnull. by rewrite (repr_null _ _ _ Hr Hnull) in Hi. }
  destruct (repr_region _ _ _ Hr Hnn) as (-> & _ & Hh).
  rewrite ptr_add_origin. eapply load_Ok; [exact Hh|].
  rewrite lookup_map_seqZ_0 by lia. by rewrite Nat2Z.id.
Qed.

Lemma wf_next_fresh s : wf s → heap s !! next_block s = None.
Proof.
  intros Hwf. apply eq_None_not_Some. intros Hs.
  apply (wf_fresh _ Hwf) in Hs. lia.
Qed.

Lemma wf_null_fresh s : wf s → heap s !! 0%nat = None.
Proof.
  intros Hwf. apply eq_None_not_Some. intros Hs.
  apply (wf_fresh _ Hwf) in Hs. lia.
Qed.

End Objects.

(** ** What each member function does to a well-formed store *)

Section Members.
Context {T A : Type} `{!Allocator A} `{!DefaultConstructible T}.
Implicit Types (s : state T A) (v r : vector A) (xs ys : list T) (t : T).

(** *** [clear] *)

Lemma clear_Ok this v xs s :
  objs s !! this = Some v → repr (heap s) v xs →
  vector.clear this s = Ok () (in_place this v [] s).
Proof.
  intros Hv Hr. unfold vector.clear.
  erewrite bind_Ok by by apply get_Ok.
  pose proof (repr_length _ _ _ Hr) as Hn.
  destruct (decide (data v = nullptr)) as [Hnull|Hnn].
  - rewrite (repr_null _ _ _ Hr Hnull) in Hn. simpl in Hn.
    erewrite bind_Ok by (apply for_size_t_nil; lia).
    rewrite (set_numElements_Ok _ v) by done.
    unfold in_place, heap_put. by rewrite decide_True.
  - destruct (repr_region _ _ _ Hr Hnn) as (Hd & Hb0 & Hh).
    erewrite bind_Ok; last first.
    { rewrite (for_size_t_loop _ _ (length xs)) by lia. rewrite Hd.
      eapply (loop_destroy _ _ xs ∅ 0).
      - by rewrite (left_id_L ∅ (∪)).
      - intros. apply lookup_empty. }
    rewrite (set_numElements_Ok _ v) by done.
    unfold in_place, heap_put. by rewrite decide_False.
Qed.

(** *** [pop_back] *)

Lemma pop_back_empty this v s :
  objs s !! this = Some v → numElements v = 0 →
  vector.pop_back this s = Ok () s.
Proof.
  intros Hv Hn. unfold vector.pop_back.
  erewrite bind_Ok by by apply get_Ok.
  by rewrite decide_False by (intros Hne; by apply Hne).
Qed.

Lemma pop_back_Ok this v xs x s :
  objs s !! this = Some v → repr (heap s) v (xs ++ [x]) →
  vector.pop_back this s = Ok () (in_place this v xs s).
Proof.
  intros Hv Hr. unfold vector.pop_back.
  erewrite bind_Ok by by apply get_Ok.
  pose proof (repr_length _ _ _ Hr) as Hn. rewrite length_app in Hn. simpl in Hn.
  rewrite decide_True by lia.
  assert (data v ≠ nullptr) as Hnn.
  { intros Hnull. by destruct xs; pose proof (repr_null _ _ _ Hr Hnull). }
  destruct (repr_region _ _ _ Hr Hnn) as (Hd & Hb0 & Hh).
  erewrite bind_Ok; last first.
  { rewrite Hd. rewrite ptr_add_origin.
    replace (Ptr (blk (data v)) (numElements v) +ₚ -1)
      with (Ptr (blk (data v)) (Z.of_nat (length xs)))
      by (unfold ptr_add; simpl; f_equal; lia).
    eapply (destroy_Ok _ _ _ _ x); [exact Hh|].
    rewrite map_seqZ_snoc. rewrite Z.add_0_l. apply lookup_insert_eq. }
  rewrite (set_numElements_Ok _ v) by done.
  unfold in_place, heap_put, with_region. rewrite decide_False by done. simpl.
  do 3 f_equal.
  - rewrite map_seqZ_snoc, Z.add_0_l, delete_insert_eq.
    rewrite delete_id; [done|]. apply lookup_map_seqZ_None. lia.
  - do 2 f_equal. lia.
Qed.

(** *** [reserve] *)

Lemma reserve_noop this v n s :
  objs s !! this = Some v → n ≤ numCapacity v →
  vector.reserve this n s = Ok () s.
Proof.
  intros Hv Hn. unfold vector.reserve.
  erewrite bind_Ok by by apply get_Ok. by rewrite decide_True.
Qed.

Lemma reserve_Throw this v n s :
  objs s !! this = Some v → numCapacity v < n → max_size < n →
  vector.reserve this n s = Throw s.
Proof.
  intros Hv Hn Hmax. unfold vector.reserve.
  erewrite bind_Ok by by apply get_Ok. rewrite decide_False by lia.
  apply bind_Throw. unfold allocate. by rewrite decide_True.
Qed.

Lemma allocate_Ok a n s :
  0 < n ≤ max_size →
  allocate a n s
  = Ok (Ptr (next_block s) 0)
       (State (<[next_block s := Region n ∅]> (heap s)) (S (next_block s)) (objs s)).
Proof.
  intros Hn. unfold allocate. rewrite decide_False by lia.
  by rewrite decide_False by lia.
Qed.

Lemma reserve_Ok this v xs n s :
  wf s → objs s !! this = Some v → repr (heap s) v xs →
  numCapacity v < n ≤ max_size →
  vector.reserve this n s = Ok () (relocated this v n xs s).
Proof.
  intros Hwf Hv Hr Hcap. unfold vector.reserve.
  erewrite bind_Ok by by apply get_Ok. rewrite decide_False by lia.
  pose proof (repr_length _ _ _ Hr) as Hn.
  pose proof (repr_bounds _ _ _ Hr) as Hb.
  pose proof (wf_next_fresh _ Hwf) as Hfresh.
  erewrite bind_Ok by (apply allocate_Ok; lia).
  destruct (decide (data v = nullptr)) as [Hnull|Hnn].
  - rewrite (repr_null _ _ _ Hr Hnull) in *.
    assert (numElements v = 0) as Hn0 by by rewrite Hn.
    erewrite bind_Ok by (apply for_size_t_nil; lia).
    erewrite bind_Ok by (unfold deallocate; by rewrite decide_True).
    erewrite bind_Ok by by apply set_data_Ok.
    erewrite set_numCapacity_Ok by apply lookup_insert_eq.
    unfold relocated. simpl. rewrite insert_insert_eq, Hnull, Hn. simpl.
    by rewrite delete_id by by apply wf_null_fresh.
  - destruct (repr_region _ _ _ Hr Hnn) as (Hd & Hb0 & Hh).
    assert (blk (data v) ≠ next_block s) as Hne by (intros Heq; congruence).
    erewrite bind_Ok; last first.
    { rewrite (for_size_t_loop _ _ (length xs)) by lia. rewrite Hd.
      eapply (loop_move _ _ _ _ xs []); simpl.
      - done.
      - by rewrite lookup_insert_ne.
      - by rewrite lookup_insert_eq.
      - lia. }
    erewrite bind_Ok; last first.
    { unfold deallocate. rewrite decide_False by done.
      rewrite with_region_heap. simpl.
      rewrite decide_True; [done|]. split; [|done]. by rewrite Hd. }
    erewrite bind_Ok by by apply set_data_Ok.
    erewrite set_numCapacity_Ok by apply lookup_insert_eq.
    unfold relocated. simpl. rewrite insert_insert_eq, Hn. f_equal.
    rewrite delete_insert_eq. rewrite delete_insert_ne by done.
    by rewrite insert_insert_eq.
Qed.

(** *** [push_back] *)

Lemma to_size_t_small z : 0 ≤ z ≤ 2 * max_size + 1 → to_size_t z = z.
Proof.
  intros Hz. unfold to_size_t, SIZE_WIDTH. apply Z.mod_small.
  unfold max_size, PTRDIFF_MAX in Hz. lia.
Qed.

Lemma push_back_request v :
  0 ≤ numCapacity v ≤ max_size →
  (if decide (numCapacity v ≠ 0) then to_size_t (numCapacity v * 2) else 1)
  = grown (numCapacity v).
Proof.
  intros Hb. unfold grown. destruct (decide (numCapacity v = 0)).
  - by rewrite decide_False by (intros Hne; by apply Hne).
  - rewrite decide_True by done. apply to_size_t_small. lia.
Qed.

(** There is room: the object [t] is bound to is read in the store of the
    call. *)
Lemma push_back_room_ref this v xs (t : ref T) x s :
  objs s !! this = Some v → repr (heap s) v xs →
  numElements v < numCapacity v →
  read t s = Ok x s →
  vector.push_back this t s = Ok () (in_place this v (xs ++ [x]) s).
Proof.
  intros Hv Hr Hlt Ht. unfold vector.push_back.
  erewrite bind_Ok by by apply get_Ok.
  pose proof (repr_length _ _ _ Hr) as Hn.
  pose proof (repr_bounds _ _ _ Hr) as Hb.
  rewrite decide_False by lia.
  erewrite bind_Ok by done.
  erewrite bind_Ok by by apply get_Ok.
  erewrite bind_Ok by exact Ht.
  assert (data v ≠ nullptr) as Hnn.
  { intros Hnull. destruct Hr as (_ & _ & [[_ ?]|(? & _)]); [lia|].
    by rewrite Hnull in *. }
  destruct (repr_region _ _ _ Hr Hnn) as (Hd & Hb0 & Hh).
  erewrite bind_Ok; last first.
  { rewrite Hd, ptr_add_origin. eapply construct_Ok; [exact Hh|lia]. }
  rewrite (set_numElements_Ok _ v) by done.
  rewrite to_size_t_small by lia.
  unfold in_place, heap_put, with_region. rewrite decide_False by done. simpl.
  rewrite map_seqZ_snoc, Z.add_0_l, Hn, length_app. simpl.
  do 5 f_equal. lia.
Qed.

Lemma push_back_room_UB this v xs (t : ref T) s :
  objs s !! this = Some v → repr (heap s) v xs →
  numElements v < numCapacity v →
  read t s = UB →
  vector.push_back this t s = UB.
Proof.
  intros Hv Hr Hlt Ht. unfold vector.push_back.
  erewrite bind_Ok by by apply get_Ok.
  rewrite decide_False by lia.
  erewrite bind_Ok by done.
  erewrite bind_Ok by by apply get_Ok.
  by apply bind_UB.
Qed.

(** The buffer is full: the object [t] is bound to is read in the store
    that [reserve] leaves. *)
Lemma push_back_grow_ref this v xs (t : ref T) x s :
  wf s → objs s !! this = Some v → repr (heap s) v xs →
  numCapacity v = numElements v → grown (numCapacity v) ≤ max_size →
  read t (relocated this v (grown (numCapacity v)) xs s)
  = Ok x (relocated this v (grown (numCapacity v)) xs s) →
  vector.push_back this t s
  = Ok () (relocated this v (grown (numCapacity v)) (xs ++ [x]) s).
Proof.
  intros Hwf Hv Hr Heq Hmax Ht. unfold vector.push_back.
  erewrite bind_Ok by by apply get_Ok.
  pose proof (repr_length _ _ _ Hr) as Hn.
  pose proof (repr_bounds _ _ _ Hr) as Hb.
  rewrite decide_True by done.
  rewrite push_back_request by lia.
  assert (numCapacity v < grown (numCapacity v)) as Hlt.
  { unfold grown. case_decide; lia. }
  erewrite bind_Ok by (eapply reserve_Ok; [done..|lia]).
  erewrite bind_Ok by (apply get_Ok, lookup_insert_eq).
  cbn [data numElements].
  erewrite bind_Ok by exact Ht.
  erewrite bind_Ok; last first.
  { rewrite ptr_add_origin. eapply construct_Ok; [apply lookup_insert_eq|lia]. }
  erewrite set_numElements_Ok by apply lookup_insert_eq.
  rewrite to_size_t_small by lia.
  unfold relocated, with_region. simpl.
  rewrite !insert_insert_eq.
  rewrite map_seqZ_snoc, Z.add_0_l, length_app. simpl.
  do 5 f_equal. lia.
Qed.

Lemma push_back_grow_UB this v xs (t : ref T) s :
  wf s → objs s !! this = Some v → repr (heap s) v xs →
  numCapacity v = numElements v → grown (numCapacity v) ≤ max_size →
  read t (relocated this v (grown (numCapacity v)) xs s) = UB →
  vector.push_back this t s = UB.
Proof.
  intros Hwf Hv Hr Heq Hmax Ht. unfold vector.push_back.
  erewrite bind_Ok by by apply get_Ok.
  pose proof (repr_bounds _ _ _ Hr) as Hb.
  rewrite decide_True by done.
  rewrite push_back_request by lia.
  assert (numCapacity v < grown (numCapacity v)) as Hlt.
  { unfold grown. case_decide; lia. }
  erewrite bind_Ok by (eapply reserve_Ok; [done..|lia]).
  erewrite bind_Ok by (apply get_Ok, lookup_insert_eq).
  by apply bind_UB.
Qed.

Lemma push_back_Throw this v (t : ref T) s :
  objs s !! this = Some v → 0 ≤ numCapacity v ≤ max_size →
  numCapacity v = numElements v → max_size < grown (numCapacity v) →
  vector.push_back this t s = Throw s.
Proof.
  intros Hv Hb Heq Hmax. unfold vector.push_back.
  erewrite bind_Ok by by apply get_Ok.
  rewrite decide_True by done.
  rewrite push_back_request by lia.
  apply bind_Throw. eapply reserve_Throw; [done| |done].
  unfold grown. case_decide; lia.
Qed.

(** The argument is an object outside the free store. *)
Lemma push_back_room this v xs t s :
  objs s !! this = Some v → repr (heap s) v xs →
  numElements v < numCapacity v →
  vector.push_back this (Val t) s = Ok () (in_place this v (xs ++ [t]) s).
Proof. intros. by eapply push_back_room_ref. Qed.

Lemma push_back_grow this v xs t s :
  wf s → objs s !! this = Some v → repr (heap s) v xs →
  numCapacity v = numElements v → grown (numCapacity v) ≤ max_size →
  vector.push_back this (Val t) s
  = Ok () (relocated this v (grown (numCapacity v)) (xs ++ [t]) s).
Proof. intros. by eapply push_back_grow_ref. Qed.

(** The two overloads run the same steps. *)
Lemma push_back_move_eq this (t : ref T) :
  vector.push_back_move (A:=A) this t = vector.push_back this t.
Proof. reflexivity. Qed.

End Members.

(** ** The shapes keep the store well-formed *)

Section Preservation.
Context {T A : Type} `{!Allocator A}.
Implicit Types (s : state T A) (v r : vector A) (xs ys : list T).

Lemma repr_nonnull_live h v xs :
  repr h v xs → data v ≠ nullptr → is_Some (h !! blk (data v)).
Proof. intros Hr Hnn. destruct (repr_region _ _ _ Hr Hnn) as (_ & _ & ->). eauto. Qed.

Lemma wf_block_lt s l v :
  wf s → objs s !! l = Some v → (blk (data v) < next_block s)%nat.
Proof.
  intros Hwf Hv. destruct (wf_repr _ Hwf _ _ Hv) as [xs Hr].
  destruct (decide (data v = nullptr)) as [->|Hnn].
  - simpl. apply (wf_next _ Hwf).
  - apply (wf_fresh _ Hwf). by eapply repr_nonnull_live.
Qed.

(** Another object's region is not the one of [this]. *)
Lemma wf_other_region s this l v v2 :
  wf s → objs s !! this = Some v → objs s !! l = Some v2 → l ≠ this →
  data v2 ≠ nullptr → blk (data v2) ≠ blk (data v).
Proof. intros Hwf Hv Hv2 Hne Hnn. by eapply (wf_own _ Hwf l this). Qed.

Lemma heap_put_lookup_ne (q : ptr) (r : region T) (h : gmap block (region T)) b :
  b ≠ blk q → heap_put q r h !! b = h !! b.
Proof. intros. unfold heap_put. case_decide; [done|]. by rewrite lookup_insert_ne. Qed.

Lemma in_place_repr this v xs xs' s :
  repr (heap s) v xs → Z.of_nat (length xs') ≤ numCapacity v →
  repr (heap (in_place this v xs' s))
       (Vector (alloc v) (data v) (numCapacity v) (Z.of_nat (length xs'))) xs'.
Proof.
  intros Hr Hlen. pose proof (repr_bounds _ _ _ Hr) as Hb.
  unfold repr, in_place, heap_put. simpl.
  split; [done|]. split; [lia|].
  destruct (decide (data v = nullptr)) as [Hnull|Hnn].
  - left. split; [done|]. destruct Hr as (_ & _ & [[_ ?]|(Hb0 & _)]); [done|].
    by rewrite Hnull in Hb0.
  - right. destruct (repr_region _ _ _ Hr Hnn) as (Hd & Hb0 & Hh).
    split; [done|]. split; [by rewrite Hd|]. apply lookup_insert_eq.
Qed.

Lemma wf_in_place this v xs xs' s :
  wf s → objs s !! this = Some v → repr (heap s) v xs →
  Z.of_nat (length xs') ≤ numCapacity v →
  wf (in_place this v xs' s).
Proof.
  intros Hwf Hv Hr Hlen. split.
  - apply (wf_next _ Hwf).
  - intros b. unfold in_place, heap_put. simpl.
    case_decide as Hnull; [apply (wf_fresh _ Hwf)|].
    destruct (decide (b = blk (data v))) as [->|Hne].
    + intros _. apply (wf_fresh _ Hwf). by eapply repr_nonnull_live.
    + rewrite lookup_insert_ne by done. apply (wf_fresh _ Hwf).
  - intros l v2. cbn [objs in_place].
    destruct (decide (l = this)) as [->|Hne].
    + rewrite lookup_insert_eq. intros [= <-]. eexists. by eapply in_place_repr.
    + rewrite lookup_insert_ne by done. intros Hv2.
      destruct (wf_repr _ Hwf _ _ Hv2) as [zs Hz]. exists zs.
      eapply repr_frame; [exact Hz|]. intros Hnn. cbn [heap in_place].
      apply heap_put_lookup_ne. by eapply wf_other_region.
  - intros l1 l2 v1 v2 Hne. cbn [objs in_place].
    destruct (decide (l1 = this)) as [->|Hne1];
      destruct (decide (l2 = this)) as [->|Hne2]; [done|..].
    + rewrite lookup_insert_eq, lookup_insert_ne by done.
      intros [= <-] Hv2. cbn [data]. by eapply (wf_own _ Hwf this l2).
    + rewrite lookup_insert_eq, lookup_insert_ne by done.
      intros Hv1 [= <-]. cbn [data]. by eapply (wf_own _ Hwf l1 this).
    + rewrite !lookup_insert_ne by done. by apply (wf_own _ Hwf).
Qed.

Lemma relocated_repr this v cap' xs' s :
  Z.of_nat (length xs') ≤ cap' ≤ max_size → (0 < next_block s)%nat →
  repr (heap (relocated this v cap' xs' s))
       (Vector (alloc v) (Ptr (next_block s) 0) cap' (Z.of_nat (length xs'))) xs'.
Proof.
  intros Hlen Hnext. unfold repr, relocated. simpl.
  split; [done|]. split; [lia|]. right.
  split; [lia|]. split; [done|]. apply lookup_insert_eq.
Qed.

Lemma wf_relocated this v xs cap' xs' s :
  wf s → objs s !! this = Some v → repr (heap s) v xs →
  Z.of_nat (length xs') ≤ cap' ≤ max_size →
  wf (relocated this v cap' xs' s).
Proof.
  intros Hwf Hv Hr Hlen. pose proof (wf_next _ Hwf) as Hnext. split.
  - simpl. lia.
  - intros b. unfold relocated. simpl.
    destruct (decide (b = next_block s)) as [->|Hne]; [lia|].
    rewrite lookup_insert_ne by done. intros Hb.
    assert (is_Some (heap s !! b)) as Hb'.
    { destruct (decide (b = blk (data v))) as [->|?].
      - by rewrite lookup_delete_eq in Hb; destruct Hb.
      - by rewrite lookup_delete_ne in Hb. }
    apply (wf_fresh _ Hwf) in Hb'. lia.
  - intros l v2. cbn [objs relocated].
    destruct (decide (l = this)) as [->|Hne].
    + rewrite lookup_insert_eq. intros [= <-]. eexists. by eapply relocated_repr.
    + rewrite lookup_insert_ne by done. intros Hv2.
      destruct (wf_repr _ Hwf _ _ Hv2) as [zs Hz]. exists zs.
      eapply repr_frame; [exact Hz|]. intros Hnn. cbn [heap relocated].
      pose proof (wf_block_lt _ _ _ Hwf Hv2).
      rewrite lookup_insert_ne by lia.
      destruct (decide (data v = nullptr)) as [Hnull|Hvnn].
      * rewrite Hnull. simpl. apply lookup_delete_ne.
        destruct (repr_region _ _ _ Hz Hnn) as (_ & ? & _). done.
      * apply lookup_delete_ne. apply not_eq_sym.
        by eapply (wf_own _ Hwf l this).
  - intros l1 l2 v1 v2 Hne. cbn [objs relocated].
    destruct (decide (l1 = this)) as [->|Hne1];
      destruct (decide (l2 = this)) as [->|Hne2]; [done|..].
    + rewrite lookup_insert_eq, lookup_insert_ne by done.
      intros [= <-] Hv2 _. cbn [data blk].
      pose proof (wf_block_lt _ _ _ Hwf Hv2). lia.
    + rewrite lookup_insert_eq, lookup_insert_ne by done.
      intros Hv1 [= <-] _. cbn [data blk].
      pose proof (wf_block_lt _ _ _ Hwf Hv1). lia.
    + rewrite !lookup_insert_ne by done. by apply (wf_own _ Hwf).
Qed.

Lemma wf_released this v s :
  wf s → objs s !! this = Some v → wf (released this v s).
Proof.
  intros Hwf Hv. destruct (wf_repr _ Hwf _ _ Hv) as [xs Hr]. split.
  - apply (wf_next _ Hwf).
  - intros b. unfold released. simpl. intros Hb.
    apply (wf_fresh _ Hwf).
    destruct (decide (b = blk (data v))) as [->|?].
    + by rewrite lookup_delete_eq in Hb; destruct Hb.
    + by rewrite lookup_delete_ne in Hb.
  - intros l v2. cbn [objs released].
    destruct (decide (l = this)) as [->|Hne].
    + rewrite lookup_insert_eq. intros [= <-]. exists [].
      unfold repr. simpl. unfold max_size, PTRDIFF_MAX.
      split; [done|]. split; [lia|]. by left.
    + rewrite lookup_insert_ne by done. intros Hv2.
      destruct (wf_repr _ Hwf _ _ Hv2) as [zs Hz]. exists zs.
      eapply repr_frame; [exact Hz|]. intros Hnn. cbn [heap released].
      destruct (decide (data v = nullptr)) as [Hnull|Hvnn].
      * rewrite Hnull. simpl. apply lookup_delete_ne.
        destruct (repr_region _ _ _ Hz Hnn) as (_ & ? & _). done.
      * apply lookup_delete_ne. apply not_eq_sym.
        by eapply (wf_own _ Hwf l this).
  - intros l1 l2 v1 v2 Hne. cbn [objs released].
    destruct (decide (l1 = this)) as [->|Hne1];
      destruct (decide (l2 = this)) as [->|Hne2]; [done|..].
    + rewrite lookup_insert_eq, lookup_insert_ne by done.
      by intros [= <-] Hv2.
    + rewrite lookup_insert_eq, lookup_insert_ne by done.
      intros Hv1 [= <-] Hnn. cbn [data blk].
      destruct (wf_repr _ Hwf _ _ Hv1) as [zs Hz].
      destruct (repr_region _ _ _ Hz Hnn) as (_ & ? & _). done.
    + rewrite !lookup_insert_ne by done. by apply (wf_own _ Hwf).
Qed.

Lemma wf_created this a cap xs s :
  wf s → Z.of_nat (length xs) ≤ cap ≤ max_size →
  wf (created this a cap xs s).
Proof.
  intros Hwf Hlen. pose proof (wf_next _ Hwf) as Hnext. split.
  - simpl. lia.
  - intros b. unfold created. simpl.
    destruct (decide (b = next_block s)) as [->|Hne]; [lia|].
    rewrite lookup_insert_ne by done. intros Hb.
    apply (wf_fresh _ Hwf) in Hb. lia.
  - intros l v2. cbn [objs created].
    destruct (decide (l = this)) as [->|Hne].
    + rewrite lookup_insert_eq. intros [= <-]. exists xs.
      unfold repr. simpl. split; [done|]. split; [lia|]. right.
      split; [lia|]. split; [done|]. apply lookup_insert_eq.
    + rewrite lookup_insert_ne by done. intros Hv2.
      destruct (wf_repr _ Hwf _ _ Hv2) as [zs Hz]. exists zs.
      eapply repr_frame; [exact Hz|]. intros Hnn. cbn [heap created].
      pose proof (wf_block_lt _ _ _ Hwf Hv2).
      by rewrite lookup_insert_ne by lia.
  - intros l1 l2 v1 v2 Hne. cbn [objs created].
    destruct (decide (l1 = this)) as [->|Hne1];
      destruct (decide (l2 = this)) as [->|Hne2]; [done|..].
    + rewrite lookup_insert_eq, lookup_insert_ne by done.
      intros [= <-] Hv2 _. cbn [data blk].
      pose proof (wf_block_lt _ _ _ Hwf Hv2). lia.
    + rewrite lookup_insert_eq, lookup_insert_ne by done.
      intros Hv1 [= <-] _. cbn [data blk].
      pose proof (wf_block_lt _ _ _ Hwf Hv1). lia.
    + rewrite !lookup_insert_ne by done. by apply (wf_own _ Hwf).
Qed.

Lemma wf_created_empty this a s : wf s → wf (created_empty this a s).
Proof.
  intros Hwf. split.
  - apply (wf_next _ Hwf).
  - apply (wf_fresh _ Hwf).
  - intros l v2. cbn [objs created_empty heap].
    destruct (decide (l = this)) as [->|Hne].
    + rewrite lookup_insert_eq. intros [= <-]. exists [].
      unfold repr. simpl. unfold max_size, PTRDIFF_MAX.
      split; [done|]. split; [lia|]. by left.
    + rewrite lookup_insert_ne by done. apply (wf_repr _ Hwf).
  - intros l1 l2 v1 v2 Hne. cbn [objs created_empty].
    destruct (decide (l1 = this)) as [->|Hne1];
      destruct (decide (l2 = this)) as [->|Hne2]; [done|..].
    + rewrite lookup_insert_eq, lookup_insert_ne by done.
      by intros [= <-] Hv2.
    + rewrite lookup_insert_eq, lookup_insert_ne by done.
      intros Hv1 [= <-] Hnn. cbn [data blk].
      destruct (wf_repr _ Hwf _ _ Hv1) as [zs Hz].
      destruct (repr_region _ _ _ Hz Hnn) as (_ & ? & _). done.
    + rewrite !lookup_insert_ne by done. by apply (wf_own _ Hwf).
Qed.

Lemma wf_initial : wf (initial_state (T:=T) (A:=A)).
Proof.
  split; simpl.
  - lia.
  - intros b. rewrite lookup_empty. by intros [? ?].
  - intros l v. by rewrite lookup_empty.
  - intros l1 l2 v1 v2 _. by rewrite lookup_empty.
Qed.

End Preservation.

(** ** Doubling *)

Section Doubling.

Lemma capacity_after_ge n : 0 ≤ n → n ≤ capacity_after n.
Proof.
  intros Hn. unfold capacity_after. case_decide; [lia|].
  destruct (decide (n = 1)) as [->|]; [by rewrite Z.log2_up_1|].
  pose proof (Z.log2_up_spec n). lia.
Qed.

Lemma capacity_after_full n :
  0 ≤ n → capacity_after n = n →
  capacity_after (n + 1) = grown n ∧
  reallocations_after (n + 1) = reallocations_after n + 1.
Proof.
  intros Hn Hfull. unfold capacity_after, reallocations_after, grown in *.
  rewrite !(decide_False (P:=n + 1 = 0)) by lia.
  destruct (decide (n = 0)) as [->|Hn0].
  { replace (0 + 1) with 1 by lia. by rewrite Z.log2_up_1. }
  pose proof (Z.log2_up_nonneg n) as Hk.
  assert (Z.log2_up (n + 1) = Z.log2_up n + 1) as ->.
  { apply Z.log2_up_unique; [lia|].
    replace (Z.pred (Z.log2_up n + 1)) with (Z.log2_up n) by lia.
    rewrite Z.pow_add_r by lia. lia. }
  rewrite Z.pow_add_r, Hfull by lia. lia.
Qed.

Lemma capacity_after_room n :
  0 ≤ n → n < capacity_after n →
  capacity_after (n + 1) = capacity_after n ∧
  reallocations_after (n + 1) = reallocations_after n.
Proof.
  intros Hn Hroom. unfold capacity_after, reallocations_after in *.
  rewrite !(decide_False (P:=n + 1 = 0)) by lia.
  destruct (decide (n = 0)) as [->|Hn0]; [lia|].
  destruct (decide (n = 1)) as [->|Hn1]; [rewrite Z.log2_up_1 in Hroom; lia|].
  pose proof (Z.log2_up_spec n).
  assert (0 < Z.log2_up n) as Hk.
  { pose proof (Z.log2_up_nonneg n).
    destruct (decide (Z.log2_up n = 0)) as [Hz|]; [|lia].
    rewrite Hz in Hroom. simpl in Hroom. lia. }
  assert (Z.log2_up (n + 1) = Z.log2_up n) as ->; [|done].
  apply Z.log2_up_unique; lia.
Qed.

Lemma capacity_after_bound n :
  0 ≤ n ≤ 2 ^ 62 → capacity_after n ≤ 2 ^ 62.
Proof.
  intros Hn. unfold capacity_after. case_decide; [lia|].
  apply Z.pow_le_mono_r; [lia|].
  rewrite <- (Z.log2_up_pow2 62) by lia. apply Z.log2_up_le_mono. lia.
Qed.

Lemma reallocations_after_mono a b :
  0 ≤ a ≤ b → reallocations_after a ≤ reallocations_after b.
Proof.
  intros Hab. unfold reallocations_after.
  pose proof (Z.log2_up_nonneg b).
  pose proof (Z.log2_up_le_mono a b).
  repeat case_decide; lia.
Qed.

Lemma reallocations_after_le n :
  reallocations_after n ≤ Z.log2_up n + 1.
Proof.
  unfold reallocations_after. pose proof (Z.log2_up_nonneg n).
  case_decide; lia.
Qed.

End Doubling.

(** ** [push_back]: the growth policy and its cost *)

Section PushBack.
Context {T A : Type} `{!Allocator A} `{!DefaultConstructible T}.
Implicit Types (s : state T A) (v : vector A) (xs ts : list T) (t : T).

Lemma regions_allocated_same s s' :
  next_block s' = next_block s → regions_allocated s s' = 0.
Proof. unfold regions_allocated. intros ->. lia. Qed.

Lemma regions_allocated_succ s s' :
  next_block s' = S (next_block s) → regions_allocated s s' = 1.
Proof. unfold regions_allocated. intros ->. lia. Qed.

(** The object a reference is bound to is still there after a reallocation
    of another buffer, and is gone after a reallocation of its own. *)
Lemma read_relocated this v cap' xs' (t : ref T) x s :
  wf s → outside t v → read t s = Ok x s →
  read t (relocated this v cap' xs' s) = Ok x (relocated this v cap' xs' s).
Proof.
  intros Hwf Hout Ht. eapply read_frame; [|exact Ht].
  intros p ->. simpl in Hout. apply read_At_Ok in Ht as (r & Hr & _).
  assert (0 < blk p < next_block s)%nat as Hlt
    by (apply (wf_fresh _ Hwf); eauto).
  unfold relocated. simpl.
  rewrite lookup_insert_ne by lia. by rewrite lookup_delete_ne.
Qed.

Lemma read_relocated_own this v xs cap' xs' p s :
  wf s → objs s !! this = Some v → repr (heap s) v xs →
  blk p = blk (data v) →
  read (At p) (relocated this v cap' xs' s) = UB.
Proof.
  intros Hwf Hv Hr Hp. simpl. unfold load, relocated. simpl.
  assert (blk (data v) ≠ next_block s) as Hne.
  { destruct (decide (data v = nullptr)) as [->|Hnn].
    - simpl. pose proof (wf_next _ Hwf). lia.
    - pose proof (wf_fresh _ Hwf _ (repr_nonnull_live _ _ _ Hr Hnn)). lia. }
  rewrite Hp, lookup_insert_ne by done. by rewrite lookup_delete_eq.
Qed.

(** [push_back] of an object that lies outside the vector's buffer, or of
    any object when there is room, does what [push_back] of an object
    outside the free store with the same value does. *)
Lemma push_back_read this (t : ref T) x s v xs :
  wf s → objs s !! this = Some v → repr (heap s) v xs →
  read t s = Ok x s →
  (numCapacity v = numElements v → outside t v) →
  vector.push_back this t s = vector.push_back this (Val x) s.
Proof.
  intros Hwf Hv Hr Ht Hout.
  pose proof (repr_bounds _ _ _ Hr) as Hb.
  destruct (decide (numCapacity v = numElements v)) as [Heq|Hne].
  - destruct (decide (grown (numCapacity v) ≤ max_size)) as [Hmax|Hmax].
    + rewrite (push_back_grow_ref this v xs t x), (push_back_grow this v xs);
        [done..|].
      apply read_relocated; auto.
    + rewrite !(push_back_Throw this v) by (done || lia). done.
  - rewrite (push_back_room_ref this v xs t x), (push_back_room this v xs);
      [done..|lia|done|done|lia|done].
Qed.


(** One call, on any vector of a well-formed store. *)
Lemma push_back_step this t s v xs :
  wf s → objs s !! this = Some v → repr (heap s) v xs →
  (numCapacity v = numElements v → grown (numCapacity v) ≤ max_size) →
  ∃ s' v',
    vector.push_back this (Val t) s = Ok () s' ∧ wf s' ∧
    objs s' !! this = Some v' ∧ repr (heap s') v' (xs ++ [t]) ∧
    load (data v' +ₚ numElements v) s' = Ok t s' ∧
    numElements v' = numElements v + 1 ∧
    (numCapacity v = numElements v →
       numCapacity v' = (if decide (numCapacity v = 0) then 1 else numCapacity v * 2) ∧
       regions_allocated s s' = 1) ∧
    (numCapacity v ≠ numElements v →
       numCapacity v' = numCapacity v ∧ data v' = data v ∧
       regions_allocated s s' = 0).
Proof.
  intros Hwf Hv Hr Hmax.
  pose proof (repr_length _ _ _ Hr) as Hn.
  pose proof (repr_bounds _ _ _ Hr) as Hb.
  assert (Z.of_nat (length (xs ++ [t])) = numElements v + 1) as Hlen.
  { rewrite length_app. simpl. lia. }
  assert ((xs ++ [t]) !! length xs = Some t) as Hlast.
  { by rewrite list_lookup_middle. }
  destruct (decide (numCapacity v = numElements v)) as [Heq|Hne].
  - specialize (Hmax Heq).
    assert (numCapacity v < grown (numCapacity v)) as Hlt.
    { unfold grown. case_decide; lia. }
    eexists _, _. split; [by apply push_back_grow|].
    assert (repr (heap (relocated this v (grown (numCapacity v)) (xs ++ [t]) s))
              (Vector (alloc v) (Ptr (next_block s) 0) (grown (numCapacity v))
                      (Z.of_nat (length (xs ++ [t])))) (xs ++ [t])) as Hr'.
    { apply relocated_repr; [lia|apply (wf_next _ Hwf)]. }
    split; [eapply wf_relocated; [done..|lia]|].
    split; [apply lookup_insert_eq|].
    split; [exact Hr'|].
    split; [rewrite Hn; by eapply repr_load|].
    split; [done|]. split; [|done].
    intros _. split; [done|]. by apply regions_allocated_succ.
  - eexists _, _. split; [apply push_back_room; [done..|lia]|].
    assert (repr (heap (in_place this v (xs ++ [t]) s))
              (Vector (alloc v) (data v) (numCapacity v)
                      (Z.of_nat (length (xs ++ [t])))) (xs ++ [t])) as Hr'.
    { eapply in_place_repr; [done|lia]. }
    split; [eapply wf_in_place; [done..|lia]|].
    split; [apply lookup_insert_eq|].
    split; [exact Hr'|].
    split; [rewrite Hn; by eapply repr_load|].
    split; [done|]. split; [done|].
    intros _. split; [done|]. split; [done|]. by apply regions_allocated_same.
Qed.

(** A vector whose capacity is what doubling from nothing gives for its
    size keeps that property through any further calls, and each call
    allocates exactly when the formula says so. *)
Lemma push_all_spec this : ∀ ts s v xs,
  wf s → objs s !! this = Some v → repr (heap s) v xs →
  numCapacity v = capacity_after (Z.of_nat (length xs)) →
  Z.of_nat (length xs + length ts) ≤ 2 ^ 62 →
  ∃ s' v',
    push_all this ts s = Ok () s' ∧ wf s' ∧
    objs s' !! this = Some v' ∧ repr (heap s') v' (xs ++ ts) ∧
    numCapacity v' = capacity_after (Z.of_nat (length (xs ++ ts))) ∧
    regions_allocated s s'
    = reallocations_after (Z.of_nat (length (xs ++ ts)))
      - reallocations_after (Z.of_nat (length xs)).
Proof.
  induction ts as [|t ts IH]; intros s v xs Hwf Hv Hr Hcap Hlen.
  - exists s, v. rewrite (right_id_L [] (++)).
    split; [done|]. split; [done|]. split; [done|]. split; [done|].
    split; [done|]. unfold regions_allocated. lia.
  - pose proof (repr_length _ _ _ Hr) as Hn.
    pose proof (repr_bounds _ _ _ Hr) as Hb.
    simpl in Hlen.
    assert (Z.of_nat (length (xs ++ [t])) = Z.of_nat (length xs) + 1) as Hsnoc.
    { rewrite length_app. simpl. lia. }
    assert (capacity_after (Z.of_nat (length xs) + 1) ≤ 2 ^ 62) as Hbound.
    { apply capacity_after_bound. lia. }
    destruct (push_back_step this t s v xs Hwf Hv Hr)
      as (s1 & v1 & Hrun & Hwf1 & Hv1 & Hr1 & _ & Hn1 & Hfull & Hroom).
    { intros Heq.
      destruct (capacity_after_full (Z.of_nat (length xs))) as [Hg _];
        [lia|lia|].
      rewrite Heq, Hn, <- Hg. unfold max_size, PTRDIFF_MAX. lia. }
    destruct (IH s1 v1 (xs ++ [t]) Hwf1 Hv1 Hr1)
      as (s' & v' & Hrun' & Hwf' & Hv' & Hr' & Hcap' & Hcost').
    { rewrite Hsnoc.
      destruct (decide (numCapacity v = numElements v)) as [Heq|Hne].
      - destruct (Hfull Heq) as [-> _].
        destruct (capacity_after_full (Z.of_nat (length xs))) as [-> _];
          [lia|lia|].
        unfold grown. rewrite Heq, Hn. by repeat case_decide.
      - destruct (Hroom Hne) as (-> & _ & _).
        destruct (capacity_after_room (Z.of_nat (length xs))) as [-> _];
          [lia|lia|done]. }
    { rewrite length_app. simpl. lia. }
    rewrite <- (assoc_L (++)) in Hr', Hcap', Hcost'. simpl in Hr', Hcap', Hcost'.
    exists s', v'. split.
    { simpl. by erewrite bind_Ok by exact Hrun. }
    split; [done|]. split; [done|]. split; [done|]. split; [done|].
    assert (regions_allocated s s1
            = reallocations_after (Z.of_nat (length xs) + 1)
              - reallocations_after (Z.of_nat (length xs))) as Hcost1.
    { destruct (decide (numCapacity v = numElements v)) as [Heq|Hne].
      - destruct (Hfull Heq) as [_ ->].
        destruct (capacity_after_full (Z.of_nat (length xs))) as [_ ->]; lia.
      - destruct (Hroom Hne) as (_ & _ & ->).
        destruct (capacity_after_room (Z.of_nat (length xs))) as [_ ->]; lia. }
    rewrite Hsnoc in Hcost'. unfold regions_allocated in *. lia.
Qed.

(** [n] calls on a vector that starts without a buffer. *)
Lemma push_all_from_empty this a ts s :
  wf s → objs s !! this = Some (Vector a nullptr 0 0) →
  Z.of_nat (length ts) ≤ 2 ^ 62 →
  ∃ s' v',
    push_all this ts s = Ok () s' ∧ wf s' ∧
    objs s' !! this = Some v' ∧ repr (heap s') v' ts ∧
    numCapacity v' = capacity_after (Z.of_nat (length ts)) ∧
    regions_allocated s s' = reallocations_after (Z.of_nat (length ts)) ∧
    regions_allocated s s' ≤ Z.log2_up (Z.of_nat (length ts)) + 1.
Proof.
  intros Hwf Hv Hlen.
  destruct (push_all_spec this ts s _ [] Hwf Hv)
    as (s' & v' & Hrun & Hwf' & Hv' & Hr' & Hcap & Hcost).
  - unfold repr. simpl. unfold max_size, PTRDIFF_MAX.
    split; [done|]. split; [lia|]. by left.
  - done.
  - simpl. lia.
  - simpl in *. exists s', v'.
    split; [done|]. split; [done|]. split; [done|]. split; [done|].
    split; [done|].
    assert (regions_allocated s s' = reallocations_after (Z.of_nat (length ts)))
      as Hcost2.
    { rewrite Hcost. unfold reallocations_after at 2. simpl. lia. }
    split; [done|]. rewrite Hcost2. unfold reallocations_after.
    pose proof (Z.log2_up_nonneg (Z.of_nat (length ts))). case_decide; lia.
Qed.

(** However long the sequence, it completes or leaves by [std::bad_alloc],
    and up to that point it has allocated no more than the formula says. *)
Lemma push_all_cost this : ∀ ts s v xs,
  wf s → objs s !! this = Some v → repr (heap s) v xs →
  numCapacity v = capacity_after (Z.of_nat (length xs)) →
  ∃ s',
    (push_all this ts s = Ok () s' ∨ push_all this ts s = Throw s') ∧
    regions_allocated s s'
    ≤ reallocations_after (Z.of_nat (length xs + length ts))
      - reallocations_after (Z.of_nat (length xs)).
Proof.
  induction ts as [|t ts IH]; intros s v xs Hwf Hv Hr Hcap.
  - exists s. split; [by left|].
    rewrite Nat.add_0_r. unfold regions_allocated. lia.
  - pose proof (repr_length _ _ _ Hr) as Hn.
    pose proof (repr_bounds _ _ _ Hr) as Hb.
    assert (Z.of_nat (length (xs ++ [t])) = Z.of_nat (length xs) + 1) as Hsnoc.
    { rewrite length_app. simpl. lia. }
    destruct (decide (numCapacity v = numElements v
                      ∧ max_size < grown (numCapacity v))) as [[Heq Hmax]|Hok].
    + exists s. split.
      * right. simpl. apply bind_Throw. apply (push_back_Throw _ v); [done|lia|done..].
      * pose proof (reallocations_after_mono (Z.of_nat (length xs))
                      (Z.of_nat (length xs + length (t :: ts)))).
        unfold regions_allocated. simpl in *. lia.
    + destruct (push_back_step this t s v xs Hwf Hv Hr)
        as (s1 & v1 & Hrun & Hwf1 & Hv1 & Hr1 & _ & Hn1 & Hfull & Hroom).
      { intros Heq. destruct (decide (grown (numCapacity v) ≤ max_size)); [done|].
        destruct Hok. split; [done|lia]. }
      assert (numCapacity v1 = capacity_after (Z.of_nat (length (xs ++ [t])))
              ∧ regions_allocated s s1
                = reallocations_after (Z.of_nat (length xs) + 1)
                  - reallocations_after (Z.of_nat (length xs))) as [Hcap1 Hcost1].
      { rewrite Hsnoc.
        destruct (decide (numCapacity v = numElements v)) as [Heq|Hne].
        - destruct (Hfull Heq) as [-> ->].
          destruct (capacity_after_full (Z.of_nat (length xs))) as [-> ->];
            [lia|lia|].
          split; [|lia]. unfold grown. rewrite Heq, Hn. by repeat case_decide.
        - destruct (Hroom Hne) as (-> & _ & ->).
          destruct (capacity_after_room (Z.of_nat (length xs))) as [-> ->];
            [lia|lia|]. split; [done|lia]. }
      destruct (IH s1 v1 (xs ++ [t]) Hwf1 Hv1 Hr1 Hcap1) as (s' & Hout & Hcost).
      exists s'. split.
      * simpl. by erewrite bind_Ok by exact Hrun.
      * rewrite Hsnoc in Hcost.
        replace (Z.of_nat (length (xs ++ [t]) + length ts))
          with (Z.of_nat (length xs + length (t :: ts))) in Hcost
          by (rewrite length_app; simpl; lia).
        unfold regions_allocated in *. lia.
Qed.

Lemma push_all_cost_from_empty this a ts s :
  wf s → objs s !! this = Some (Vector a nullptr 0 0) →
  ∃ s',
    (push_all this ts s = Ok () s' ∨ push_all this ts s = Throw s') ∧
    regions_allocated s s' ≤ Z.log2_up (Z.of_nat (length ts)) + 1.
Proof.
  intros Hwf Hv.
  destruct (push_all_cost this ts s _ [] Hwf Hv) as (s' & Hout & Hcost).
  - unfold repr. simpl. unfold max_size, PTRDIFF_MAX.
    split; [done|]. split; [lia|]. by left.
  - done.
  - exists s'. split; [done|]. simpl in Hcost.
    pose proof (reallocations_after_le (Z.of_nat (length ts))).
    unfold reallocations_after at 2 in Hcost. simpl in Hcost. lia.
Qed.

End PushBack.

(** ** The remaining member functions *)

Section MoreMembers.
Context {T A : Type} `{!Allocator A} `{!DefaultConstructible T}.
Implicit Types (s : state T A) (v r : vector A) (xs ys : list T) (t : T).

(** *** [shrink_to_fit] *)

Lemma shrink_to_fit_noop this v s :
  objs s !! this = Some v → numCapacity v ≤ numElements v →
  vector.shrink_to_fit this s = Ok () s.
Proof.
  intros Hv Hle. unfold vector.shrink_to_fit.
  erewrite bind_Ok by by apply get_Ok. by rewrite decide_False by lia.
Qed.

Lemma shrink_to_fit_release this v s :
  objs s !! this = Some v → repr (heap s) v [] → 0 < numCapacity v →
  vector.shrink_to_fit this s = Ok () (released this v s).
Proof.
  intros Hv Hr Hcap. unfold vector.shrink_to_fit.
  erewrite bind_Ok by by apply get_Ok.
  pose proof (repr_length _ _ _ Hr) as Hn. simpl in Hn.
  rewrite decide_True by lia. rewrite decide_False by lia.
  assert (data v ≠ nullptr) as Hnn.
  { intros Hnull. destruct Hr as (_ & _ & [[_ ?]|(? & _)]); [lia|].
    by rewrite Hnull in *. }
  destruct (repr_region _ _ _ Hr Hnn) as (Hd & Hb0 & Hh).
  erewrite bind_Ok; last first.
  { unfold deallocate. rewrite decide_False by done. rewrite Hh. simpl.
    rewrite decide_True; [done|]. split; [|done]. by rewrite Hd. }
  erewrite bind_Ok by by apply set_data_Ok.
  erewrite set_numCapacity_Ok by apply lookup_insert_eq.
  unfold released. simpl. by rewrite insert_insert_eq, Hn.
Qed.

Lemma shrink_to_fit_relocate this v xs s :
  wf s → objs s !! this = Some v → repr (heap s) v xs →
  0 < numElements v < numCapacity v →
  vector.shrink_to_fit this s = Ok () (relocated this v (numElements v) xs s).
Proof.
  intros Hwf Hv Hr Hcap. unfold vector.shrink_to_fit.
  erewrite bind_Ok by by apply get_Ok.
  rewrite decide_True by lia. rewrite decide_True by lia.
  pose proof (repr_length _ _ _ Hr) as Hn.
  pose proof (repr_bounds _ _ _ Hr) as Hb.
  pose proof (wf_next_fresh _ Hwf) as Hfresh.
  erewrite bind_Ok by (apply allocate_Ok; lia).
  assert (data v ≠ nullptr) as Hnn.
  { intros Hnull. destruct Hr as (_ & _ & [[_ ?]|(? & _)]); [lia|].
    by rewrite Hnull in *. }
  destruct (repr_region _ _ _ Hr Hnn) as (Hd & Hb0 & Hh).
  assert (blk (data v) ≠ next_block s) as Hne by (intros Heq; congruence).
  erewrite bind_Ok; last first.
  { rewrite (for_size_t_loop _ _ (length xs)) by lia. rewrite Hd.
    eapply (loop_move _ _ _ _ xs []); simpl.
    - done.
    - by rewrite lookup_insert_ne.
    - by rewrite lookup_insert_eq.
    - lia. }
  erewrite bind_Ok; last first.
  { unfold deallocate. rewrite decide_False by done.
    rewrite with_region_heap. simpl.
    rewrite decide_True; [done|]. split; [|done]. by rewrite Hd. }
  erewrite bind_Ok by by apply set_data_Ok.
  erewrite set_numCapacity_Ok by apply lookup_insert_eq.
  unfold relocated. simpl. rewrite insert_insert_eq, Hn. f_equal.
  rewrite delete_insert_eq. rewrite delete_insert_ne by done.
  by rewrite ?insert_insert_eq.
Qed.

(** *** [swap] *)

Lemma swap_Ok this rhs v r s :
  objs s !! this = Some v → objs s !! rhs = Some r →
  vector.swap this rhs s = Ok () (swapped this rhs v r s).
Proof.
  intros Hv Hr. unfold vector.swap, swapped.
  destruct v as [a d c n], r as [a' d' c' n'].
  assert (∀ (o1 o2 : gmap loc (vector A)), o1 = o2 →
            Ok (S:=state T A) () (State (heap s) (next_block s) o1)
            = Ok () (State (heap s) (next_block s) o2)) as Hobjs
    by (by intros ?? ->).
  destruct (decide (this = rhs)) as [->|Hne].
  - rewrite Hv in Hr. injection Hr as <- <- <- <-.
    do 3 (erewrite bind_Ok; [|
      erewrite bind_Ok by (apply get_Ok; by simplify_map_eq);
      erewrite bind_Ok by (apply get_Ok; by simplify_map_eq);
      erewrite bind_Ok;
        [|first [eapply set_data_Ok|eapply set_numElements_Ok
                |eapply set_numCapacity_Ok]; by simplify_map_eq];
      first [eapply set_data_Ok|eapply set_numElements_Ok
            |eapply set_numCapacity_Ok]; by simplify_map_eq]).
    erewrite bind_Ok by (apply get_Ok; by simplify_map_eq).
    erewrite bind_Ok by (apply get_Ok; by simplify_map_eq).
    erewrite bind_Ok by (eapply set_alloc_Ok; by simplify_map_eq).
    erewrite set_alloc_Ok by by simplify_map_eq.
    simpl. apply Hobjs. by rewrite !insert_insert_eq.
  - do 3 (erewrite bind_Ok; [|
      erewrite bind_Ok by (apply get_Ok; by simplify_map_eq);
      erewrite bind_Ok by (apply get_Ok; by simplify_map_eq);
      erewrite bind_Ok;
        [|first [eapply set_data_Ok|eapply set_numElements_Ok
                |eapply set_numCapacity_Ok]; by simplify_map_eq];
      first [eapply set_data_Ok|eapply set_numElements_Ok
            |eapply set_numCapacity_Ok]; by simplify_map_eq]).
    erewrite bind_Ok by (apply get_Ok; by simplify_map_eq).
    erewrite bind_Ok by (apply get_Ok; by simplify_map_eq).
    erewrite bind_Ok by (eapply set_alloc_Ok; by simplify_map_eq).
    erewrite set_alloc_Ok by by simplify_map_eq.
    simpl. apply Hobjs.
    apply map_eq. intros l.
    destruct (decide (l = rhs)) as [->|?]; [by simplify_map_eq|].
    destruct (decide (l = this)) as [->|?]; by simplify_map_eq.
Qed.

(** *** Constructors *)

Lemma vector_default_Ok this a s :
  vector.vector_default this a s = Ok () (created_empty this a s).
Proof. done. Qed.

Lemma vector_move_Ok this rhs r s :
  objs s !! rhs = Some r → this ≠ rhs →
  vector.vector_move this rhs s = Ok () (handed_over this rhs r s).
Proof.
  intros Hr Hne. unfold vector.vector_move, handed_over.
  erewrite bind_Ok by by apply get_Ok.
  erewrite bind_Ok by done.
  erewrite bind_Ok by (eapply set_data_Ok; by simplify_map_eq).
  erewrite bind_Ok by (eapply set_numElements_Ok; by simplify_map_eq).
  erewrite set_numCapacity_Ok by by simplify_map_eq.
  simpl. by rewrite !insert_insert_eq.
Qed.

Lemma allocate_zero a s :
  allocate a 0 s
  = if allocate_zero_is_null a then Ok nullptr s
    else Ok (Ptr (next_block s) 0)
            (State (<[next_block s := Region 0 ∅]> (heap s))
                   (S (next_block s)) (objs s)).
Proof.
  unfold allocate, max_size, PTRDIFF_MAX. rewrite decide_False by lia.
  destruct (allocate_zero_is_null a).
  - by rewrite decide_True.
  - rewrite decide_False; [done|]. by intros [_ ?].
Qed.

(** The sized constructors share their shape; [x] is the value every
    element is constructed from. *)
Lemma vector_fill_Ok this n x a s :
  0 < n ≤ INT_MAX →
  vector.vector_fill this n x a s
  = Ok () (created this a n (replicate (Z.to_nat n) x) s).
Proof.
  intros Hn. unfold vector.vector_fill.
  assert (INT_MAX ≤ max_size) by (unfold INT_MAX, max_size, PTRDIFF_MAX; lia).
  erewrite bind_Ok by (apply allocate_Ok; lia).
  erewrite bind_Ok by done.
  rewrite (for_int_loop _ (Z.to_nat n)) by lia.
  erewrite bind_Ok; last first.
  { rewrite <- (length_replicate (Z.to_nat n) x) at 1.
    eapply (loop_construct _ _ (λ _, x) _ []); simpl.
    - apply lookup_insert_eq.
    - rewrite length_replicate. lia.
    - intros k y Hk. by apply lookup_replicate in Hk as [-> _]. }
  unfold created, with_region, ret. simpl.
  rewrite insert_insert_eq, length_replicate.
  by rewrite Z2Nat.id by lia.
Qed.

Lemma vector_fill_zero this x a s :
  vector.vector_fill this 0 x a s
  = Ok () (if allocate_zero_is_null a then created_empty this a s
           else created this a 0 [] s).
Proof.
  unfold vector.vector_fill.
  unfold bind at 1. rewrite allocate_zero.
  destruct (allocate_zero_is_null a);
    (erewrite bind_Ok by done; by rewrite (for_int_loop _ 0%nat) by done).
Qed.

Lemma vector_fill_overflow this n x a s :
  INT_MAX < n ≤ max_size → vector.vector_fill this n x a s = UB.
Proof.
  intros Hn. unfold vector.vector_fill.
  erewrite bind_Ok by (apply allocate_Ok; unfold INT_MAX in *; lia).
  erewrite bind_Ok by done.
  apply for_int_overflow; [lia|].
  intros i s1 s2. unfold construct.
  destruct (heap s1 !! _); [|done]. by case_decide.
Qed.

Lemma vector_fill_Throw this n x a s :
  max_size < n → vector.vector_fill this n x a s = Throw s.
Proof.
  intros Hn. unfold vector.vector_fill. apply bind_Throw.
  unfold allocate. by rewrite decide_True.
Qed.

Lemma vector_sized_fill this n a :
  vector.vector_sized (T:=T) this n a = vector.vector_fill this n T_default a.
Proof. reflexivity. Qed.

Lemma construct_each_Ok b ext ys : ∀ xs s,
  heap s !! b = Some (Region ext (map_seqZ 0 xs)) →
  Z.of_nat (length xs + length ys) ≤ ext →
  vector.construct_each (Ptr b (Z.of_nat (length xs))) ys s
  = Ok () (with_region b (Region ext (map_seqZ 0 (xs ++ ys))) s).
Proof.
  induction ys as [|y ys IH]; intros xs s Hb Hext; simpl.
  - rewrite (right_id_L [] (++)). unfold ret. by rewrite with_region_id.
  - erewrite bind_Ok; last first.
    { eapply construct_Ok; [exact Hb|]. simpl in *. lia. }
    replace (Ptr b (Z.of_nat (length xs)) +ₚ 1)
      with (Ptr b (Z.of_nat (length (xs ++ [y]))))
      by (unfold ptr_add; rewrite length_app; simpl; f_equal; lia).
    erewrite IH.
    + rewrite with_region_twice. by rewrite <- (assoc_L (++)).
    + rewrite with_region_heap. do 2 f_equal. by rewrite map_seqZ_snoc.
    + rewrite length_app. simpl in *. lia.
Qed.

Lemma vector_init_list_Ok this l a s :
  0 < Z.of_nat (length l) ≤ max_size →
  vector.vector_init_list this l a s
  = Ok () (created this a (Z.of_nat (length l)) l s).
Proof.
  intros Hn. unfold vector.vector_init_list.
  erewrite bind_Ok by (apply allocate_Ok; lia).
  erewrite bind_Ok by done.
  erewrite (construct_each_Ok _ _ l []); simpl.
  - unfold created, with_region. simpl. by rewrite insert_insert_eq.
  - apply lookup_insert_eq.
  - lia.
Qed.

Lemma vector_init_list_nil this a s :
  vector.vector_init_list this [] a s
  = Ok () (if allocate_zero_is_null a then created_empty this a s
           else created this a 0 [] s).
Proof.
  unfold vector.vector_init_list. simpl.
  unfold bind at 1. rewrite allocate_zero.
  by destruct (allocate_zero_is_null a).
Qed.

Lemma vector_copy_empty this rhs r s :
  objs s !! rhs = Some r → numElements r = 0 →
  vector.vector_copy this rhs s = Ok () (created_empty this A_default s).
Proof.
  intros Hr Hn. unfold vector.vector_copy, vector.empty.
  erewrite bind_Ok by by apply get_Ok.
  erewrite bind_Ok by (by erewrite bind_Ok by by apply get_Ok).
  by rewrite bool_decide_eq_true_2.
Qed.

Lemma vector_copy_Ok this rhs r xs s :
  wf s → objs s !! rhs = Some r → repr (heap s) r xs →
  0 < numElements r ≤ INT_MAX →
  vector.vector_copy this rhs s
  = Ok () (created this A_default (numElements r) xs s).
Proof.
  intros Hwf Hr Hrep Hn. unfold vector.vector_copy, vector.empty.
  erewrite bind_Ok by by apply get_Ok.
  erewrite bind_Ok by (by erewrite bind_Ok by by apply get_Ok).
  rewrite bool_decide_eq_false_2 by lia. simpl.
  pose proof (repr_length _ _ _ Hrep) as Hlen.
  pose proof (repr_bounds _ _ _ Hrep) as Hb.
  pose proof (wf_next_fresh _ Hwf) as Hfresh.
  erewrite bind_Ok by (apply allocate_Ok; lia).
  erewrite bind_Ok by done.
  assert (data r ≠ nullptr) as Hnn.
  { intros Hnull. destruct Hrep as (_ & _ & [[_ ?]|(? & _)]); [lia|].
    by rewrite Hnull in *. }
  destruct (repr_region _ _ _ Hrep Hnn) as (Hd & Hb0 & Hh).
  assert (blk (data r) ≠ next_block s) as Hne by (intros Heq; congruence).
  rewrite (for_int_loop _ (length xs)) by lia.
  erewrite bind_Ok; last first.
  { rewrite Hd. eapply (loop_copy _ _ _ _ xs xs []); simpl.
    - done.
    - by rewrite lookup_insert_ne.
    - apply lookup_insert_eq.
    - lia.
    - done. }
  unfold created, with_region, ret. simpl.
  by rewrite insert_insert_eq, Hlen.
Qed.

(** Past [INT_MAX] elements the copy loop's [int] counter overflows. *)
Lemma vector_copy_overflow this rhs r s :
  objs s !! rhs = Some r → INT_MAX < numElements r ≤ max_size →
  vector.vector_copy this rhs s = UB.
Proof.
  intros Hr Hn. unfold vector.vector_copy, vector.empty.
  erewrite bind_Ok by by apply get_Ok.
  erewrite bind_Ok by (by erewrite bind_Ok by by apply get_Ok).
  rewrite bool_decide_eq_false_2 by (unfold INT_MAX in *; lia). simpl.
  erewrite bind_Ok by (apply allocate_Ok; unfold INT_MAX in *; lia).
  erewrite bind_Ok by done.
  apply for_int_overflow; [lia|].
  intros i s1 s2. unfold bind, load, construct.
  destruct (heap s1 !! blk (data r +ₚ i)) as [reg|]; [|done].
  destruct (cells reg !! off (data r +ₚ i)); [|done].
  destruct (heap s1 !! _); [|done]. by case_decide.
Qed.

(** *** [resize] *)

Lemma repr_nonnull h v xs :
  repr h v xs → 0 < numCapacity v → data v ≠ nullptr.
Proof.
  intros Hr Hcap Hnull. destruct Hr as (_ & _ & [[_ ?]|(? & _)]); [lia|].
  by rewrite Hnull in *.
Qed.

Lemma put_same this v s : objs s !! this = Some v → put this v s = Ok () s.
Proof.
  intros Hv. unfold put. rewrite insert_id by done. by destruct s.
Qed.

Lemma resize_fill_shrink this v xs n (t : ref T) s :
  objs s !! this = Some v → repr (heap s) v xs →
  0 ≤ n < numElements v →
  vector.resize_fill this n t s
  = Ok () (in_place this v (take (Z.to_nat n) xs) s).
Proof.
  intros Hv Hr Hn. unfold vector.resize_fill.
  erewrite bind_Ok by by apply get_Ok.
  rewrite decide_True by lia.
  pose proof (repr_length _ _ _ Hr) as Hlen.
  pose proof (repr_bounds _ _ _ Hr) as Hb.
  destruct (repr_region _ _ _ Hr) as (Hd & Hb0 & Hh);
    [eapply repr_nonnull; [done|lia]|].
  assert (length (take (Z.to_nat n) xs) = Z.to_nat n) as Htake
    by (rewrite length_take; lia).
  erewrite bind_Ok; last first.
  { rewrite (for_size_t_loop _ _ (length (drop (Z.to_nat n) xs)))
      by (rewrite length_drop; lia).
    rewrite Hd.
    eapply (loop_destroy _ _ _ (map_seqZ 0 (take (Z.to_nat n) xs))).
    - rewrite Hh. do 2 f_equal.
      rewrite <- (take_drop (Z.to_nat n) xs) at 1.
      rewrite map_seqZ_app. do 2 f_equal. lia.
    - intros j Hj. apply lookup_map_seqZ_None. lia. }
  rewrite (set_numElements_Ok _ v) by done.
  unfold in_place, heap_put, with_region.
  rewrite decide_False by (eapply repr_nonnull; [done|lia]). simpl.
  rewrite Htake. by rewrite Z2Nat.id by lia.
Qed.

Lemma resize_fill_same this v n (t : ref T) s :
  objs s !! this = Some v → n = numElements v →
  vector.resize_fill this n t s = Ok () s.
Proof.
  intros Hv ->. unfold vector.resize_fill.
  erewrite bind_Ok by by apply get_Ok.
  rewrite decide_False by lia. rewrite decide_False by lia.
  erewrite bind_Ok by done.
  unfold set_numElements. erewrite bind_Ok by by apply get_Ok.
  apply put_same. by destruct v.
Qed.

(** There is room: the object [t] is bound to is read in every round, in
    the buffer as the rounds before have left it. *)
Lemma resize_fill_room_ref this v xs n (t : ref T) x s :
  objs s !! this = Some v → repr (heap s) v xs →
  numElements v < n ≤ numCapacity v →
  read t s = Ok x s →
  vector.resize_fill this n t s
  = Ok () (in_place this v (xs ++ replicate (Z.to_nat (n - numElements v)) x) s).
Proof.
  intros Hv Hr Hn Ht. unfold vector.resize_fill.
  erewrite bind_Ok by by apply get_Ok.
  rewrite decide_False by lia. rewrite decide_True by lia.
  rewrite decide_False by lia.
  pose proof (repr_length _ _ _ Hr) as Hlen.
  pose proof (repr_bounds _ _ _ Hr) as Hb.
  destruct (repr_region _ _ _ Hr) as (Hd & Hb0 & Hh);
    [eapply repr_nonnull; [done|lia]|].
  erewrite bind_Ok; last first.
  { erewrite bind_Ok by done.
    erewrite bind_Ok by by apply get_Ok.
    rewrite (for_size_t_loop _ _ (Z.to_nat (n - numElements v))) by lia.
    rewrite Hd, Hlen.
    eapply loop_construct_read; [exact Hh|lia|exact Ht]. }
  rewrite (set_numElements_Ok _ v) by done.
  unfold in_place, heap_put, with_region.
  rewrite decide_False by (eapply repr_nonnull; [done|lia]). simpl.
  rewrite length_app, length_replicate, ?Hlen.
  by replace (Z.of_nat (length xs + Z.to_nat (n - Z.of_nat (length xs))))
    with n by lia.
Qed.

Lemma resize_fill_room_UB this v xs n (t : ref T) s :
  objs s !! this = Some v → repr (heap s) v xs →
  numElements v < n ≤ numCapacity v →
  read t s = UB →
  vector.resize_fill this n t s = UB.
Proof.
  intros Hv Hr Hn Ht. unfold vector.resize_fill.
  erewrite bind_Ok by by apply get_Ok.
  rewrite decide_False by lia. rewrite decide_True by lia.
  rewrite decide_False by lia.
  apply bind_UB.
  erewrite bind_Ok by done.
  erewrite bind_Ok by by apply get_Ok.
  rewrite (for_size_t_loop _ _ (S (Z.to_nat (n - numElements v - 1)))) by lia.
  by apply loop_read_UB.
Qed.

(** The buffer is too small: the object [t] is bound to is read in the
    store that [reserve] leaves. *)
Lemma resize_fill_grow_ref this v xs n (t : ref T) x s :
  wf s → objs s !! this = Some v → repr (heap s) v xs →
  numCapacity v < n ≤ max_size →
  read t (relocated this v n xs s) = Ok x (relocated this v n xs s) →
  vector.resize_fill this n t s
  = Ok () (relocated this v n
             (xs ++ replicate (Z.to_nat (n - numElements v)) x) s).
Proof.
  intros Hwf Hv Hr Hn Ht. unfold vector.resize_fill.
  erewrite bind_Ok by by apply get_Ok.
  pose proof (repr_length _ _ _ Hr) as Hlen.
  pose proof (repr_bounds _ _ _ Hr) as Hb.
  rewrite decide_False by lia. rewrite decide_True by lia.
  rewrite decide_True by lia.
  erewrite bind_Ok; last first.
  { erewrite bind_Ok by (eapply reserve_Ok; [done..|lia]).
    erewrite bind_Ok by (apply get_Ok, lookup_insert_eq).
    cbn [data numElements].
    rewrite (for_size_t_loop _ _ (Z.to_nat (n - numElements v))) by lia.
    eapply loop_construct_read; [apply lookup_insert_eq|lia|exact Ht]. }
  erewrite set_numElements_Ok by apply lookup_insert_eq.
  unfold relocated, with_region. simpl.
  rewrite !insert_insert_eq.
  rewrite length_app, length_replicate, ?Hlen.
  by replace (Z.of_nat (length xs + Z.to_nat (n - Z.of_nat (length xs))))
    with n by lia.
Qed.

Lemma resize_fill_grow_UB this v xs n (t : ref T) s :
  wf s → objs s !! this = Some v → repr (heap s) v xs →
  numCapacity v < n ≤ max_size →
  read t (relocated this v n xs s) = UB →
  vector.resize_fill this n t s = UB.
Proof.
  intros Hwf Hv Hr Hn Ht. unfold vector.resize_fill.
  erewrite bind_Ok by by apply get_Ok.
  pose proof (repr_length _ _ _ Hr) as Hlen.
  pose proof (repr_bounds _ _ _ Hr) as Hb.
  rewrite decide_False by lia. rewrite decide_True by lia.
  rewrite decide_True by lia.
  apply bind_UB.
  erewrite bind_Ok by (eapply reserve_Ok; [done..|lia]).
  erewrite bind_Ok by (apply get_Ok, lookup_insert_eq).
  cbn [data numElements].
  rewrite (for_size_t_loop _ _ (S (Z.to_nat (n - numElements v - 1)))) by lia.
  by apply loop_read_UB.
Qed.

(** The argument is an object outside the free store. *)
Lemma resize_fill_room this v xs n t s :
  objs s !! this = Some v → repr (heap s) v xs →
  numElements v < n ≤ numCapacity v →
  vector.resize_fill this n (Val t) s
  = Ok () (in_place this v (xs ++ replicate (Z.to_nat (n - numElements v)) t) s).
Proof. intros. by eapply resize_fill_room_ref. Qed.

Lemma resize_fill_grow this v xs n t s :
  wf s → objs s !! this = Some v → repr (heap s) v xs →
  numCapacity v < n ≤ max_size →
  vector.resize_fill this n (Val t) s
  = Ok () (relocated this v n
             (xs ++ replicate (Z.to_nat (n - numElements v)) t) s).
Proof. intros. by eapply resize_fill_grow_ref. Qed.

Lemma resize_fill_Throw this v n (t : ref T) s :
  objs s !! this = Some v → numElements v ≤ numCapacity v →
  numCapacity v < n → max_size < n →
  vector.resize_fill this n t s = Throw s.
Proof.
  intros Hv Hle Hn Hmax. unfold vector.resize_fill.
  erewrite bind_Ok by by apply get_Ok.
  rewrite decide_False by lia. rewrite decide_True by lia.
  rewrite decide_True by lia.
  apply bind_Throw. apply bind_Throw. by eapply reserve_Throw.
Qed.

(** [resize(n, t)] with [t] bound to an object that lies outside the
    vector's buffer, or to any object when the capacity suffices, does what
    [resize(n, t)] does for an object outside the free store with the same
    value. *)
Lemma resize_fill_read this n (t : ref T) x s v xs :
  wf s → objs s !! this = Some v → repr (heap s) v xs → 0 ≤ n →
  (numElements v < n → read t s = Ok x s) →
  (numCapacity v < n → outside t v) →
  vector.resize_fill this n t s = vector.resize_fill this n (Val x) s.
Proof.
  intros Hwf Hv Hr Hn Ht Hout. pose proof (repr_bounds _ _ _ Hr) as Hb.
  destruct (decide (n < numElements v)) as [Hlt|Hge].
  { by rewrite !(resize_fill_shrink this v xs) by (done || lia). }
  destruct (decide (n = numElements v)) as [Heq|Hne].
  { by rewrite !(resize_fill_same this v) by done. }
  destruct (decide (n ≤ numCapacity v)) as [Hroom|Hgrow].
  { rewrite (resize_fill_room_ref this v xs n t x) by (done || lia || (apply Ht; lia)).
    by rewrite (resize_fill_room this v xs) by (done || lia). }
  destruct (decide (n ≤ max_size)) as [Hmax|Hmax].
  - rewrite (resize_fill_grow_ref this v xs n t x);
      [by rewrite (resize_fill_grow this v xs) by (done || lia)|done..|lia|].
    apply read_relocated; [done|apply Hout; lia|apply Ht; lia].
  - by rewrite !(resize_fill_Throw this v) by (done || lia).
Qed.

(** [v.resize(n, v[i])] beyond the capacity: the reference is read after
    the buffer it points into has been released. *)
Lemma resize_fill_own_UB this v xs n p s :
  wf s → objs s !! this = Some v → repr (heap s) v xs →
  numCapacity v < n ≤ max_size → blk p = blk (data v) →
  vector.resize_fill this n (At p) s = UB.
Proof.
  intros Hwf Hv Hr Hn Hp.
  eapply resize_fill_grow_UB; [done..|]. by eapply read_relocated_own.
Qed.

Lemma resize_resize_fill this n :
  vector.resize (T:=T) (A:=A) this n = vector.resize_fill this n (Val T_default).
Proof. reflexivity. Qed.

(** *** Copy assignment *)

Lemma assign_copy_self this s : vector.assign_copy this this s = Ok () s.
Proof.
  unfold vector.assign_copy. by rewrite decide_False by (intros Hne; by apply Hne).
Qed.

Lemma assign_copy_relocate this rhs v r xs ys s :
  wf s → this ≠ rhs → objs s !! this = Some v → objs s !! rhs = Some r →
  repr (heap s) v xs → repr (heap s) r ys →
  numCapacity v < numElements r →
  vector.assign_copy this rhs s
  = Ok () (relocated this v (numElements r) ys s).
Proof.
  intros Hwf Hne Hv Hr Hrv Hrr Hcap. unfold vector.assign_copy.
  rewrite decide_True by done.
  erewrite bind_Ok by by apply get_Ok.
  erewrite bind_Ok by by apply get_Ok.
  rewrite decide_True by done.
  pose proof (repr_length _ _ _ Hrv) as Hlv.
  pose proof (repr_bounds _ _ _ Hrv) as Hbv.
  pose proof (repr_length _ _ _ Hrr) as Hlr.
  pose proof (repr_bounds _ _ _ Hrr) as Hbr.
  pose proof (wf_next_fresh _ Hwf) as Hfresh.
  destruct (repr_region _ _ _ Hrr) as (Hdr & Hr0 & Hhr);
    [eapply repr_nonnull; [done|lia]|].
  assert (blk (data r) ≠ next_block s) as Hrn by (intros Heq; congruence).
  destruct (decide (data v = nullptr)) as [Hnull|Hnn].
  - rewrite (repr_null _ _ _ Hrv Hnull) in Hlv. simpl in Hlv.
    erewrite bind_Ok; last first.
    { erewrite bind_Ok by (apply for_size_t_nil; lia).
      rewrite decide_False by (intros Hnn; by apply Hnn).
      erewrite bind_Ok by done.
      erewrite bind_Ok by by apply set_numCapacity_Ok.
      erewrite bind_Ok by (apply allocate_Ok; lia).
      erewrite bind_Ok by (eapply set_data_Ok; apply lookup_insert_eq).
      rewrite (for_size_t_loop _ _ (length ys)) by lia. rewrite Hdr.
      eapply (loop_copy _ _ _ _ ys ys []); simpl.
      - done.
      - by rewrite lookup_insert_ne.
      - apply lookup_insert_eq.
      - lia.
      - done. }
    erewrite set_numElements_Ok by apply lookup_insert_eq.
    unfold relocated, with_region. simpl.
    rewrite !insert_insert_eq, Hnull, Hlr. simpl.
    by rewrite delete_id by by apply wf_null_fresh.
  - destruct (repr_region _ _ _ Hrv Hnn) as (Hdv & Hv0 & Hhv).
    assert (blk (data v) ≠ next_block s) as Hvn by (intros Heq; congruence).
    assert (blk (data r) ≠ blk (data v)) as Hrv'.
    { eapply (wf_own _ Hwf rhs this); [done..|].
      eapply repr_nonnull; [done|lia]. }
    erewrite bind_Ok; last first.
    { erewrite bind_Ok; last first.
      { rewrite (for_size_t_loop _ _ (length xs)) by lia. rewrite Hdv.
        eapply (loop_destroy _ _ xs ∅ 0).
        - by rewrite (left_id_L ∅ (∪)).
        - intros. apply lookup_empty. }
      rewrite decide_True by done.
      erewrite bind_Ok; last first.
      { unfold deallocate. rewrite decide_False by done.
        rewrite with_region_heap. simpl.
        rewrite decide_True; [done|]. split; [|done]. by rewrite Hdv. }
      erewrite bind_Ok by by apply set_numCapacity_Ok.
      erewrite bind_Ok by (apply allocate_Ok; lia).
      erewrite bind_Ok by (eapply set_data_Ok; apply lookup_insert_eq).
      rewrite (for_size_t_loop _ _ (length ys)) by lia. rewrite Hdr.
      eapply (loop_copy _ _ _ _ ys ys []); simpl.
      - done.
      - rewrite lookup_insert_ne by done.
        rewrite delete_insert_eq. by rewrite lookup_delete_ne.
      - apply lookup_insert_eq.
      - lia.
      - done. }
    erewrite set_numElements_Ok by apply lookup_insert_eq.
    unfold relocated, with_region. simpl.
    rewrite !insert_insert_eq, Hlr. by rewrite delete_insert_eq.
Qed.

(** The element-wise assignment over the common prefix. *)
Lemma assign_prefix v r xs ys s :
  repr (heap s) v xs → repr (heap s) r ys →
  data v ≠ nullptr → (data r ≠ nullptr → blk (data r) ≠ blk (data v)) →
  for_size_t 0 (Z.min (numElements r) (numElements v))
    (λ i, x ← load (data r +ₚ i); store (data v +ₚ i) x) s
  = Ok () (with_region (blk (data v))
             (Region (numCapacity v)
                (map_seqZ 0 (take (length xs) ys ++ drop (length ys) xs))) s).
Proof.
  intros Hrv Hrr Hnn Hdisj.
  pose proof (repr_length _ _ _ Hrv) as Hlv.
  pose proof (repr_length _ _ _ Hrr) as Hlr.
  destruct (repr_region _ _ _ Hrv Hnn) as (Hdv & Hv0 & Hhv).
  destruct (decide (data r = nullptr)) as [Hnull|Hrnn].
  - pose proof (repr_null _ _ _ Hrr Hnull) as ->. simpl in *.
    rewrite for_size_t_nil by lia.
    rewrite take_nil, drop_0. simpl. by rewrite with_region_id.
  - destruct (repr_region _ _ _ Hrr Hrnn) as (Hdr & Hr0 & Hhr).
    rewrite (for_size_t_loop _ _ (length (take (length xs) ys)))
      by (rewrite length_take; lia).
    rewrite Hdr, Hdv.
    erewrite (loop_assign _ _ _ _ ys _ [] xs); simpl.
    + do 4 f_equal. rewrite length_take.
      destruct (decide (length xs ≤ length ys)%nat).
      * rewrite Nat.min_l by done. rewrite !drop_ge by lia. done.
      * by rewrite Nat.min_r by lia.
    + by apply Hdisj.
    + done.
    + done.
    + rewrite length_take. lia.
    + intros k y Hk. by apply lookup_take_Some in Hk as [? _].
Qed.

Lemma assign_copy_in_place this rhs v r xs ys s :
  wf s → this ≠ rhs → objs s !! this = Some v → objs s !! rhs = Some r →
  repr (heap s) v xs → repr (heap s) r ys →
  numElements r ≤ numCapacity v →
  vector.assign_copy this rhs s = Ok () (in_place this v ys s).
Proof.
  intros Hwf Hne Hv Hr Hrv Hrr Hcap. unfold vector.assign_copy.
  rewrite decide_True by done.
  erewrite bind_Ok by by apply get_Ok.
  erewrite bind_Ok by by apply get_Ok.
  rewrite decide_False by lia.
  pose proof (repr_length _ _ _ Hrv) as Hlv.
  pose proof (repr_bounds _ _ _ Hrv) as Hbv.
  pose proof (repr_length _ _ _ Hrr) as Hlr.
  pose proof (repr_bounds _ _ _ Hrr) as Hbr.
  destruct (decide (data v = nullptr)) as [Hnull|Hnn].
  - assert (numCapacity v = 0) as Hc0.
    { destruct Hrv as (_ & _ & [[_ ?]|(? & _)]); [done|]. by rewrite Hnull in *. }
    assert (ys = []) as -> by (apply length_zero_iff_nil; lia).
    erewrite bind_Ok; last first.
    { erewrite bind_Ok by (apply for_size_t_nil; lia).
      rewrite decide_False by lia. by rewrite decide_False by lia. }
    rewrite (set_numElements_Ok _ v) by done.
    unfold in_place, heap_put. rewrite decide_True by done.
    by rewrite Hlr.
  - destruct (repr_region _ _ _ Hrv Hnn) as (Hdv & Hv0 & Hhv).
    assert (data r ≠ nullptr → blk (data r) ≠ blk (data v)) as Hdisj.
    { intros Hrnn. by eapply (wf_own _ Hwf rhs this). }
    assert (∀ s1, objs s1 = objs s → next_block s1 = next_block s →
              heap s1 = <[blk (data v) := Region (numCapacity v) (map_seqZ 0 ys)]> (heap s) →
              set_numElements this (numElements r) s1
              = Ok () (in_place this v ys s)) as Hfin.
    { intros s1 Ho Hnb Hh. erewrite set_numElements_Ok by by rewrite Ho.
      unfold in_place, heap_put. rewrite decide_False by done.
      by rewrite Ho, Hnb, Hh, Hlr. }
    destruct (decide (numElements r < numElements v)) as [Hlt|Hge];
      [|destruct (decide (numElements r > numElements v)) as [Hgt|Hle]].
    + erewrite bind_Ok; last first.
      { erewrite bind_Ok by by eapply assign_prefix.
        eapply (for_destroy _ _ _ (map_seqZ 0 ys) (drop (length ys) xs));
          [exact Hdv| | |].
        - rewrite with_region_heap. do 2 f_equal.
          rewrite firstn_all2 by lia.
          rewrite map_seqZ_app. do 2 f_equal. lia.
        - intros j Hj. apply lookup_map_seqZ_None. lia.
        - rewrite length_drop. lia. }
      apply Hfin; [done..|]. simpl. by rewrite insert_insert_eq.
    + destruct (repr_region _ _ _ Hrr) as (Hdr & Hr0 & Hhr);
        [eapply repr_nonnull; [done|lia]|].
      assert (data r ≠ nullptr) as Hrnn by (eapply repr_nonnull; [done|lia]).
      assert (length (take (length xs) ys) = length xs) as Htake
        by (rewrite length_take; lia).
      erewrite bind_Ok; last first.
      { erewrite bind_Ok by by eapply assign_prefix.
        eapply (for_copy _ _ _ _ _ _ ys (take (length xs) ys)
                  (drop (length xs) ys)); [exact Hdr|exact Hdv|..].
        - by apply Hdisj.
        - rewrite with_region_heap_ne; [done|]. by apply not_eq_sym, Hdisj.
        - rewrite with_region_heap. do 2 f_equal.
          rewrite drop_ge by lia. by rewrite (right_id_L [] (++)).
        - rewrite Htake. lia.
        - rewrite length_drop. lia.
        - lia.
        - intros k y Hk. rewrite Htake. by rewrite lookup_drop in Hk. }
      apply Hfin; [done..|]. simpl. by rewrite insert_insert_eq, take_drop.
    + erewrite bind_Ok; last first.
      { erewrite bind_Ok by by eapply assign_prefix. done. }
      apply Hfin; [done..|]. simpl.
      rewrite firstn_all2 by lia. rewrite drop_ge by lia.
      by rewrite (right_id_L [] (++)).
Qed.

End MoreMembers.

(** ** Exchanging and handing over buffers *)

Section Exchange.
Context {T A : Type} `{!Allocator A} `{!DefaultConstructible T}.
Implicit Types (s : state T A) (v r : vector A) (xs ys : list T) (t : T).

Lemma repr_alloc h (a a' : A) d c n xs :
  repr h (Vector a d c n) xs → repr h (Vector a' d c n) xs.
Proof. done. Qed.

Lemma wf_swapped this rhs v r s :
  wf s → objs s !! this = Some v → objs s !! rhs = Some r →
  wf (swapped this rhs v r s).
Proof.
  intros Hwf Hv Hr.
  destruct (decide (this = rhs)) as [->|Hne].
  { rewrite Hv in Hr. injection Hr as <-. unfold swapped.
    rewrite insert_insert_eq, insert_id by done. by destruct s. }
  pose (π := λ l : loc, if decide (l = this) then rhs
                        else if decide (l = rhs) then this else l).
  assert (∀ l, objs (swapped this rhs v r s) !! l = objs s !! π l) as Hπ.
  { intros l. unfold swapped, π. simpl.
    repeat case_decide; simplify_map_eq; done. }
  assert (∀ l1 l2, l1 ≠ l2 → π l1 ≠ π l2) as Hinj.
  { intros l1 l2. unfold π. repeat case_decide; congruence. }
  split.
  - apply (wf_next _ Hwf).
  - apply (wf_fresh _ Hwf).
  - intros l v'. rewrite Hπ. apply (wf_repr _ Hwf).
  - intros l1 l2 v1 v2 Hl. rewrite !Hπ. apply (wf_own _ Hwf). by apply Hinj.
Qed.

Lemma wf_handed_over this rhs r s :
  wf s → objs s !! rhs = Some r → this ≠ rhs →
  wf (handed_over this rhs r s).
Proof.
  intros Hwf Hr Hne. destruct (wf_repr _ Hwf _ _ Hr) as [ys Hys].
  split.
  - apply (wf_next _ Hwf).
  - apply (wf_fresh _ Hwf).
  - intros l v'. unfold handed_over. simpl.
    destruct (decide (l = rhs)) as [->|?].
    + rewrite lookup_insert_eq. intros [= <-]. exists [].
      unfold repr. simpl. unfold max_size, PTRDIFF_MAX.
      split; [done|]. split; [lia|]. by left.
    + rewrite lookup_insert_ne by done.
      destruct (decide (l = this)) as [->|?].
      * rewrite lookup_insert_eq. intros [= <-]. exists ys.
        destruct r. by eapply repr_alloc.
      * rewrite lookup_insert_ne by done. apply (wf_repr _ Hwf).
  - intros l1 l2 v1 v2 Hl. unfold handed_over. simpl.
    destruct (decide (l1 = rhs)) as [->|?].
    { rewrite lookup_insert_eq. by intros [= <-]. }
    rewrite (lookup_insert_ne _ rhs l1) by done.
    destruct (decide (l2 = rhs)) as [->|?].
    { rewrite lookup_insert_eq. intros Hv1 [= <-] Hnn. simpl.
      destruct (decide (l1 = this)) as [->|?].
      - rewrite lookup_insert_eq in Hv1. injection Hv1 as <-. simpl in *.
        by destruct (repr_region _ _ _ Hys Hnn) as (_ & ? & _).
      - rewrite lookup_insert_ne in Hv1 by done.
        destruct (wf_repr _ Hwf _ _ Hv1) as [zs Hzs].
        by destruct (repr_region _ _ _ Hzs Hnn) as (_ & ? & _). }
    rewrite (lookup_insert_ne _ rhs l2) by done.
    destruct (decide (l1 = this)) as [->|?];
      destruct (decide (l2 = this)) as [->|?]; [done|..].
    + rewrite lookup_insert_eq, lookup_insert_ne by done.
      intros [= <-] Hv2. simpl. by apply (wf_own _ Hwf rhs l2).
    + rewrite lookup_insert_eq, lookup_insert_ne by done.
      intros Hv1 [= <-]. simpl. by apply (wf_own _ Hwf l1 rhs).
    + rewrite !lookup_insert_ne by done. by apply (wf_own _ Hwf).
Qed.

(** *** Move assignment *)

Lemma assign_move_Ok this rhs v r s :
  wf s → objs s !! this = Some v → objs s !! rhs = Some r →
  vector.assign_move this rhs s = Ok () (move_assigned this rhs v r s).
Proof.
  intros Hwf Hv Hr. destruct (wf_repr _ Hwf _ _ Hv) as [xs Hxs].
  pose proof (repr_length _ _ _ Hxs) as Hlen.
  pose proof (repr_bounds _ _ _ Hxs) as Hb.
  unfold vector.assign_move.
  erewrite bind_Ok by by eapply clear_Ok.
  assert (repr (heap (in_place this v [] s))
            (Vector (alloc v) (data v) (numCapacity v) 0) []) as Hxs1.
  { eapply (in_place_repr this v xs []); [done|simpl; lia]. }
  assert (objs (in_place this v [] s) !! this
          = Some (Vector (alloc v) (data v) (numCapacity v) 0)) as Hv1
    by apply lookup_insert_eq.
  unfold move_assigned.
  destruct (decide (0 < numCapacity v)) as [Hcap|Hcap].
  - erewrite bind_Ok by (by eapply shrink_to_fit_release).
    pose proof (repr_nonnull _ _ _ Hxs Hcap) as Hnn.
    destruct (decide (this = rhs)) as [<-|Hne].
    + erewrite swap_Ok by apply lookup_insert_eq.
      unfold swapped, released, in_place, heap_put. simpl.
      rewrite decide_False by done.
      by rewrite !insert_insert_eq, delete_insert_eq.
    + erewrite swap_Ok; [|apply lookup_insert_eq|].
      2:{ unfold released, in_place. simpl. by rewrite !lookup_insert_ne. }
      unfold swapped, released, in_place, heap_put. simpl.
      rewrite decide_False by done.
      by rewrite !insert_insert_eq, delete_insert_eq.
  - assert (numCapacity v = 0) as Hc0 by lia.
    assert (numElements v = 0) as Hn0 by lia.
    assert (in_place this v [] s = s) as ->.
    { unfold in_place, heap_put. simpl. rewrite Nat2Z.inj_0.
      replace (Vector (alloc v) (data v) (numCapacity v) 0) with v
        by (destruct v; simpl in *; congruence).
      rewrite (insert_id (objs s)) by done.
      destruct (decide (data v = nullptr)) as [|Hnn]; [by destruct s|].
      destruct (repr_region _ _ _ Hxs Hnn) as (_ & _ & Hh).
      assert (xs = []) as -> by (apply length_zero_iff_nil; lia).
      rewrite insert_id by done. by destruct s. }
    erewrite bind_Ok by (eapply shrink_to_fit_noop; [done|lia]).
    erewrite swap_Ok by done.
    unfold swapped. do 4 f_equal. destruct v; simpl in *; congruence.
Qed.

End Exchange.

(** ** Every public operation *)

Section PublicOperations.
Context {T A : Type} `{!Allocator A} `{!DefaultConstructible T}.
Implicit Types (s : state T A) (v r : vector A) (xs ys : list T) (t : T)
  (o : op (T:=T) (A:=A)).

Lemma get_None {X : Type} this (k : vector A → M T A X) s :
  objs s !! this = None → bind (get this) k s = UB.
Proof. intros Hv. unfold bind, get. by rewrite Hv. Qed.

Lemma observer_Ok {X : Type} (f : vector A → X) this s s' :
  bind (bind (get this) (λ v, ret (f v))) (λ _, ret ()) s = Ok () s' → s' = s.
Proof.
  unfold bind, get, ret. destruct (objs s !! this); [|done]. by intros [= <-].
Qed.

Lemma fill_effect o this n x a s s' :
  wf s → objs s !! this = None → 0 ≤ n →
  (n = 0 → allocate_zero_is_null a = false → allocates_nothing o) →
  vector.vector_fill this n x a s = Ok () s' → effect s o s'.
Proof.
  intros Hwf Hfree Hn Hzero Hrun.
  assert (INT_MAX ≤ max_size) by (unfold INT_MAX, max_size, PTRDIFF_MAX; lia).
  destruct (decide (n = 0)) as [->|Hn0].
  - rewrite vector_fill_zero in Hrun. injection Hrun as <-.
    destruct (allocate_zero_is_null a) eqn:Hpol.
    + by constructor.
    + constructor; [done| |by auto]. simpl.
      unfold max_size, PTRDIFF_MAX. lia.
  - destruct (decide (n ≤ INT_MAX)).
    + rewrite vector_fill_Ok in Hrun by lia. injection Hrun as <-.
      constructor; [done| |lia]. rewrite length_replicate. lia.
    + destruct (decide (n ≤ max_size)).
      * by rewrite vector_fill_overflow in Hrun by lia.
      * by rewrite vector_fill_Throw in Hrun by lia.
Qed.

(** A call that completes has read some value. *)
Lemma push_back_Ok_inv this (t : ref T) s s' :
  wf s → vector.push_back this t s = Ok () s' →
  ∃ x, vector.push_back this (Val x) s = Ok () s'.
Proof.
  intros Hwf Hrun.
  destruct (objs s !! this) as [v|] eqn:Hv;
    [|unfold vector.push_back in Hrun; by rewrite (get_None this) in Hrun].
  destruct (wf_repr _ Hwf _ _ Hv) as (xs & Hr).
  pose proof (repr_bounds _ _ _ Hr) as Hb.
  destruct (decide (numElements v < numCapacity v)) as [Hlt|Hge].
  - destruct (read_cases t s) as [Hub|(x & Hx)].
    + by rewrite (push_back_room_UB _ v xs) in Hrun by done.
    + exists x. rewrite (push_back_room_ref _ v xs t x) in Hrun by done.
      by rewrite (push_back_room _ v xs).
  - destruct (decide (grown (numCapacity v) ≤ max_size)) as [Hmax|Hmax].
    + destruct (read_cases t (relocated this v (grown (numCapacity v)) xs s))
        as [Hub|(x & Hx)].
      * by rewrite (push_back_grow_UB _ v xs) in Hrun by (done || lia).
      * exists x. rewrite (push_back_grow_ref _ v xs t x) in Hrun by (done || lia).
        by rewrite (push_back_grow _ v xs) by (done || lia).
    + by rewrite (push_back_Throw _ v) in Hrun by (done || lia).
Qed.

Lemma push_back_effect o this (t : ref T) s s' :
  wf s → vector.push_back this t s = Ok () s' → effect s o s'.
Proof.
  intros Hwf Hrun. apply push_back_Ok_inv in Hrun as (x & Hrun); [|done].
  destruct (objs s !! this) as [v|] eqn:Hv;
    [|unfold vector.push_back in Hrun; by rewrite (get_None this) in Hrun].
  destruct (wf_repr _ Hwf _ _ Hv) as [xs Hxs].
  pose proof (repr_length _ _ _ Hxs) as Hlen.
  pose proof (repr_bounds _ _ _ Hxs) as Hb.
  destruct (decide (numElements v < numCapacity v)) as [Hroom|Hfull].
  - rewrite (push_back_room _ _ xs) in Hrun by done. injection Hrun as <-.
    econstructor; [done..|]. rewrite length_app. simpl. lia.
  - assert (numCapacity v = numElements v) as Heq by lia.
    destruct (decide (grown (numCapacity v) ≤ max_size)) as [Hmax|Hmax].
    + rewrite (push_back_grow _ _ xs) in Hrun by done. injection Hrun as <-.
      assert (numCapacity v < grown (numCapacity v)) by
        (unfold grown; case_decide; lia).
      econstructor; [done..|lia|]. rewrite length_app. simpl. lia.
    + by rewrite (push_back_Throw _ v) in Hrun by (done || lia).
Qed.

Lemma resize_fill_effect o this n (t : ref T) s s' :
  wf s → 0 ≤ n → vector.resize_fill this n t s = Ok () s' → effect s o s'.
Proof.
  intros Hwf Hn Hrun.
  destruct (objs s !! this) as [v|] eqn:Hv;
    [|unfold vector.resize_fill in Hrun; by rewrite (get_None this) in Hrun].
  destruct (wf_repr _ Hwf _ _ Hv) as [xs Hxs].
  pose proof (repr_length _ _ _ Hxs) as Hlen.
  pose proof (repr_bounds _ _ _ Hxs) as Hb.
  destruct (decide (n < numElements v)) as [Hlt|Hge].
  { rewrite (resize_fill_shrink _ _ xs) in Hrun by done. injection Hrun as <-.
    econstructor; [done..|]. rewrite length_take. lia. }
  destruct (decide (n = numElements v)) as [Heq|Hne].
  { rewrite (resize_fill_same _ v) in Hrun by done. injection Hrun as <-.
    constructor. }
  destruct (decide (n ≤ numCapacity v)) as [Hroom|Hgrow].
  { destruct (read_cases t s) as [Hub|(x & Hx)];
      [by rewrite (resize_fill_room_UB _ v xs) in Hrun by (done || lia)|].
    rewrite (resize_fill_room_ref _ v xs n t x) in Hrun by (done || lia).
    injection Hrun as <-.
    econstructor; [done..|]. rewrite length_app, length_replicate. lia. }
  destruct (decide (n ≤ max_size)) as [Hmax|Hmax].
  - destruct (read_cases t (relocated this v n xs s)) as [Hub|(x & Hx)];
      [by rewrite (resize_fill_grow_UB _ v xs) in Hrun by (done || lia)|].
    rewrite (resize_fill_grow_ref _ v xs n t x) in Hrun by (done || lia).
    injection Hrun as <-.
    econstructor; [done..|lia|]. rewrite length_app, length_replicate. lia.
  - by rewrite (resize_fill_Throw _ v) in Hrun by (done || lia).
Qed.

(** Every completed call leaves the store in one of the shapes. *)
Lemma run_effect o s s' :
  wf s → well_called o s → run o s = Ok () s' → effect s o s'.
Proof.
  intros Hwf Hcall Hrun. destruct o as
    [this a|this n a|this n x a|this l a|this rhs|this rhs|this rhs|this rhs
    |this rhs|this t|this t|this n|this n|this n t|this|this|this
    |this|this|this|this|this|this i|this|this]; simpl in Hrun, Hcall.
  - (* vector() *)
    injection Hrun as <-. by constructor.
  - (* vector(num) *)
    destruct Hcall as [Hfree Hn].
    eapply (fill_effect _ this n T_default a); [done..| |exact Hrun].
    intros. by split.
  - (* vector(num, t) *)
    destruct Hcall as [Hfree Hn].
    eapply (fill_effect _ this n x a); [done..| |exact Hrun].
    intros. by split.
  - (* vector(initializer_list) *)
    destruct l as [|y l].
    + rewrite vector_init_list_nil in Hrun. injection Hrun as <-.
      destruct (allocate_zero_is_null a) eqn:Hpol.
      * by constructor.
      * constructor; [done| |by split]. simpl.
        unfold max_size, PTRDIFF_MAX. lia.
    + destruct (decide (Z.of_nat (length (y :: l)) ≤ max_size)) as [Hmax|Hmax].
      * rewrite vector_init_list_Ok in Hrun by (simpl in *; lia).
        injection Hrun as <-.
        apply eff_created; [done|simpl in *; lia|simpl; lia].
      * unfold vector.vector_init_list in Hrun.
        erewrite bind_Throw in Hrun; [done|].
        unfold allocate. by rewrite decide_True by lia.
  - (* vector(const vector&) *)
    destruct (objs s !! rhs) as [r|] eqn:Hr;
      [|unfold vector.vector_copy in Hrun; by rewrite (get_None rhs) in Hrun].
    destruct (wf_repr _ Hwf _ _ Hr) as [ys Hys].
    pose proof (repr_length _ _ _ Hys) as Hlen.
    pose proof (repr_bounds _ _ _ Hys) as Hb.
    destruct (decide (numElements r = 0)) as [Hz|Hnz].
    + rewrite (vector_copy_empty _ _ r) in Hrun by done. injection Hrun as <-.
      by constructor.
    + destruct (decide (numElements r ≤ INT_MAX)).
      * rewrite (vector_copy_Ok _ _ r ys) in Hrun by (done || lia).
        injection Hrun as <-.
        constructor; [done|lia|lia].
      * by rewrite (vector_copy_overflow _ _ r) in Hrun by (done || lia).
  - (* vector(vector&&) *)
    destruct (objs s !! rhs) as [r|] eqn:Hr;
      [|unfold vector.vector_move in Hrun; by rewrite (get_None rhs) in Hrun].
    rewrite (vector_move_Ok _ _ r) in Hrun by (done || congruence).
    injection Hrun as <-. by constructor.
  - (* swap *)
    destruct (objs s !! this) as [v|] eqn:Hv; last first.
    { unfold vector.swap in Hrun.
      erewrite bind_UB in Hrun; [done|]. by apply get_None. }
    destruct (objs s !! rhs) as [r|] eqn:Hr; last first.
    { unfold vector.swap in Hrun.
      erewrite bind_UB in Hrun; [done|].
      erewrite bind_Ok by by apply get_Ok. by apply get_None. }
    rewrite (swap_Ok _ _ v r) in Hrun by done. injection Hrun as <-.
    by constructor.
  - (* operator = (const vector&) *)
    destruct (decide (this = rhs)) as [->|Hne].
    { rewrite assign_copy_self in Hrun. injection Hrun as <-. constructor. }
    unfold vector.assign_copy in Hrun. rewrite decide_True in Hrun by done.
    destruct (objs s !! this) as [v|] eqn:Hv;
      [|by rewrite (get_None this) in Hrun].
    destruct (objs s !! rhs) as [r|] eqn:Hr; last first.
    { erewrite bind_Ok in Hrun by by apply get_Ok.
      by rewrite (get_None rhs) in Hrun. }
    destruct (wf_repr _ Hwf _ _ Hv) as [xs Hxs].
    destruct (wf_repr _ Hwf _ _ Hr) as [ys Hys].
    pose proof (repr_length _ _ _ Hys) as Hlen.
    pose proof (repr_bounds _ _ _ Hys) as Hb.
    pose proof (repr_bounds _ _ _ Hxs) as Hbv.
    destruct (decide (numCapacity v < numElements r)) as [Hlt|Hge].
    + pose proof (assign_copy_relocate this rhs v r xs ys s
                    Hwf Hne Hv Hr Hxs Hys Hlt) as Heq.
      unfold vector.assign_copy in Heq. rewrite decide_True in Heq by done.
      rewrite Heq in Hrun. injection Hrun as <-.
      econstructor; [done..|lia|lia].
    + pose proof (assign_copy_in_place this rhs v r xs ys s
                    Hwf Hne Hv Hr Hxs Hys ltac:(lia)) as Heq.
      unfold vector.assign_copy in Heq. rewrite decide_True in Heq by done.
      rewrite Heq in Hrun. injection Hrun as <-.
      econstructor; [done..|lia].
  - (* operator = (vector&&) *)
    destruct (objs s !! this) as [v|] eqn:Hv; last first.
    { unfold vector.assign_move, vector.clear in Hrun.
      erewrite bind_UB in Hrun; [done|]. by apply get_None. }
    destruct (objs s !! rhs) as [r|] eqn:Hr.
    + rewrite (assign_move_Ok _ _ v r) in Hrun by done.
      injection Hrun as <-. by constructor.
    + assert (this ≠ rhs) as Hne by congruence.
      destruct (wf_repr _ Hwf _ _ Hv) as [xs Hxs].
      pose proof (repr_bounds _ _ _ Hxs) as Hbv.
      unfold vector.assign_move in Hrun.
      erewrite bind_Ok in Hrun by by eapply clear_Ok.
      assert (repr (heap (in_place this v [] s))
                (Vector (alloc v) (data v) (numCapacity v) 0) []) as Hxs1.
      { eapply (in_place_repr this v xs []); [done|simpl; lia]. }
      destruct (decide (0 < numCapacity v)).
      * erewrite bind_Ok in Hrun
          by (eapply shrink_to_fit_release; [apply lookup_insert_eq|done..]).
        unfold vector.swap in Hrun.
        erewrite bind_UB in Hrun; [done|].
        erewrite bind_Ok by (apply get_Ok, lookup_insert_eq).
        apply get_None. simpl. by rewrite !lookup_insert_ne by done.
      * erewrite bind_Ok in Hrun
          by (eapply shrink_to_fit_noop; [apply lookup_insert_eq|simpl; lia]).
        unfold vector.swap in Hrun.
        erewrite bind_UB in Hrun; [done|].
        erewrite bind_Ok by (apply get_Ok, lookup_insert_eq).
        apply get_None. simpl. by rewrite !lookup_insert_ne by done.
  - (* push_back(const T&) *)
    by eapply push_back_effect.
  - (* push_back(T&&) *)
    by eapply push_back_effect.
  - (* reserve *)
    destruct (objs s !! this) as [v|] eqn:Hv;
      [|unfold vector.reserve in Hrun; by rewrite (get_None this) in Hrun].
    destruct (wf_repr _ Hwf _ _ Hv) as [xs Hxs].
    pose proof (repr_length _ _ _ Hxs) as Hlen.
    pose proof (repr_bounds _ _ _ Hxs) as Hb.
    destruct (decide (n ≤ numCapacity v)).
    + rewrite (reserve_noop _ v) in Hrun by done. injection Hrun as <-.
      constructor.
    + destruct (decide (n ≤ max_size)).
      * rewrite (reserve_Ok _ v xs) in Hrun by (done || lia).
        injection Hrun as <-. econstructor; [done..|lia|lia].
      * by rewrite (reserve_Throw _ v) in Hrun by (done || lia).
  - (* resize(n) *)
    by eapply (resize_fill_effect _ this n (Val T_default)).
  - (* resize(n, t) *)
    by eapply resize_fill_effect.
  - (* clear *)
    destruct (objs s !! this) as [v|] eqn:Hv;
      [|unfold vector.clear in Hrun; by rewrite (get_None this) in Hrun].
    destruct (wf_repr _ Hwf _ _ Hv) as [xs Hxs].
    pose proof (repr_bounds _ _ _ Hxs) as Hb.
    rewrite (clear_Ok _ v xs) in Hrun by done. injection Hrun as <-.
    econstructor; [done..|simpl; lia].
  - (* pop_back *)
    destruct (objs s !! this) as [v|] eqn:Hv;
      [|unfold vector.pop_back in Hrun; by rewrite (get_None this) in Hrun].
    destruct (wf_repr _ Hwf _ _ Hv) as [xs Hxs].
    pose proof (repr_length _ _ _ Hxs) as Hlen.
    pose proof (repr_bounds _ _ _ Hxs) as Hb.
    destruct xs as [|x xs _] using rev_ind.
    + rewrite (pop_back_empty _ v) in Hrun by done. injection Hrun as <-.
      constructor.
    + rewrite (pop_back_Ok _ v xs x) in Hrun by done. injection Hrun as <-.
      econstructor; [done..|]. rewrite length_app in Hlen. simpl in Hlen. lia.
  - (* shrink_to_fit *)
    destruct (objs s !! this) as [v|] eqn:Hv;
      [|unfold vector.shrink_to_fit in Hrun; by rewrite (get_None this) in Hrun].
    destruct (wf_repr _ Hwf _ _ Hv) as [xs Hxs].
    pose proof (repr_length _ _ _ Hxs) as Hlen.
    pose proof (repr_bounds _ _ _ Hxs) as Hb.
    destruct (decide (numCapacity v ≤ numElements v)).
    { rewrite (shrink_to_fit_noop _ v) in Hrun by done. injection Hrun as <-.
      constructor. }
    destruct (decide (numElements v = 0)) as [Hz|Hnz].
    + assert (xs = []) as -> by (apply length_zero_iff_nil; lia).
      rewrite (shrink_to_fit_release _ v) in Hrun by (done || lia).
      injection Hrun as <-. constructor; [done..|lia].
    + rewrite (shrink_to_fit_relocate _ v xs) in Hrun by (done || lia).
      injection Hrun as <-. econstructor; [done..|lia|lia].
  - apply observer_Ok in Hrun as ->. constructor.
  - apply observer_Ok in Hrun as ->. constructor.
  - apply observer_Ok in Hrun as ->. constructor.
  - apply observer_Ok in Hrun as ->. constructor.
  - apply observer_Ok in Hrun as ->. constructor.
  - apply observer_Ok in Hrun as ->. constructor.
  - apply observer_Ok in Hrun as ->. constructor.
  - apply observer_Ok in Hrun as ->. constructor.
Qed.

End PublicOperations.

(** ** The representation invariants across the public operations *)

Section InvariantPreservation.
Context {T A : Type} `{!Allocator A} `{!DefaultConstructible T}.
Implicit Types (s : state T A) (v r : vector A) (xs ys : list T) (t : T)
  (o : op (T:=T) (A:=A)).

Lemma wf_move_assigned this rhs v r s :
  wf s → objs s !! this = Some v → objs s !! rhs = Some r →
  wf (move_assigned this rhs v r s).
Proof.
  intros Hwf Hv Hr. destruct (wf_repr _ Hwf _ _ Hv) as [xs Hxs].
  pose proof (repr_bounds _ _ _ Hxs) as Hb.
  unfold move_assigned. destruct (decide (0 < numCapacity v)) as [Hcap|Hcap].
  - pose proof (wf_released this v s Hwf Hv) as Hwf2.
    set (e := Vector (alloc v) nullptr 0 0).
    destruct (decide (this = rhs)) as [<-|Hne].
    + rewrite insert_insert_eq. exact Hwf2.
    + pose proof (wf_swapped this rhs e r (released this v s) Hwf2) as Hsw.
      unfold swapped, released in Hsw. simpl in Hsw.
      rewrite insert_insert_eq in Hsw. apply Hsw.
      * apply lookup_insert_eq.
      * by rewrite lookup_insert_ne.
  - pose proof (wf_swapped this rhs v r s Hwf Hv Hr) as Hsw.
    unfold swapped in Hsw.
    replace (Vector (alloc v) (data v) 0 0) with v; [done|].
    destruct v; simpl in *. f_equal; lia.
Qed.

(** Invariants I1 and the bounds on count and capacity hold after every
    public operation that completes. *)
Lemma effect_wf o s s' : wf s → effect s o s' → wf s'.
Proof.
  intros Hwf Heff. destruct Heff.
  - done.
  - by eapply wf_in_place.
  - by eapply wf_relocated.
  - by eapply wf_released.
  - by eapply wf_created.
  - by eapply wf_created_empty.
  - eapply wf_handed_over; [done..|congruence].
  - by eapply wf_swapped.
  - by eapply wf_move_assigned.
Qed.

Lemma insert_null_iff this v' s :
  all_null_iff_no_capacity s → null_iff_no_capacity v' →
  ∀ l v, <[this := v']> (objs s) !! l = Some v → null_iff_no_capacity v.
Proof.
  intros Hall Hv' l v. destruct (decide (l = this)) as [->|?].
  - rewrite lookup_insert_eq. by intros [= <-].
  - rewrite lookup_insert_ne by done. apply Hall.
Qed.

(** Invariant I2 holds after every public operation that completes,
    except after a constructor that asked for zero objects and was given
    a pointer that is not null. *)
Lemma effect_null_iff o s s' :
  wf s → all_null_iff_no_capacity s → ¬ allocates_nothing o →
  effect s o s' → all_null_iff_no_capacity s'.
Proof.
  intros Hwf Hall Hzero Heff.
  assert (null_iff_no_capacity (Vector (A:=A) A_default nullptr 0 0)) as Hempty
    by done.
  destruct Heff as [o|o this v xs xs' Hv Hxs Hlen|o this v xs cap' xs' Hv Hxs Hcap Hlen
    |this v Hv Hxs Hcap|o this a cap xs Hfree Hlen Hz|o this a Hfree
    |this rhs r Hfree Hr|this rhs v r Hv Hr|this rhs v r Hv Hr];
    unfold all_null_iff_no_capacity; simpl.
  - done.
  - eapply insert_null_iff; [done|]. exact (Hall _ _ Hv).
  - eapply insert_null_iff; [done|].
    pose proof (wf_next _ Hwf).
    unfold null_iff_no_capacity, nullptr. simpl. split; [|lia].
    intros [= Heq]. lia.
  - by eapply insert_null_iff.
  - eapply insert_null_iff; [done|].
    pose proof (wf_next _ Hwf).
    unfold null_iff_no_capacity, nullptr. simpl. split.
    + intros [= Heq]. lia.
    + intros Hc. by destruct Hzero; apply Hz.
  - by eapply insert_null_iff.
  - intros l v.
    destruct (decide (l = rhs)) as [->|?].
    { rewrite lookup_insert_eq. by intros [= <-]. }
    rewrite lookup_insert_ne by done.
    eapply insert_null_iff; [done|]. exact (Hall _ _ Hr).
  - intros l v'.
    destruct (decide (l = rhs)) as [->|?].
    { rewrite lookup_insert_eq. intros [= <-]. exact (Hall _ _ Hv). }
    rewrite lookup_insert_ne by done.
    eapply insert_null_iff; [done|]. exact (Hall _ _ Hr).
  - intros l v'.
    destruct (decide (l = rhs)) as [->|?].
    { rewrite lookup_insert_eq. intros [= <-].
      unfold null_iff_no_capacity. simpl.
      case_decide as Hcap; [done|]. split; [done|]. intros _.
      apply (Hall _ _ Hv).
      destruct (wf_repr _ Hwf _ _ Hv) as [xs Hxs].
      pose proof (repr_bounds _ _ _ Hxs). lia. }
    rewrite lookup_insert_ne by done.
    eapply insert_null_iff; [done|]. exact (Hall _ _ Hr).
Qed.

(** The two together, for a call of any public operation. *)
Lemma run_preserves_invariants o s s' :
  wf s → well_called o s → run o s = Ok () s' →
  wf s' ∧
  (all_null_iff_no_capacity s → ¬ allocates_nothing o →
   all_null_iff_no_capacity s').
Proof.
  intros Hwf Hcall Hrun.
  pose proof (run_effect o s s' Hwf Hcall Hrun) as Heff.
  split; [by eapply effect_wf|]. intros. by eapply effect_null_iff.
Qed.

End InvariantPreservation.

(** ** Move assignment against its specification *)

Section MoveAssignment.
Context {T A : Type} `{!Allocator A} `{!DefaultConstructible T}.
Implicit Types (s : state T A) (v r : vector A) (xs ys : list T) (t : T).

Lemma release_resources_Ok this v s :
  wf s → objs s !! this = Some v →
  release_resources this s = Ok () (released this v s).
Proof.
  intros Hwf Hv. destruct (wf_repr _ Hwf _ _ Hv) as [xs Hxs].
  pose proof (repr_length _ _ _ Hxs) as Hlen.
  unfold release_resources.
  erewrite bind_Ok by by apply get_Ok.
  destruct (decide (data v = nullptr)) as [Hnull|Hnn].
  - rewrite (repr_null _ _ _ Hxs Hnull) in Hlen. simpl in Hlen.
    erewrite bind_Ok by (apply for_size_t_nil; lia).
    erewrite bind_Ok by (unfold deallocate; by rewrite decide_True).
    unfold put, released. rewrite Hnull. simpl.
    by rewrite delete_id by by apply wf_null_fresh.
  - destruct (repr_region _ _ _ Hxs Hnn) as (Hd & Hb0 & Hh).
    erewrite bind_Ok; last first.
    { eapply (for_destroy _ _ _ ∅ xs); [exact Hd| | |lia].
      - by rewrite (left_id_L ∅ (∪)).
      - intros. apply lookup_empty. }
    erewrite bind_Ok; last first.
    { unfold deallocate. rewrite decide_False by done.
      rewrite with_region_heap. simpl.
      rewrite decide_True; [done|]. split; [|done]. by rewrite Hd. }
    unfold put, released. simpl. by rewrite delete_insert_eq.
Qed.

Lemma assign_move_spec_Ok this rhs v r s :
  wf s → objs s !! this = Some v → objs s !! rhs = Some r →
  assign_move_spec this rhs s = Ok () (move_assigned_spec this rhs v r s).
Proof.
  intros Hwf Hv Hr. unfold assign_move_spec.
  erewrite bind_Ok by by apply release_resources_Ok.
  unfold move_assigned_spec.
  destruct (decide (this = rhs)) as [<-|Hne].
  - rewrite Hv in Hr. injection Hr as <-.
    erewrite bind_Ok by (apply get_Ok, lookup_insert_eq).
    erewrite bind_Ok by (apply get_Ok, lookup_insert_eq).
    erewrite bind_Ok by done.
    erewrite bind_Ok by (apply get_Ok, lookup_insert_eq).
    unfold put, released. simpl. by rewrite !insert_insert_eq.
  - erewrite bind_Ok
      by (apply get_Ok; unfold released; simpl; by rewrite lookup_insert_ne).
    erewrite bind_Ok by (apply get_Ok, lookup_insert_eq).
    erewrite bind_Ok by done.
    erewrite bind_Ok
      by (apply get_Ok; unfold released; simpl; by rewrite !lookup_insert_ne).
    unfold put, released. simpl. by rewrite !insert_insert_eq.
Qed.

(** [observe] looks only at the count, the capacity and, when there are
    elements, the region behind the buffer pointer. *)
Lemma observe_ext s1 s2 l1 l2 v1 v2 :
  objs s1 !! l1 = Some v1 → objs s2 !! l2 = Some v2 →
  numElements v1 = numElements v2 → numCapacity v1 = numCapacity v2 →
  (0 < numElements v1 →
   data v1 = data v2 ∧ heap s1 !! blk (data v1) = heap s2 !! blk (data v1)) →
  observe s1 l1 = observe s2 l2.
Proof.
  intros H1 H2 Hn Hc Hdata. unfold observe. rewrite H1, H2. simpl.
  rewrite <- Hn, <- Hc. do 2 f_equal.
  destruct (decide (0 < numElements v1)) as [Hpos|Hzero].
  - destruct (Hdata Hpos) as [<- <-]. done.
  - by rewrite !seqZ_nil by lia.
Qed.

Lemma observe_empty s l v :
  objs s !! l = Some v → numElements v = 0 → numCapacity v = 0 →
  observe s l = Some (0, 0, []).
Proof. intros Hv Hn Hc. unfold observe. rewrite Hv. simpl. by rewrite Hn, Hc. Qed.

Lemma observe_repr s l v xs :
  objs s !! l = Some v → repr (heap s) v xs →
  observe s l = Some (numElements v, numCapacity v, Some <$> xs).
Proof.
  intros Hv Hxs. unfold observe. rewrite Hv. simpl. do 2 f_equal.
  pose proof (repr_length _ _ _ Hxs) as Hlen.
  destruct (decide (data v = nullptr)) as [Hnull|Hnn].
  - rewrite (repr_null _ _ _ Hxs Hnull) in *. simpl in *.
    by rewrite Hlen.
  - destruct (repr_region _ _ _ Hxs Hnn) as (Hd & Hb0 & Hh).
    rewrite Hh. simpl. rewrite Hd. simpl. rewrite Hlen.
    apply list_eq. intros i. rewrite !list_lookup_fmap.
    destruct (decide (i < length xs)%nat) as [Hi|Hi].
    + rewrite lookup_seqZ_lt by lia. simpl.
      rewrite lookup_map_seqZ_0 by lia.
      replace (Z.to_nat (0 + (0 + Z.of_nat i))) with i by lia.
      by destruct (lookup_lt_is_Some_2 xs i Hi) as [x ->].
    + rewrite lookup_seqZ_ge by lia. by rewrite lookup_ge_None_2 by lia.
Qed.

(** No object other than [this] lives in the region of [this]. *)
Lemma other_region_kept s this v l vl :
  wf s → objs s !! this = Some v → objs s !! l = Some vl → l ≠ this →
  0 < numElements vl →
  heap s !! blk (data vl) = delete (blk (data v)) (heap s) !! blk (data vl).
Proof.
  intros Hwf Hv Hl Hne Hpos. destruct (wf_repr _ Hwf _ _ Hl) as [zs Hzs].
  pose proof (repr_bounds _ _ _ Hzs) as Hb.
  assert (data vl ≠ nullptr) as Hnn by (eapply repr_nonnull; [done|lia]).
  destruct (repr_region _ _ _ Hzs Hnn) as (_ & Hb0 & _).
  rewrite lookup_delete_ne; [done|].
  destruct (decide (data v = nullptr)) as [->|Hvnn]; [simpl; lia|].
  apply not_eq_sym. by eapply (wf_own _ Hwf l this).
Qed.

(** The code and the specification leave stores that show the same
    sizes, capacities and elements, object by object; when the receiver
    satisfied I2 the two stores also hold the same regions and the same
    buffer pointers. *)
Lemma assign_move_refines this rhs v r s :
  wf s → objs s !! this = Some v → objs s !! rhs = Some r →
  ∃ s1 s2,
    vector.assign_move this rhs s = Ok () s1 ∧
    assign_move_spec this rhs s = Ok () s2 ∧
    wf s1 ∧
    (∀ l, observe s1 l = observe s2 l) ∧
    (this ≠ rhs →
       observe s1 this = observe s rhs ∧ observe s1 rhs = Some (0, 0, [])) ∧
    (null_iff_no_capacity v →
       heap s1 = heap s2 ∧ next_block s1 = next_block s2 ∧
       ∀ l, data <$> objs s1 !! l = data <$> objs s2 !! l).
Proof.
  intros Hwf Hv Hr.
  destruct (wf_repr _ Hwf _ _ Hv) as [xs Hxs].
  destruct (wf_repr _ Hwf _ _ Hr) as [ys Hys].
  pose proof (repr_bounds _ _ _ Hxs) as Hbv.
  pose proof (repr_bounds _ _ _ Hys) as Hbr.
  eexists _, _. split; [by apply assign_move_Ok|].
  split; [by apply assign_move_spec_Ok|].
  split; [by apply wf_move_assigned|].
  assert (∀ (h : gmap block (region T)),
            (if decide (0 < numCapacity v) then delete (blk (data v)) (heap s)
             else heap s) = h → ∀ l vl, objs s !! l = Some vl → l ≠ this →
            0 < numElements vl →
            h !! blk (data vl) = delete (blk (data v)) (heap s) !! blk (data vl))
    as Hkept.
  { intros h <- l vl Hl Hne Hpos. case_decide; [done|].
    by eapply other_region_kept. }
  split; [|split].
  - intros l. unfold move_assigned, move_assigned_spec.
    destruct (decide (l = rhs)) as [->|Hlr].
    { eapply observe_ext; simpl; [apply lookup_insert_eq..|done|done|].
      simpl. lia. }
    destruct (decide (l = this)) as [->|Hlt].
    { eapply observe_ext; simpl.
      - rewrite lookup_insert_ne by done. apply lookup_insert_eq.
      - rewrite lookup_insert_ne by done. apply lookup_insert_eq.
      - done.
      - done.
      - simpl. intros Hpos. split; [done|].
        eapply Hkept; [done|exact Hr|done|done]. }
    destruct (objs s !! l) as [vl|] eqn:Hl.
    + eapply observe_ext; simpl.
      * rewrite !lookup_insert_ne by done. exact Hl.
      * rewrite !lookup_insert_ne by done. exact Hl.
      * done.
      * done.
      * intros Hpos. split; [done|]. by eapply Hkept.
    + unfold observe. simpl. by rewrite !lookup_insert_ne, Hl by done.
  - intros Hne. split.
    + unfold move_assigned. eapply observe_ext; simpl.
      * rewrite lookup_insert_ne by done. apply lookup_insert_eq.
      * exact Hr.
      * done.
      * done.
      * intros Hpos. split; [done|]. case_decide; [|done].
        symmetry. eapply other_region_kept; [done|exact Hv|exact Hr|done|done].
    + unfold move_assigned. eapply observe_empty; simpl;
        [apply lookup_insert_eq|done..].
  - intros HI2. unfold move_assigned, move_assigned_spec. simpl.
    assert (¬ 0 < numCapacity v → data v = nullptr) as Hnull.
    { intros Hcap. apply HI2. lia. }
    split; [|split; [done|]].
    + case_decide as Hcap; [done|]. rewrite (Hnull Hcap). simpl.
      by rewrite delete_id by by apply wf_null_fresh.
    + intros l. destruct (decide (l = rhs)) as [->|Hlr].
      { rewrite !lookup_insert_eq. simpl. case_decide as Hcap; [done|].
        by rewrite (Hnull Hcap). }
      rewrite !(lookup_insert_ne _ rhs l) by done.
      destruct (decide (l = this)) as [->|Hlt].
      { by rewrite !lookup_insert_eq. }
      by rewrite !lookup_insert_ne by done.
Qed.

(** After [clear] no slot of the buffer holds an object any more, while
    the buffer itself is still there. *)
Lemma clear_destroys this v xs s :
  wf s → objs s !! this = Some v → repr (heap s) v xs →
  vector.clear this s = Ok () (in_place this v [] s) ∧
  (∀ i, load (data v +ₚ i) (in_place this v [] s) = UB) ∧
  (data v ≠ nullptr →
     heap (in_place this v [] s) !! blk (data v)
     = Some (Region (numCapacity v) ∅)).
Proof.
  intros Hwf Hv Hxs. split; [by eapply clear_Ok|].
  unfold in_place, heap_put, load. simpl.
  destruct (decide (data v = nullptr)) as [Hnull|Hnn].
  - split; [|done]. intros i. rewrite Hnull. simpl.
    case_match eqn:Hr0; [|done].
    pose proof (wf_fresh _ Hwf 0%nat (mk_is_Some _ _ Hr0)). lia.
  - split; [intros i|intros _]; by rewrite lookup_insert_eq.
Qed.

(** The three steps of the code, one after the other.  [clear] ends the
    life of every element of the receiver and keeps its buffer;
    [shrink_to_fit] gives the buffer back; [swap] exchanges the members.
    The first two steps together are the specification's release of the
    receiver's resources when the receiver satisfied I2. *)
Lemma assign_move_steps this rhs v r xs s :
  wf s → objs s !! this = Some v → objs s !! rhs = Some r →
  repr (heap s) v xs →
  ∃ sc ss,
    vector.clear this s = Ok () sc ∧
    (∀ i, load (data v +ₚ i) sc = UB) ∧
    (data v ≠ nullptr →
       heap sc !! blk (data v) = Some (Region (numCapacity v) ∅)) ∧
    vector.shrink_to_fit this sc = Ok () ss ∧
    (0 < numCapacity v →
       heap ss !! blk (data v) = None ∧
       objs ss !! this = Some (Vector (alloc v) nullptr 0 0)) ∧
    (null_iff_no_capacity v → release_resources this s = Ok () ss) ∧
    vector.swap this rhs ss = Ok () (move_assigned this rhs v r s).
Proof.
  intros Hwf Hv Hr Hxs.
  destruct (clear_destroys this v xs s Hwf Hv Hxs) as (Hclear & Hdead & Hreg).
  pose proof (repr_bounds _ _ _ Hxs) as Hb.
  pose proof (assign_move_Ok this rhs v r s Hwf Hv Hr) as Hrun.
  unfold vector.assign_move in Hrun.
  erewrite bind_Ok in Hrun by exact Hclear.
  set (sc := in_place this v [] s) in *.
  set (v1 := Vector (alloc v) (data v) (numCapacity v) 0).
  assert (repr (heap sc) v1 []) as Hxs1.
  { eapply (in_place_repr this v xs []); [done|simpl; lia]. }
  assert (objs sc !! this = Some v1) as Hv1 by apply lookup_insert_eq.
  destruct (decide (0 < numCapacity v)) as [Hcap|Hcap].
  - pose proof (shrink_to_fit_release this v1 sc Hv1 Hxs1 Hcap) as Hshrink.
    erewrite bind_Ok in Hrun by exact Hshrink.
    pose proof (repr_nonnull _ _ _ Hxs Hcap) as Hnn.
    exists sc, (released this v1 sc).
    split; [done|]. split; [done|]. split; [done|]. split; [done|].
    split; [|split; [|done]].
    + intros _. unfold released. simpl.
      split; [apply lookup_delete_eq|apply lookup_insert_eq].
    + intros _. rewrite (release_resources_Ok this v s) by done.
      unfold released, sc, in_place, heap_put. simpl.
      rewrite decide_False by done.
      by rewrite delete_insert_eq, insert_insert_eq.
  - assert (vector.shrink_to_fit this sc = Ok () sc) as Hshrink
      by (apply (shrink_to_fit_noop this v1); [done|simpl; lia]).
    erewrite bind_Ok in Hrun by exact Hshrink.
    exists sc, sc.
    split; [done|]. split; [done|]. split; [done|]. split; [done|].
    split; [intros; lia|]. split; [|done].
    intros HI2. rewrite (release_resources_Ok this v s) by done.
    assert (numCapacity v = 0) as Hc0 by lia.
    assert (numElements v = 0) as Hn0 by lia.
    assert (data v = nullptr) as Hnull by by apply HI2.
    unfold released, sc, in_place, heap_put. simpl.
    rewrite decide_True by done. rewrite Hnull, Hc0. simpl.
    by rewrite delete_id by by apply wf_null_fresh.
Qed.

End MoveAssignment.

(** ** Which operations leave a buffer where it is *)

Section BufferIdentity.
Context {T A : Type} `{!Allocator A} `{!DefaultConstructible T}.
Implicit Types (s : state T A) (v r : vector A) (xs ys : list T) (t : T)
  (o : op (T:=T) (A:=A)).

Lemma effect_buffer_kept o s s' :
  effect s o s' → regions_allocated s s' = 0 →
  ¬ exchanges_buffers o → ¬ frees_empty_buffer o s →
  ∀ l v, objs s !! l = Some v →
    ∃ v', objs s' !! l = Some v' ∧ data v' = data v.
Proof.
  intros Heff Hnone Hex Hfree l vl Hl.
  destruct Heff as [o|o this v xs xs' Hv Hxs Hlen|o this v xs cap' xs' Hv Hxs Hcap Hlen
    |this v Hv Hxs Hcap|o this a cap xs Hfresh Hlen Hz|o this a Hfresh
    |this rhs r Hfresh Hr|this rhs v r Hv Hr|this rhs v r Hv Hr].
  - by exists vl.
  - unfold in_place. simpl. destruct (decide (l = this)) as [->|Hne].
    + rewrite lookup_insert_eq. eexists. split; [done|]. simpl. congruence.
    + rewrite lookup_insert_ne by done. by exists vl.
  - unfold regions_allocated, relocated in Hnone. simpl in Hnone. lia.
  - destruct Hfree. exists v. split; [done|]. split; [|done].
    by rewrite (repr_length _ _ _ Hxs).
  - unfold regions_allocated, created in Hnone. simpl in Hnone. lia.
  - unfold created_empty. simpl.
    rewrite lookup_insert_ne by congruence. by exists vl.
  - by destruct Hex.
  - by destruct Hex.
  - by destruct Hex.
Qed.

(** The allocation strategy of a copy. *)
Lemma vector_copy_alloc this rhs r s s' :
  wf s → objs s !! rhs = Some r → this ≠ rhs →
  vector.vector_copy this rhs s = Ok () s' →
  ∃ b, objs s' !! this = Some b ∧ alloc b = A_default ∧
       objs s' !! rhs = Some r.
Proof.
  intros Hwf Hr Hne Hrun.
  destruct (wf_repr _ Hwf _ _ Hr) as [ys Hys].
  pose proof (repr_length _ _ _ Hys) as Hlen.
  pose proof (repr_bounds _ _ _ Hys) as Hb.
  destruct (decide (numElements r = 0)) as [Hz|Hnz].
  - rewrite (vector_copy_empty _ _ r) in Hrun by done. injection Hrun as <-.
    unfold created_empty. simpl. eexists.
    split; [apply lookup_insert_eq|]. split; [done|].
    by rewrite lookup_insert_ne.
  - destruct (decide (numElements r ≤ INT_MAX)).
    + rewrite (vector_copy_Ok _ _ r ys) in Hrun by (done || lia).
      injection Hrun as <-. unfold created. simpl. eexists.
      split; [apply lookup_insert_eq|]. split; [done|].
      by rewrite lookup_insert_ne.
    + by rewrite (vector_copy_overflow _ _ r) in Hrun by (done || lia).
Qed.

Lemma assign_copy_alloc this rhs v r s s' :
  wf s → objs s !! this = Some v → objs s !! rhs = Some r →
  vector.assign_copy this rhs s = Ok () s' →
  ∃ v' r', objs s' !! this = Some v' ∧ alloc v' = alloc v ∧
           objs s' !! rhs = Some r' ∧ alloc r' = alloc r.
Proof.
  intros Hwf Hv Hr Hrun.
  destruct (decide (this = rhs)) as [<-|Hne].
  { rewrite assign_copy_self in Hrun. injection Hrun as <-.
    rewrite Hv in Hr. injection Hr as <-. by exists v, v. }
  destruct (wf_repr _ Hwf _ _ Hv) as [xs Hxs].
  destruct (wf_repr _ Hwf _ _ Hr) as [ys Hys].
  destruct (decide (numCapacity v < numElements r)) as [Hlt|Hge].
  - rewrite (assign_copy_relocate this rhs v r xs ys) in Hrun by done.
    injection Hrun as <-. unfold relocated. simpl. eexists _, r.
    split; [apply lookup_insert_eq|]. split; [done|].
    split; [by rewrite lookup_insert_ne|done].
  - rewrite (assign_copy_in_place this rhs v r xs ys) in Hrun by (done || lia).
    injection Hrun as <-. unfold in_place. simpl. eexists _, r.
    split; [apply lookup_insert_eq|]. split; [done|].
    split; [by rewrite lookup_insert_ne|done].
Qed.

(** *** The copy constructor within the range of its loop counter *)

Lemma vector_copy_spec this rhs r xs s :
  wf s → objs s !! rhs = Some r → repr (heap s) r xs →
  objs s !! this = None → numElements r ≤ INT_MAX →
  ∃ s' b,
    vector.vector_copy this rhs s = Ok () s' ∧ wf s' ∧
    objs s' !! this = Some b ∧ objs s' !! rhs = Some r ∧
    numCapacity b = numElements r ∧ numElements b = numElements r ∧
    (numElements r = 0 → data b = nullptr) ∧
    repr (heap s') b xs ∧ repr (heap s') r xs ∧
    (data b ≠ nullptr → blk (data b) ≠ blk (data r)).
Proof.
  intros Hwf Hr Hxs Hfresh Hmax.
  pose proof (repr_length _ _ _ Hxs) as Hlen.
  pose proof (repr_bounds _ _ _ Hxs) as Hb.
  assert (this ≠ rhs) as Hne by congruence.
  destruct (decide (numElements r = 0)) as [Hz|Hnz].
  - exists (created_empty this A_default s), (Vector A_default nullptr 0 0).
    split; [by eapply vector_copy_empty|].
    split; [by apply wf_created_empty|].
    split; [apply lookup_insert_eq|].
    split; [unfold created_empty; simpl; by rewrite lookup_insert_ne|].
    split; [done|]. split; [done|]. split; [done|].
    assert (xs = []) as -> by (apply length_zero_iff_nil; lia).
    split; [|split; [done|done]].
    unfold repr. simpl. unfold max_size, PTRDIFF_MAX.
    split; [done|]. split; [lia|]. by left.
  - exists (created this A_default (numElements r) xs s),
           (Vector A_default (Ptr (next_block s) 0) (numElements r)
                   (Z.of_nat (length xs))).
    split; [eapply vector_copy_Ok; [done..|lia]|].
    assert (wf (created this A_default (numElements r) xs s)) as Hwf'
      by (apply wf_created; [done|lia]).
    split; [done|].
    split; [apply lookup_insert_eq|].
    split; [unfold created; simpl; by rewrite lookup_insert_ne|].
    split; [done|]. split; [done|]. split; [done|].
    split; [|split].
    + unfold repr, created. simpl. pose proof (wf_next _ Hwf).
      split; [done|]. split; [lia|]. right.
      split; [lia|]. split; [done|]. apply lookup_insert_eq.
    + eapply repr_frame; [done|]. intros Hnn. unfold created. simpl.
      pose proof (wf_block_lt _ _ _ Hwf Hr).
      by rewrite lookup_insert_ne by lia.
    + intros _. simpl. pose proof (wf_block_lt _ _ _ Hwf Hr). lia.
Qed.

(** Writing through [b[i]] touches the buffer of [b] alone. *)
Lemma store_subscript this v xs i x x0 s :
  objs s !! this = Some v → repr (heap s) v xs → xs !! i = Some x0 →
  (p ← vector.subscript this (Z.of_nat i); store p x) s
  = Ok () (with_region (blk (data v))
             (Region (numCapacity v) (map_seqZ 0 (<[i := x]> xs))) s).
Proof.
  intros Hv Hxs Hi. unfold vector.subscript.
  erewrite bind_Ok; last first.
  { erewrite bind_Ok by by apply get_Ok. done. }
  assert (data v ≠ nullptr) as Hnn.
  { intros Hnull. by rewrite (repr_null _ _ _ Hxs Hnull) in Hi. }
  destruct (repr_region _ _ _ Hxs Hnn) as (Hd & Hb0 & Hh).
  rewrite Hd at 1. rewrite ptr_add_origin.
  erewrite (store_Ok _ _ _ _ _ x0); [|exact Hh|].
  - do 4 f_equal. rewrite insert_map_seqZ_0; [by rewrite Nat2Z.id|].
    apply lookup_lt_Some in Hi. lia.
  - rewrite lookup_map_seqZ_0 by lia. by rewrite Nat2Z.id.
Qed.

(** The copy is independent of its source: assigning to [b[0]] changes
    the first element of [b] and leaves [rhs] as it was. *)
(** An object of the store is still there, with its value, after a
    construction, and does not lie in the buffer of the new vector. *)
Lemma read_created this a cap xs (t : ref T) x s :
  wf s → read t s = Ok x s →
  read t (created this a cap xs s) = Ok x (created this a cap xs s) ∧
  outside t (Vector a (Ptr (next_block s) 0) cap (Z.of_nat (length xs))).
Proof.
  intros Hwf Ht.
  assert (∀ p, t = At p → blk p ≠ next_block s) as Hne.
  { intros p ->. apply read_At_Ok in Ht as (reg & Hreg & _).
    pose proof (wf_fresh _ Hwf (blk p) (mk_is_Some _ _ Hreg)). lia. }
  split.
  - eapply read_frame; [|exact Ht]. intros p Hp. unfold created. simpl.
    rewrite lookup_insert_ne; [done|]. apply not_eq_sym. by apply Hne.
  - destruct t as [y|p]; [done|]. simpl. by apply Hne.
Qed.

Lemma read_created_empty this a (t : ref T) x s :
  wf s → read t s = Ok x s →
  read t (created_empty this a s) = Ok x (created_empty this a s) ∧
  outside t (Vector a nullptr 0 0).
Proof.
  intros Hwf Ht. split.
  - by eapply read_frame; [|exact Ht].
  - destruct t as [y|p]; [done|]. simpl.
    apply read_At_Ok in Ht as (reg & Hreg & _).
    pose proof (wf_fresh _ Hwf (blk p) (mk_is_Some _ _ Hreg)). lia.
Qed.

Lemma read_vector_copy this rhs r xs (t : ref T) x s s' b :
  wf s → objs s !! rhs = Some r → repr (heap s) r xs →
  numElements r ≤ INT_MAX →
  vector.vector_copy this rhs s = Ok () s' → objs s' !! this = Some b →
  read t s = Ok x s →
  read t s' = Ok x s' ∧ outside t b.
Proof.
  intros Hwf Hr Hxs Hmax Hrun Hb Ht.
  pose proof (repr_bounds _ _ _ Hxs) as Hbd.
  destruct (decide (numElements r = 0)) as [Hz|Hnz].
  - rewrite (vector_copy_empty this rhs r) in Hrun by done.
    injection Hrun as <-. unfold created_empty in Hb. simpl in Hb.
    rewrite lookup_insert_eq in Hb. injection Hb as <-.
    by apply read_created_empty.
  - rewrite (vector_copy_Ok this rhs r xs) in Hrun by (done || lia).
    injection Hrun as <-. unfold created in Hb. simpl in Hb.
    rewrite lookup_insert_eq in Hb. injection Hb as <-.
    pose proof (repr_length _ _ _ Hxs) as Hlen. rewrite Hlen.
    by apply read_created.
Qed.

Lemma vector_copy_independent this rhs r x0 xs x s :
  wf s → objs s !! rhs = Some r → repr (heap s) r (x0 :: xs) →
  objs s !! this = None → numElements r ≤ INT_MAX →
  ∃ s' s'' b,
    vector.vector_copy this rhs s = Ok () s' ∧
    (p ← vector.subscript this 0; store p x) s' = Ok () s'' ∧
    objs s'' !! this = Some b ∧ repr (heap s'') b (x :: xs) ∧
    objs s'' !! rhs = Some r ∧ repr (heap s'') r (x0 :: xs) ∧
    (p ← vector.subscript rhs 0; load p) s'' = Ok x0 s''.
Proof.
  intros Hwf Hr Hxs Hfree Hmax.
  destruct (vector_copy_spec this rhs r (x0 :: xs) s Hwf Hr Hxs Hfree Hmax)
    as (s' & b & Hrun & Hwf' & Hb & Hr' & Hc & Hn & _ & Hxb & Hxr & Hdisj).
  pose proof (store_subscript this b (x0 :: xs) 0%nat x x0 s' Hb Hxb eq_refl)
    as Hstore.
  change (Z.of_nat 0) with 0 in Hstore.
  assert (data b ≠ nullptr) as Hnn.
  { intros Hnull. by pose proof (repr_null _ _ _ Hxb Hnull). }
  destruct (repr_region _ _ _ Hxb Hnn) as (Hd & Hb0 & Hh).
  eexists s', _, b. split; [exact Hrun|]. split; [exact Hstore|].
  split; [exact Hb|].
  assert (repr (heap (with_region (blk (data b))
                        (Region (numCapacity b)
                           (map_seqZ 0 (<[0%nat := x]> (x0 :: xs)))) s'))
               r (x0 :: xs)) as Hxr'.
  { eapply repr_frame; [exact Hxr|]. intros Hrnn.
    apply with_region_heap_ne. by apply Hdisj. }
  split; [|split; [exact Hr'|split; [exact Hxr'|]]].
  - destruct Hxb as (Hlen & Hbd & _). unfold repr.
    split; [exact Hlen|]. split; [exact Hbd|]. right.
    split; [done|]. split; [by rewrite Hd|]. apply with_region_heap.
  - unfold vector.subscript.
    erewrite bind_Ok; last first.
    { erewrite bind_Ok by by apply get_Ok. done. }
    change 0 with (Z.of_nat 0). by eapply repr_load.
Qed.

End BufferIdentity.

(** ** Sequences of pushes of objects of the store *)

Section PushEach.
Context {T A : Type} `{!Allocator A} `{!DefaultConstructible T}.
Implicit Types (s : state T A) (v r : vector A) (xs ys : list T) (t : T).

(** A call changes the vector and its buffer, and nothing else. *)
Lemma push_back_owned this t s v xs :
  wf s → objs s !! this = Some v → repr (heap s) v xs →
  (numCapacity v = numElements v → grown (numCapacity v) ≤ max_size) →
  ∃ s' v',
    vector.push_back this (Val t) s = Ok () s' ∧ wf s' ∧
    objs s' = <[this := v']> (objs s) ∧ repr (heap s') v' (xs ++ [t]) ∧
    delete (blk (data v')) (heap s') = delete (blk (data v)) (heap s) ∧
    alloc v' = alloc v ∧ numCapacity v ≤ numCapacity v'.
Proof.
  intros Hwf Hv Hxs Hmax.
  pose proof (repr_length _ _ _ Hxs) as Hn.
  pose proof (repr_bounds _ _ _ Hxs) as Hb.
  assert (Z.of_nat (length (xs ++ [t])) = numElements v + 1) as Hlen
    by (rewrite length_app; simpl; lia).
  destruct (decide (numCapacity v = numElements v)) as [Hfull|Hroom].
  - assert (numElements v + 1 ≤ grown (numCapacity v)) as Hg
      by (unfold grown; case_decide; lia).
    eexists _, _. split; [by apply push_back_grow; auto|].
    split; [eapply wf_relocated; [done..|]; specialize (Hmax Hfull); lia|].
    split; [done|].
    split; [apply relocated_repr; [specialize (Hmax Hfull); lia|
                                   apply (wf_next _ Hwf)]|].
    split; [|split; [done|simpl; lia]].
    unfold relocated. simpl. rewrite delete_insert_eq.
    apply delete_id. rewrite lookup_delete_None. right.
    by apply wf_next_fresh.
  - eexists _, _. split; [eapply push_back_room; [done..|lia]|].
    split; [eapply wf_in_place; [done..|lia]|].
    split; [done|].
    split; [eapply in_place_repr; [done|lia]|].
    split; [|split; [done|simpl; lia]].
    unfold in_place, heap_put. simpl.
    rewrite decide_False by (eapply repr_nonnull; [done|lia]).
    apply delete_insert_eq.
Qed.

(** Pushing objects that can be read in the store of the first call and
    are not elements of the vector does what pushing their values does:
    the buffers the vector takes in between are all new ones. *)
Lemma push_each_read this : ∀ (ts : list (ref T)) zs s v xs,
  wf s → objs s !! this = Some v → repr (heap s) v xs →
  Forall2 (λ u x, read u s = Ok x s ∧ outside u v) ts zs →
  push_each this ts s = push_all this zs s.
Proof.
  induction ts as [|u ts IH]; intros zs s v xs Hwf Hv Hxs Hall.
  { by apply Forall2_nil_inv_l in Hall as ->. }
  apply Forall2_cons_inv_l in Hall as (x & zs' & [Ht Hout] & Hall & ->).
  simpl. unfold bind.
  rewrite (push_back_read this u x s v xs) by done.
  destruct (vector.push_back this (Val x) s) as [[] s1|s1|] eqn:Hrun;
    [|done..].
  pose proof (repr_bounds _ _ _ Hxs) as Hb.
  destruct (push_back_owned this x s v xs Hwf Hv Hxs)
    as (s1' & v1 & Hrun1 & Hwf1 & Hobjs1 & Hxs1 & Hheap1 & _ & _).
  { intros Hfull.
    destruct (decide (grown (numCapacity v) ≤ max_size)) as [|Hmax]; [done|].
    by rewrite (push_back_Throw this v) in Hrun by (done || lia). }
  rewrite Hrun in Hrun1. injection Hrun1 as <-.
  apply (IH zs' s1 v1 (xs ++ [x])); [done| |done|].
  { rewrite Hobjs1. apply lookup_insert_eq. }
  eapply Forall2_impl; [exact Hall|].
  intros u2 x2 [Ht2 Hout2].
  destruct u2 as [y|p]; [simpl in *; unfold ret in *; by simplify_eq|].
  apply read_At_Ok in Ht2 as (reg & Hreg & Hx2). simpl in Hout2.
  assert (blk p ≠ blk (data v1)) as Hne.
  { intros Heq.
    assert (delete (blk (data v1)) (heap s1) !! blk p = Some reg) as Hl
      by (by rewrite Hheap1, lookup_delete_ne).
    by rewrite Heq, lookup_delete_eq in Hl. }
  split; [|done]. apply read_At_Ok. exists reg. split; [|done].
  rewrite <- (lookup_delete_ne (heap s1) (blk (data v1))) by done.
  rewrite Hheap1. by rewrite lookup_delete_ne.
Qed.

(** Every object that can be read lies outside a vector without a
    buffer. *)
Lemma read_outside_null s (u : ref T) x (a : A) :
  wf s → read u s = Ok x s → outside u (Vector a nullptr 0 0).
Proof.
  intros Hwf Ht. destruct u as [y|p]; [done|]. simpl.
  apply read_At_Ok in Ht as (reg & Hreg & _).
  pose proof (wf_fresh _ Hwf (blk p) (mk_is_Some _ _ Hreg)). lia.
Qed.

Lemma push_each_from_empty this a (ts : list (ref T)) zs s :
  wf s → objs s !! this = Some (Vector a nullptr 0 0) →
  Forall2 (λ u x, read u s = Ok x s) ts zs →
  push_each this ts s = push_all this zs s.
Proof.
  intros Hwf Hv Hall.
  apply (push_each_read this ts zs s (Vector a nullptr 0 0) []); [done..| |].
  { unfold repr. simpl. unfold max_size, PTRDIFF_MAX.
    split; [done|]. split; [lia|]. by left. }
  eapply Forall2_impl; [exact Hall|].
  intros u x Ht. simpl in Ht. split; [done|].
  by apply (read_outside_null s u x).
Qed.

End PushEach.

(** * The claims *)

Section Examples.

Lemma one_empty_vector_wf : wf one_empty_vector.
Proof. apply wf_created_empty, wf_initial. Qed.

Lemma one_vector_wf : wf one_vector.
Proof.
  apply wf_created; [apply wf_initial|].
  simpl. unfold max_size, PTRDIFF_MAX. lia.
Qed.

Lemma one_vector_repr :
  repr (heap one_vector) (Vector 7 (Ptr 1%nat 0) 4 3) [1; 2; 3].
Proof.
  unfold repr. simpl. unfold max_size, PTRDIFF_MAX.
  split; [done|]. split; [lia|]. right. by split; [lia|].
Qed.

Lemma two_vectors_wf : wf two_vectors.
Proof.
  apply wf_created; [apply one_vector_wf|].
  simpl. unfold max_size, PTRDIFF_MAX. lia.
Qed.

Lemma huge_vector_wf : wf huge_vector.
Proof.
  apply wf_created; [apply wf_initial|].
  rewrite length_replicate. unfold max_size, PTRDIFF_MAX. lia.
Qed.

Lemma overlong_vector_wf : wf overlong_vector.
Proof.
  apply wf_created; [apply wf_initial|].
  rewrite length_replicate. unfold max_size, PTRDIFF_MAX. lia.
Qed.

End Examples.

(** C1 as stated does not hold for every call: [v.push_back(v[0])] on a
    vector that is full.  The parameter is a reference to the first element;
    [reserve] moves the elements to the new buffer and releases the old one,
    and [construct] then reads the reference: the object it was bound to is
    gone, and the call has undefined behaviour, with either overload. *)
Lemma push_back_of_own_element_when_full :
  wf full_vector ∧
  objs full_vector !! 0%nat = Some (Vector 7 (Ptr 1%nat 0) 3 3) ∧
  repr (heap full_vector) (Vector 7 (Ptr 1%nat 0) 3 3) [1; 2; 3] ∧
  ∃ p,
    vector.subscript 0%nat 0 full_vector = Ok p full_vector ∧
    load p full_vector = Ok 1 full_vector ∧
    vector.push_back 0%nat (At p) full_vector = UB ∧
    vector.push_back_move 0%nat (At p) full_vector = UB.
Proof.
  split.
  { apply wf_created; [apply wf_initial|].
    simpl. unfold max_size, PTRDIFF_MAX. lia. }
  split; [reflexivity|]. split.
  { unfold repr. simpl. unfold max_size, PTRDIFF_MAX.
    split; [done|]. split; [lia|]. right. by split; [lia|]. }
  exists (Ptr 1%nat 0).
  split; [reflexivity|]. split; [reflexivity|].
  split; vm_compute; reflexivity.
Qed.

(** C1, amended: [push_back], by copy or by move, of an object that is not
    an element of the vector's own buffer when the count equals the
    capacity, grows the buffer exactly when the count equals the capacity,
    to capacity 1 when the capacity was 0 and to twice the capacity
    otherwise (one region is allocated, none when there was room); it then
    constructs the new element, with the value of that object, at position
    [count] and increments the count.  A request beyond what the allocation
    strategy can serve leaves by [std::bad_alloc] with the store unchanged.
    Hence [n] calls on a vector that starts empty and without capacity, of
    objects that are not elements of the vector, allocate at most
    [⌈log2 n⌉ + 1] regions: up to [2 ^ 62] calls all complete, and a longer
    sequence has allocated no more than that when it completes or leaves by
    [std::bad_alloc]. *)
Theorem push_back_growth_and_cost {T A : Type} `{!Allocator A}
    `{!DefaultConstructible T} :
  (∀ (pb : loc → ref T → M T A unit) this (t : ref T) x (s : state T A) v xs,
     pb = vector.push_back ∨ pb = vector.push_back_move →
     wf s → objs s !! this = Some v → repr (heap s) v xs →
     read t s = Ok x s →
     (numCapacity v = numElements v → max_size < grown (numCapacity v) →
      pb this t s = Throw s) ∧
     ((numCapacity v = numElements v →
       grown (numCapacity v) ≤ max_size ∧ outside t v) →
      ∃ s' v',
        pb this t s = Ok () s' ∧ wf s' ∧
        objs s' !! this = Some v' ∧ repr (heap s') v' (xs ++ [x]) ∧
        load (data v' +ₚ numElements v) s' = Ok x s' ∧
        numElements v' = numElements v + 1 ∧
        (numCapacity v = numElements v →
           numCapacity v'
           = (if decide (numCapacity v = 0) then 1 else numCapacity v * 2) ∧
           regions_allocated s s' = 1) ∧
        (numCapacity v ≠ numElements v →
           numCapacity v' = numCapacity v ∧ data v' = data v ∧
           regions_allocated s s' = 0))) ∧
  (∀ this a (ts : list (ref T)) zs (s : state T A),
     wf s → objs s !! this = Some (Vector a nullptr 0 0) →
     Forall2 (λ u x, read u s = Ok x s) ts zs →
     Z.of_nat (length ts) ≤ 2 ^ 62 →
     ∃ s' v',
       push_each this ts s = Ok () s' ∧ wf s' ∧
       objs s' !! this = Some v' ∧ repr (heap s') v' zs ∧
       regions_allocated s s' ≤ Z.log2_up (Z.of_nat (length ts)) + 1) ∧
  (∀ this a (ts : list (ref T)) zs (s : state T A),
     wf s → objs s !! this = Some (Vector a nullptr 0 0) →
     Forall2 (λ u x, read u s = Ok x s) ts zs →
     ∃ s',
       (push_each this ts s = Ok () s' ∨ push_each this ts s = Throw s') ∧
       regions_allocated s s' ≤ Z.log2_up (Z.of_nat (length ts)) + 1).
Proof.
  split; [|split].
  3:{ intros this a ts zs s Hwf Hv Hall.
      rewrite (push_each_from_empty this a ts zs s) by done.
      rewrite (Forall2_length _ _ _ Hall).
      by eapply push_all_cost_from_empty. }
  - intros pb this t x s v xs Hpb Hwf Hv Hxs Ht.
    assert (pb = vector.push_back) as -> by (by destruct Hpb as [->| ->]).
    split.
    + intros Heq Hmax. pose proof (repr_bounds _ _ _ Hxs).
      apply (push_back_Throw _ v); [done|lia|done..].
    + intros Hfull.
      rewrite (push_back_read this t x s v xs)
        by (done || (intros Heq; by destruct (Hfull Heq))).
      apply push_back_step; [done..|].
      intros Heq. by destruct (Hfull Heq).
  - intros this a ts zs s Hwf Hv Hall Hlen.
    rewrite (push_each_from_empty this a ts zs s) by done.
    rewrite (Forall2_length _ _ _ Hall) in Hlen |- *.
    destruct (push_all_from_empty this a zs s Hwf Hv Hlen)
      as (s' & v' & ? & ? & ? & ? & _ & _ & ?).
    by exists s', v'.
Qed.

Lemma push_back_growth_and_cost_witness :
  wf two_vectors ∧
  objs two_vectors !! 1%nat = Some (Vector 0 (Ptr 2%nat 0) 2 2) ∧
  repr (heap two_vectors) (Vector 0 (Ptr 2%nat 0) 2 2) [8; 9] ∧
  read (At (Ptr 1%nat 0)) two_vectors = Ok 1 two_vectors ∧
  outside (T:=Z) (At (Ptr 1%nat 0)) (Vector 0 (Ptr 2%nat 0) 2 2) ∧
  (∃ s' v',
     vector.push_back 1%nat (At (Ptr 1%nat 0)) two_vectors = Ok () s' ∧
     objs s' !! 1%nat = Some v' ∧ repr (heap s') v' [8; 9; 1] ∧
     numCapacity v' = 4 ∧ regions_allocated two_vectors s' = 1) ∧
  wf empty_beside_one_vector ∧
  objs empty_beside_one_vector !! 1%nat = Some (Vector 0 nullptr 0 0) ∧
  Forall2 (λ u x, read u empty_beside_one_vector
                  = Ok x empty_beside_one_vector)
    [At (Ptr 1%nat 0); Val 5; At (Ptr 1%nat 2)] [1; 5; 3] ∧
  (∃ s' v',
     push_each 1%nat [At (Ptr 1%nat 0); Val 5; At (Ptr 1%nat 2)]
       empty_beside_one_vector = Ok () s' ∧
     objs s' !! 1%nat = Some v' ∧ repr (heap s') v' [1; 5; 3] ∧
     regions_allocated empty_beside_one_vector s' ≤ Z.log2_up 3 + 1).
Proof.
  pose proof two_vectors_wf as Hwf2.
  assert (objs two_vectors !! 1%nat = Some (Vector 0 (Ptr 2%nat 0) 2 2)) as Hv2
    by reflexivity.
  assert (repr (heap two_vectors) (Vector 0 (Ptr 2%nat 0) 2 2) [8; 9]) as Hxs2.
  { unfold repr. simpl. unfold max_size, PTRDIFF_MAX.
    split; [done|]. split; [lia|]. right. by split; [lia|]. }
  assert (read (At (Ptr 1%nat 0)) two_vectors = Ok 1 two_vectors) as Ht
    by reflexivity.
  assert (outside (T:=Z) (At (Ptr 1%nat 0)) (Vector 0 (Ptr 2%nat 0) 2 2)) as Hout
    by (simpl; lia).
  assert (wf empty_beside_one_vector) as Hwf
    by apply wf_created_empty, one_vector_wf.
  assert (objs empty_beside_one_vector !! 1%nat = Some (Vector 0 nullptr 0 0))
    as Hv by reflexivity.
  assert (Forall2 (λ u x, read u empty_beside_one_vector
                          = Ok x empty_beside_one_vector)
            [At (Ptr 1%nat 0); Val 5; At (Ptr 1%nat 2)] [1; 5; 3]) as Hall
    by (repeat constructor).
  destruct (push_back_growth_and_cost (T:=Z) (A:=Z)) as (Hone & Hmany & _).
  split; [exact Hwf2|]. split; [exact Hv2|]. split; [exact Hxs2|].
  split; [exact Ht|]. split; [exact Hout|].
  split; [|split; [exact Hwf|split; [exact Hv|split; [exact Hall|]]]].
  - destruct (Hone vector.push_back 1%nat (At (Ptr 1%nat 0)) 1 two_vectors _ _
                (or_introl eq_refl) Hwf2 Hv2 Hxs2 Ht) as [_ Hok].
    destruct Hok as (s' & v' & Hrun & _ & Hv' & Hr' & _ & _ & Hfull & _).
    { intros _. split; [vm_compute; by intros [=]|exact Hout]. }
    destruct (Hfull eq_refl) as [Hcap Hcost].
    exists s', v'. split; [exact Hrun|]. split; [exact Hv'|].
    split; [exact Hr'|]. split; [exact Hcap|exact Hcost].
  - destruct (Hmany 1%nat 0 _ _ empty_beside_one_vector Hwf Hv Hall)
      as (s' & v' & Hrun & _ & Hv' & Hr' & Hcost).
    { vm_compute. by intros [=]. }
    exists s', v'. split; [exact Hrun|]. split; [exact Hv'|].
    split; [exact Hr'|exact Hcost].
Defined.

(** C9: on a non-empty vector [pop_back] destroys the element at index
    [count - 1] and decrements the count; the elements before it, the
    capacity, the buffer and every other object are left as they were.  On
    an empty vector it does nothing at all: the whole store is unchanged. *)
Theorem pop_back_last_or_noop {T A : Type} `{!Allocator A}
    `{!DefaultConstructible T} :
  (∀ this (s : state T A) v xs x,
     wf s → objs s !! this = Some v → repr (heap s) v (xs ++ [x]) →
     ∃ s' v',
       vector.pop_back this s = Ok () s' ∧ wf s' ∧
       objs s' !! this = Some v' ∧
       numElements v' = numElements v - 1 ∧
       numCapacity v' = numCapacity v ∧ data v' = data v ∧
       alloc v' = alloc v ∧
       repr (heap s') v' xs ∧
       load (data v +ₚ (numElements v - 1)) s = Ok x s ∧
       load (data v +ₚ (numElements v - 1)) s' = UB ∧
       next_block s' = next_block s ∧
       (∀ l, l ≠ this → objs s' !! l = objs s !! l)) ∧
  (∀ this (s : state T A) v,
     objs s !! this = Some v → numElements v = 0 →
     vector.pop_back this s = Ok () s).
Proof.
  split; [|intros; by eapply pop_back_empty].
  intros this s v xs x Hwf Hv Hxs.
  pose proof (repr_length _ _ _ Hxs) as Hlen.
  pose proof (repr_bounds _ _ _ Hxs) as Hb.
  rewrite length_app in Hlen. simpl in Hlen.
  assert (Z.of_nat (length xs) ≤ numCapacity v) as Hle by lia.
  pose proof (in_place_repr this v _ xs s Hxs Hle) as Hxs'.
  assert (data v ≠ nullptr) as Hnn by (eapply repr_nonnull; [done|lia]).
  destruct (repr_region _ _ _ Hxs Hnn) as (Hd & Hb0 & Hh).
  eexists _, _. split; [by eapply pop_back_Ok|].
  split; [by eapply wf_in_place|].
  split; [apply lookup_insert_eq|].
  split; [simpl; lia|]. split; [done|]. split; [done|]. split; [done|].
  split; [exact Hxs'|]. split; [|split; [|split; [done|]]].
  - replace (numElements v - 1) with (Z.of_nat (length xs)) by lia.
    eapply repr_load; [done|]. by rewrite list_lookup_middle.
  - replace (numElements v - 1) with (Z.of_nat (length xs)) by lia.
    rewrite Hd, ptr_add_origin. unfold load, in_place, heap_put. simpl.
    rewrite decide_False by done. rewrite lookup_insert_eq. simpl.
    assert (map_seqZ (M:=gmap Z T) 0 xs !! Z.of_nat (length xs) = None) as ->;
      [|done].
    apply lookup_map_seqZ_None. lia.
  - intros l Hl. unfold in_place. simpl. by rewrite lookup_insert_ne.
Qed.

Lemma pop_back_last_or_noop_witness :
  wf one_vector ∧
  objs one_vector !! 0%nat = Some (Vector 7 (Ptr 1%nat 0) 4 3) ∧
  repr (heap one_vector) (Vector 7 (Ptr 1%nat 0) 4 3) ([1; 2] ++ [3]) ∧
  (∃ s' v',
     vector.pop_back 0%nat one_vector = Ok () s' ∧
     objs s' !! 0%nat = Some v' ∧ numElements v' = 2 ∧ numCapacity v' = 4 ∧
     repr (heap s') v' [1; 2]) ∧
  vector.pop_back 0%nat one_empty_vector = Ok () one_empty_vector.
Proof.
  pose proof one_vector_wf as Hwf. pose proof one_vector_repr as Hxs.
  assert (objs one_vector !! 0%nat = Some (Vector 7 (Ptr 1%nat 0) 4 3)) as Hv
    by reflexivity.
  destruct (pop_back_last_or_noop (T:=Z) (A:=Z)) as [Hlast Hnoop].
  split; [exact Hwf|]. split; [exact Hv|]. split; [exact Hxs|]. split.
  - destruct (Hlast 0%nat one_vector _ [1; 2] 3 Hwf Hv Hxs)
      as (s' & v' & Hrun & _ & Hv' & Hn & Hc & _ & _ & Hr' & _).
    exists s', v'. split; [exact Hrun|]. split; [exact Hv'|].
    split; [exact Hn|]. split; [exact Hc|exact Hr'].
  - apply (Hnoop 0%nat one_empty_vector (Vector 7 nullptr 0 0));
      reflexivity.
Defined.

(** C10: [begin() == end()] exactly when [empty()], for every vector; in
    particular for a default-constructed vector, whose buffer is null, and
    for a vector that has capacity but no elements. *)
Theorem begin_end_iff_empty {T A : Type} `{!Allocator A}
    `{!DefaultConstructible T} :
  (∀ this (s : state T A) v,
     objs s !! this = Some v →
     ∃ b e em,
       vector.begin this s = Ok b s ∧ vector.end_ this s = Ok e s ∧
       vector.empty this s = Ok em s ∧
       vector.iterator_eq b e = em ∧
       vector.iterator_ne b e = negb em ∧
       (em = true ↔ numElements v = 0)) ∧
  (∀ this a (s : state T A),
     ∃ s' b e,
       vector.vector_default this a s = Ok () s' ∧
       vector.begin this s' = Ok b s' ∧ vector.end_ this s' = Ok e s' ∧
       vector.p b = nullptr ∧ vector.iterator_eq b e = true ∧
       vector.empty this s' = Ok true s') ∧
  (∀ this (s : state T A) v,
     objs s !! this = Some v → 0 < numCapacity v → numElements v = 0 →
     ∃ b e,
       vector.begin this s = Ok b s ∧ vector.end_ this s = Ok e s ∧
       vector.iterator_eq b e = true ∧ vector.empty this s = Ok true s).
Proof.
  assert (∀ this (s : state T A) v,
            objs s !! this = Some v →
            vector.begin this s = Ok (vector.Iterator (data v)) s ∧
            vector.end_ this s
            = Ok (vector.Iterator (data v +ₚ numElements v)) s ∧
            vector.empty this s = Ok (bool_decide (numElements v = 0)) s ∧
            vector.iterator_eq (vector.Iterator (data v))
              (vector.Iterator (data v +ₚ numElements v))
            = bool_decide (numElements v = 0)) as Hall.
  { intros this s v Hv.
    unfold vector.begin, vector.end_, vector.empty.
    rewrite !(bind_Ok (get this) _ s v s) by by apply get_Ok.
    split; [done|]. split; [done|]. split; [done|].
    unfold vector.iterator_eq, ptr_add. simpl.
    apply bool_decide_ext. destruct (data v) as [b o]. simpl.
    split; [intros [= Ho]; lia|intros ->; f_equal; lia]. }
  split; [|split].
  - intros this s v Hv. destruct (Hall this s v Hv) as (Hb & He & Hem & Heq).
    eexists _, _, _. split; [exact Hb|]. split; [exact He|].
    split; [exact Hem|]. split; [exact Heq|].
    split; [unfold vector.iterator_ne; by rewrite <- Heq|].
    apply bool_decide_eq_true.
  - intros this a s.
    destruct (Hall this (created_empty this a s) (Vector a nullptr 0 0))
      as (Hb & He & Hem & Heq); [apply lookup_insert_eq|].
    eexists _, _, _. split; [done|]. split; [exact Hb|]. split; [exact He|].
    split; [done|]. split; [exact Heq|exact Hem].
  - intros this s v Hv Hcap Hn.
    destruct (Hall this s v Hv) as (Hb & He & Hem & Heq).
    rewrite bool_decide_eq_true_2 in Hem, Heq by done.
    eexists _, _. split; [exact Hb|]. split; [exact He|].
    split; [exact Heq|exact Hem].
Qed.

Lemma begin_end_iff_empty_witness :
  objs one_vector !! 0%nat = Some (Vector 7 (Ptr 1%nat 0) 4 3) ∧
  (∃ b e,
     vector.begin 0%nat one_vector = Ok b one_vector ∧
     vector.end_ 0%nat one_vector = Ok e one_vector ∧
     vector.empty 0%nat one_vector = Ok false one_vector ∧
     vector.iterator_eq b e = false) ∧
  (∃ s,
     vector.clear 0%nat one_vector = Ok () s ∧
     ∃ b e,
       vector.begin 0%nat s = Ok b s ∧ vector.end_ 0%nat s = Ok e s ∧
       vector.iterator_eq b e = true ∧ vector.empty 0%nat s = Ok true s).
Proof.
  destruct (begin_end_iff_empty (T:=Z) (A:=Z)) as (Hall & _ & Hroom).
  assert (objs one_vector !! 0%nat = Some (Vector 7 (Ptr 1%nat 0) 4 3)) as Hv
    by reflexivity.
  split; [exact Hv|]. split.
  - destruct (Hall 0%nat one_vector _ Hv) as (b & e & em & Hb & He & Hem & Heq & _).
    exists b, e. split; [exact Hb|]. split; [exact He|].
    assert (em = false) as ->; [|by split].
    vm_compute in Hem. by inversion Hem.
  - eexists. split; [vm_compute; reflexivity|].
    eapply Hroom; [reflexivity|reflexivity|reflexivity].
Defined.

(** C4: move construction hands the buffer, the count and the capacity of
    [rhs] to the new object as they are; no region is touched or allocated;
    [rhs] is left with a null buffer, size 0 and capacity 0. *)
Theorem vector_move_transfers {T A : Type} `{!Allocator A}
    `{!DefaultConstructible T} this rhs (s : state T A) r :
  objs s !! rhs = Some r → this ≠ rhs →
  ∃ s' b a,
    vector.vector_move this rhs s = Ok () s' ∧
    heap s' = heap s ∧ next_block s' = next_block s ∧
    objs s' !! this = Some b ∧
    data b = data r ∧ numElements b = numElements r ∧
    numCapacity b = numCapacity r ∧
    objs s' !! rhs = Some a ∧
    data a = nullptr ∧ numElements a = 0 ∧ numCapacity a = 0 ∧
    vector.size rhs s' = Ok 0 s' ∧ vector.capacity rhs s' = Ok 0 s' ∧
    (∀ l, l ≠ this → l ≠ rhs → objs s' !! l = objs s !! l) ∧
    (∀ xs, repr (heap s) r xs → repr (heap s') b xs).
Proof.
  intros Hr Hne.
  exists (handed_over this rhs r s),
         (Vector A_default (data r) (numCapacity r) (numElements r)),
         (Vector (alloc r) nullptr 0 0).
  assert (objs (handed_over this rhs r s) !! rhs
          = Some (Vector (alloc r) nullptr 0 0)) as Ha
    by apply lookup_insert_eq.
  split; [by apply vector_move_Ok|].
  split; [done|]. split; [done|].
  split; [unfold handed_over; simpl;
          rewrite lookup_insert_ne by done; apply lookup_insert_eq|].
  split; [done|]. split; [done|]. split; [done|].
  split; [exact Ha|]. split; [done|]. split; [done|]. split; [done|].
  split; [unfold vector.size; by erewrite bind_Ok by by apply get_Ok|].
  split; [unfold vector.capacity; by erewrite bind_Ok by by apply get_Ok|].
  split.
  - intros l Hl1 Hl2. unfold handed_over. simpl.
    by rewrite !lookup_insert_ne by done.
  - intros xs Hxs. destruct r. by eapply repr_alloc.
Qed.

Lemma vector_move_transfers_witness :
  objs one_vector !! 0%nat = Some (Vector 7 (Ptr 1%nat 0) 4 3) ∧
  1%nat ≠ 0%nat ∧
  ∃ s' b a,
    vector.vector_move 1%nat 0%nat one_vector = Ok () s' ∧
    heap s' = heap one_vector ∧
    objs s' !! 1%nat = Some b ∧ data b = Ptr 1%nat 0 ∧
    numElements b = 3 ∧ numCapacity b = 4 ∧
    objs s' !! 0%nat = Some a ∧ data a = nullptr ∧
    vector.size 0%nat s' = Ok 0 s' ∧ vector.capacity 0%nat s' = Ok 0 s'.
Proof.
  assert (objs one_vector !! 0%nat = Some (Vector 7 (Ptr 1%nat 0) 4 3)) as Hv
    by reflexivity.
  assert (1%nat ≠ 0%nat) as Hne by lia.
  split; [exact Hv|]. split; [exact Hne|].
  destruct (vector_move_transfers (T:=Z) (A:=Z) 1%nat 0%nat one_vector _ Hv Hne)
    as (s' & b & a & Hrun & Hh & _ & Hb & Hd & Hn & Hc & Ha & Hda & _ & _
        & Hsz & Hcp & _).
  exists s', b, a. split; [exact Hrun|]. split; [exact Hh|].
  split; [exact Hb|]. split; [exact Hd|]. split; [exact Hn|].
  split; [exact Hc|]. split; [exact Ha|]. split; [exact Hda|].
  split; [exact Hsz|exact Hcp].
Defined.

(** ** The stack scenario *)

Section Scenario.
Context {T A : Type} `{!Allocator A} `{!DefaultConstructible T}.
Implicit Types (s : state T A) (v : vector A) (xs : list T).

(** [top()] followed by a read, on a stack whose last element is [x]. *)
Lemma top_load this v xs x s :
  objs s !! this = Some v → repr (heap s) v (xs ++ [x]) →
  (p ← stack.top this; load p) s = Ok x s.
Proof.
  intros Hv Hxs. unfold stack.top, vector.back, stack.container.
  erewrite bind_Ok; last first.
  { erewrite bind_Ok by by apply get_Ok. done. }
  pose proof (repr_length _ _ _ Hxs) as Hlen.
  pose proof (repr_bounds _ _ _ Hxs) as Hb.
  rewrite length_app in Hlen. simpl in Hlen.
  rewrite to_size_t_small by lia.
  replace (numElements v - 1) with (Z.of_nat (length xs)) by lia.
  eapply repr_load; [done|]. by rewrite list_lookup_middle.
Qed.

Lemma size_Ok this v s :
  objs s !! this = Some v → stack.size this s = Ok (numElements v) s.
Proof.
  intros Hv. unfold stack.size, vector.size, stack.container.
  by erewrite bind_Ok by by apply get_Ok.
Qed.

Lemma stack_scenario_Ok this x1 x2 x3 s :
  wf s → objs s !! this = None →
  ∃ s', stack_scenario this x1 x2 x3 s = Ok (3, x3, 2, x2, true) s' ∧ wf s'.
Proof.
  intros Hwf Hfree. unfold stack_scenario.
  unfold stack.stack_default, stack.push, stack.pop, stack.empty, stack.container.
  erewrite bind_Ok by apply vector_default_Ok.
  set (s1 := created_empty this A_default s).
  assert (wf s1) as Hwf1 by by apply wf_created_empty.
  assert (objs s1 !! this = Some (Vector A_default nullptr 0 0)) as Hv1
    by apply lookup_insert_eq.
  assert (repr (heap s1) (Vector A_default nullptr 0 0) []) as Hxs1.
  { unfold repr. simpl. unfold max_size, PTRDIFF_MAX.
    split; [done|]. split; [lia|]. by left. }
  assert (∀ c, 0 ≤ c ≤ 2 → grown c ≤ max_size) as Hsmall.
  { intros c Hc. unfold grown, max_size, PTRDIFF_MAX. case_decide; lia. }
  destruct (push_back_step this x1 s1 _ [] Hwf1 Hv1 Hxs1)
    as (s2 & v2 & Hrun2 & Hwf2 & Hv2 & Hxs2 & _ & Hn2 & Hfull2 & _).
  { intros _. apply Hsmall. simpl. lia. }
  destruct (Hfull2 eq_refl) as [Hc2 _]. simpl in Hn2, Hc2.
  erewrite bind_Ok by exact Hrun2.
  destruct (push_back_step this x2 s2 v2 _ Hwf2 Hv2 Hxs2)
    as (s3 & v3 & Hrun3 & Hwf3 & Hv3 & Hxs3 & _ & Hn3 & Hfull3 & _).
  { intros _. apply Hsmall. lia. }
  destruct (Hfull3 ltac:(lia)) as [Hc3 _].
  rewrite decide_False in Hc3 by lia.
  erewrite bind_Ok by exact Hrun3.
  destruct (push_back_step this x3 s3 v3 _ Hwf3 Hv3 Hxs3)
    as (s4 & v4 & Hrun4 & Hwf4 & Hv4 & Hxs4 & _ & Hn4 & _ & _).
  { intros _. apply Hsmall. lia. }
  erewrite bind_Ok by exact Hrun4.
  simpl in Hxs4.
  erewrite bind_Ok by by apply size_Ok.
  rewrite (bind_Ok (stack.top this) _ s4 (data v4 +ₚ to_size_t (numElements v4 - 1)) s4);
    last first.
  { unfold stack.top, vector.back, stack.container.
    by erewrite bind_Ok by by apply get_Ok. }
  pose proof (top_load this v4 [x1; x2] x3 s4 Hv4 Hxs4) as Htop4.
  unfold stack.top, vector.back, stack.container in Htop4.
  erewrite (bind_Ok (bind (get this) _)) in Htop4
    by (by erewrite bind_Ok by by apply get_Ok).
  erewrite bind_Ok by exact Htop4.
  pose proof (repr_bounds _ _ _ Hxs4) as Hb4.
  erewrite bind_Ok by (by eapply (pop_back_Ok this v4 [x1; x2] x3)).
  set (s5 := in_place this v4 [x1; x2] s4).
  set (v5 := Vector (alloc v4) (data v4) (numCapacity v4) (Z.of_nat (length [x1; x2]))).
  assert (wf s5) as Hwf5 by (eapply wf_in_place; [done..|simpl; lia]).
  assert (objs s5 !! this = Some v5) as Hv5 by apply lookup_insert_eq.
  assert (repr (heap s5) v5 [x1; x2]) as Hxs5
    by (eapply in_place_repr; [done|simpl; lia]).
  erewrite bind_Ok by by apply size_Ok.
  rewrite (bind_Ok (stack.top this) _ s5 (data v5 +ₚ to_size_t (numElements v5 - 1)) s5);
    last first.
  { unfold stack.top, vector.back, stack.container.
    by erewrite bind_Ok by by apply get_Ok. }
  pose proof (top_load this v5 [x1] x2 s5 Hv5 Hxs5) as Htop5.
  unfold stack.top, vector.back, stack.container in Htop5.
  erewrite (bind_Ok (bind (get this) _)) in Htop5
    by (by erewrite bind_Ok by by apply get_Ok).
  erewrite bind_Ok by exact Htop5.
  erewrite bind_Ok by (by eapply (pop_back_Ok this v5 [x1] x2)).
  set (s6 := in_place this v5 [x1] s5).
  set (v6 := Vector (alloc v5) (data v5) (numCapacity v5) (Z.of_nat (length [x1]))).
  assert (wf s6) as Hwf6 by (eapply wf_in_place; [done..|simpl; lia]).
  assert (objs s6 !! this = Some v6) as Hv6 by apply lookup_insert_eq.
  assert (repr (heap s6) v6 [x1]) as Hxs6
    by (eapply in_place_repr; [done|simpl; lia]).
  erewrite bind_Ok by (by eapply (pop_back_Ok this v6 [] x1)).
  set (s7 := in_place this v6 [] s6).
  assert (wf s7) as Hwf7 by (eapply wf_in_place; [done..|simpl; lia]).
  erewrite bind_Ok; last first.
  { unfold vector.empty. by erewrite bind_Ok by (apply get_Ok, lookup_insert_eq). }
  exists s7. split; [|done]. unfold ret. simpl. rewrite Hn4, Hn3, Hn2. done.
Qed.

(** [push(const T&)] and [push(T&&)] run the same steps, and so do the
    two scenarios. *)
Lemma stack_scenario_lvalues_Ok this x1 x2 x3 s :
  wf s → objs s !! this = None →
  ∃ s', stack_scenario_lvalues this x1 x2 x3 s = Ok (3, x3, 2, x2, true) s' ∧
        wf s'.
Proof. apply stack_scenario_Ok. Qed.

End Scenario.

(** C3: on a stack constructed empty, [push(1), push(2), push(3)] gives
    [size() == 3] and [top() == 3]; a [pop()] then gives [size() == 2] and
    [top() == 2]; two more [pop()]s give [empty() == true] (for any three
    values, any allocation strategy, and wherever the stack is constructed).
    The pushes of the scenario are pushes of temporaries and go through
    [push(T&&)] and [push_back(T&&)]; the same holds when the values are
    pushed from named variables, through [push(const T&)] and
    [push_back(const T&)].  Each stack operation is the backing vector's
    [push_back], [pop_back], [back], [size] or [empty]. *)
Theorem stack_scenario_and_delegation {T A : Type} `{!Allocator A}
    `{!DefaultConstructible T} :
  (∀ this x1 x2 x3 (s : state T A),
     wf s → objs s !! this = None →
     ∃ s', stack_scenario this x1 x2 x3 s = Ok (3, x3, 2, x2, true) s') ∧
  (∀ this x1 x2 x3 (s : state T A),
     wf s → objs s !! this = None →
     ∃ s', stack_scenario_lvalues this x1 x2 x3 s
           = Ok (3, x3, 2, x2, true) s') ∧
  (∀ this (t : ref T),
     stack.push (A:=A) this t = vector.push_back (stack.container this) t ∧
     stack.push_move (A:=A) this t
     = vector.push_back_move (stack.container this) t) ∧
  (∀ this,
     stack.pop (T:=T) (A:=A) this = vector.pop_back (stack.container this) ∧
     stack.top (T:=T) (A:=A) this = vector.back (stack.container this) ∧
     stack.size (T:=T) (A:=A) this = vector.size (stack.container this) ∧
     stack.empty (T:=T) (A:=A) this = vector.empty (stack.container this)).
Proof.
  split; [|split; [|by split]].
  - intros this x1 x2 x3 s Hwf Hfree.
    destruct (stack_scenario_Ok this x1 x2 x3 s Hwf Hfree) as (s' & Hrun & _).
    by exists s'.
  - intros this x1 x2 x3 s Hwf Hfree.
    destruct (stack_scenario_lvalues_Ok this x1 x2 x3 s Hwf Hfree)
      as (s' & Hrun & _).
    by exists s'.
Qed.

Lemma stack_scenario_and_delegation_witness :
  wf (initial_state (T:=Z) (A:=Z)) ∧
  objs (initial_state (T:=Z) (A:=Z)) !! 0%nat = None ∧
  (∃ s', stack_scenario 0%nat 1 2 3 (initial_state (T:=Z) (A:=Z))
         = Ok (3, 3, 2, 2, true) s') ∧
  (∃ s', stack_scenario_lvalues 0%nat 1 2 3 (initial_state (T:=Z) (A:=Z))
         = Ok (3, 3, 2, 2, true) s').
Proof.
  split; [apply wf_initial|]. split; [reflexivity|].
  destruct (stack_scenario_and_delegation (T:=Z) (A:=Z)) as (Hrun & Hrun' & _).
  split; [apply Hrun|apply Hrun']; (apply wf_initial || reflexivity).
Defined.

(** C8: move assignment as the code has it ([clear], [shrink_to_fit],
    then [swap]) and move assignment as the specification words it (release
    the receiver's resources, adopt the buffer, count and capacity of the
    source, leave the source empty) both complete, and the stores they
    leave show the same size, capacity and elements for every object.  The
    receiver shows what the source showed, and the source shows size 0 and
    capacity 0.  The code releases the receiver's resources step by step:
    after [clear] every element the receiver held has been destroyed (its
    slot can no longer be read) while the buffer is still allocated; after
    [shrink_to_fit] the buffer has been given back; and when the receiver
    satisfied I2 the store after these two steps is the store the
    specification's release leaves.  In that case the final stores also
    agree on the free store and on every buffer pointer. *)
Theorem assign_move_equivalent {T A : Type} `{!Allocator A}
    `{!DefaultConstructible T} this rhs (s : state T A) v r xs :
  wf s → objs s !! this = Some v → objs s !! rhs = Some r →
  repr (heap s) v xs →
  ∃ sc ss s1 s2,
    vector.clear this s = Ok () sc ∧
    (∀ (i : nat) x, xs !! i = Some x →
       load (data v +ₚ Z.of_nat i) s = Ok x s ∧
       load (data v +ₚ Z.of_nat i) sc = UB) ∧
    (∀ i, load (data v +ₚ i) sc = UB) ∧
    (data v ≠ nullptr →
       heap sc !! blk (data v) = Some (Region (numCapacity v) ∅)) ∧
    vector.shrink_to_fit this sc = Ok () ss ∧
    (0 < numCapacity v →
       heap ss !! blk (data v) = None ∧
       objs ss !! this = Some (Vector (alloc v) nullptr 0 0)) ∧
    (null_iff_no_capacity v → release_resources this s = Ok () ss) ∧
    vector.swap this rhs ss = Ok () s1 ∧
    vector.assign_move this rhs s = Ok () s1 ∧
    assign_move_spec this rhs s = Ok () s2 ∧
    wf s1 ∧
    (∀ l, observe s1 l = observe s2 l) ∧
    (this ≠ rhs →
       observe s1 this = observe s rhs ∧ observe s1 rhs = Some (0, 0, [])) ∧
    (null_iff_no_capacity v →
       heap s1 = heap s2 ∧ next_block s1 = next_block s2 ∧
       ∀ l, data <$> objs s1 !! l = data <$> objs s2 !! l).
Proof.
  intros Hwf Hv Hr Hxs.
  destruct (assign_move_steps this rhs v r xs s Hwf Hv Hr Hxs)
    as (sc & ss & Hclear & Hdead & Hreg & Hshrink & Hfreed & Hrel & Hswap).
  destruct (assign_move_refines this rhs v r s Hwf Hv Hr)
    as (s1 & s2 & Hrun & Hspec & Hwf1 & Hobs & Hends & Hsame).
  rewrite (assign_move_Ok this rhs v r s) in Hrun by done.
  injection Hrun as <-.
  exists sc, ss, (move_assigned this rhs v r s), s2.
  split; [done|]. split.
  { intros i x Hi. split; [by eapply repr_load|apply Hdead]. }
  split; [done|]. split; [done|]. split; [done|]. split; [done|].
  split; [done|]. split; [done|].
  split; [by apply assign_move_Ok|]. done.
Qed.

Lemma assign_move_equivalent_witness :
  wf two_vectors ∧
  objs two_vectors !! 0%nat = Some (Vector 7 (Ptr 1%nat 0) 4 3) ∧
  objs two_vectors !! 1%nat = Some (Vector 0 (Ptr 2%nat 0) 2 2) ∧
  repr (heap two_vectors) (Vector 7 (Ptr 1%nat 0) 4 3) [1; 2; 3] ∧
  ∃ sc s1 s2,
    vector.clear 0%nat two_vectors = Ok () sc ∧
    load (Ptr 1%nat 2) two_vectors = Ok 3 two_vectors ∧
    load (Ptr 1%nat 2) sc = UB ∧
    heap sc !! 1%nat = Some (Region 4 ∅) ∧
    vector.assign_move 0%nat 1%nat two_vectors = Ok () s1 ∧
    heap s1 !! 1%nat = None ∧
    assign_move_spec 0%nat 1%nat two_vectors = Ok () s2 ∧
    (∀ l, observe s1 l = observe s2 l) ∧
    observe s1 0%nat = Some (2, 2, [Some 8; Some 9]) ∧
    observe s1 1%nat = Some (0, 0, []).
Proof.
  pose proof two_vectors_wf as Hwf.
  assert (objs two_vectors !! 0%nat = Some (Vector 7 (Ptr 1%nat 0) 4 3)) as Hv
    by reflexivity.
  assert (objs two_vectors !! 1%nat = Some (Vector 0 (Ptr 2%nat 0) 2 2)) as Hr
    by reflexivity.
  assert (repr (heap two_vectors) (Vector 7 (Ptr 1%nat 0) 4 3) [1; 2; 3]) as Hxs.
  { unfold repr. simpl. unfold max_size, PTRDIFF_MAX.
    split; [done|]. split; [lia|]. right. by split; [lia|]. }
  split; [exact Hwf|]. split; [exact Hv|]. split; [exact Hr|].
  split; [exact Hxs|].
  destruct (assign_move_equivalent (T:=Z) (A:=Z) 0%nat 1%nat two_vectors _ _ _
              Hwf Hv Hr Hxs)
    as (sc & ss & s1 & s2 & Hclear & Hlive & _ & Hreg & _ & _ & _ & _
        & Hrun1 & Hrun2 & _ & Hobs & Hends & Hsame).
  destruct Hends as [Hthis Hrhs]; [lia|].
  destruct (Hlive 2%nat 3 eq_refl) as [Hbefore Hafter].
  destruct Hsame as (Hheap & _); [done|].
  exists sc, s1, s2. split; [exact Hclear|].
  split; [exact Hbefore|]. split; [exact Hafter|].
  split; [apply Hreg; by intros [=]|].
  split; [exact Hrun1|].
  split.
  { rewrite Hheap. rewrite (assign_move_spec_Ok 0%nat 1%nat _ _ two_vectors Hwf Hv Hr)
      in Hrun2. injection Hrun2 as <-. reflexivity. }
  split; [exact Hrun2|].
  split; [exact Hobs|]. split; [|exact Hrhs].
  rewrite Hthis. reflexivity.
Defined.

(** ** Buffers that move without an allocation *)

(** C5 as stated does not hold: after [v.reserve(10)] on an empty vector,
    [v.shrink_to_fit()] allocates no region, and yet the buffer of [v] is
    no longer where it was: it has been freed and the pointer is null. *)
Lemma shrink_to_fit_moves_buffer_without_allocating :
  ∃ s s' : state Z Z,
    (vector.vector_default 0%nat 7;; vector.reserve 0%nat 10) initial_state
    = Ok () s ∧
    run (Shrink_to_fit 0%nat) s = Ok () s' ∧
    regions_allocated s s' = 0 ∧
    data <$> objs s !! 0%nat = Some (Ptr 1%nat 0) ∧
    data <$> objs s' !! 0%nat = Some nullptr ∧
    heap s' !! 1%nat = None.
Proof.
  eexists _, _.
  split; [vm_compute; reflexivity|].
  split; [vm_compute; reflexivity|].
  split; [reflexivity|]. split; [reflexivity|]. split; reflexivity.
Qed.

(** C5, amended: a public operation that completes without allocating a
    region leaves the buffer pointer of every existing vector where it was,
    unless it is [shrink_to_fit] on a vector that has capacity but no
    elements (the buffer is freed and the pointer becomes null) or one of
    [swap], move assignment and move construction (which pass buffers from
    one object to another).  [reserve] is not the only member that
    reallocates: [shrink_to_fit] on a vector with slack and elements, and
    copy assignment into a vector whose capacity is too small, allocate the
    new region themselves and move the buffer there. *)
Theorem buffer_kept_without_allocation {T A : Type} `{!Allocator A}
    `{!DefaultConstructible T} :
  (∀ (o : op) (s s' : state T A),
     wf s → well_called o s → run o s = Ok () s' →
     regions_allocated s s' = 0 →
     ¬ exchanges_buffers o → ¬ frees_empty_buffer o s →
     ∀ l v, objs s !! l = Some v →
       ∃ v', objs s' !! l = Some v' ∧ data v' = data v) ∧
  (∀ this (s : state T A) v,
     wf s → objs s !! this = Some v →
     numElements v = 0 → 0 < numCapacity v →
     ∃ s' v',
       vector.shrink_to_fit this s = Ok () s' ∧
       regions_allocated s s' = 0 ∧
       objs s' !! this = Some v' ∧ data v' = nullptr ∧ data v ≠ nullptr ∧
       heap s' !! blk (data v) = None) ∧
  (∀ this (s : state T A) v,
     wf s → objs s !! this = Some v →
     0 < numElements v < numCapacity v →
     ∃ s' v',
       vector.shrink_to_fit this s = Ok () s' ∧
       regions_allocated s s' = 1 ∧
       objs s' !! this = Some v' ∧ data v' = Ptr (next_block s) 0 ∧
       data v' ≠ data v) ∧
  (∀ this rhs (s : state T A) v r,
     wf s → this ≠ rhs →
     objs s !! this = Some v → objs s !! rhs = Some r →
     numCapacity v < numElements r →
     ∃ s' v',
       vector.assign_copy this rhs s = Ok () s' ∧
       regions_allocated s s' = 1 ∧
       objs s' !! this = Some v' ∧ data v' = Ptr (next_block s) 0 ∧
       data v' ≠ data v).
Proof.
  split; [|split; [|split]].
  - intros o s s' Hwf Hcall Hrun Hnone Hex Hfree.
    eapply effect_buffer_kept; [|done..]. by apply run_effect.
  - intros this s v Hwf Hv Hn Hcap.
    destruct (wf_repr _ Hwf _ _ Hv) as [xs Hxs].
    pose proof (repr_length _ _ _ Hxs) as Hlen.
    assert (xs = []) as -> by (apply length_zero_iff_nil; lia).
    pose proof (repr_nonnull _ _ _ Hxs Hcap) as Hnn.
    eexists _, _. split; [by apply shrink_to_fit_release|].
    split; [by apply regions_allocated_same|].
    split; [apply lookup_insert_eq|]. split; [done|]. split; [done|].
    apply lookup_delete_eq.
  - intros this s v Hwf Hv Hn.
    destruct (wf_repr _ Hwf _ _ Hv) as [xs Hxs].
    eexists _, _. split; [by eapply shrink_to_fit_relocate|].
    split; [by apply regions_allocated_succ|].
    split; [apply lookup_insert_eq|]. split; [done|]. simpl.
    pose proof (wf_block_lt _ _ _ Hwf Hv) as Hlt.
    intros Heq. rewrite <- Heq in Hlt. simpl in Hlt. lia.
  - intros this rhs s v r Hwf Hne Hv Hr Hcap.
    destruct (wf_repr _ Hwf _ _ Hv) as [xs Hxs].
    destruct (wf_repr _ Hwf _ _ Hr) as [ys Hys].
    eexists _, _. split; [by eapply assign_copy_relocate|].
    split; [by apply regions_allocated_succ|].
    split; [apply lookup_insert_eq|]. split; [done|]. simpl.
    pose proof (wf_block_lt _ _ _ Hwf Hv) as Hlt.
    intros Heq. rewrite <- Heq in Hlt. simpl in Hlt. lia.
Qed.

Lemma buffer_kept_without_allocation_witness :
  wf one_vector ∧
  run (Pop_back 0%nat) one_vector
  = Ok () (in_place 0%nat (Vector 7 (Ptr 1%nat 0) 4 3) [1; 2] one_vector) ∧
  regions_allocated one_vector
    (in_place 0%nat (Vector 7 (Ptr 1%nat 0) 4 3) [1; 2] one_vector) = 0 ∧
  objs one_vector !! 0%nat = Some (Vector 7 (Ptr 1%nat 0) 4 3) ∧
  ∃ v', objs (in_place 0%nat (Vector 7 (Ptr 1%nat 0) 4 3) [1; 2] one_vector)
          !! 0%nat = Some v' ∧
        data v' = Ptr 1%nat 0.
Proof.
  pose proof one_vector_wf as Hwf.
  assert (run (Pop_back 0%nat) one_vector
          = Ok () (in_place 0%nat (Vector 7 (Ptr 1%nat 0) 4 3) [1; 2] one_vector))
    as Hrun by (vm_compute; reflexivity).
  assert (regions_allocated one_vector
            (in_place 0%nat (Vector 7 (Ptr 1%nat 0) 4 3) [1; 2] one_vector) = 0)
    as Hnone by reflexivity.
  assert (objs one_vector !! 0%nat = Some (Vector 7 (Ptr 1%nat 0) 4 3)) as Hv
    by reflexivity.
  split; [exact Hwf|]. split; [exact Hrun|]. split; [exact Hnone|].
  split; [exact Hv|].
  destruct (buffer_kept_without_allocation (T:=Z) (A:=Z)) as [Hkept _].
  apply (Hkept (Pop_back 0%nat) one_vector _ Hwf I Hrun Hnone
           (λ H : False, H) (λ H : False, H) 0%nat _ Hv).
Defined.

(** ** The allocation strategy across copies *)

(** C6 as stated does not hold: a vector copy-constructed from one whose
    allocator is in state [7] holds the default state [0]; a vector
    constructed with state [5] and then copy-assigned from the same source
    still holds [5]. *)
Lemma copy_does_not_take_allocator_state :
  ∃ s s1 s2 : state Z Z,
    (vector.vector_default 0%nat 7;; vector.push_back 0%nat (Val 1)) initial_state
    = Ok () s ∧
    alloc <$> objs s !! 0%nat = Some 7 ∧
    vector.vector_copy 1%nat 0%nat s = Ok () s1 ∧
    alloc <$> objs s1 !! 1%nat = Some 0 ∧
    (vector.vector_default 1%nat 5;; vector.assign_copy 1%nat 0%nat) s
    = Ok () s2 ∧
    alloc <$> objs s2 !! 1%nat = Some 5.
Proof.
  eexists _, _, _.
  split; [vm_compute; reflexivity|]. split; [reflexivity|].
  split; [vm_compute; reflexivity|]. split; [reflexivity|].
  split; [vm_compute; reflexivity|]. reflexivity.
Qed.

Lemma assign_copy_total {T A : Type} `{!Allocator A} `{!DefaultConstructible T}
    this rhs (s : state T A) v r :
  wf s → objs s !! this = Some v → objs s !! rhs = Some r →
  ∃ s', vector.assign_copy this rhs s = Ok () s'.
Proof.
  intros Hwf Hv Hr.
  destruct (decide (this = rhs)) as [<-|Hne].
  { eexists. apply assign_copy_self. }
  destruct (wf_repr _ Hwf _ _ Hv) as [xs Hxs].
  destruct (wf_repr _ Hwf _ _ Hr) as [ys Hys].
  destruct (decide (numCapacity v < numElements r)) as [Hlt|Hge].
  - eexists. by eapply assign_copy_relocate.
  - eexists. eapply assign_copy_in_place; [done..|lia].
Qed.

(** C6, amended: the allocation strategy is not propagated through copy.
    A copy-constructed vector holds a default-constructed strategy, and the
    target of a copy assignment keeps the strategy it already held; the
    source keeps its own in both cases. *)
Theorem copy_leaves_allocators {T A : Type} `{!Allocator A}
    `{!DefaultConstructible T} :
  (∀ this rhs (s : state T A) r,
     wf s → objs s !! this = None → objs s !! rhs = Some r →
     numElements r ≤ INT_MAX →
     ∃ s' b,
       vector.vector_copy this rhs s = Ok () s' ∧
       objs s' !! this = Some b ∧ alloc b = A_default ∧
       objs s' !! rhs = Some r) ∧
  (∀ this rhs (s : state T A) v r,
     wf s → objs s !! this = Some v → objs s !! rhs = Some r →
     ∃ s' v' r',
       vector.assign_copy this rhs s = Ok () s' ∧
       objs s' !! this = Some v' ∧ alloc v' = alloc v ∧
       objs s' !! rhs = Some r' ∧ alloc r' = alloc r).
Proof.
  split.
  - intros this rhs s r Hwf Hfree Hr Hmax.
    destruct (wf_repr _ Hwf _ _ Hr) as [ys Hys].
    destruct (vector_copy_spec this rhs r ys s Hwf Hr Hys Hfree Hmax)
      as (s' & b & Hrun & _).
    assert (this ≠ rhs) as Hne by congruence.
    destruct (vector_copy_alloc this rhs r s s' Hwf Hr Hne Hrun)
      as (b' & Hb & Ha & Hr').
    by exists s', b'.
  - intros this rhs s v r Hwf Hv Hr.
    destruct (assign_copy_total this rhs s v r Hwf Hv Hr) as [s' Hrun].
    destruct (assign_copy_alloc this rhs v r s s' Hwf Hv Hr Hrun)
      as (v' & r' & ? & ? & ? & ?).
    by exists s', v', r'.
Qed.

Lemma copy_leaves_allocators_witness :
  wf one_vector ∧
  objs one_vector !! 1%nat = None ∧
  objs one_vector !! 0%nat = Some (Vector 7 (Ptr 1%nat 0) 4 3) ∧
  3 ≤ INT_MAX ∧
  (∃ s' b,
     vector.vector_copy 1%nat 0%nat one_vector = Ok () s' ∧
     objs s' !! 1%nat = Some b ∧ alloc b = 0 ∧
     objs s' !! 0%nat = Some (Vector 7 (Ptr 1%nat 0) 4 3)) ∧
  (∃ s' v' r',
     vector.assign_copy 1%nat 0%nat two_vectors = Ok () s' ∧
     objs s' !! 1%nat = Some v' ∧ alloc v' = 0 ∧
     objs s' !! 0%nat = Some r' ∧ alloc r' = 7).
Proof.
  pose proof one_vector_wf as Hwf. pose proof two_vectors_wf as Hwf2.
  assert (objs one_vector !! 1%nat = None) as Hfree by reflexivity.
  assert (objs one_vector !! 0%nat = Some (Vector 7 (Ptr 1%nat 0) 4 3)) as Hr
    by reflexivity.
  assert (3 ≤ INT_MAX) as Hmax by (unfold INT_MAX; lia).
  destruct (copy_leaves_allocators (T:=Z) (A:=Z)) as [Hcopy Hassign].
  split; [exact Hwf|]. split; [exact Hfree|]. split; [exact Hr|].
  split; [exact Hmax|]. split.
  - exact (Hcopy 1%nat 0%nat one_vector _ Hwf Hfree Hr Hmax).
  - exact (Hassign 1%nat 0%nat two_vectors (Vector 0 (Ptr 2%nat 0) 2 2)
             (Vector 7 (Ptr 1%nat 0) 4 3) Hwf2 eq_refl eq_refl).
Defined.

(** ** The defects *)

(** C2, at its failing input: with an allocation strategy that answers
    [allocate(0)] with a pointer that is not null, the sized constructor
    called with [num = 0] completes and leaves a vector of capacity 0 whose
    buffer is not null, so that I2 is broken (the rest of the invariant
    holds). *)
Theorem sized_constructor_zero_not_null {T A : Type} `{!Allocator A}
    `{!DefaultConstructible T} this a (s : state T A) :
  wf s → allocate_zero_is_null a = false →
  ∃ s' v,
    vector.vector_sized this 0 a s = Ok () s' ∧ wf s' ∧
    objs s' !! this = Some v ∧
    numElements v = 0 ∧ numCapacity v = 0 ∧ data v ≠ nullptr ∧
    ¬ null_iff_no_capacity v.
Proof.
  intros Hwf Hpol.
  exists (created this a 0 [] s), (Vector a (Ptr (next_block s) 0) 0 0).
  pose proof (wf_next _ Hwf) as Hnext.
  assert (Ptr (next_block s) 0 ≠ nullptr) as Hnn.
  { unfold nullptr. intros [= Heq]. lia. }
  split; [rewrite vector_sized_fill, vector_fill_zero; by rewrite Hpol|].
  split; [apply wf_created; [done|]; simpl; unfold max_size, PTRDIFF_MAX; lia|].
  split; [apply lookup_insert_eq|].
  split; [done|]. split; [done|]. split; [done|].
  unfold null_iff_no_capacity. simpl. intros [_ Hnull]. by apply Hnn, Hnull.
Qed.

Lemma sized_constructor_zero_not_null_witness :
  wf (initial_state (T:=Z) (A:=Z)) ∧
  allocate_zero_is_null (A:=Z) 0 = false ∧
  ∃ s' v,
    vector.vector_sized 0%nat 0 0 (initial_state (T:=Z) (A:=Z)) = Ok () s' ∧
    objs s' !! 0%nat = Some v ∧
    numCapacity v = 0 ∧ data v ≠ nullptr ∧ ¬ null_iff_no_capacity v.
Proof.
  assert (allocate_zero_is_null (A:=Z) 0 = false) as Hpol by reflexivity.
  split; [apply wf_initial|]. split; [exact Hpol|].
  destruct (sized_constructor_zero_not_null (T:=Z) (A:=Z) 0%nat 0 initial_state
              wf_initial Hpol)
    as (s' & v & Hrun & _ & Hv & _ & Hc & Hd & HI2).
  exists s', v. split; [exact Hrun|]. split; [exact Hv|].
  split; [exact Hc|]. split; [exact Hd|exact HI2].
Defined.

(** C7, at its failing input: when [rhs] holds more than [INT_MAX]
    elements the [int] counter of the copy constructor's loop overflows
    after the round for [i = INT_MAX]: the construction has undefined
    behaviour. *)
Theorem copy_constructor_counter_overflows {T A : Type} `{!Allocator A}
    `{!DefaultConstructible T} this rhs (s : state T A) r xs :
  wf s → objs s !! rhs = Some r → repr (heap s) r xs →
  INT_MAX < numElements r →
  vector.vector_copy this rhs s = UB.
Proof.
  intros Hwf Hr Hxs Hbig. pose proof (repr_bounds _ _ _ Hxs).
  apply (vector_copy_overflow this rhs r); [done|lia].
Qed.

Lemma copy_constructor_counter_overflows_witness :
  wf overlong_vector ∧
  objs overlong_vector !! 0%nat
  = Some (Vector 0 (Ptr 1%nat 0) (2 ^ 31 + 1)
            (Z.of_nat (length (replicate (Z.to_nat (2 ^ 31 + 1)) 0)))) ∧
  INT_MAX < 2 ^ 31 + 1 ∧
  vector.vector_copy 1%nat 0%nat overlong_vector = UB.
Proof.
  pose proof overlong_vector_wf as Hwf.
  assert (objs overlong_vector !! 0%nat
          = Some (Vector 0 (Ptr 1%nat 0) (2 ^ 31 + 1)
                    (Z.of_nat (length (replicate (Z.to_nat (2 ^ 31 + 1)) 0)))))
    as Hr by apply lookup_insert_eq.
  assert (INT_MAX < 2 ^ 31 + 1) as Hbig by (unfold INT_MAX; lia).
  split; [exact Hwf|]. split; [exact Hr|]. split; [exact Hbig|].
  destruct (wf_repr _ Hwf _ _ Hr) as [xs Hxs].
  apply (copy_constructor_counter_overflows (T:=Z) (A:=Z) 1%nat 0%nat
           overlong_vector _ xs Hwf Hr Hxs).
  cbn [numElements]. rewrite length_replicate. unfold INT_MAX. lia.
Defined.

(** * Further properties of the code *)

(** ** What a call leaves of the other objects *)

Section Frame.
Context {T A : Type} `{!Allocator A} `{!DefaultConstructible T}.
Implicit Types (s : state T A) (v r : vector A) (xs ys : list T) (t : T).

(** An object that is where it was, with its region as it was, shows what
    it showed. *)
Lemma observe_kept s s' l :
  wf s → objs s' !! l = objs s !! l →
  (∀ vl, objs s !! l = Some vl → data vl ≠ nullptr →
         heap s' !! blk (data vl) = heap s !! blk (data vl)) →
  observe s' l = observe s l.
Proof.
  intros Hwf Hobjs Hheap.
  destruct (objs s !! l) as [vl|] eqn:Hl.
  - eapply observe_ext; [exact Hobjs|exact Hl|done|done|].
    intros Hpos. split; [done|]. apply Hheap; [done|].
    destruct (wf_repr _ Hwf _ _ Hl) as [zs Hzs].
    pose proof (repr_bounds _ _ _ Hzs).
    eapply repr_nonnull; [done|lia].
  - unfold observe. by rewrite Hobjs, Hl.
Qed.

Lemma in_place_others this v xs xs' s l :
  wf s → objs s !! this = Some v → l ≠ this →
  objs (in_place this v xs' s) !! l = objs s !! l ∧
  observe (in_place this v xs' s) l = observe s l.
Proof.
  intros Hwf Hv Hne.
  assert (objs (in_place this v xs' s) !! l = objs s !! l) as Hobjs.
  { unfold in_place. simpl. by rewrite lookup_insert_ne. }
  split; [done|]. apply observe_kept; [done|done|].
  intros vl Hl Hnn. unfold in_place. simpl.
  apply heap_put_lookup_ne. by eapply wf_other_region.
Qed.

Lemma relocated_others this v cap' xs' s l :
  wf s → objs s !! this = Some v → l ≠ this →
  objs (relocated this v cap' xs' s) !! l = objs s !! l ∧
  observe (relocated this v cap' xs' s) l = observe s l.
Proof.
  intros Hwf Hv Hne.
  assert (objs (relocated this v cap' xs' s) !! l = objs s !! l) as Hobjs.
  { unfold relocated. simpl. by rewrite lookup_insert_ne. }
  split; [done|]. apply observe_kept; [done|done|].
  intros vl Hl Hnn. unfold relocated. simpl.
  pose proof (wf_block_lt _ _ _ Hwf Hl).
  rewrite lookup_insert_ne by lia.
  apply lookup_delete_ne. apply not_eq_sym. by eapply wf_other_region.
Qed.

Lemma released_others this v s l :
  wf s → objs s !! this = Some v → l ≠ this →
  objs (released this v s) !! l = objs s !! l ∧
  observe (released this v s) l = observe s l.
Proof.
  intros Hwf Hv Hne.
  assert (objs (released this v s) !! l = objs s !! l) as Hobjs.
  { unfold released. simpl. by rewrite lookup_insert_ne. }
  split; [done|]. apply observe_kept; [done|done|].
  intros vl Hl Hnn. unfold released. simpl.
  apply lookup_delete_ne. apply not_eq_sym. by eapply wf_other_region.
Qed.

Lemma destroyed_others this v s l :
  wf s → objs s !! this = Some v → l ≠ this →
  objs (destroyed this v s) !! l = objs s !! l ∧
  observe (destroyed this v s) l = observe s l.
Proof.
  intros Hwf Hv Hne.
  assert (objs (destroyed this v s) !! l = objs s !! l) as Hobjs.
  { unfold destroyed. simpl. by rewrite lookup_delete_ne. }
  split; [done|]. apply observe_kept; [done|done|].
  intros vl Hl Hnn. unfold destroyed. simpl.
  apply lookup_delete_ne. apply not_eq_sym. by eapply wf_other_region.
Qed.

Lemma created_others this a cap xs s l :
  wf s → l ≠ this →
  objs (created this a cap xs s) !! l = objs s !! l ∧
  observe (created this a cap xs s) l = observe s l.
Proof.
  intros Hwf Hne.
  assert (objs (created this a cap xs s) !! l = objs s !! l) as Hobjs.
  { unfold created. simpl. by rewrite lookup_insert_ne. }
  split; [done|]. apply observe_kept; [done|done|].
  intros vl Hl Hnn. unfold created. simpl.
  pose proof (wf_block_lt _ _ _ Hwf Hl).
  by rewrite lookup_insert_ne by lia.
Qed.

Lemma created_empty_others this a s l :
  wf s → l ≠ this →
  objs (created_empty this a s) !! l = objs s !! l ∧
  observe (created_empty this a s) l = observe s l.
Proof.
  intros Hwf Hne.
  assert (objs (created_empty this a s) !! l = objs s !! l) as Hobjs.
  { unfold created_empty. simpl. by rewrite lookup_insert_ne. }
  split; [done|]. by apply observe_kept.
Qed.

(** The empty list is represented by every vector without elements. *)
Lemma repr_empty (h : gmap block (region T)) (a : A) :
  repr h (Vector a nullptr 0 0) [].
Proof.
  unfold repr. simpl. unfold max_size, PTRDIFF_MAX.
  split; [done|]. split; [lia|]. by left.
Qed.

(** Reading [v[i]]. *)
Lemma subscript_load this v xs (i : nat) x s :
  objs s !! this = Some v → repr (heap s) v xs → xs !! i = Some x →
  (q ← vector.subscript this (Z.of_nat i); load q) s = Ok x s.
Proof.
  intros Hv Hxs Hi. unfold vector.subscript.
  erewrite bind_Ok; last first.
  { erewrite bind_Ok by by apply get_Ok. done. }
  by eapply repr_load.
Qed.

(** No slot from [count] on holds an object. *)
Lemma repr_load_beyond s v xs i :
  wf s → repr (heap s) v xs → Z.of_nat (length xs) ≤ i →
  load (data v +ₚ i) s = UB.
Proof.
  intros Hwf Hxs Hi. unfold load.
  destruct (decide (data v = nullptr)) as [Hnull|Hnn].
  - rewrite Hnull. simpl. by rewrite wf_null_fresh.
  - destruct (repr_region _ _ _ Hxs Hnn) as (Hd & Hb0 & Hh).
    rewrite Hd, ptr_add_origin. simpl. rewrite Hh. simpl.
    assert (map_seqZ (M:=gmap Z T) 0 xs !! i = None) as ->; [|done].
    apply lookup_map_seqZ_None. lia.
Qed.

End Frame.

(** ** The destructor *)

Section Destructor.
Context {T A : Type} `{!Allocator A} `{!DefaultConstructible T}.
Implicit Types (s : state T A) (v r : vector A) (xs ys : list T) (t : T).

Lemma vector_destroy_Ok this v xs s :
  wf s → objs s !! this = Some v → repr (heap s) v xs →
  numElements v ≤ INT_MAX →
  vector.vector_destroy this s = Ok () (destroyed this v s).
Proof.
  intros Hwf Hv Hxs Hmax. unfold vector.vector_destroy.
  erewrite bind_Ok by by apply get_Ok.
  pose proof (repr_length _ _ _ Hxs) as Hn.
  destruct (decide (data v = nullptr)) as [Hnull|Hnn].
  - rewrite (repr_null _ _ _ Hxs Hnull) in Hn. simpl in Hn.
    erewrite bind_Ok; last first.
    { rewrite (for_int_loop _ 0) by (done || lia). done. }
    erewrite bind_Ok by (unfold deallocate; by rewrite decide_True).
    unfold destroyed. rewrite Hnull. simpl.
    by rewrite (delete_id (heap s)) by by apply wf_null_fresh.
  - destruct (repr_region _ _ _ Hxs Hnn) as (Hd & Hb0 & Hh).
    erewrite bind_Ok; last first.
    { rewrite (for_int_loop _ (length xs)) by done.
      erewrite bind_Ok; [done|]. rewrite Hd.
      eapply (loop_destroy _ _ xs ∅ 0).
      - by rewrite (left_id_L ∅ (∪)).
      - intros. apply lookup_empty. }
    erewrite bind_Ok; last first.
    { unfold deallocate. rewrite decide_False by done.
      rewrite with_region_heap. simpl.
      rewrite decide_True; [done|]. split; [by rewrite Hd|done]. }
    unfold destroyed. simpl. by rewrite delete_insert_eq.
Qed.

(** A destruction loop that comes to a slot without an object. *)
Lemma loop_destroy_dead (q : ptr) i : ∀ (n : nat) i0 s,
  i0 ≤ i < i0 + Z.of_nat n → load (q +ₚ i) s = UB →
  loop n i0 (λ j, destroy (q +ₚ j)) s = UB.
Proof.
  induction n as [|n IH]; intros i0 s Hi Hdead; [lia|]. simpl.
  destruct (decide (i0 = i)) as [->|Hne].
  - apply bind_UB. unfold load in Hdead. unfold destroy.
    destruct (heap s !! blk (q +ₚ i)) as [reg|]; [|done].
    by destruct (cells reg !! off (q +ₚ i)).
  - unfold bind at 1.
    destruct (destroy (q +ₚ i0) s) as [[] s1|s1|] eqn:Hd; [| |done].
    + apply IH; [lia|].
      unfold destroy in Hd. unfold load in *. simpl in *.
      destruct (heap s !! blk q) as [reg|] eqn:Hreg; [|done].
      destruct (cells reg !! (off q + i0)); [|done].
      injection Hd as <-. simpl. rewrite lookup_insert_eq. simpl.
      rewrite lookup_delete_ne by lia.
      by destruct (cells reg !! (off q + i)).
    + unfold destroy in Hd.
      destruct (heap s !! blk (q +ₚ i0)) as [reg|]; [|done].
      by destruct (cells reg !! off (q +ₚ i0)).
Qed.

Lemma vector_destroy_overflow this v s :
  objs s !! this = Some v → INT_MAX < numElements v →
  vector.vector_destroy this s = UB.
Proof.
  intros Hv Hmax. unfold vector.vector_destroy.
  erewrite bind_Ok by by apply get_Ok.
  apply bind_UB. apply for_int_overflow; [done|].
  intros i s1 s2. unfold destroy.
  destruct (heap s1 !! _) as [reg|]; [|done].
  by destruct (cells reg !! _).
Qed.

(** The destructor destroys every slot below the count: one that holds no
    object makes the call undefined. *)
Lemma vector_destroy_dead this v i s :
  objs s !! this = Some v → 0 ≤ i < numElements v →
  load (data v +ₚ i) s = UB →
  vector.vector_destroy this s = UB.
Proof.
  intros Hv Hi Hdead.
  destruct (decide (INT_MAX < numElements v)) as [Hbig|Hsmall];
    [by eapply vector_destroy_overflow|].
  unfold vector.vector_destroy.
  erewrite bind_Ok by by apply get_Ok.
  apply bind_UB. unfold for_int. apply bind_UB.
  apply (loop_destroy_dead _ i); [lia|done].
Qed.

Lemma wf_destroyed this v s :
  wf s → objs s !! this = Some v → wf (destroyed this v s).
Proof.
  intros Hwf Hv. split.
  - apply (wf_next _ Hwf).
  - intros b. unfold destroyed. simpl. intros Hb.
    apply (wf_fresh _ Hwf).
    destruct (decide (b = blk (data v))) as [->|?].
    + by rewrite lookup_delete_eq in Hb; destruct Hb.
    + by rewrite lookup_delete_ne in Hb.
  - intros l v2. cbn [objs destroyed].
    destruct (decide (l = this)) as [->|Hne].
    + by rewrite lookup_delete_eq.
    + rewrite lookup_delete_ne by done. intros Hv2.
      destruct (wf_repr _ Hwf _ _ Hv2) as [zs Hz]. exists zs.
      eapply repr_frame; [exact Hz|]. intros Hnn. cbn [heap destroyed].
      apply lookup_delete_ne. apply not_eq_sym. by eapply wf_other_region.
  - intros l1 l2 v1 v2 Hne. cbn [objs destroyed].
    destruct (decide (l1 = this)) as [->|Hne1]; [by rewrite lookup_delete_eq|].
    destruct (decide (l2 = this)) as [->|Hne2].
    { rewrite (lookup_delete_eq _ this). by intros _ [=]. }
    rewrite !lookup_delete_ne by done. by apply (wf_own _ Hwf).
Qed.

End Destructor.

(** ** Construction and destruction *)

Section Construction.
Context {T A : Type} `{!Allocator A} `{!DefaultConstructible T}.
Implicit Types (s : state T A) (v r : vector A) (xs ys : list T) (t : T).

Lemma created_this this a cap xs s :
  objs (created this a cap xs s) !! this
  = Some (Vector a (Ptr (next_block s) 0) cap (Z.of_nat (length xs))).
Proof. apply lookup_insert_eq. Qed.

Lemma created_repr this a cap xs s :
  wf s → Z.of_nat (length xs) ≤ cap ≤ max_size →
  repr (heap (created this a cap xs s))
       (Vector a (Ptr (next_block s) 0) cap (Z.of_nat (length xs))) xs.
Proof.
  intros Hwf Hlen. pose proof (wf_next _ Hwf).
  unfold repr, created. simpl.
  split; [done|]. split; [lia|]. right.
  split; [lia|]. split; [done|]. apply lookup_insert_eq.
Qed.

(** The fill constructor within the range of its loop counter. *)
Lemma vector_fill_spec this num t a s :
  wf s → objs s !! this = None → 0 ≤ num ≤ INT_MAX →
  ∃ s' v,
    vector.vector_fill this num t a s = Ok () s' ∧ wf s' ∧
    objs s' !! this = Some v ∧ alloc v = a ∧
    numElements v = num ∧ numCapacity v = num ∧
    repr (heap s') v (replicate (Z.to_nat num) t) ∧
    (∀ l, l ≠ this → objs s' !! l = objs s !! l ∧ observe s' l = observe s l).
Proof.
  intros Hwf Hfree Hnum.
  assert (INT_MAX ≤ max_size) as Hmax
    by (unfold INT_MAX, max_size, PTRDIFF_MAX; lia).
  destruct (decide (num = 0)) as [->|Hnz].
  - rewrite vector_fill_zero. change (Z.to_nat 0) with 0%nat. simpl replicate.
    destruct (allocate_zero_is_null a).
    + eexists _, _. split; [done|]. split; [by apply wf_created_empty|].
      split; [apply lookup_insert_eq|]. split; [done|]. split; [done|].
      split; [done|]. split; [apply repr_empty|].
      intros l Hl. by apply created_empty_others.
    + eexists _, _. split; [done|].
      split; [apply wf_created; [done|simpl; lia]|].
      split; [apply created_this|]. split; [done|]. split; [done|].
      split; [done|]. split; [apply created_repr; [done|simpl; lia]|].
      intros l Hl. by apply created_others.
  - rewrite vector_fill_Ok by lia.
    assert (Z.of_nat (length (replicate (Z.to_nat num) t)) = num) as Hlen
      by (rewrite length_replicate; lia).
    eexists _, _. split; [done|].
    split; [apply wf_created; [done|lia]|].
    split; [apply created_this|]. split; [done|]. split; [exact Hlen|].
    split; [done|]. split; [apply created_repr; [done|lia]|].
    intros l Hl. by apply created_others.
Qed.

Lemma vector_init_list_spec this l a s :
  wf s → objs s !! this = None → Z.of_nat (length l) ≤ max_size →
  ∃ s' v,
    vector.vector_init_list this l a s = Ok () s' ∧ wf s' ∧
    objs s' !! this = Some v ∧ alloc v = a ∧
    numElements v = Z.of_nat (length l) ∧
    numCapacity v = Z.of_nat (length l) ∧
    repr (heap s') v l ∧
    (∀ l', l' ≠ this →
       objs s' !! l' = objs s !! l' ∧ observe s' l' = observe s l').
Proof.
  intros Hwf Hfree Hlen.
  destruct l as [|x l].
  - rewrite vector_init_list_nil.
    destruct (allocate_zero_is_null a).
    + eexists _, _. split; [done|]. split; [by apply wf_created_empty|].
      split; [apply lookup_insert_eq|]. split; [done|]. split; [done|].
      split; [done|]. split; [apply repr_empty|].
      intros l Hl. by apply created_empty_others.
    + eexists _, _. split; [done|].
      split; [apply wf_created; [done|simpl; lia]|].
      split; [apply created_this|]. split; [done|]. split; [done|].
      split; [done|]. split; [apply created_repr; [done|simpl; lia]|].
      intros l Hl. by apply created_others.
  - rewrite vector_init_list_Ok by (simpl in *; lia).
    eexists _, _. split; [done|].
    split; [apply wf_created; [done|lia]|].
    split; [apply created_this|]. split; [done|]. split; [done|].
    split; [done|]. split; [apply created_repr; [done|lia]|].
    intros l' Hl. by apply created_others.
Qed.

End Construction.

(** X1: [vector(num, t, a)] and [vector(num, a)], for [num] within the range
    of the [int] loop counter, complete with a vector of [num] elements, all
    equal to [t] (to [T()] for the second form), in a buffer for exactly [num]
    objects and with the allocation strategy [a]; every [v[i]] with [i < num]
    reads that value, and no other object is touched. *)
Theorem fill_constructor_holds_copies {T A : Type} `{!Allocator A}
    `{!DefaultConstructible T} (ctor : M T A unit) this num (t : T) (a : A)
    (s : state T A) :
  ctor = vector.vector_fill this num t a ∨
    (ctor = vector.vector_sized this num a ∧ t = T_default) →
  wf s → objs s !! this = None → 0 ≤ num ≤ INT_MAX →
  ∃ s' v,
    ctor s = Ok () s' ∧ wf s' ∧
    objs s' !! this = Some v ∧ alloc v = a ∧
    numElements v = num ∧ numCapacity v = num ∧
    repr (heap s') v (replicate (Z.to_nat num) t) ∧
    (∀ i, 0 ≤ i < num →
       (q ← vector.subscript this i; load q) s' = Ok t s') ∧
    (∀ l, l ≠ this → objs s' !! l = objs s !! l ∧ observe s' l = observe s l).
Proof.
  intros Hctor Hwf Hfree Hnum.
  assert (ctor = vector.vector_fill this num t a) as ->.
  { destruct Hctor as [->|[-> ->]]; [done|apply vector_sized_fill]. }
  destruct (vector_fill_spec this num t a s Hwf Hfree Hnum)
    as (s' & v & Hrun & Hwf' & Hv & Ha & Hn & Hc & Hxs & Hothers).
  exists s', v. split; [done|]. split; [done|]. split; [done|].
  split; [done|]. split; [done|]. split; [done|]. split; [done|].
  split; [|done].
  intros i Hi. replace i with (Z.of_nat (Z.to_nat i)) by lia.
  eapply subscript_load; [done..|].
  apply lookup_replicate_2. lia.
Qed.

Lemma fill_constructor_holds_copies_witness :
  wf (initial_state (T:=Z) (A:=Z)) ∧
  objs (initial_state (T:=Z) (A:=Z)) !! 0%nat = None ∧
  0 ≤ 2 ≤ INT_MAX ∧
  ∃ s' v,
    vector.vector_fill 0%nat 2 5 7 initial_state = Ok () s' ∧
    objs s' !! 0%nat = Some v ∧ alloc v = 7 ∧ numCapacity v = 2 ∧
    repr (heap s') v [5; 5] ∧
    (q ← vector.subscript 0%nat 1; load q) s' = Ok 5 s'.
Proof.
  assert (0 ≤ 2 ≤ INT_MAX) as Hnum by (unfold INT_MAX; lia).
  split; [apply wf_initial|]. split; [reflexivity|]. split; [exact Hnum|].
  destruct (fill_constructor_holds_copies (T:=Z) (A:=Z)
              (vector.vector_fill 0%nat 2 5 7) 0%nat 2 5 7 initial_state
              (or_introl eq_refl) wf_initial eq_refl Hnum)
    as (s' & v & Hrun & _ & Hv & Ha & _ & Hc & Hxs & Hget & _).
  exists s', v. split; [exact Hrun|]. split; [exact Hv|]. split; [exact Ha|].
  split; [exact Hc|]. split; [exact Hxs|]. apply Hget. lia.
Defined.

(** X2: [vector(num, t, a)] and [vector(num, a)] for a large [num]: above
    [INT_MAX], and within what the allocation strategy can serve, the [int]
    counter of the construction loop overflows and the call has undefined
    behaviour; above what the allocation strategy can serve the call leaves by
    [std::bad_alloc] with the store as it was. *)
Theorem fill_constructor_out_of_range {T A : Type} `{!Allocator A}
    `{!DefaultConstructible T} this num (t : T) (a : A) (s : state T A) :
  (INT_MAX < num ≤ max_size →
     vector.vector_fill this num t a s = UB ∧
     vector.vector_sized this num a s = UB) ∧
  (max_size < num →
     vector.vector_fill this num t a s = Throw s ∧
     vector.vector_sized this num a s = Throw s).
Proof.
  split; intros Hnum; rewrite vector_sized_fill.
  - split; by apply vector_fill_overflow.
  - split; by apply vector_fill_Throw.
Qed.

Lemma fill_constructor_out_of_range_witness :
  (INT_MAX < 2 ^ 31 ≤ max_size ∧
   vector.vector_fill 0%nat (2 ^ 31) 5 7 (initial_state (T:=Z) (A:=Z)) = UB) ∧
  (max_size < 2 ^ 63 ∧
   vector.vector_sized 0%nat (2 ^ 63) 7 (initial_state (T:=Z) (A:=Z))
   = Throw initial_state).
Proof.
  assert (INT_MAX < 2 ^ 31 ≤ max_size) as H1
    by (unfold INT_MAX, max_size, PTRDIFF_MAX; lia).
  assert (max_size < 2 ^ 63) as H2 by (unfold max_size, PTRDIFF_MAX; lia).
  split.
  - split; [exact H1|].
    destruct (fill_constructor_out_of_range (T:=Z) (A:=Z) 0%nat (2 ^ 31) 5 7
                initial_state) as [Hub _].
    destruct (Hub H1) as [Hfill _]. exact Hfill.
  - split; [exact H2|].
    destruct (fill_constructor_out_of_range (T:=Z) (A:=Z) 0%nat (2 ^ 63) 5 7
                initial_state) as [_ Hthrow].
    destruct (Hthrow H2) as [_ Hsized]. exact Hsized.
Defined.

(** X3: [vector(l, a)] completes, for a list of any length that the allocation
    strategy can serve, with a vector that holds exactly the elements of [l],
    in order, in a buffer for [l.size()] objects and with the allocation
    strategy [a]; no other object is touched. *)
Theorem init_list_constructor_holds_list {T A : Type} `{!Allocator A}
    `{!DefaultConstructible T} this (l : list T) (a : A) (s : state T A) :
  wf s → objs s !! this = None → Z.of_nat (length l) ≤ max_size →
  ∃ s' v,
    vector.vector_init_list this l a s = Ok () s' ∧ wf s' ∧
    objs s' !! this = Some v ∧ alloc v = a ∧
    numElements v = Z.of_nat (length l) ∧
    numCapacity v = Z.of_nat (length l) ∧
    repr (heap s') v l ∧
    (∀ (i : nat) x, l !! i = Some x →
       (q ← vector.subscript this (Z.of_nat i); load q) s' = Ok x s') ∧
    (∀ l', l' ≠ this →
       objs s' !! l' = objs s !! l' ∧ observe s' l' = observe s l').
Proof.
  intros Hwf Hfree Hlen.
  destruct (vector_init_list_spec this l a s Hwf Hfree Hlen)
    as (s' & v & Hrun & Hwf' & Hv & Ha & Hn & Hc & Hxs & Hothers).
  exists s', v. split; [done|]. split; [done|]. split; [done|].
  split; [done|]. split; [done|]. split; [done|]. split; [done|].
  split; [|done].
  intros i x Hi. by eapply subscript_load.
Qed.

Lemma init_list_constructor_holds_list_witness :
  wf (initial_state (T:=Z) (A:=Z)) ∧
  objs (initial_state (T:=Z) (A:=Z)) !! 0%nat = None ∧
  Z.of_nat (length [4; 5; 6]) ≤ max_size ∧
  ∃ s' v,
    vector.vector_init_list 0%nat [4; 5; 6] 7 initial_state = Ok () s' ∧
    objs s' !! 0%nat = Some v ∧ numCapacity v = 3 ∧
    repr (heap s') v [4; 5; 6] ∧
    (q ← vector.subscript 0%nat 2; load q) s' = Ok 6 s'.
Proof.
  assert (Z.of_nat (length [4; 5; 6]) ≤ max_size) as Hlen
    by (unfold max_size, PTRDIFF_MAX; simpl; lia).
  split; [apply wf_initial|]. split; [reflexivity|]. split; [exact Hlen|].
  destruct (init_list_constructor_holds_list (T:=Z) (A:=Z) 0%nat [4; 5; 6] 7
              initial_state wf_initial eq_refl Hlen)
    as (s' & v & Hrun & _ & Hv & _ & _ & Hc & Hxs & Hget & _).
  exists s', v. split; [exact Hrun|]. split; [exact Hv|]. split; [exact Hc|].
  split; [exact Hxs|]. apply (Hget 2%nat 6). reflexivity.
Defined.

(** ** Sequences of [push_back] and the buffer they own *)

Section Owned.
Context {T A : Type} `{!Allocator A} `{!DefaultConstructible T}.
Implicit Types (s : state T A) (v r : vector A) (xs ys : list T) (t : T).

Lemma in_place_id this v xs s :
  objs s !! this = Some v → repr (heap s) v xs → in_place this v xs s = s.
Proof.
  intros Hv Hxs. pose proof (repr_length _ _ _ Hxs) as Hn.
  destruct s as [h nb os]. unfold in_place, heap_put. simpl in *. f_equal.
  - case_decide as Hnull; [done|].
    destruct (repr_region _ _ _ Hxs Hnull) as (_ & _ & Hh).
    by apply insert_id.
  - rewrite <- Hn. destruct v. simpl. by apply insert_id.
Qed.

Lemma in_place_in_place this v n xs ys s :
  in_place this (Vector (alloc v) (data v) (numCapacity v) n) ys
    (in_place this v xs s)
  = in_place this v ys s.
Proof.
  unfold in_place, heap_put. simpl. f_equal.
  - case_decide; [done|]. apply insert_insert_eq.
  - apply insert_insert_eq.
Qed.

(** Pushing into a buffer that has room for all of [ts]. *)
Lemma push_all_room this : ∀ ts s v xs,
  objs s !! this = Some v → repr (heap s) v xs →
  Z.of_nat (length xs + length ts) ≤ numCapacity v →
  push_all this ts s = Ok () (in_place this v (xs ++ ts) s).
Proof.
  induction ts as [|t ts IH]; intros s v xs Hv Hxs Hlen; simpl.
  - rewrite (right_id_L [] (++)). unfold ret. by rewrite in_place_id.
  - pose proof (repr_length _ _ _ Hxs) as Hn. simpl in Hlen.
    erewrite bind_Ok by (eapply push_back_room; [done..|lia]).
    rewrite (IH _ (Vector (alloc v) (data v) (numCapacity v)
                          (Z.of_nat (length (xs ++ [t])))) (xs ++ [t])).
    + rewrite in_place_in_place. by rewrite <- (assoc_L (++)).
    + apply lookup_insert_eq.
    + eapply in_place_repr; [done|]. rewrite length_app. simpl. lia.
    + simpl. rewrite length_app. simpl. lia.
Qed.

Lemma push_all_owned this : ∀ ts s v xs,
  wf s → objs s !! this = Some v → repr (heap s) v xs →
  Z.of_nat (length xs + length ts) ≤ 2 ^ 62 →
  ∃ s' v',
    push_all this ts s = Ok () s' ∧ wf s' ∧
    objs s' = <[this := v']> (objs s) ∧ repr (heap s') v' (xs ++ ts) ∧
    delete (blk (data v')) (heap s') = delete (blk (data v)) (heap s) ∧
    alloc v' = alloc v ∧ numCapacity v ≤ numCapacity v'.
Proof.
  induction ts as [|t ts IH]; intros s v xs Hwf Hv Hxs Hlen; simpl.
  - exists s, v. rewrite (right_id_L [] (++)).
    split; [done|]. split; [done|]. split; [by rewrite insert_id|].
    split; [done|]. split; [done|]. split; [done|lia].
  - pose proof (repr_length _ _ _ Hxs) as Hn. simpl in Hlen.
    destruct (push_back_owned this t s v xs Hwf Hv Hxs)
      as (s1 & v1 & Hrun1 & Hwf1 & Hobjs1 & Hxs1 & Hheap1 & Ha1 & Hc1).
    { intros Hfull. unfold grown, max_size, PTRDIFF_MAX. case_decide; lia. }
    assert (objs s1 !! this = Some v1) as Hv1
      by (rewrite Hobjs1; apply lookup_insert_eq).
    destruct (IH s1 v1 (xs ++ [t]) Hwf1 Hv1 Hxs1)
      as (s2 & v2 & Hrun2 & Hwf2 & Hobjs2 & Hxs2 & Hheap2 & Ha2 & Hc2).
    { rewrite length_app. simpl. lia. }
    exists s2, v2. split; [by erewrite bind_Ok by exact Hrun1|].
    split; [done|].
    split; [by rewrite Hobjs2, Hobjs1, insert_insert_eq|].
    split; [by rewrite <- (assoc_L (++)) in Hxs2|].
    split; [congruence|]. split; [congruence|lia].
Qed.

End Owned.

(** X4: [~vector()] runs [destroy] on every slot below [size()], gives the
    buffer back to the allocation strategy and ends the object.  On a vector
    of at most [INT_MAX] elements it completes, and every other region and
    every other object is left as it was.  That the elements are destroyed,
    and not only the buffer released, shows where a slot below [size()] holds
    no object (any more): the call then has undefined behaviour.  [~stack()]
    is the destructor of its container. *)
Theorem destructor_releases_buffer {T A : Type} `{!Allocator A}
    `{!DefaultConstructible T} this (s : state T A) v :
  objs s !! this = Some v →
  (∀ xs, wf s → repr (heap s) v xs → numElements v ≤ INT_MAX →
     ∃ s',
       vector.vector_destroy this s = Ok () s' ∧ wf s' ∧
       stack.stack_destroy this s = Ok () s' ∧
       objs s' !! this = None ∧
       heap s' !! blk (data v) = None ∧
       (∀ b, b ≠ blk (data v) → heap s' !! b = heap s !! b) ∧
       next_block s' = next_block s ∧
       (∀ l, l ≠ this →
          objs s' !! l = objs s !! l ∧ observe s' l = observe s l)) ∧
  (∀ i, 0 ≤ i < numElements v → load (data v +ₚ i) s = UB →
     vector.vector_destroy this s = UB ∧ stack.stack_destroy this s = UB).
Proof.
  intros Hv. split.
  - intros xs Hwf Hxs Hmax.
    exists (destroyed this v s).
    split; [by eapply vector_destroy_Ok|].
    split; [by apply wf_destroyed|].
    split; [by eapply vector_destroy_Ok|].
    split; [apply lookup_delete_eq|].
    split; [apply lookup_delete_eq|].
    split; [intros b Hb; by apply lookup_delete_ne|].
    split; [done|].
    intros l Hl. by apply destroyed_others.
  - intros i Hi Hdead. split; by eapply vector_destroy_dead.
Qed.

Lemma destructor_releases_buffer_witness :
  (objs two_vectors !! 0%nat = Some (Vector 7 (Ptr 1%nat 0) 4 3) ∧
   wf two_vectors ∧
   repr (heap two_vectors) (Vector 7 (Ptr 1%nat 0) 4 3) [1; 2; 3] ∧
   3 ≤ INT_MAX ∧
   ∃ s',
     vector.vector_destroy 0%nat two_vectors = Ok () s' ∧
     objs s' !! 0%nat = None ∧ heap s' !! 1%nat = None ∧
     observe s' 1%nat = Some (2, 2, [Some 8; Some 9])) ∧
  (objs vector_with_dead_slot !! 0%nat = Some (Vector 7 (Ptr 1%nat 0) 4 3) ∧
   0 ≤ 2 < 3 ∧
   load (Ptr 1%nat 2) vector_with_dead_slot = UB ∧
   vector.vector_destroy 0%nat vector_with_dead_slot = UB).
Proof.
  split.
  - pose proof two_vectors_wf as Hwf.
    assert (objs two_vectors !! 0%nat = Some (Vector 7 (Ptr 1%nat 0) 4 3))
      as Hv by reflexivity.
    assert (repr (heap two_vectors) (Vector 7 (Ptr 1%nat 0) 4 3) [1; 2; 3])
      as Hxs.
    { unfold repr. simpl. unfold max_size, PTRDIFF_MAX.
      split; [done|]. split; [lia|]. right. by split; [lia|]. }
    assert (3 ≤ INT_MAX) as Hmax by (unfold INT_MAX; lia).
    split; [exact Hv|]. split; [exact Hwf|]. split; [exact Hxs|].
    split; [exact Hmax|].
    destruct (destructor_releases_buffer (T:=Z) (A:=Z) 0%nat two_vectors _ Hv)
      as [Hok _].
    destruct (Hok _ Hwf Hxs Hmax)
      as (s' & Hrun & _ & _ & Hgone & Hfreed & _ & _ & Hothers).
    exists s'. split; [exact Hrun|]. split; [exact Hgone|].
    split; [exact Hfreed|].
    destruct (Hothers 1%nat) as [_ Hobs]; [lia|]. rewrite Hobs. reflexivity.
  - assert (objs vector_with_dead_slot !! 0%nat
            = Some (Vector 7 (Ptr 1%nat 0) 4 3)) as Hv by reflexivity.
    assert (0 ≤ 2 < 3) as Hi by lia.
    assert (load (Ptr 1%nat 2) vector_with_dead_slot = UB) as Hdead
      by reflexivity.
    split; [exact Hv|]. split; [exact Hi|]. split; [exact Hdead|].
    destruct (destructor_releases_buffer (T:=Z) (A:=Z) 0%nat
                vector_with_dead_slot _ Hv) as [_ Hub].
    destruct (Hub 2 Hi Hdead) as [Hrun _]. exact Hrun.
Defined.

(** X5: [~vector()] on a vector of more than [INT_MAX] elements has undefined
    behaviour: the destruction loop counts with an [int], which overflows
    after the round for [i = INT_MAX]. *)
Theorem destructor_counter_overflows {T A : Type} `{!Allocator A}
    `{!DefaultConstructible T} this (s : state T A) v :
  objs s !! this = Some v → INT_MAX < numElements v →
  vector.vector_destroy this s = UB ∧ stack.stack_destroy this s = UB.
Proof. intros Hv Hbig. split; by eapply vector_destroy_overflow. Qed.

Lemma destructor_counter_overflows_witness :
  objs huge_vector !! 0%nat
  = Some (Vector 0 (Ptr 1%nat 0) (2 ^ 31)
            (Z.of_nat (length (replicate (Z.to_nat (2 ^ 31)) 0)))) ∧
  INT_MAX < 2 ^ 31 ∧
  vector.vector_destroy 0%nat huge_vector = UB.
Proof.
  assert (objs huge_vector !! 0%nat
          = Some (Vector 0 (Ptr 1%nat 0) (2 ^ 31)
                    (Z.of_nat (length (replicate (Z.to_nat (2 ^ 31)) 0))))) as Hv
    by apply lookup_insert_eq.
  assert (INT_MAX < 2 ^ 31) as Hbig by (unfold INT_MAX; lia).
  split; [exact Hv|]. split; [exact Hbig|].
  eapply proj1.
  apply (destructor_counter_overflows (T:=Z) (A:=Z) 0%nat huge_vector _ Hv).
  cbn [numElements]. rewrite length_replicate. unfold INT_MAX. lia.
Defined.

(** X6: A vector gives back all the storage it has taken: constructing it
    empty, pushing any [ts] of at most [INT_MAX] elements (through however
    many reallocations) and destroying it leaves the free store and the other
    objects exactly as they were before; so does constructing it from an
    initializer list and destroying it. *)
Theorem lifetime_returns_all_storage {T A : Type} `{!Allocator A}
    `{!DefaultConstructible T} this (a : A) (ts : list T) (s : state T A) :
  wf s → objs s !! this = None → Z.of_nat (length ts) ≤ INT_MAX →
  (∃ s',
     (vector.vector_default this a;; push_all this ts;;
      vector.vector_destroy this) s = Ok () s' ∧
     heap s' = heap s ∧ objs s' = objs s) ∧
  (∃ s',
     (vector.vector_init_list this ts a;; vector.vector_destroy this) s
     = Ok () s' ∧
     heap s' = heap s ∧ objs s' = objs s).
Proof.
  intros Hwf Hfree Hlen.
  assert (INT_MAX ≤ 2 ^ 62 ∧ INT_MAX ≤ max_size) as [HM1 HM2]
    by (unfold INT_MAX, max_size, PTRDIFF_MAX; lia).
  split.
  - erewrite bind_Ok by apply vector_default_Ok.
    set (s0 := created_empty this a s).
    assert (wf s0) as Hwf0 by by apply wf_created_empty.
    assert (objs s0 !! this = Some (Vector a nullptr 0 0)) as Hv0
      by apply lookup_insert_eq.
    destruct (push_all_owned this ts s0 _ [] Hwf0 Hv0 (repr_empty _ _))
      as (s1 & v1 & Hrun1 & Hwf1 & Hobjs1 & Hxs1 & Hheap1 & _ & _).
    { simpl. lia. }
    simpl in Hxs1, Hheap1.
    assert (objs s1 !! this = Some v1) as Hv1
      by (rewrite Hobjs1; apply lookup_insert_eq).
    pose proof (repr_length _ _ _ Hxs1) as Hn1.
    erewrite bind_Ok by exact Hrun1.
    erewrite vector_destroy_Ok; [|done..|lia].
    eexists. split; [done|]. unfold destroyed. simpl. split.
    + rewrite Hheap1. by apply delete_id, wf_null_fresh.
    + rewrite Hobjs1. unfold s0, created_empty. simpl.
      rewrite delete_insert_eq, delete_insert_eq. by apply delete_id.
  - destruct (vector_init_list_spec this ts a s Hwf Hfree)
      as (s1 & v1 & Hrun1 & Hwf1 & Hv1 & _ & Hn1 & _ & Hxs1 & _); [lia|].
    erewrite bind_Ok by exact Hrun1.
    erewrite vector_destroy_Ok; [|done..|lia].
    eexists. split; [done|]. unfold destroyed. simpl.
    destruct ts as [|x ts].
    + rewrite vector_init_list_nil in Hrun1.
      destruct (allocate_zero_is_null a); injection Hrun1 as <-.
      * unfold created_empty in *. simpl in *.
        rewrite lookup_insert_eq in Hv1. injection Hv1 as <-. simpl.
        split; [by apply delete_id, wf_null_fresh|].
        rewrite delete_insert_eq. by apply delete_id.
      * unfold created in *. simpl in *.
        rewrite lookup_insert_eq in Hv1. injection Hv1 as <-. simpl.
        split; [rewrite delete_insert_eq; by apply delete_id, wf_next_fresh|].
        rewrite delete_insert_eq. by apply delete_id.
    + rewrite vector_init_list_Ok in Hrun1 by (simpl in *; lia).
      injection Hrun1 as <-. unfold created in *. simpl in *.
      rewrite lookup_insert_eq in Hv1. injection Hv1 as <-. simpl.
      split; [rewrite delete_insert_eq; by apply delete_id, wf_next_fresh|].
      rewrite delete_insert_eq. by apply delete_id.
Qed.

Lemma lifetime_returns_all_storage_witness :
  wf one_vector ∧ objs one_vector !! 1%nat = None ∧
  Z.of_nat (length [4; 5; 6]) ≤ INT_MAX ∧
  ∃ s',
    (vector.vector_default 1%nat 0;; push_all 1%nat [4; 5; 6];;
     vector.vector_destroy 1%nat) one_vector = Ok () s' ∧
    heap s' = heap one_vector ∧ objs s' = objs one_vector.
Proof.
  pose proof one_vector_wf as Hwf.
  assert (Z.of_nat (length [4; 5; 6]) ≤ INT_MAX) as Hlen
    by (unfold INT_MAX; simpl; lia).
  split; [exact Hwf|]. split; [reflexivity|]. split; [exact Hlen|].
  destruct (lifetime_returns_all_storage (T:=Z) (A:=Z) 1%nat 0 [4; 5; 6]
              one_vector Hwf eq_refl Hlen) as [Hpush _].
  exact Hpush.
Defined.

(** ** What the shapes say about the object and its neighbours *)

Section Shapes.
Context {T A : Type} `{!Allocator A} `{!DefaultConstructible T}.
Implicit Types (s : state T A) (v r : vector A) (xs ys : list T) (t : T).

Lemma in_place_repr_other this v xs' l vl zs s :
  wf s → objs s !! this = Some v → objs s !! l = Some vl → l ≠ this →
  repr (heap s) vl zs → repr (heap (in_place this v xs' s)) vl zs.
Proof.
  intros Hwf Hv Hl Hne Hzs. eapply repr_frame; [exact Hzs|].
  intros Hnn. unfold in_place. simpl.
  apply heap_put_lookup_ne. by eapply wf_other_region.
Qed.

Lemma relocated_repr_other this v cap' xs' l vl zs s :
  wf s → objs s !! this = Some v → objs s !! l = Some vl → l ≠ this →
  repr (heap s) vl zs → repr (heap (relocated this v cap' xs' s)) vl zs.
Proof.
  intros Hwf Hv Hl Hne Hzs. eapply repr_frame; [exact Hzs|].
  intros Hnn. unfold relocated. simpl.
  pose proof (wf_block_lt _ _ _ Hwf Hl).
  rewrite lookup_insert_ne by lia.
  apply lookup_delete_ne. apply not_eq_sym. by eapply wf_other_region.
Qed.

(** The old buffer of a relocated vector is no longer in the free store. *)
Lemma relocated_old_gone this v cap' xs' s :
  wf s → objs s !! this = Some v →
  heap (relocated this v cap' xs' s) !! blk (data v) = None.
Proof.
  intros Hwf Hv. unfold relocated. simpl.
  pose proof (wf_block_lt _ _ _ Hwf Hv).
  rewrite lookup_insert_ne by lia. apply lookup_delete_eq.
Qed.

Lemma relocated_new_buffer this v s :
  wf s → objs s !! this = Some v → Ptr (next_block s) 0 ≠ data v.
Proof.
  intros Hwf Hv Heq. pose proof (wf_block_lt _ _ _ Hwf Hv) as Hlt.
  rewrite <- Heq in Hlt. simpl in Hlt. lia.
Qed.

End Shapes.

(** ** Access *)

Section Access.
Context {T A : Type} `{!Allocator A} `{!DefaultConstructible T}.
Implicit Types (s : state T A) (v r : vector A) (xs ys : list T) (t : T).

Lemma with_region_in_place this v xs' s :
  objs s !! this = Some v → data v ≠ nullptr →
  numElements v = Z.of_nat (length xs') →
  with_region (blk (data v)) (Region (numCapacity v) (map_seqZ 0 xs')) s
  = in_place this v xs' s.
Proof.
  intros Hv Hnn Hn. unfold with_region, in_place, heap_put.
  rewrite decide_False by done. f_equal.
  rewrite <- Hn. destruct v. simpl. symmetry. by apply insert_id.
Qed.

Lemma vector_eta v :
  Vector (alloc v) (data v) (numCapacity v) (numElements v) = v.
Proof. by destruct v. Qed.

(** Reading [v[i]] for any index. *)
Lemma subscript_read this v xs i s :
  wf s → objs s !! this = Some v → repr (heap s) v xs → 0 ≤ i →
  vector.subscript this i s = Ok (data v +ₚ i) s ∧
  (q ← vector.subscript this i; load q) s
  = match xs !! Z.to_nat i with
    | Some x => Ok x s
    | None => UB
    end.
Proof.
  intros Hwf Hv Hxs Hi.
  assert (vector.subscript this i s = Ok (data v +ₚ i) s) as Hsub.
  { unfold vector.subscript. by erewrite bind_Ok by by apply get_Ok. }
  split; [exact Hsub|].
  destruct (xs !! Z.to_nat i) as [x|] eqn:Hx.
  - replace i with (Z.of_nat (Z.to_nat i)) by lia.
    by eapply subscript_load.
  - erewrite bind_Ok by exact Hsub.
    apply lookup_ge_None in Hx.
    eapply repr_load_beyond; [done..|lia].
Qed.

(** Assigning through [v[i]]. *)
Lemma subscript_store_spec this s v xs (i : nat) (x : T) :
  wf s → objs s !! this = Some v → repr (heap s) v xs →
  (i < length xs)%nat →
  ∃ s',
    (q ← vector.subscript this (Z.of_nat i); store q x) s = Ok () s' ∧
    wf s' ∧ objs s' = objs s ∧ next_block s' = next_block s ∧
    repr (heap s') v (<[i := x]> xs) ∧
    (q ← vector.subscript this (Z.of_nat i); load q) s' = Ok x s' ∧
    (∀ (j : nat) y, j ≠ i → xs !! j = Some y →
       (q ← vector.subscript this (Z.of_nat j); load q) s' = Ok y s') ∧
    (∀ l, l ≠ this → observe s' l = observe s l) ∧
    (∀ l vl zs, l ≠ this → objs s !! l = Some vl → repr (heap s) vl zs →
       repr (heap s') vl zs).
Proof.
  intros Hwf Hv Hxs Hi.
  destruct (lookup_lt_is_Some_2 xs i Hi) as [x0 Hx0].
  pose proof (repr_length _ _ _ Hxs) as Hn.
  pose proof (repr_bounds _ _ _ Hxs) as Hb.
  assert (data v ≠ nullptr) as Hnn by (eapply repr_nonnull; [done|lia]).
  assert (numElements v = Z.of_nat (length (<[i := x]> xs))) as Hn'
    by by rewrite length_insert.
  pose proof (store_subscript this v xs i x x0 s Hv Hxs Hx0) as Hrun.
  rewrite (with_region_in_place this) in Hrun by done.
  assert (objs (in_place this v (<[i := x]> xs) s) = objs s) as Hobjs.
  { unfold in_place. simpl. rewrite <- Hn', vector_eta. by apply insert_id. }
  assert (repr (heap (in_place this v (<[i:=x]> xs) s)) v (<[i:=x]> xs))
    as Hxs'.
  { rewrite <- (vector_eta v) at 2. rewrite Hn'.
    eapply in_place_repr; [done|lia]. }
  assert (objs (in_place this v (<[i := x]> xs) s) !! this = Some v) as Hv'
    by by rewrite Hobjs.
  exists (in_place this v (<[i := x]> xs) s).
  split; [exact Hrun|].
  split; [eapply wf_in_place; [done..|lia]|].
  split; [exact Hobjs|]. split; [done|]. split; [exact Hxs'|].
  split; [|split].
  - eapply subscript_load; [done..|]. by apply list_lookup_insert_eq.
  - intros j y Hj Hy. eapply subscript_load; [done..|].
    by rewrite list_lookup_insert_ne.
  - split; [intros l Hl; by apply in_place_others|].
    intros l vl zs Hl Hvl Hzs. by eapply in_place_repr_other.
Qed.


End Access.

(** X7: [v[i]] does no bounds check.  It always returns the address [data +
    i]; reading through it gives the element at index [i] when [i < size()],
    and is undefined behaviour for every other index, the slots from [size()]
    on holding no object. *)
Theorem subscript_reads_within_count {T A : Type} `{!Allocator A}
    `{!DefaultConstructible T} this (s : state T A) v xs i :
  wf s → objs s !! this = Some v → repr (heap s) v xs → 0 ≤ i →
  vector.subscript this i s = Ok (data v +ₚ i) s ∧
  (q ← vector.subscript this i; load q) s
  = match xs !! Z.to_nat i with
    | Some x => Ok x s
    | None => UB
    end.
Proof. apply subscript_read. Qed.

Lemma subscript_reads_within_count_witness :
  wf one_vector ∧
  objs one_vector !! 0%nat = Some (Vector 7 (Ptr 1%nat 0) 4 3) ∧
  repr (heap one_vector) (Vector 7 (Ptr 1%nat 0) 4 3) [1; 2; 3] ∧
  (0 ≤ 2 ∧ (q ← vector.subscript 0%nat 2; load q) one_vector
           = Ok 3 one_vector) ∧
  (0 ≤ 3 ∧ (q ← vector.subscript 0%nat 3; load q) one_vector = UB).
Proof.
  pose proof one_vector_wf as Hwf. pose proof one_vector_repr as Hxs.
  assert (objs one_vector !! 0%nat = Some (Vector 7 (Ptr 1%nat 0) 4 3)) as Hv
    by reflexivity.
  assert (0 ≤ 2) as H2 by lia. assert (0 ≤ 3) as H3 by lia.
  split; [exact Hwf|]. split; [exact Hv|]. split; [exact Hxs|]. split.
  - split; [exact H2|].
    exact (proj2 (subscript_reads_within_count (T:=Z) (A:=Z) 0%nat one_vector
                    _ _ 2 Hwf Hv Hxs H2)).
  - split; [exact H3|].
    exact (proj2 (subscript_reads_within_count (T:=Z) (A:=Z) 0%nat one_vector
                    _ _ 3 Hwf Hv Hxs H3)).
Defined.

(** X8: Assigning through [v[i]] with [i < size()] replaces the element at
    index [i] and nothing else: the other elements, the size, the capacity and
    the buffer of [v] and every other object stay as they were, and [v[i]]
    then reads the value assigned. *)
Theorem subscript_assignment_updates_one_element {T A : Type} `{!Allocator A}
    `{!DefaultConstructible T} this (s : state T A) v xs (i : nat) (x : T) :
  wf s → objs s !! this = Some v → repr (heap s) v xs →
  (i < length xs)%nat →
  ∃ s',
    (q ← vector.subscript this (Z.of_nat i); store q x) s = Ok () s' ∧
    wf s' ∧ objs s' = objs s ∧ next_block s' = next_block s ∧
    repr (heap s') v (<[i := x]> xs) ∧
    (q ← vector.subscript this (Z.of_nat i); load q) s' = Ok x s' ∧
    (∀ (j : nat) y, j ≠ i → xs !! j = Some y →
       (q ← vector.subscript this (Z.of_nat j); load q) s' = Ok y s') ∧
    (∀ l, l ≠ this → observe s' l = observe s l).
Proof.
  intros Hwf Hv Hxs Hi.
  destruct (subscript_store_spec this s v xs i x Hwf Hv Hxs Hi)
    as (s' & H1 & H2 & H3 & H4 & H5 & H6 & H7 & H8 & _).
  by exists s'.
Qed.

Lemma subscript_assignment_updates_one_element_witness :
  wf one_vector ∧
  objs one_vector !! 0%nat = Some (Vector 7 (Ptr 1%nat 0) 4 3) ∧
  repr (heap one_vector) (Vector 7 (Ptr 1%nat 0) 4 3) [1; 2; 3] ∧
  (1 < length [1; 2; 3])%nat ∧
  ∃ s',
    (q ← vector.subscript 0%nat 1; store q 9) one_vector = Ok () s' ∧
    repr (heap s') (Vector 7 (Ptr 1%nat 0) 4 3) [1; 9; 3] ∧
    (q ← vector.subscript 0%nat 1; load q) s' = Ok 9 s'.
Proof.
  pose proof one_vector_wf as Hwf. pose proof one_vector_repr as Hxs.
  assert (objs one_vector !! 0%nat = Some (Vector 7 (Ptr 1%nat 0) 4 3)) as Hv
    by reflexivity.
  assert (1 < length [1; 2; 3])%nat as Hi by (simpl; lia).
  split; [exact Hwf|]. split; [exact Hv|]. split; [exact Hxs|].
  split; [exact Hi|].
  destruct (subscript_assignment_updates_one_element (T:=Z) (A:=Z) 0%nat
              one_vector _ _ 1%nat 9 Hwf Hv Hxs Hi)
    as (s' & Hrun & _ & _ & _ & Hxs' & Hget & _).
  exists s'. split; [exact Hrun|]. split; [exact Hxs'|exact Hget].
Defined.

(** X9: On a vector that is not empty, reading through [front()] gives the
    first element and reading through [back()] the last.  On an empty vector
    neither checks anything: [front()] is [data] and [back()] is [data +
    (SIZE_MAX)], the index [0 - 1] computed in [size_t], and reading through
    either is undefined behaviour. *)
Theorem front_back_read_the_ends {T A : Type} `{!Allocator A}
    `{!DefaultConstructible T} this (s : state T A) v :
  wf s → objs s !! this = Some v →
  (∀ x xs, repr (heap s) v (x :: xs) →
     (q ← vector.front this; load q) s = Ok x s) ∧
  (∀ xs x, repr (heap s) v (xs ++ [x]) →
     (q ← vector.back this; load q) s = Ok x s) ∧
  (repr (heap s) v [] →
     vector.front this s = Ok (data v) s ∧
     vector.back this s = Ok (data v +ₚ (2 ^ 64 - 1)) s ∧
     (q ← vector.front this; load q) s = UB ∧
     (q ← vector.back this; load q) s = UB).
Proof.
  intros Hwf Hv.
  assert (vector.front this s = Ok (data v) s) as Hfront.
  { unfold vector.front. by erewrite bind_Ok by by apply get_Ok. }
  assert (vector.back this s
          = Ok (data v +ₚ to_size_t (numElements v - 1)) s) as Hback.
  { unfold vector.back. by erewrite bind_Ok by by apply get_Ok. }
  assert (∀ q : ptr, q +ₚ 0 = q) as Hzero.
  { intros [b o]. unfold ptr_add. simpl. f_equal. lia. }
  split; [|split].
  - intros x xs Hxs. erewrite bind_Ok by exact Hfront.
    rewrite <- (Hzero (data v)). change 0 with (Z.of_nat 0).
    by eapply repr_load.
  - intros xs x Hxs. by eapply top_load.
  - intros Hxs. pose proof (repr_length _ _ _ Hxs) as Hn.
    simpl in Hn. rewrite Nat2Z.inj_0 in Hn.
    assert (to_size_t (0 - 1) = 2 ^ 64 - 1) as Hlast by reflexivity.
    rewrite Hn, Hlast in Hback.
    split; [exact Hfront|]. split; [exact Hback|]. split.
    + erewrite bind_Ok by exact Hfront.
      rewrite <- (Hzero (data v)). eapply repr_load_beyond; [done..|simpl; lia].
    + erewrite bind_Ok by exact Hback.
      eapply repr_load_beyond; [done..|simpl; lia].
Qed.

Lemma front_back_read_the_ends_witness :
  wf one_vector ∧
  objs one_vector !! 0%nat = Some (Vector 7 (Ptr 1%nat 0) 4 3) ∧
  repr (heap one_vector) (Vector 7 (Ptr 1%nat 0) 4 3) (1 :: [2; 3]) ∧
  repr (heap one_vector) (Vector 7 (Ptr 1%nat 0) 4 3) ([1; 2] ++ [3]) ∧
  (q ← vector.front 0%nat; load q) one_vector = Ok 1 one_vector ∧
  (q ← vector.back 0%nat; load q) one_vector = Ok 3 one_vector ∧
  wf one_empty_vector ∧
  objs one_empty_vector !! 0%nat = Some (Vector 7 nullptr 0 0) ∧
  repr (heap one_empty_vector) (Vector 7 nullptr 0 0) [] ∧
  (q ← vector.back 0%nat; load q) one_empty_vector = UB.
Proof.
  pose proof one_vector_wf as Hwf. pose proof one_vector_repr as Hxs.
  assert (objs one_vector !! 0%nat = Some (Vector 7 (Ptr 1%nat 0) 4 3)) as Hv
    by reflexivity.
  pose proof one_empty_vector_wf as Hwf0.
  assert (objs one_empty_vector !! 0%nat = Some (Vector 7 nullptr 0 0)) as Hv0
    by reflexivity.
  pose proof (repr_empty (T:=Z) (heap one_empty_vector) 7) as Hxs0.
  destruct (front_back_read_the_ends (T:=Z) (A:=Z) 0%nat one_vector _ Hwf Hv)
    as (Hfront & Hback & _).
  destruct (front_back_read_the_ends (T:=Z) (A:=Z) 0%nat one_empty_vector _
              Hwf0 Hv0) as (_ & _ & Hempty).
  split; [exact Hwf|]. split; [exact Hv|]. split; [exact Hxs|].
  split; [exact Hxs|]. split; [exact (Hfront 1 [2; 3] Hxs)|].
  split; [exact (Hback [1; 2] 3 Hxs)|].
  split; [exact Hwf0|]. split; [exact Hv0|]. split; [exact Hxs0|].
  exact (proj2 (proj2 (proj2 (Hempty Hxs0)))).
Defined.

(** ** Iterators *)

(** X10: Walking forward: the iterator reached from [begin()] by [k]
    increments, [k <= size()], is the one [iterator(k, v)] constructs; it
    differs from [end()] exactly while [k < size()], and dereferencing it
    then reads the element at index [k].  So the loop from [begin()] to
    [end()] visits the elements in order and stops after the last.  Before
    the end, the postfix increment returns the iterator as it was and
    advances it as the prefix increment does, and a decrement undoes the
    increment.  A copy of an iterator, made by the copy constructor or by
    assignment, is the same iterator, and [iterator()] equals [begin()] of a
    vector without a buffer. *)
Theorem iterator_walks_forward {T A : Type} `{!Allocator A}
    `{!DefaultConstructible T} this (s : state T A) v xs :
  objs s !! this = Some v → repr (heap s) v xs →
  ∃ b e,
    vector.begin this s = Ok b s ∧ vector.end_ this s = Ok e s ∧
    (data v = nullptr → vector.iterator_eq vector.iterator_default b = true) ∧
    ∀ k : nat, (k ≤ length xs)%nat →
      let it := Nat.iter k vector.iterator_incr b in
      vector.iterator_at (Z.of_nat k) this s = Ok it s ∧
      vector.iterator_ne it e = bool_decide (k < length xs)%nat ∧
      vector.iterator_eq it e = bool_decide (k = length xs) ∧
      vector.iterator_copy it = it ∧
      vector.iterator_assign vector.iterator_default it = it ∧
      (∀ x, xs !! k = Some x → load (vector.iterator_deref it) s = Ok x s) ∧
      ((k < length xs)%nat →
         vector.iterator_post_incr it = (it, vector.iterator_incr it) ∧
         vector.iterator_decr (vector.iterator_incr it) = it).
Proof.
  intros Hv Hxs. pose proof (repr_length _ _ _ Hxs) as Hn.
  exists (vector.Iterator (data v)),
         (vector.Iterator (data v +ₚ numElements v)).
  split; [unfold vector.begin; by erewrite bind_Ok by by apply get_Ok|].
  split; [unfold vector.end_; by erewrite bind_Ok by by apply get_Ok|].
  split.
  { intros Hnull. unfold vector.iterator_eq, vector.iterator_default. simpl.
    by rewrite bool_decide_eq_true_2. }
  assert (∀ k : nat, Nat.iter k vector.iterator_incr (vector.Iterator (data v))
                     = vector.Iterator (data v +ₚ Z.of_nat k)) as Hiter.
  { induction k as [|k IH].
    - simpl. destruct (data v) as [b o]. unfold ptr_add. simpl.
      do 2 f_equal. lia.
    - simpl. rewrite IH. unfold vector.iterator_incr, ptr_add. simpl.
      do 2 f_equal. lia. }
  intros k Hk it. unfold it. rewrite Hiter.
  split; [unfold vector.iterator_at; by erewrite bind_Ok by by apply get_Ok|].
  assert (data v +ₚ Z.of_nat k = data v +ₚ numElements v ↔ k = length xs)
    as Heq.
  { unfold ptr_add. destruct (data v) as [b o]. simpl.
    split; [intros [= Ho]; lia|intros ->; f_equal; lia]. }
  split; [|split; [|split; [done|split; [done|split]]]].
  - unfold vector.iterator_ne. simpl.
    destruct (decide (k = length xs)) as [Hlast|Hmore].
    + rewrite bool_decide_eq_true_2 by by apply Heq.
      rewrite bool_decide_eq_false_2 by lia. done.
    + rewrite bool_decide_eq_false_2 by (intros ?; by apply Hmore, Heq).
      rewrite bool_decide_eq_true_2 by lia. done.
  - unfold vector.iterator_eq. simpl. by apply bool_decide_ext.
  - intros x Hx. unfold vector.iterator_deref. simpl. by eapply repr_load.
  - intros _. split; [done|].
    unfold vector.iterator_decr, vector.iterator_incr, ptr_add. simpl.
    do 2 f_equal. lia.
Qed.

Lemma iterator_walks_forward_witness :
  objs one_vector !! 0%nat = Some (Vector 7 (Ptr 1%nat 0) 4 3) ∧
  repr (heap one_vector) (Vector 7 (Ptr 1%nat 0) 4 3) [1; 2; 3] ∧
  ∃ b e,
    vector.begin 0%nat one_vector = Ok b one_vector ∧
    vector.end_ 0%nat one_vector = Ok e one_vector ∧
    load (vector.iterator_deref
            (vector.iterator_incr (vector.iterator_incr b))) one_vector
    = Ok 3 one_vector ∧
    vector.iterator_ne (vector.iterator_incr (vector.iterator_incr b)) e
    = true ∧
    vector.iterator_ne
      (vector.iterator_incr (vector.iterator_incr (vector.iterator_incr b))) e
    = false.
Proof.
  pose proof one_vector_repr as Hxs.
  assert (objs one_vector !! 0%nat = Some (Vector 7 (Ptr 1%nat 0) 4 3)) as Hv
    by reflexivity.
  split; [exact Hv|]. split; [exact Hxs|].
  destruct (iterator_walks_forward (T:=Z) (A:=Z) 0%nat one_vector _ _ Hv Hxs)
    as (b & e & Hb & He & _ & Hwalk).
  exists b, e. split; [exact Hb|]. split; [exact He|].
  destruct (Hwalk 2%nat) as (_ & Hne2 & _ & _ & _ & Hget2 & _); [simpl; lia|].
  destruct (Hwalk 3%nat) as (_ & Hne3 & _); [simpl; lia|].
  split; [exact (Hget2 3 eq_refl)|]. split; [exact Hne2|exact Hne3].
Defined.

(** X11: Walking backward: the iterator reached from [end()] by [k]
    decrements, [1 <= k <= size()], refers to the element at index [size() -
    k], and after [size()] decrements it equals [begin()].  Before that, the
    postfix decrement returns the iterator as it was and moves it as the
    prefix decrement does, and an increment undoes the decrement. *)
Theorem iterator_walks_backward {T A : Type} `{!Allocator A}
    `{!DefaultConstructible T} this (s : state T A) v xs :
  objs s !! this = Some v → repr (heap s) v xs →
  ∃ b e,
    vector.begin this s = Ok b s ∧ vector.end_ this s = Ok e s ∧
    ∀ k : nat, (k ≤ length xs)%nat →
      let it := Nat.iter k vector.iterator_decr e in
      vector.iterator_eq it b = bool_decide (k = length xs) ∧
      (∀ x, (0 < k)%nat → xs !! (length xs - k)%nat = Some x →
            load (vector.iterator_deref it) s = Ok x s) ∧
      ((k < length xs)%nat →
         vector.iterator_post_decr it = (it, vector.iterator_decr it) ∧
         vector.iterator_incr (vector.iterator_decr it) = it).
Proof.
  intros Hv Hxs. pose proof (repr_length _ _ _ Hxs) as Hn.
  exists (vector.Iterator (data v)),
         (vector.Iterator (data v +ₚ numElements v)).
  split; [unfold vector.begin; by erewrite bind_Ok by by apply get_Ok|].
  split; [unfold vector.end_; by erewrite bind_Ok by by apply get_Ok|].
  assert (∀ k : nat,
            Nat.iter k vector.iterator_decr
              (vector.Iterator (data v +ₚ numElements v))
            = vector.Iterator (data v +ₚ (numElements v - Z.of_nat k)))
    as Hiter.
  { induction k as [|k IH].
    - simpl. unfold ptr_add. simpl. do 2 f_equal. lia.
    - simpl. rewrite IH. unfold vector.iterator_decr, ptr_add. simpl.
      do 2 f_equal. lia. }
  intros k Hk it. unfold it. rewrite Hiter.
  split; [|split].
  - unfold vector.iterator_eq. simpl. apply bool_decide_ext.
    unfold ptr_add. destruct (data v) as [b o]. simpl.
    split; [intros [= Ho]; lia|intros ->; f_equal; lia].
  - intros x Hpos Hx. unfold vector.iterator_deref. simpl.
    replace (numElements v - Z.of_nat k)
      with (Z.of_nat (length xs - k)%nat) by lia.
    by eapply repr_load.
  - intros _. split; [done|].
    unfold vector.iterator_decr, vector.iterator_incr, ptr_add. simpl.
    do 2 f_equal. lia.
Qed.

Lemma iterator_walks_backward_witness :
  objs one_vector !! 0%nat = Some (Vector 7 (Ptr 1%nat 0) 4 3) ∧
  repr (heap one_vector) (Vector 7 (Ptr 1%nat 0) 4 3) [1; 2; 3] ∧
  ∃ b e,
    vector.begin 0%nat one_vector = Ok b one_vector ∧
    vector.end_ 0%nat one_vector = Ok e one_vector ∧
    load (vector.iterator_deref (vector.iterator_decr e)) one_vector
    = Ok 3 one_vector ∧
    vector.iterator_eq
      (vector.iterator_decr (vector.iterator_decr (vector.iterator_decr e))) b
    = true.
Proof.
  pose proof one_vector_repr as Hxs.
  assert (objs one_vector !! 0%nat = Some (Vector 7 (Ptr 1%nat 0) 4 3)) as Hv
    by reflexivity.
  split; [exact Hv|]. split; [exact Hxs|].
  destruct (iterator_walks_backward (T:=Z) (A:=Z) 0%nat one_vector _ _ Hv Hxs)
    as (b & e & Hb & He & Hwalk).
  exists b, e. split; [exact Hb|]. split; [exact He|].
  destruct (Hwalk 1%nat) as (_ & Hget1 & _); [simpl; lia|].
  destruct (Hwalk 3%nat) as (Heq3 & _); [simpl; lia|].
  split; [apply (Hget1 3); [lia|reflexivity]|exact Heq3].
Defined.

(** ** Insert *)

(** X12: [resize(n, t)] and [resize(n)] leave the first [n] elements when [n
    <= size()] and otherwise append [n - size()] copies of the object [t] is
    bound to (of [T()] for the second form); the size becomes [n].  The
    capacity is raised to [n] when it was less, and is never lowered: within
    the capacity the buffer stays where it is and nothing is allocated.  When
    the capacity has to be raised, [t] must not be bound to an element of the
    vector itself: [v.resize(n, v[i])] with [n] above the capacity reads the
    reference after the buffer it points into has been released, and has
    undefined behaviour. *)
Theorem resize_truncates_or_pads {T A : Type} `{!Allocator A}
    `{!DefaultConstructible T} this n (s : state T A) v xs :
  wf s → objs s !! this = Some v → repr (heap s) v xs →
  0 ≤ n ≤ max_size →
  (∀ (rs : M T A unit) (t : ref T) x,
     rs = vector.resize_fill this n t ∨
       (rs = vector.resize this n ∧ t = Val T_default) →
     (numElements v < n → read t s = Ok x s) →
     (numCapacity v < n → outside t v) →
     ∃ s' v',
       rs s = Ok () s' ∧ wf s' ∧ objs s' !! this = Some v' ∧
       repr (heap s') v'
         (take (Z.to_nat n) xs ++ replicate (Z.to_nat n - length xs) x) ∧
       numElements v' = n ∧ numCapacity v' = Z.max (numCapacity v) n ∧
       alloc v' = alloc v ∧
       (n ≤ numCapacity v → data v' = data v ∧ regions_allocated s s' = 0) ∧
       (numCapacity v < n → regions_allocated s s' = 1) ∧
       (∀ l, l ≠ this →
          objs s' !! l = objs s !! l ∧ observe s' l = observe s l)) ∧
  (∀ p, numCapacity v < n → blk p = blk (data v) →
     vector.resize_fill this n (At p) s = UB).
Proof.
  intros Hwf Hv Hxs Hn.
  split; [|intros p Hgrow Hp;
            apply (resize_fill_own_UB this v xs); (done || lia)].
  intros rs t x Hrs Ht Hout.
  assert (rs = vector.resize_fill this n t) as ->.
  { destruct Hrs as [->|[-> ->]]; [done|apply resize_resize_fill]. }
  rewrite (resize_fill_read this n t x s v xs) by (done || lia).
  pose proof (repr_length _ _ _ Hxs) as Hlen.
  pose proof (repr_bounds _ _ _ Hxs) as Hb.
  set (xs' := take (Z.to_nat n) xs ++ replicate (Z.to_nat n - length xs) x).
  assert (Z.of_nat (length xs') = n) as Hlen'.
  { unfold xs'. rewrite length_app, length_take, length_replicate. lia. }
  destruct (decide (n ≤ numCapacity v)) as [Hroom|Hgrow].
  - assert (vector.resize_fill this n (Val x) s = Ok () (in_place this v xs' s))
      as Hrun.
    { destruct (decide (n < numElements v)) as [Hlt|Hge].
      - rewrite (resize_fill_shrink this v xs) by (done || lia).
        unfold xs'. replace (Z.to_nat n - length xs)%nat with 0%nat by lia.
        simpl. by rewrite (right_id_L [] (++)).
      - destruct (decide (n = numElements v)) as [Heq|Hne].
        + rewrite (resize_fill_same this v) by done.
          unfold xs'. replace (Z.to_nat n - length xs)%nat with 0%nat by lia.
          rewrite take_ge by lia. simpl. rewrite (right_id_L [] (++)).
          by rewrite in_place_id.
        + rewrite (resize_fill_room this v xs) by (done || lia).
          unfold xs'. rewrite take_ge by lia.
          by replace (Z.to_nat (n - numElements v))
            with (Z.to_nat n - length xs)%nat by lia. }
    eexists _, _. split; [exact Hrun|].
    split; [eapply wf_in_place; [done..|lia]|].
    split; [apply lookup_insert_eq|].
    split; [eapply in_place_repr; [done|lia]|].
    split; [done|]. split; [simpl; lia|]. split; [done|].
    split; [intros _; split; [done|by apply regions_allocated_same]|].
    split; [lia|].
    intros l Hl. by apply in_place_others.
  - assert (vector.resize_fill this n (Val x) s
            = Ok () (relocated this v n xs' s)) as Hrun.
    { rewrite (resize_fill_grow this v xs) by (done || lia).
      unfold xs'. rewrite take_ge by lia.
      by replace (Z.to_nat (n - numElements v))
        with (Z.to_nat n - length xs)%nat by lia. }
    eexists _, _. split; [exact Hrun|].
    split; [eapply wf_relocated; [done..|lia]|].
    split; [apply lookup_insert_eq|].
    split; [apply relocated_repr; [lia|apply (wf_next _ Hwf)]|].
    split; [done|]. split; [simpl; lia|]. split; [done|].
    split; [lia|].
    split; [intros _; by apply regions_allocated_succ|].
    intros l Hl. by apply relocated_others.
Qed.

Lemma resize_truncates_or_pads_witness :
  wf two_vectors ∧
  objs two_vectors !! 0%nat = Some (Vector 7 (Ptr 1%nat 0) 4 3) ∧
  repr (heap two_vectors) (Vector 7 (Ptr 1%nat 0) 4 3) [1; 2; 3] ∧
  0 ≤ 6 ≤ max_size ∧
  read (At (Ptr 2%nat 1)) two_vectors = Ok 9 two_vectors ∧
  (∃ s' v',
     vector.resize_fill 0%nat 6 (At (Ptr 2%nat 1)) two_vectors = Ok () s' ∧
     objs s' !! 0%nat = Some v' ∧
     repr (heap s') v' [1; 2; 3; 9; 9; 9] ∧
     numElements v' = 6 ∧ numCapacity v' = 6) ∧
  vector.resize_fill 0%nat 6 (At (Ptr 1%nat 0)) two_vectors = UB.
Proof.
  pose proof two_vectors_wf as Hwf.
  assert (objs two_vectors !! 0%nat = Some (Vector 7 (Ptr 1%nat 0) 4 3)) as Hv
    by reflexivity.
  assert (repr (heap two_vectors) (Vector 7 (Ptr 1%nat 0) 4 3) [1; 2; 3])
    as Hxs.
  { unfold repr. simpl. unfold max_size, PTRDIFF_MAX.
    split; [done|]. split; [lia|]. right. by split; [lia|]. }
  assert (0 ≤ 6 ≤ max_size) as Hn by (unfold max_size, PTRDIFF_MAX; lia).
  assert (read (At (Ptr 2%nat 1)) two_vectors = Ok 9 two_vectors) as Ht
    by reflexivity.
  split; [exact Hwf|]. split; [exact Hv|]. split; [exact Hxs|].
  split; [exact Hn|]. split; [exact Ht|].
  destruct (resize_truncates_or_pads (T:=Z) (A:=Z) 0%nat 6 two_vectors _ _
              Hwf Hv Hxs Hn) as [Hpad Hown].
  split.
  - destruct (Hpad (vector.resize_fill 0%nat 6 (At (Ptr 2%nat 1)))
                (At (Ptr 2%nat 1)) 9 (or_introl eq_refl) (λ _, Ht))
      as (s' & v' & Hrun & _ & Hv' & Hxs' & Hn' & Hc' & _).
    { intros _. simpl. lia. }
    exists s', v'. split; [exact Hrun|]. split; [exact Hv'|].
    split; [exact Hxs'|]. split; [exact Hn'|exact Hc'].
  - apply Hown; [simpl; lia|reflexivity].
Defined.

(** X13: [resize] to more elements than the allocation strategy can serve
    leaves by [std::bad_alloc] before anything is changed: the store is as it
    was. *)
Theorem resize_beyond_max_size_throws {T A : Type} `{!Allocator A}
    `{!DefaultConstructible T} this n (t : ref T) (s : state T A) v xs :
  objs s !! this = Some v → repr (heap s) v xs → max_size < n →
  vector.resize_fill this n t s = Throw s ∧
  vector.resize this n s = Throw s.
Proof.
  intros Hv Hxs Hn. pose proof (repr_bounds _ _ _ Hxs) as Hb.
  rewrite resize_resize_fill.
  split; apply (resize_fill_Throw this v); (done || lia).
Qed.

Lemma resize_beyond_max_size_throws_witness :
  objs one_vector !! 0%nat = Some (Vector 7 (Ptr 1%nat 0) 4 3) ∧
  repr (heap one_vector) (Vector 7 (Ptr 1%nat 0) 4 3) [1; 2; 3] ∧
  max_size < 2 ^ 63 ∧
  vector.resize_fill 0%nat (2 ^ 63) (Val 9) one_vector = Throw one_vector.
Proof.
  pose proof one_vector_repr as Hxs.
  assert (objs one_vector !! 0%nat = Some (Vector 7 (Ptr 1%nat 0) 4 3)) as Hv
    by reflexivity.
  assert (max_size < 2 ^ 63) as Hn by (unfold max_size, PTRDIFF_MAX; lia).
  split; [exact Hv|]. split; [exact Hxs|]. split; [exact Hn|].
  destruct (resize_beyond_max_size_throws (T:=Z) (A:=Z) 0%nat (2 ^ 63) (Val 9)
              one_vector _ _ Hv Hxs Hn) as [Hfill _].
  exact Hfill.
Defined.

(** X14: [reserve(n)] never changes the elements or the size.  With [n] within
    the capacity it does nothing at all; with [n] above it the elements are
    moved to a fresh buffer for exactly [n] objects and the old buffer is
    given back; with [n] above what the allocation strategy can serve it
    leaves by [std::bad_alloc] with the store as it was. *)
Theorem reserve_grows_and_keeps_elements {T A : Type} `{!Allocator A}
    `{!DefaultConstructible T} this n (s : state T A) v xs :
  wf s → objs s !! this = Some v → repr (heap s) v xs →
  (n ≤ numCapacity v → vector.reserve this n s = Ok () s) ∧
  (max_size < n → vector.reserve this n s = Throw s) ∧
  (numCapacity v < n ≤ max_size →
     ∃ s' v',
       vector.reserve this n s = Ok () s' ∧ wf s' ∧
       objs s' !! this = Some v' ∧ repr (heap s') v' xs ∧
       numCapacity v' = n ∧ numElements v' = numElements v ∧
       alloc v' = alloc v ∧
       data v' ≠ data v ∧ heap s' !! blk (data v) = None ∧
       regions_allocated s s' = 1 ∧
       (∀ l, l ≠ this →
          objs s' !! l = objs s !! l ∧ observe s' l = observe s l)).
Proof.
  intros Hwf Hv Hxs.
  pose proof (repr_length _ _ _ Hxs) as Hlen.
  pose proof (repr_bounds _ _ _ Hxs) as Hb.
  split; [intros; by eapply reserve_noop|].
  split; [intros; eapply reserve_Throw; [done|lia|done]|].
  intros Hn. eexists _, _.
  split; [by eapply reserve_Ok|].
  split; [eapply wf_relocated; [done..|lia]|].
  split; [apply lookup_insert_eq|].
  split; [apply relocated_repr; [lia|apply (wf_next _ Hwf)]|].
  split; [done|]. split; [simpl; lia|]. split; [done|].
  split; [by apply (relocated_new_buffer this)|].
  split; [by apply relocated_old_gone|].
  split; [by apply regions_allocated_succ|].
  intros l Hl. by apply relocated_others.
Qed.

Lemma reserve_grows_and_keeps_elements_witness :
  wf one_vector ∧
  objs one_vector !! 0%nat = Some (Vector 7 (Ptr 1%nat 0) 4 3) ∧
  repr (heap one_vector) (Vector 7 (Ptr 1%nat 0) 4 3) [1; 2; 3] ∧
  (2 ≤ 4 ∧ vector.reserve 0%nat 2 one_vector = Ok () one_vector) ∧
  (4 < 10 ≤ max_size ∧
   ∃ s' v',
     vector.reserve 0%nat 10 one_vector = Ok () s' ∧
     objs s' !! 0%nat = Some v' ∧ repr (heap s') v' [1; 2; 3] ∧
     numCapacity v' = 10 ∧ heap s' !! 1%nat = None).
Proof.
  pose proof one_vector_wf as Hwf. pose proof one_vector_repr as Hxs.
  assert (objs one_vector !! 0%nat = Some (Vector 7 (Ptr 1%nat 0) 4 3)) as Hv
    by reflexivity.
  assert (2 ≤ 4) as H2 by lia.
  assert (4 < 10 ≤ max_size) as H10 by (unfold max_size, PTRDIFF_MAX; lia).
  split; [exact Hwf|]. split; [exact Hv|]. split; [exact Hxs|]. split.
  - split; [exact H2|].
    destruct (reserve_grows_and_keeps_elements (T:=Z) (A:=Z) 0%nat 2
                one_vector _ _ Hwf Hv Hxs) as (Hnoop & _).
    exact (Hnoop H2).
  - split; [exact H10|].
    destruct (reserve_grows_and_keeps_elements (T:=Z) (A:=Z) 0%nat 10
                one_vector _ _ Hwf Hv Hxs) as (_ & _ & Hgrow).
    destruct (Hgrow H10)
      as (s' & v' & Hrun & _ & Hv' & Hxs' & Hc' & _ & _ & _ & Hgone & _).
    exists s', v'. split; [exact Hrun|]. split; [exact Hv'|].
    split; [exact Hxs'|]. split; [exact Hc'|exact Hgone].
Defined.

(** X15: After [reserve(n)], pushing elements up to a size of [n] never
    reallocates: the buffer stays where [reserve] put it, the capacity stays
    what it was then, no region is allocated by the pushes, and the vector
    holds the old elements followed by the pushed ones. *)
Theorem reserved_pushes_stay_in_place {T A : Type} `{!Allocator A}
    `{!DefaultConstructible T} this n (ts : list T) (s : state T A) v xs :
  wf s → objs s !! this = Some v → repr (heap s) v xs →
  Z.of_nat (length xs + length ts) ≤ n ≤ max_size →
  ∃ s1 v1 s2 v2,
    vector.reserve this n s = Ok () s1 ∧ objs s1 !! this = Some v1 ∧
    push_all this ts s1 = Ok () s2 ∧ objs s2 !! this = Some v2 ∧ wf s2 ∧
    repr (heap s2) v2 (xs ++ ts) ∧
    data v2 = data v1 ∧ numCapacity v2 = numCapacity v1 ∧
    numCapacity v1 = Z.max (numCapacity v) n ∧
    regions_allocated s1 s2 = 0 ∧ regions_allocated s s2 ≤ 1.
Proof.
  intros Hwf Hv Hxs Hn.
  pose proof (repr_length _ _ _ Hxs) as Hlen.
  pose proof (repr_bounds _ _ _ Hxs) as Hb.
  assert (∀ s1 v1,
            wf s1 → objs s1 !! this = Some v1 → repr (heap s1) v1 xs →
            Z.of_nat (length xs + length ts) ≤ numCapacity v1 →
            ∃ s2 v2,
              push_all this ts s1 = Ok () s2 ∧ objs s2 !! this = Some v2 ∧
              wf s2 ∧ repr (heap s2) v2 (xs ++ ts) ∧
              data v2 = data v1 ∧ numCapacity v2 = numCapacity v1 ∧
              next_block s2 = next_block s1) as Hpush.
  { intros s1 v1 Hwf1 Hv1 Hxs1 Hroom.
    assert (Z.of_nat (length (xs ++ ts)) ≤ numCapacity v1) as Hroom'
      by (rewrite length_app; lia).
    eexists _, _. split; [by eapply push_all_room|].
    split; [apply lookup_insert_eq|].
    split; [by eapply wf_in_place|].
    split; [by eapply in_place_repr|]. done. }
  destruct (decide (n ≤ numCapacity v)) as [Hroom|Hgrow].
  - destruct (Hpush s v Hwf Hv Hxs) as (s2 & v2 & H1 & H2 & H3 & H4 & H5 & H6 & H7);
      [lia|].
    exists s, v, s2, v2. split; [by eapply reserve_noop|]. split; [done|].
    split; [done|]. split; [done|]. split; [done|]. split; [done|].
    split; [done|]. split; [done|]. split; [lia|].
    rewrite (regions_allocated_same s s2) by done. split; [done|lia].
  - set (s1 := relocated this v n xs s).
    set (v1 := Vector (alloc v) (Ptr (next_block s) 0) n (Z.of_nat (length xs))).
    assert (wf s1) as Hwf1 by (eapply wf_relocated; [done..|lia]).
    assert (objs s1 !! this = Some v1) as Hv1 by apply lookup_insert_eq.
    assert (repr (heap s1) v1 xs) as Hxs1
      by (apply relocated_repr; [lia|apply (wf_next _ Hwf)]).
    destruct (Hpush s1 v1 Hwf1 Hv1 Hxs1)
      as (s2 & v2 & H1 & H2 & H3 & H4 & H5 & H6 & H7); [simpl; lia|].
    exists s1, v1, s2, v2.
    split; [eapply reserve_Ok; [done..|lia]|]. split; [done|].
    split; [done|]. split; [done|]. split; [done|]. split; [done|].
    split; [done|]. split; [done|]. split; [simpl; lia|].
    split; [by apply regions_allocated_same|].
    rewrite (regions_allocated_succ s s2); [lia|]. by rewrite H7.
Qed.

Lemma reserved_pushes_stay_in_place_witness :
  wf one_vector ∧
  objs one_vector !! 0%nat = Some (Vector 7 (Ptr 1%nat 0) 4 3) ∧
  repr (heap one_vector) (Vector 7 (Ptr 1%nat 0) 4 3) [1; 2; 3] ∧
  Z.of_nat (length [1; 2; 3] + length [4; 5; 6]) ≤ 8 ≤ max_size ∧
  ∃ s1 v1 s2 v2,
    vector.reserve 0%nat 8 one_vector = Ok () s1 ∧
    objs s1 !! 0%nat = Some v1 ∧
    push_all 0%nat [4; 5; 6] s1 = Ok () s2 ∧ objs s2 !! 0%nat = Some v2 ∧
    repr (heap s2) v2 [1; 2; 3; 4; 5; 6] ∧
    data v2 = data v1 ∧ numCapacity v2 = 8 ∧ regions_allocated s1 s2 = 0.
Proof.
  pose proof one_vector_wf as Hwf. pose proof one_vector_repr as Hxs.
  assert (objs one_vector !! 0%nat = Some (Vector 7 (Ptr 1%nat 0) 4 3)) as Hv
    by reflexivity.
  assert (Z.of_nat (length [1; 2; 3] + length [4; 5; 6]) ≤ 8 ≤ max_size) as Hn
    by (unfold max_size, PTRDIFF_MAX; simpl; lia).
  split; [exact Hwf|]. split; [exact Hv|]. split; [exact Hxs|].
  split; [exact Hn|].
  destruct (reserved_pushes_stay_in_place (T:=Z) (A:=Z) 0%nat 8 [4; 5; 6]
              one_vector _ _ Hwf Hv Hxs Hn)
    as (s1 & v1 & s2 & v2 & Hr & Hv1 & Hp & Hv2 & _ & Hxs2 & Hd & Hc2 & Hc1
        & Hnone & _).
  exists s1, v1, s2, v2. split; [exact Hr|]. split; [exact Hv1|].
  split; [exact Hp|]. split; [exact Hv2|]. split; [exact Hxs2|].
  split; [exact Hd|]. split; [|exact Hnone].
  rewrite Hc2, Hc1. reflexivity.
Defined.

(** ** Remove *)

(** X16: [clear()] destroys every element and sets the size to [0]; the
    capacity, the buffer and the allocation strategy stay what they were, and
    nothing is allocated or freed.  No index can be read afterwards. *)
Theorem clear_keeps_capacity {T A : Type} `{!Allocator A}
    `{!DefaultConstructible T} this (s : state T A) v xs :
  wf s → objs s !! this = Some v → repr (heap s) v xs →
  ∃ s' v',
    vector.clear this s = Ok () s' ∧ wf s' ∧
    objs s' !! this = Some v' ∧ repr (heap s') v' [] ∧
    numElements v' = 0 ∧ numCapacity v' = numCapacity v ∧
    data v' = data v ∧ alloc v' = alloc v ∧
    next_block s' = next_block s ∧
    (∀ b, is_Some (heap s' !! b) ↔ is_Some (heap s !! b)) ∧
    vector.empty this s' = Ok true s' ∧
    (∀ i, 0 ≤ i → (q ← vector.subscript this i; load q) s' = UB) ∧
    (∀ l, l ≠ this → objs s' !! l = objs s !! l ∧ observe s' l = observe s l).
Proof.
  intros Hwf Hv Hxs.
  pose proof (repr_bounds _ _ _ Hxs) as Hb.
  set (s' := in_place this v [] s).
  set (v' := Vector (alloc v) (data v) (numCapacity v) (Z.of_nat (length (@nil T)))).
  assert (wf s') as Hwf' by (eapply wf_in_place; [done..|simpl; lia]).
  assert (objs s' !! this = Some v') as Hv' by apply lookup_insert_eq.
  assert (repr (heap s') v' []) as Hxs'
    by (eapply in_place_repr; [done|simpl; lia]).
  exists s', v'. split; [by eapply clear_Ok|]. split; [done|].
  split; [done|]. split; [done|]. split; [done|]. split; [done|].
  split; [done|]. split; [done|]. split; [done|].
  split; [|split; [|split]].
  - intros b. unfold s', in_place, heap_put. simpl.
    case_decide as Hnull; [done|].
    destruct (repr_region _ _ _ Hxs Hnull) as (_ & _ & Hh).
    destruct (decide (b = blk (data v))) as [->|Hne].
    + rewrite lookup_insert_eq, Hh. by split; eauto.
    + by rewrite lookup_insert_ne.
  - unfold vector.empty. by erewrite bind_Ok by by apply get_Ok.
  - intros i Hi.
    destruct (subscript_read this v' [] i s' Hwf' Hv' Hxs' Hi)
      as [_ Hread].
    rewrite Hread. by rewrite lookup_nil.
  - intros l Hl. by apply in_place_others.
Qed.

Lemma clear_keeps_capacity_witness :
  wf one_vector ∧
  objs one_vector !! 0%nat = Some (Vector 7 (Ptr 1%nat 0) 4 3) ∧
  repr (heap one_vector) (Vector 7 (Ptr 1%nat 0) 4 3) [1; 2; 3] ∧
  ∃ s' v',
    vector.clear 0%nat one_vector = Ok () s' ∧
    objs s' !! 0%nat = Some v' ∧
    numElements v' = 0 ∧ numCapacity v' = 4 ∧ data v' = Ptr 1%nat 0 ∧
    (q ← vector.subscript 0%nat 0; load q) s' = UB.
Proof.
  pose proof one_vector_wf as Hwf. pose proof one_vector_repr as Hxs.
  assert (objs one_vector !! 0%nat = Some (Vector 7 (Ptr 1%nat 0) 4 3)) as Hv
    by reflexivity.
  split; [exact Hwf|]. split; [exact Hv|]. split; [exact Hxs|].
  destruct (clear_keeps_capacity (T:=Z) (A:=Z) 0%nat one_vector _ _ Hwf Hv Hxs)
    as (s' & v' & Hrun & _ & Hv' & _ & Hn & Hc & Hd & _ & _ & _ & _ & Hread & _).
  exists s', v'. split; [exact Hrun|]. split; [exact Hv'|].
  split; [exact Hn|]. split; [exact Hc|]. split; [exact Hd|].
  apply Hread. lia.
Defined.

(** X17: [shrink_to_fit()] keeps the elements and the size and leaves a
    capacity equal to the size: a vector that is already full is not touched,
    one with spare room and elements moves them to a fresh buffer of exactly
    that size, and one with spare room and no elements is left without a
    buffer.  The old buffer is given back whenever there was spare room.  A
    second call changes nothing. *)
Theorem shrink_to_fit_capacity_is_size {T A : Type} `{!Allocator A}
    `{!DefaultConstructible T} this (s : state T A) v xs :
  wf s → objs s !! this = Some v → repr (heap s) v xs →
  ∃ s' v',
    vector.shrink_to_fit this s = Ok () s' ∧ wf s' ∧
    objs s' !! this = Some v' ∧ repr (heap s') v' xs ∧
    numElements v' = numElements v ∧ numCapacity v' = numElements v ∧
    alloc v' = alloc v ∧
    (numCapacity v = numElements v → s' = s) ∧
    (numElements v < numCapacity v → heap s' !! blk (data v) = None) ∧
    (numElements v = 0 → 0 < numCapacity v → data v' = nullptr) ∧
    vector.shrink_to_fit this s' = Ok () s' ∧
    (∀ l, l ≠ this → objs s' !! l = objs s !! l ∧ observe s' l = observe s l).
Proof.
  intros Hwf Hv Hxs.
  pose proof (repr_length _ _ _ Hxs) as Hlen.
  pose proof (repr_bounds _ _ _ Hxs) as Hb.
  destruct (decide (numCapacity v ≤ numElements v)) as [Hfull|Hspare].
  - exists s, v. split; [by eapply shrink_to_fit_noop|]. split; [done|].
    split; [done|]. split; [done|]. split; [done|]. split; [lia|].
    split; [done|]. split; [done|]. split; [lia|].
    split; [intros; lia|].
    split; [by eapply shrink_to_fit_noop|]. done.
  - destruct (decide (numElements v = 0)) as [Hzero|Hpos].
    + assert (xs = []) as -> by (apply length_zero_iff_nil; lia).
      exists (released this v s), (Vector (alloc v) nullptr 0 0).
      assert (objs (released this v s) !! this
              = Some (Vector (alloc v) nullptr 0 0)) as Hv'
        by apply lookup_insert_eq.
      split; [eapply shrink_to_fit_release; [done..|lia]|].
      split; [by apply wf_released|]. split; [done|].
      split; [apply repr_empty|]. split; [done|]. split; [done|].
      split; [done|]. split; [lia|].
      split; [intros _; apply lookup_delete_eq|].
      split; [done|].
      split; [by eapply shrink_to_fit_noop|].
      intros l Hl. by apply released_others.
    + exists (relocated this v (numElements v) xs s),
             (Vector (alloc v) (Ptr (next_block s) 0) (numElements v)
                     (Z.of_nat (length xs))).
      assert (objs (relocated this v (numElements v) xs s) !! this
              = Some (Vector (alloc v) (Ptr (next_block s) 0) (numElements v)
                        (Z.of_nat (length xs)))) as Hv'
        by apply lookup_insert_eq.
      split; [eapply shrink_to_fit_relocate; [done..|lia]|].
      split; [eapply wf_relocated; [done..|lia]|]. split; [done|].
      split; [apply relocated_repr; [lia|apply (wf_next _ Hwf)]|].
      split; [done|]. split; [done|]. split; [done|]. split; [lia|].
      split; [intros _; by apply relocated_old_gone|].
      split; [lia|].
      split; [eapply shrink_to_fit_noop; [done|simpl; lia]|].
      intros l Hl. by apply relocated_others.
Qed.

Lemma shrink_to_fit_capacity_is_size_witness :
  wf one_vector ∧
  objs one_vector !! 0%nat = Some (Vector 7 (Ptr 1%nat 0) 4 3) ∧
  repr (heap one_vector) (Vector 7 (Ptr 1%nat 0) 4 3) [1; 2; 3] ∧
  ∃ s' v',
    vector.shrink_to_fit 0%nat one_vector = Ok () s' ∧
    objs s' !! 0%nat = Some v' ∧ repr (heap s') v' [1; 2; 3] ∧
    numCapacity v' = 3 ∧ heap s' !! 1%nat = None ∧
    vector.shrink_to_fit 0%nat s' = Ok () s'.
Proof.
  pose proof one_vector_wf as Hwf. pose proof one_vector_repr as Hxs.
  assert (objs one_vector !! 0%nat = Some (Vector 7 (Ptr 1%nat 0) 4 3)) as Hv
    by reflexivity.
  split; [exact Hwf|]. split; [exact Hv|]. split; [exact Hxs|].
  destruct (shrink_to_fit_capacity_is_size (T:=Z) (A:=Z) 0%nat one_vector _ _
              Hwf Hv Hxs)
    as (s' & v' & Hrun & _ & Hv' & Hxs' & _ & Hc & _ & _ & Hgone & _ & Hagain & _).
  exists s', v'. split; [exact Hrun|]. split; [exact Hv'|].
  split; [exact Hxs'|]. split; [exact Hc|]. split; [|exact Hagain].
  apply Hgone. simpl. lia.
Defined.

(** ** Assign *)

(** X18: Copy assignment [a = b], of vectors and of stacks, between two
    distinct objects leaves [a] with the elements of [b], in a buffer of its
    own, and leaves [b] as it was.  When the capacity of [a] suffices the
    buffer of [a] stays where it is and nothing is allocated; otherwise [a]
    gets a fresh buffer for exactly [b.size()] objects and its old buffer is
    given back.  Self-assignment changes nothing. *)
Theorem copy_assignment_copies_elements {T A : Type} `{!Allocator A}
    `{!DefaultConstructible T} (asg : loc → loc → M T A unit) this rhs
    (s : state T A) v r xs ys :
  asg = vector.assign_copy ∨ asg = stack.assign_copy →
  wf s → objs s !! this = Some v → objs s !! rhs = Some r →
  repr (heap s) v xs → repr (heap s) r ys →
  asg this this s = Ok () s ∧
  (this ≠ rhs →
   ∃ s' v',
     asg this rhs s = Ok () s' ∧ wf s' ∧
     objs s' !! this = Some v' ∧ repr (heap s') v' ys ∧
     objs s' !! rhs = Some r ∧ repr (heap s') r ys ∧
     numCapacity v' = Z.max (numCapacity v) (numElements r) ∧
     (numElements r ≤ numCapacity v →
        data v' = data v ∧ regions_allocated s s' = 0) ∧
     (numCapacity v < numElements r →
        regions_allocated s s' = 1 ∧ heap s' !! blk (data v) = None) ∧
     (data v' ≠ nullptr → blk (data v') ≠ blk (data r)) ∧
     (∀ l, l ≠ this →
        objs s' !! l = objs s !! l ∧ observe s' l = observe s l)).
Proof.
  intros Hasg Hwf Hv Hr Hxs Hys.
  assert (asg = vector.assign_copy) as ->
    by (by destruct Hasg as [->| ->]).
  split; [apply assign_copy_self|]. intros Hne.
  pose proof (repr_length _ _ _ Hys) as Hlen.
  pose proof (repr_bounds _ _ _ Hxs) as Hbv.
  pose proof (repr_bounds _ _ _ Hys) as Hbr.
  assert (rhs ≠ this) as Hne' by done.
  destruct (decide (numCapacity v < numElements r)) as [Hlt|Hge].
  - set (s' := relocated this v (numElements r) ys s).
    assert (wf s') as Hwf' by (eapply wf_relocated; [done..|lia]).
    eexists s', _. split; [by eapply assign_copy_relocate|].
    split; [done|]. split; [apply lookup_insert_eq|].
    split; [apply relocated_repr; [lia|apply (wf_next _ Hwf)]|].
    split; [unfold s', relocated; simpl; by rewrite lookup_insert_ne|].
    split; [by eapply relocated_repr_other|].
    split; [simpl; lia|]. split; [lia|].
    split; [intros _; split; [by apply regions_allocated_succ|
                              by apply relocated_old_gone]|].
    split; [intros _; simpl; pose proof (wf_block_lt _ _ _ Hwf Hr); lia|].
    intros l Hl. by apply relocated_others.
  - set (s' := in_place this v ys s).
    assert (wf s') as Hwf' by (eapply wf_in_place; [done..|lia]).
    eexists s', _. split; [eapply assign_copy_in_place; [done..|lia]|].
    split; [done|]. split; [apply lookup_insert_eq|].
    split; [eapply in_place_repr; [done|lia]|].
    split; [unfold s', in_place; simpl; by rewrite lookup_insert_ne|].
    split; [by eapply in_place_repr_other|].
    split; [simpl; lia|].
    split; [intros _; split; [done|by apply regions_allocated_same]|].
    split; [lia|].
    split; [simpl; intros Hnn; by eapply (wf_own _ Hwf this rhs)|].
    intros l Hl. by apply in_place_others.
Qed.

Lemma copy_assignment_copies_elements_witness :
  wf two_vectors ∧
  objs two_vectors !! 1%nat = Some (Vector 0 (Ptr 2%nat 0) 2 2) ∧
  objs two_vectors !! 0%nat = Some (Vector 7 (Ptr 1%nat 0) 4 3) ∧
  repr (heap two_vectors) (Vector 0 (Ptr 2%nat 0) 2 2) [8; 9] ∧
  repr (heap two_vectors) (Vector 7 (Ptr 1%nat 0) 4 3) [1; 2; 3] ∧
  1%nat ≠ 0%nat ∧
  ∃ s' v',
    vector.assign_copy 1%nat 0%nat two_vectors = Ok () s' ∧
    objs s' !! 1%nat = Some v' ∧ repr (heap s') v' [1; 2; 3] ∧
    numCapacity v' = 3 ∧
    objs s' !! 0%nat = Some (Vector 7 (Ptr 1%nat 0) 4 3) ∧
    repr (heap s') (Vector 7 (Ptr 1%nat 0) 4 3) [1; 2; 3].
Proof.
  pose proof two_vectors_wf as Hwf.
  assert (objs two_vectors !! 1%nat = Some (Vector 0 (Ptr 2%nat 0) 2 2)) as Hv
    by reflexivity.
  assert (objs two_vectors !! 0%nat = Some (Vector 7 (Ptr 1%nat 0) 4 3)) as Hr
    by reflexivity.
  assert (repr (heap two_vectors) (Vector 0 (Ptr 2%nat 0) 2 2) [8; 9]) as Hxs.
  { unfold repr. simpl. unfold max_size, PTRDIFF_MAX.
    split; [done|]. split; [lia|]. right. by split; [lia|]. }
  assert (repr (heap two_vectors) (Vector 7 (Ptr 1%nat 0) 4 3) [1; 2; 3])
    as Hys.
  { unfold repr. simpl. unfold max_size, PTRDIFF_MAX.
    split; [done|]. split; [lia|]. right. by split; [lia|]. }
  assert (1%nat ≠ 0%nat) as Hne by lia.
  split; [exact Hwf|]. split; [exact Hv|]. split; [exact Hr|].
  split; [exact Hxs|]. split; [exact Hys|]. split; [exact Hne|].
  destruct (copy_assignment_copies_elements (T:=Z) (A:=Z) vector.assign_copy
              1%nat 0%nat two_vectors _ _ _ _ (or_introl eq_refl)
              Hwf Hv Hr Hxs Hys) as [_ Hcopy].
  destruct (Hcopy Hne)
    as (s' & v' & Hrun & _ & Hv' & Hxs' & Hr' & Hys' & Hc & _).
  exists s', v'. split; [exact Hrun|]. split; [exact Hv'|].
  split; [exact Hxs'|]. split; [exact Hc|]. split; [exact Hr'|exact Hys'].
Defined.

(** X19: [a.swap(b)] exchanges the four members of the two objects, the
    allocation strategy included, so that each holds what the other held; the
    free store is not touched and nothing is allocated.  Swapping twice
    restores the store, and a vector swapped with itself is unchanged. *)
Theorem swap_exchanges_and_undoes_itself {T A : Type} `{!Allocator A}
    `{!DefaultConstructible T} this rhs (s : state T A) v r :
  objs s !! this = Some v → objs s !! rhs = Some r →
  ∃ s',
    vector.swap this rhs s = Ok () s' ∧
    heap s' = heap s ∧ next_block s' = next_block s ∧
    objs s' !! this = Some r ∧ objs s' !! rhs = Some v ∧
    (∀ l, l ≠ this → l ≠ rhs → objs s' !! l = objs s !! l) ∧
    (∀ xs ys, repr (heap s) v xs → repr (heap s) r ys →
       repr (heap s') r ys ∧ repr (heap s') v xs) ∧
    (wf s → wf s') ∧
    vector.swap this rhs s' = Ok () s ∧
    (this = rhs → s' = s).
Proof.
  intros Hv Hr.
  assert (objs (swapped this rhs v r s) !! rhs = Some v) as Hr'
    by apply lookup_insert_eq.
  assert (objs (swapped this rhs v r s) !! this = Some r) as Hv'.
  { unfold swapped. simpl. destruct (decide (this = rhs)) as [->|Hne].
    - rewrite lookup_insert_eq. congruence.
    - rewrite lookup_insert_ne by done. apply lookup_insert_eq. }
  assert (swapped this rhs r v (swapped this rhs v r s) = s) as Hback.
  { destruct s as [h nb os]. unfold swapped. simpl in *. f_equal.
    apply map_eq. intros l.
    destruct (decide (l = rhs)) as [->|Hl1]; [by rewrite lookup_insert_eq|].
    rewrite lookup_insert_ne by done.
    destruct (decide (l = this)) as [->|Hl2]; [by rewrite lookup_insert_eq|].
    by rewrite !lookup_insert_ne by done. }
  exists (swapped this rhs v r s).
  split; [by apply swap_Ok|]. split; [done|]. split; [done|].
  split; [done|]. split; [done|].
  split; [intros l Hl1 Hl2; unfold swapped; simpl;
          by rewrite !lookup_insert_ne by done|].
  split; [done|]. split; [intros Hwf; by apply wf_swapped|].
  split; [rewrite <- Hback at 2; by apply swap_Ok|].
  intros ->. rewrite Hv in Hr. injection Hr as <-.
  destruct s as [h nb os]. unfold swapped. simpl in *. f_equal.
  rewrite insert_insert_eq. by apply insert_id.
Qed.

Lemma swap_exchanges_and_undoes_itself_witness :
  objs two_vectors !! 0%nat = Some (Vector 7 (Ptr 1%nat 0) 4 3) ∧
  objs two_vectors !! 1%nat = Some (Vector 0 (Ptr 2%nat 0) 2 2) ∧
  ∃ s',
    vector.swap 0%nat 1%nat two_vectors = Ok () s' ∧
    objs s' !! 0%nat = Some (Vector 0 (Ptr 2%nat 0) 2 2) ∧
    objs s' !! 1%nat = Some (Vector 7 (Ptr 1%nat 0) 4 3) ∧
    vector.swap 0%nat 1%nat s' = Ok () two_vectors.
Proof.
  assert (objs two_vectors !! 0%nat = Some (Vector 7 (Ptr 1%nat 0) 4 3)) as Hv
    by reflexivity.
  assert (objs two_vectors !! 1%nat = Some (Vector 0 (Ptr 2%nat 0) 2 2)) as Hr
    by reflexivity.
  split; [exact Hv|]. split; [exact Hr|].
  destruct (swap_exchanges_and_undoes_itself (T:=Z) (A:=Z) 0%nat 1%nat
              two_vectors _ _ Hv Hr)
    as (s' & Hrun & _ & _ & Hv' & Hr' & _ & _ & _ & Hback & _).
  exists s'. split; [exact Hrun|]. split; [exact Hv'|].
  split; [exact Hr'|exact Hback].
Defined.

(** ** The stack *)

Section Stack.
Context {T A : Type} `{!Allocator A} `{!DefaultConstructible T}.
Implicit Types (s : state T A) (v r : vector A) (xs ys : list T) (t : T).

(** What a call that only touches the object [this] and its buffer leaves
    of the other objects. *)
Lemma owned_others this v v' s s' l :
  wf s → wf s' → objs s !! this = Some v →
  objs s' = <[this := v']> (objs s) →
  delete (blk (data v')) (heap s') = delete (blk (data v)) (heap s) →
  l ≠ this →
  objs s' !! l = objs s !! l ∧ observe s' l = observe s l ∧
  (∀ vl zs, objs s !! l = Some vl → repr (heap s) vl zs →
            repr (heap s') vl zs).
Proof.
  intros Hwf Hwf' Hv Hobjs Hheap Hne.
  assert (objs s' !! l = objs s !! l) as Hl
    by (rewrite Hobjs; by apply lookup_insert_ne).
  assert (∀ vl, objs s !! l = Some vl → data vl ≠ nullptr →
                heap s' !! blk (data vl) = heap s !! blk (data vl)) as Hkept.
  { intros vl Hvl Hnn.
    assert (blk (data vl) ≠ blk (data v)) as Hne1
      by by apply (wf_other_region s this l v vl).
    assert (blk (data vl) ≠ blk (data v')) as Hne2.
    { eapply (wf_own _ Hwf' l this); [done|by rewrite Hl| |done].
      rewrite Hobjs. apply lookup_insert_eq. }
    rewrite <- (lookup_delete_ne (heap s') (blk (data v'))) by done.
    rewrite Hheap. by apply lookup_delete_ne. }
  split; [done|]. split; [by apply observe_kept|].
  intros vl zs Hvl Hzs. eapply repr_frame; [done|]. intros Hnn. by apply Hkept.
Qed.

Lemma empty_Ok this v s :
  objs s !! this = Some v →
  stack.empty this s = Ok (bool_decide (numElements v = 0)) s.
Proof.
  intros Hv. unfold stack.empty, vector.empty, stack.container.
  by erewrite bind_Ok by by apply get_Ok.
Qed.

Lemma top_Ok this v s :
  objs s !! this = Some v →
  stack.top this s = Ok (data v +ₚ to_size_t (numElements v - 1)) s.
Proof.
  intros Hv. unfold stack.top, vector.back, stack.container.
  by erewrite bind_Ok by by apply get_Ok.
Qed.

End Stack.



(** X21: An empty stack: [empty()] is true, [size()] is [0] and [pop()] does
    nothing; [top()] checks nothing and returns the address [data + SIZE_MAX]
    (the index [0 - 1] in [size_t]), so that reading or assigning through it
    is undefined behaviour. *)
Theorem top_of_empty_stack_is_undefined {T A : Type} `{!Allocator A}
    `{!DefaultConstructible T} this (s : state T A) v :
  wf s → objs s !! this = Some v → repr (heap s) v [] →
  stack.empty this s = Ok true s ∧ stack.size this s = Ok 0 s ∧
  stack.pop this s = Ok () s ∧
  stack.top this s = Ok (data v +ₚ (2 ^ 64 - 1)) s ∧
  (q ← stack.top this; load q) s = UB ∧
  (∀ x, (q ← stack.top this; store q x) s = UB).
Proof.
  intros Hwf Hv Hxs. pose proof (repr_length _ _ _ Hxs) as Hn.
  simpl in Hn. rewrite Nat2Z.inj_0 in Hn.
  assert (to_size_t (0 - 1) = 2 ^ 64 - 1) as Hlast by reflexivity.
  pose proof (top_Ok this v s Hv) as Htop. rewrite Hn, Hlast in Htop.
  split; [by rewrite (empty_Ok this v), Hn by done|].
  split; [by rewrite (size_Ok this v), Hn by done|].
  split; [by eapply pop_back_empty|]. split; [exact Htop|].
  assert (load (data v +ₚ (2 ^ 64 - 1)) s = UB) as Hload
    by (eapply repr_load_beyond; [done..|simpl; lia]).
  split; [by erewrite bind_Ok by exact Htop|].
  intros x. erewrite bind_Ok by exact Htop.
  unfold load in Hload. unfold store.
  destruct (heap s !! blk (data v +ₚ (2 ^ 64 - 1))) as [reg|]; [|done].
  by destruct (cells reg !! off (data v +ₚ (2 ^ 64 - 1))).
Qed.

Lemma top_of_empty_stack_is_undefined_witness :
  wf one_empty_vector ∧
  objs one_empty_vector !! 0%nat = Some (Vector 7 nullptr 0 0) ∧
  repr (heap one_empty_vector) (Vector 7 nullptr 0 0) [] ∧
  stack.empty 0%nat one_empty_vector = Ok true one_empty_vector ∧
  stack.pop 0%nat one_empty_vector = Ok () one_empty_vector ∧
  (q ← stack.top 0%nat; load q) one_empty_vector = UB.
Proof.
  pose proof one_empty_vector_wf as Hwf.
  assert (objs one_empty_vector !! 0%nat = Some (Vector 7 nullptr 0 0)) as Hv
    by reflexivity.
  pose proof (repr_empty (T:=Z) (heap one_empty_vector) 7) as Hxs.
  split; [exact Hwf|]. split; [exact Hv|]. split; [exact Hxs|].
  destruct (top_of_empty_stack_is_undefined (T:=Z) (A:=Z) 0%nat
              one_empty_vector _ Hwf Hv Hxs)
    as (Hempty & _ & Hpop & _ & Hload & _).
  split; [exact Hempty|]. split; [exact Hpop|exact Hload].
Defined.

Section StdSwap.
Context {T A : Type} `{!Allocator A} `{!DefaultConstructible T}.
Implicit Types (s : state T A) (v r : vector A) (xs ys : list T) (t : T).

(** A vector without elements or capacity gives nothing up when it is
    move-assigned to. *)
Lemma move_assigned_empty this rhs (a : A) r s :
  move_assigned this rhs (Vector a nullptr 0 0) r s
  = State (heap s) (next_block s)
      (<[rhs := Vector a nullptr 0 0]> (<[this := r]> (objs s))).
Proof.
  unfold move_assigned. cbn [numCapacity data alloc].
  by rewrite !decide_False by lia.
Qed.

Lemma std_swap_Ok a b va vb s :
  wf s → objs s !! a = Some va → objs s !! b = Some vb →
  ∃ s',
    std_swap a b s = Ok () s' ∧ wf s' ∧
    s' = State (heap s) (next_block s)
           (<[b := Vector A_default (data va) (numCapacity va)
                     (numElements va)]> (<[a := vb]> (objs s))).
Proof.
  intros Hwf Ha Hb. unfold std_swap.
  set (tmp := fresh (dom (objs s))).
  assert (objs s !! tmp = None) as Htmp by apply not_elem_of_dom, is_fresh.
  assert (tmp ≠ a) as Hta by congruence.
  assert (tmp ≠ b) as Htb by congruence.
  set (v1 := Vector (alloc va) nullptr 0 0).
  set (vt := Vector A_default (data va) (numCapacity va) (numElements va)).
  erewrite bind_Ok by (by apply vector_move_Ok).
  set (s1 := handed_over tmp a va s).
  assert (wf s1) as Hwf1 by by apply wf_handed_over.
  assert (objs s1 !! a = Some v1) as Ha1 by apply lookup_insert_eq.
  assert (objs s1 !! tmp = Some vt) as Ht1.
  { unfold s1, handed_over. simpl. rewrite lookup_insert_ne by done.
    apply lookup_insert_eq. }
  assert (∃ r1, objs s1 !! b = Some r1 ∧
                <[b := vt]> (<[a := r1]> (objs s))
                = <[b := vt]> (<[a := vb]> (objs s))) as (r1 & Hb1 & Hr1).
  { destruct (decide (a = b)) as [<-|Hab].
    - exists v1. split; [done|]. by rewrite !insert_insert_eq.
    - exists vb. split; [|done]. unfold s1, handed_over. simpl.
      by rewrite !lookup_insert_ne by done. }
  erewrite bind_Ok by (by apply assign_move_Ok).
  assert (wf (move_assigned a b v1 r1 s1)) as Hwf2
    by by apply wf_move_assigned.
  unfold v1 in Hwf2 |- *. rewrite move_assigned_empty in *. fold v1 in Hwf2 |- *.
  set (s2 := State (heap s1) (next_block s1) (<[b := v1]> (<[a := r1]> (objs s1)))) in *.
  assert (objs s2 !! b = Some v1) as Hb2 by apply lookup_insert_eq.
  assert (objs s2 !! tmp = Some vt) as Ht2.
  { unfold s2. simpl.
    rewrite (lookup_insert_ne _ b tmp), (lookup_insert_ne _ a tmp) by done.
    exact Ht1. }
  erewrite bind_Ok by (by apply assign_move_Ok).
  assert (wf (move_assigned b tmp v1 vt s2)) as Hwf3
    by by apply wf_move_assigned.
  unfold v1 in Hwf3 |- *. rewrite move_assigned_empty in *. fold v1 in Hwf3 |- *.
  set (s3 := State (heap s2) (next_block s2) (<[tmp := v1]> (<[b := vt]> (objs s2)))) in *.
  erewrite (vector_destroy_Ok tmp v1 []);
    [|done|apply lookup_insert_eq|apply repr_empty|unfold INT_MAX; simpl; lia].
  exists (destroyed tmp v1 s3). split; [done|].
  split; [apply wf_destroyed; [done|apply lookup_insert_eq]|].
  unfold destroyed. simpl. f_equal.
  - by apply delete_id, wf_null_fresh.
  - rewrite <- Hr1. apply map_eq. intros l.
    destruct (decide (l = tmp)) as [->|Hlt].
    { rewrite lookup_delete_eq. by rewrite !lookup_insert_ne by done. }
    rewrite lookup_delete_ne by done. rewrite lookup_insert_ne by done.
    destruct (decide (l = b)) as [->|Hlb]; [by rewrite !lookup_insert_eq|].
    rewrite !(lookup_insert_ne _ b l) by done.
    destruct (decide (l = a)) as [->|Hla]; [by rewrite !lookup_insert_eq|].
    by rewrite !lookup_insert_ne by done.
Qed.

End StdSwap.

(** X22: [a.swap(b)] on two stacks is [std::swap] on their containers: a move
    construction into a temporary, two move assignments, and the destruction
    of the temporary.  Afterwards [a] is the vector that [b] was and [b] holds
    the buffer, size and capacity that [a] had, so each stack has the other's
    elements; the free store is as it was and the temporary is gone.  The
    allocation strategy that [a] carried is not passed on: [b] ends with a
    default-constructed one, the one the temporary was given by the move
    constructor. *)
Theorem stack_swap_exchanges_contents {T A : Type} `{!Allocator A}
    `{!DefaultConstructible T} this rhs (s : state T A) v r :
  wf s → objs s !! this = Some v → objs s !! rhs = Some r →
  ∃ s' r',
    stack.swap this rhs s = Ok () s' ∧ wf s' ∧
    heap s' = heap s ∧ next_block s' = next_block s ∧
    objs s' = <[rhs := r']> (<[this := r]> (objs s)) ∧
    (this ≠ rhs → objs s' !! this = Some r) ∧
    objs s' !! rhs = Some r' ∧
    data r' = data v ∧ numCapacity r' = numCapacity v ∧
    numElements r' = numElements v ∧ alloc r' = A_default ∧
    (∀ xs, repr (heap s) v xs → repr (heap s') r' xs) ∧
    (∀ ys, repr (heap s) r ys → repr (heap s') r ys).
Proof.
  intros Hwf Hv Hr.
  destruct (std_swap_Ok this rhs v r s Hwf Hv Hr) as (s' & Hrun & Hwf' & ->).
  eexists _, _. split; [exact Hrun|]. split; [exact Hwf'|].
  split; [done|]. split; [done|]. split; [done|].
  split; [intros Hne; simpl; rewrite lookup_insert_ne by done;
          apply lookup_insert_eq|].
  split; [apply lookup_insert_eq|].
  split; [done|]. split; [done|]. split; [done|]. split; [done|].
  split; [|done].
  intros xs Hxs. simpl. destruct v. by eapply repr_alloc.
Qed.

Lemma stack_swap_exchanges_contents_witness :
  wf two_vectors ∧
  objs two_vectors !! 0%nat = Some (Vector 7 (Ptr 1%nat 0) 4 3) ∧
  objs two_vectors !! 1%nat = Some (Vector 0 (Ptr 2%nat 0) 2 2) ∧
  ∃ s',
    stack.swap 0%nat 1%nat two_vectors = Ok () s' ∧
    heap s' = heap two_vectors ∧
    objs s' !! 0%nat = Some (Vector 0 (Ptr 2%nat 0) 2 2) ∧
    objs s' !! 1%nat = Some (Vector 0 (Ptr 1%nat 0) 4 3).
Proof.
  pose proof two_vectors_wf as Hwf.
  assert (objs two_vectors !! 0%nat = Some (Vector 7 (Ptr 1%nat 0) 4 3)) as Hv
    by reflexivity.
  assert (objs two_vectors !! 1%nat = Some (Vector 0 (Ptr 2%nat 0) 2 2)) as Hr
    by reflexivity.
  split; [exact Hwf|]. split; [exact Hv|]. split; [exact Hr|].
  destruct (stack_swap_exchanges_contents (T:=Z) (A:=Z) 0%nat 1%nat
              two_vectors _ _ Hwf Hv Hr)
    as (s' & r' & Hrun & _ & Hheap & _ & _ & Hthis & Hrhs & Hd & Hc & Hn & Ha
        & _).
  exists s'. split; [exact Hrun|]. split; [exact Hheap|].
  split; [apply Hthis; lia|].
  destruct r' as [a' d' c' n']. simpl in Hd, Hc, Hn, Ha. subst.
  exact Hrhs.
Defined.

(** X23: A copy of a stack, made by [stack(const stack&)] or by [stack(const
    Container&)], has the size and the top of its source and shares nothing
    with it: a [push] on the copy, of any object there was before the copy was
    made (an element of the source included), changes the size and the top of
    the copy alone, and the source still holds what it held. *)
Theorem stack_copy_is_independent {T A : Type} `{!Allocator A}
    `{!DefaultConstructible T} (copy : loc → loc → M T A unit) this rhs
    (t : ref T) (x : T) (s : state T A) r xs :
  copy = stack.stack_copy ∨ copy = stack.stack_of_container →
  wf s → objs s !! rhs = Some r → repr (heap s) r xs →
  objs s !! this = None → numElements r ≤ INT_MAX →
  read t s = Ok x s →
  ∃ s1 s2,
    copy this rhs s = Ok () s1 ∧
    stack.size this s1 = Ok (numElements r) s1 ∧
    (∀ ys y, xs = ys ++ [y] →
       (q ← stack.top this; load q) s1 = Ok y s1) ∧
    stack.push this t s1 = Ok () s2 ∧
    (q ← stack.top this; load q) s2 = Ok x s2 ∧
    stack.size this s2 = Ok (numElements r + 1) s2 ∧
    stack.size rhs s2 = Ok (numElements r) s2 ∧
    objs s2 !! rhs = Some r ∧ repr (heap s2) r xs ∧
    (∀ ys y, xs = ys ++ [y] →
       (q ← stack.top rhs; load q) s2 = Ok y s2).
Proof.
  intros Hcopy Hwf Hr Hxs Hfree Hmax Ht.
  assert (copy this rhs = vector.vector_copy this rhs) as ->
    by (by destruct Hcopy as [->| ->]).
  assert (this ≠ rhs) as Hne by congruence.
  destruct (vector_copy_spec this rhs r xs s Hwf Hr Hxs Hfree Hmax)
    as (s1 & b & Hrun1 & Hwf1 & Hb1 & Hr1 & Hc1 & Hn1 & _ & Hxb1 & Hxr1 & _).
  pose proof (repr_length _ _ _ Hxs) as Hlen.
  destruct (read_vector_copy this rhs r xs t x s s1 b Hwf Hr Hxs Hmax Hrun1
              Hb1 Ht) as [Ht1 Hout1].
  assert (stack.push this t s1 = vector.push_back this (Val x) s1) as Hpush.
  { unfold stack.push, stack.container.
    by apply (push_back_read this t x s1 b xs). }
  destruct (push_back_owned this x s1 b xs Hwf1 Hb1 Hxb1)
    as (s2 & b2 & Hrun2 & Hwf2 & Hobjs2 & Hxb2 & Hheap2 & _ & _).
  { intros _. rewrite Hc1. unfold grown, max_size, PTRDIFF_MAX, INT_MAX in *.
    case_decide; lia. }
  assert (objs s2 !! this = Some b2) as Hb2
    by (rewrite Hobjs2; apply lookup_insert_eq).
  destruct (owned_others this b b2 s1 s2 rhs Hwf1 Hwf2 Hb1 Hobjs2 Hheap2)
    as (Hr2 & _ & Hkept); [done|].
  rewrite Hr1 in Hr2.
  pose proof (Hkept r xs Hr1 Hxr1) as Hxr2.
  pose proof (repr_length _ _ _ Hxb2) as Hn2.
  rewrite length_app in Hn2. simpl in Hn2.
  exists s1, s2. split; [exact Hrun1|].
  split; [rewrite (size_Ok this b) by done; by rewrite Hn1|].
  split; [intros ys y ->; by eapply top_load|].
  split; [by rewrite Hpush|].
  split; [by eapply top_load|].
  split; [rewrite (size_Ok this b2) by done; do 2 f_equal; lia|].
  split; [by rewrite (size_Ok rhs r) by done|].
  split; [done|]. split; [done|].
  intros ys y ->. by eapply top_load.
Qed.

Lemma stack_copy_is_independent_witness :
  wf one_vector ∧
  objs one_vector !! 0%nat = Some (Vector 7 (Ptr 1%nat 0) 4 3) ∧
  repr (heap one_vector) (Vector 7 (Ptr 1%nat 0) 4 3) [1; 2; 3] ∧
  objs one_vector !! 1%nat = None ∧
  3 ≤ INT_MAX ∧
  read (At (Ptr 1%nat 0)) one_vector = Ok 1 one_vector ∧
  ∃ s1 s2,
    stack.stack_copy 1%nat 0%nat one_vector = Ok () s1 ∧
    (q ← stack.top 1%nat; load q) s1 = Ok 3 s1 ∧
    stack.push 1%nat (At (Ptr 1%nat 0)) s1 = Ok () s2 ∧
    (q ← stack.top 1%nat; load q) s2 = Ok 1 s2 ∧
    stack.size 1%nat s2 = Ok 4 s2 ∧
    stack.size 0%nat s2 = Ok 3 s2 ∧
    (q ← stack.top 0%nat; load q) s2 = Ok 3 s2.
Proof.
  pose proof one_vector_wf as Hwf. pose proof one_vector_repr as Hxs.
  assert (objs one_vector !! 0%nat = Some (Vector 7 (Ptr 1%nat 0) 4 3)) as Hr
    by reflexivity.
  assert (3 ≤ INT_MAX) as Hmax by (unfold INT_MAX; lia).
  assert (read (At (Ptr 1%nat 0)) one_vector = Ok 1 one_vector) as Ht
    by reflexivity.
  split; [exact Hwf|]. split; [exact Hr|]. split; [exact Hxs|].
  split; [reflexivity|]. split; [exact Hmax|]. split; [exact Ht|].
  destruct (stack_copy_is_independent (T:=Z) (A:=Z) stack.stack_copy
              1%nat 0%nat (At (Ptr 1%nat 0)) 1 one_vector _ _
              (or_introl eq_refl) Hwf Hr Hxs eq_refl Hmax Ht)
    as (s1 & s2 & Hcopy & _ & Htop1 & Hpush & Htop2 & Hsize2 & Hsize0 & _ & _
        & Htop0).
  exists s1, s2. split; [exact Hcopy|].
  split; [exact (Htop1 [1; 2] 3 eq_refl)|]. split; [exact Hpush|].
  split; [exact Htop2|]. split; [exact Hsize2|]. split; [exact Hsize0|].
  exact (Htop0 [1; 2] 3 eq_refl).
Defined.

(** X24: A stack made by [stack(stack&&)] or by [stack(Container&&)] takes the
    buffer of its source without allocating or copying anything and has the
    source's size and elements; the allocation strategy is not taken along:
    the new container has a default-constructed one and the source keeps its
    own.  The source is left empty and can be used again: a [push] on it, of
    any object there was before the move (an element of the buffer that was
    handed over included), gives it a buffer of its own and leaves the new
    stack as it is. *)
Theorem stack_move_leaves_source_reusable {T A : Type} `{!Allocator A}
    `{!DefaultConstructible T} (mv : loc → loc → M T A unit) this rhs
    (t : ref T) (x : T) (s : state T A) r xs :
  mv = stack.stack_move ∨ mv = stack.stack_of_container_move →
  wf s → objs s !! rhs = Some r → repr (heap s) r xs →
  objs s !! this = None →
  read t s = Ok x s →
  ∃ s1 s2 b,
    mv this rhs s = Ok () s1 ∧ wf s1 ∧
    heap s1 = heap s ∧ next_block s1 = next_block s ∧
    objs s1 !! this = Some b ∧ data b = data r ∧ repr (heap s1) b xs ∧
    alloc b = A_default ∧
    objs s1 !! rhs = Some (Vector (alloc r) nullptr 0 0) ∧
    stack.size this s1 = Ok (numElements r) s1 ∧
    stack.empty rhs s1 = Ok true s1 ∧ stack.size rhs s1 = Ok 0 s1 ∧
    stack.push rhs t s1 = Ok () s2 ∧
    (q ← stack.top rhs; load q) s2 = Ok x s2 ∧
    stack.size rhs s2 = Ok 1 s2 ∧
    objs s2 !! this = Some b ∧ repr (heap s2) b xs.
Proof.
  intros Hmv Hwf Hr Hxs Hfree Ht.
  assert (mv this rhs = vector.vector_move this rhs) as ->
    by (by destruct Hmv as [->| ->]).
  assert (this ≠ rhs) as Hne by congruence.
  set (s1 := handed_over this rhs r s).
  set (b := Vector A_default (data r) (numCapacity r) (numElements r)).
  set (r0 := Vector (alloc r) nullptr 0 0).
  assert (wf s1) as Hwf1 by by apply wf_handed_over.
  assert (objs s1 !! rhs = Some r0) as Hr1 by apply lookup_insert_eq.
  assert (objs s1 !! this = Some b) as Hb1.
  { unfold s1, handed_over. simpl. rewrite lookup_insert_ne by done.
    apply lookup_insert_eq. }
  assert (repr (heap s1) b xs) as Hxb1.
  { unfold s1, handed_over, b. simpl. destruct r. by eapply repr_alloc. }
  assert (read t s1 = Ok x s1) as Ht1 by by eapply read_frame; [|exact Ht].
  assert (outside t r0) as Hout1.
  { destruct t as [y|p]; [done|]. simpl.
    apply read_At_Ok in Ht as (reg & Hreg & _).
    pose proof (wf_fresh _ Hwf (blk p) (mk_is_Some _ _ Hreg)). lia. }
  assert (stack.push rhs t s1 = vector.push_back rhs (Val x) s1) as Hpush.
  { unfold stack.push, stack.container.
    by apply (push_back_read rhs t x s1 r0 []); [..|apply repr_empty| |]. }
  destruct (push_back_owned rhs x s1 r0 [] Hwf1 Hr1 (repr_empty _ _))
    as (s2 & r2 & Hrun2 & Hwf2 & Hobjs2 & Hxr2 & Hheap2 & _ & _).
  { intros _. unfold grown, max_size, PTRDIFF_MAX. simpl. lia. }
  assert (objs s2 !! rhs = Some r2) as Hr2
    by (rewrite Hobjs2; apply lookup_insert_eq).
  destruct (owned_others rhs r0 r2 s1 s2 this Hwf1 Hwf2 Hr1 Hobjs2 Hheap2)
    as (Hb2 & _ & Hkept); [done|].
  rewrite Hb1 in Hb2.
  pose proof (repr_length _ _ _ Hxr2) as Hn2. simpl in Hn2.
  exists s1, s2, b. split; [by apply vector_move_Ok|]. split; [done|].
  split; [done|]. split; [done|]. split; [done|]. split; [done|].
  split; [done|]. split; [done|]. split; [done|].
  split; [by rewrite (size_Ok this b) by done|].
  split; [by rewrite (empty_Ok rhs r0) by done|].
  split; [by rewrite (size_Ok rhs r0) by done|].
  split; [by rewrite Hpush|].
  split; [by eapply (top_load rhs r2 [] x)|].
  split; [rewrite (size_Ok rhs r2) by done; by rewrite Hn2|].
  split; [done|]. by eapply Hkept.
Qed.

Lemma stack_move_leaves_source_reusable_witness :
  wf one_vector ∧
  objs one_vector !! 0%nat = Some (Vector 7 (Ptr 1%nat 0) 4 3) ∧
  repr (heap one_vector) (Vector 7 (Ptr 1%nat 0) 4 3) [1; 2; 3] ∧
  objs one_vector !! 1%nat = None ∧
  read (At (Ptr 1%nat 0)) one_vector = Ok 1 one_vector ∧
  ∃ s1 s2 b,
    stack.stack_move 1%nat 0%nat one_vector = Ok () s1 ∧
    heap s1 = heap one_vector ∧
    objs s1 !! 1%nat = Some b ∧ repr (heap s1) b [1; 2; 3] ∧
    stack.empty 0%nat s1 = Ok true s1 ∧
    stack.push 0%nat (At (Ptr 1%nat 0)) s1 = Ok () s2 ∧
    (q ← stack.top 0%nat; load q) s2 = Ok 1 s2 ∧
    repr (heap s2) b [1; 2; 3].
Proof.
  pose proof one_vector_wf as Hwf. pose proof one_vector_repr as Hxs.
  assert (objs one_vector !! 0%nat = Some (Vector 7 (Ptr 1%nat 0) 4 3)) as Hr
    by reflexivity.
  assert (read (At (Ptr 1%nat 0)) one_vector = Ok 1 one_vector) as Ht
    by reflexivity.
  split; [exact Hwf|]. split; [exact Hr|]. split; [exact Hxs|].
  split; [reflexivity|]. split; [exact Ht|].
  destruct (stack_move_leaves_source_reusable (T:=Z) (A:=Z) stack.stack_move
              1%nat 0%nat (At (Ptr 1%nat 0)) 1 one_vector _ _
              (or_introl eq_refl) Hwf Hr Hxs eq_refl Ht)
    as (s1 & s2 & b & Hmv & _ & Hheap & _ & Hb & _ & Hxb & _ & _ & _ & Hempty
        & _ & Hpush & Htop & _ & _ & Hxb2).
  exists s1, s2, b. split; [exact Hmv|]. split; [exact Hheap|].
  split; [exact Hb|]. split; [exact Hxb|]. split; [exact Hempty|].
  split; [exact Hpush|]. split; [exact Htop|exact Hxb2].
Defined.

(** X25: Move assignment [a = std::move(b)], of vectors and of stacks.  The
    elements [a] held are destroyed first (after [clear] no slot of the buffer
    can be read any more, while the buffer is still allocated), and the buffer
    is then given back to the allocation strategy when it had room for
    anything ([shrink_to_fit]); the members are exchanged last.  Between two
    distinct objects [a] becomes the object that [b] was, allocation strategy
    included, and holds the elements of [b]; [b] is left empty; nothing is
    allocated.  Assigning an object to itself in this way does not keep it:
    its elements have been destroyed and its buffer released, nothing of the
    old buffer can be read, and the object is left empty and, when it had a
    capacity, without a buffer. *)
Theorem move_assignment_takes_over {T A : Type} `{!Allocator A}
    `{!DefaultConstructible T} (asg : loc → loc → M T A unit) this rhs
    (s : state T A) v r xs ys :
  asg = vector.assign_move ∨ asg = stack.assign_move →
  wf s → objs s !! this = Some v → objs s !! rhs = Some r →
  repr (heap s) v xs → repr (heap s) r ys →
  (∃ sc ss s',
     vector.clear this s = Ok () sc ∧
     (∀ (i : nat) x, xs !! i = Some x →
        load (data v +ₚ Z.of_nat i) s = Ok x s ∧
        load (data v +ₚ Z.of_nat i) sc = UB) ∧
     (data v ≠ nullptr →
        heap sc !! blk (data v) = Some (Region (numCapacity v) ∅)) ∧
     vector.shrink_to_fit this sc = Ok () ss ∧
     (0 < numCapacity v → heap ss !! blk (data v) = None) ∧
     vector.swap this rhs ss = Ok () s' ∧
     asg this rhs s = Ok () s') ∧
  (this ≠ rhs →
   ∃ s' r',
     asg this rhs s = Ok () s' ∧ wf s' ∧
     objs s' !! this = Some r ∧ repr (heap s') r ys ∧
     objs s' !! rhs = Some r' ∧ alloc r' = alloc v ∧
     numElements r' = 0 ∧ numCapacity r' = 0 ∧
     stack.empty rhs s' = Ok true s' ∧
     stack.size this s' = Ok (numElements r) s' ∧
     (0 < numCapacity v → heap s' !! blk (data v) = None) ∧
     regions_allocated s s' = 0 ∧
     (∀ l, l ≠ this → l ≠ rhs → objs s' !! l = objs s !! l)) ∧
  (∃ s' v',
     asg this this s = Ok () s' ∧ wf s' ∧
     objs s' !! this = Some v' ∧ numElements v' = 0 ∧ numCapacity v' = 0 ∧
     (0 < numCapacity v →
        data v' = nullptr ∧ heap s' !! blk (data v) = None) ∧
     (∀ i, load (data v +ₚ i) s' = UB) ∧
     regions_allocated s s' = 0 ∧
     repr (heap s') v' [] ∧ stack.empty this s' = Ok true s').
Proof.
  intros Hasg Hwf Hv Hr Hxs Hys.
  assert (asg = vector.assign_move) as ->
    by (by destruct Hasg as [->| ->]).
  pose proof (repr_bounds _ _ _ Hxs) as Hbv.
  split; [|split].
  - destruct (assign_move_steps this rhs v r xs s Hwf Hv Hr Hxs)
      as (sc & ss & Hclear & Hdead & Hreg & Hshrink & Hfreed & _ & Hswap).
    exists sc, ss, (move_assigned this rhs v r s).
    split; [done|]. split.
    { intros i x Hi. split; [by eapply repr_load|apply Hdead]. }
    split; [done|]. split; [done|].
    split; [intros Hcap; by destruct (Hfreed Hcap)|].
    split; [done|]. by apply assign_move_Ok.
  - intros Hne.
    set (s' := move_assigned this rhs v r s).
    assert (wf s') as Hwf' by by apply wf_move_assigned.
    assert (objs s' !! this = Some r) as Hv'.
    { unfold s', move_assigned. simpl. rewrite lookup_insert_ne by done.
      apply lookup_insert_eq. }
    eexists s', _. split; [by apply assign_move_Ok|]. split; [done|].
    split; [done|].
    assert (repr (heap s') r ys) as Hys'.
    { eapply repr_frame; [done|]. intros Hnn. unfold s', move_assigned. simpl.
      case_decide; [|done]. apply lookup_delete_ne, not_eq_sym.
      by apply (wf_other_region s this rhs v r). }
    split; [done|]. split; [apply lookup_insert_eq|].
    split; [done|]. split; [done|]. split; [done|].
    split; [erewrite empty_Ok by apply lookup_insert_eq; done|].
    split; [by rewrite (size_Ok this r) by done|].
    split; [intros Hcap; unfold s', move_assigned; simpl;
            rewrite decide_True by done; apply lookup_delete_eq|].
    split; [by apply regions_allocated_same|].
    intros l Hl1 Hl2. unfold s', move_assigned. simpl.
    by rewrite !lookup_insert_ne by done.
  - set (s' := move_assigned this this v v s).
    assert (wf s') as Hwf' by by apply wf_move_assigned.
    assert (objs s' !! this
            = Some (Vector (alloc v)
                      (if decide (0 < numCapacity v) then nullptr else data v)
                      0 0)) as Hv' by apply lookup_insert_eq.
    destruct (wf_repr _ Hwf' _ _ Hv') as [zs Hzs].
    pose proof (repr_length _ _ _ Hzs) as Hn. simpl in Hn.
    assert (zs = []) as -> by (apply length_zero_iff_nil; lia).
    eexists s', _. split; [by apply assign_move_Ok|]. split; [done|].
    split; [done|]. split; [done|]. split; [done|].
    split.
    { intros Hcap. simpl. rewrite decide_True by done. split; [done|].
      unfold s', move_assigned. simpl. rewrite decide_True by done.
      apply lookup_delete_eq. }
    split.
    { intros i. destruct (decide (0 < numCapacity v)) as [Hcap|Hcap].
      - unfold load, s', move_assigned. simpl. rewrite decide_True by done.
        by rewrite lookup_delete_eq.
      - assert (xs = []) as ->.
        { apply length_zero_iff_nil.
          pose proof (repr_length _ _ _ Hxs). lia. }
        unfold load, s', move_assigned. simpl.
        rewrite decide_False by done.
        destruct (decide (data v = nullptr)) as [Hnull|Hnn].
        + rewrite Hnull. simpl. case_match eqn:Hr0; [|done].
          pose proof (wf_fresh _ Hwf 0%nat (mk_is_Some _ _ Hr0)). lia.
        + destruct (repr_region _ _ _ Hxs Hnn) as (Hd & Hb0 & Hh).
          rewrite Hd. simpl. rewrite Hh. simpl. by rewrite lookup_empty. }
    split; [by apply regions_allocated_same|].
    split; [done|].
    erewrite empty_Ok by done. done.
Qed.

Lemma move_assignment_takes_over_witness :
  wf two_vectors ∧
  objs two_vectors !! 0%nat = Some (Vector 7 (Ptr 1%nat 0) 4 3) ∧
  objs two_vectors !! 1%nat = Some (Vector 0 (Ptr 2%nat 0) 2 2) ∧
  repr (heap two_vectors) (Vector 7 (Ptr 1%nat 0) 4 3) [1; 2; 3] ∧
  repr (heap two_vectors) (Vector 0 (Ptr 2%nat 0) 2 2) [8; 9] ∧
  0%nat ≠ 1%nat ∧
  (∃ sc,
     vector.clear 0%nat two_vectors = Ok () sc ∧
     load (Ptr 1%nat 0) two_vectors = Ok 1 two_vectors ∧
     load (Ptr 1%nat 0) sc = UB ∧
     heap sc !! 1%nat = Some (Region 4 ∅)) ∧
  (∃ s',
     stack.assign_move 0%nat 1%nat two_vectors = Ok () s' ∧
     objs s' !! 0%nat = Some (Vector 0 (Ptr 2%nat 0) 2 2) ∧
     repr (heap s') (Vector 0 (Ptr 2%nat 0) 2 2) [8; 9] ∧
     stack.empty 1%nat s' = Ok true s' ∧ heap s' !! 1%nat = None) ∧
  (∃ s',
     vector.assign_move 0%nat 0%nat two_vectors = Ok () s' ∧
     stack.empty 0%nat s' = Ok true s' ∧
     heap s' !! 1%nat = None ∧
     load (Ptr 1%nat 0) s' = UB).
Proof.
  pose proof two_vectors_wf as Hwf.
  assert (objs two_vectors !! 0%nat = Some (Vector 7 (Ptr 1%nat 0) 4 3)) as Hv
    by reflexivity.
  assert (objs two_vectors !! 1%nat = Some (Vector 0 (Ptr 2%nat 0) 2 2)) as Hr
    by reflexivity.
  assert (repr (heap two_vectors) (Vector 7 (Ptr 1%nat 0) 4 3) [1; 2; 3])
    as Hxs.
  { unfold repr. simpl. unfold max_size, PTRDIFF_MAX.
    split; [done|]. split; [lia|]. right. by split; [lia|]. }
  assert (repr (heap two_vectors) (Vector 0 (Ptr 2%nat 0) 2 2) [8; 9]) as Hys.
  { unfold repr. simpl. unfold max_size, PTRDIFF_MAX.
    split; [done|]. split; [lia|]. right. by split; [lia|]. }
  assert (0%nat ≠ 1%nat) as Hne by lia.
  split; [exact Hwf|]. split; [exact Hv|]. split; [exact Hr|].
  split; [exact Hxs|]. split; [exact Hys|]. split; [exact Hne|].
  split; [|split].
  - destruct (move_assignment_takes_over (T:=Z) (A:=Z) vector.assign_move
                0%nat 1%nat two_vectors _ _ _ _ (or_introl eq_refl)
                Hwf Hv Hr Hxs Hys) as [Hsteps _].
    destruct Hsteps as (sc & ss & s' & Hclear & Hlive & Hreg & _).
    destruct (Hlive 0%nat 1 eq_refl) as [Hbefore Hafter].
    exists sc. split; [exact Hclear|]. split; [exact Hbefore|].
    split; [exact Hafter|]. apply Hreg. by intros [=].
  - destruct (move_assignment_takes_over (T:=Z) (A:=Z) stack.assign_move
                0%nat 1%nat two_vectors _ _ _ _ (or_intror eq_refl)
                Hwf Hv Hr Hxs Hys) as (_ & Hmove & _).
    destruct (Hmove Hne)
      as (s' & r' & Hrun & _ & Hv' & Hys' & _ & _ & _ & _ & Hempty & _ & Hgone
          & _).
    exists s'. split; [exact Hrun|]. split; [exact Hv'|].
    split; [exact Hys'|]. split; [exact Hempty|]. apply Hgone. simpl. lia.
  - destruct (move_assignment_takes_over (T:=Z) (A:=Z) vector.assign_move
                0%nat 1%nat two_vectors _ _ _ _ (or_introl eq_refl)
                Hwf Hv Hr Hxs Hys) as (_ & _ & Hself).
    destruct Hself
      as (s' & v' & Hrun & _ & _ & _ & _ & Hfreed & Hdead & _ & _ & Hempty).
    exists s'. split; [exact Hrun|]. split; [exact Hempty|].
    split; [apply Hfreed; simpl; lia|apply (Hdead 0)].
Defined.

(** X26: Copies and moved-from vectors can be destroyed without harm.
    Destroying a copy gives back exactly what the copy took: the store is
    again what it was before the copy was made.  Destroying a vector that has
    been moved from frees nothing, and the vector that took its buffer still
    holds the elements. *)
Theorem copies_and_moved_from_destroy_safely {T A : Type} `{!Allocator A}
    `{!DefaultConstructible T} this rhs (s : state T A) r xs :
  wf s → objs s !! rhs = Some r → repr (heap s) r xs →
  objs s !! this = None → numElements r ≤ INT_MAX →
  (∃ s',
     (vector.vector_copy this rhs;; vector.vector_destroy this) s = Ok () s' ∧
     heap s' = heap s ∧ objs s' = objs s) ∧
  (∃ s' b,
     (vector.vector_move this rhs;; vector.vector_destroy rhs) s = Ok () s' ∧
     heap s' = heap s ∧ objs s' !! rhs = None ∧
     objs s' !! this = Some b ∧ data b = data r ∧ repr (heap s') b xs).
Proof.
  intros Hwf Hr Hxs Hfree Hmax.
  assert (this ≠ rhs) as Hne by congruence.
  pose proof (repr_length _ _ _ Hxs) as Hlen.
  pose proof (repr_bounds _ _ _ Hxs) as Hb.
  split.
  - destruct (decide (numElements r = 0)) as [Hz|Hnz].
    + erewrite bind_Ok by by eapply vector_copy_empty.
      erewrite (vector_destroy_Ok this _ []);
        [|by apply wf_created_empty|apply lookup_insert_eq|apply repr_empty
         |unfold INT_MAX; simpl; lia].
      eexists. split; [done|]. unfold destroyed, created_empty. simpl.
      split; [by apply delete_id, wf_null_fresh|].
      rewrite delete_insert_eq. by apply delete_id.
    + erewrite bind_Ok by (eapply vector_copy_Ok; [done..|lia]).
      erewrite (vector_destroy_Ok this _ xs);
        [|apply wf_created; [done|lia]|apply created_this
         |apply created_repr; [done|lia]|simpl; lia].
      eexists. split; [done|]. unfold destroyed, created. simpl.
      split; [rewrite delete_insert_eq; by apply delete_id, wf_next_fresh|].
      rewrite delete_insert_eq. by apply delete_id.
  - erewrite bind_Ok by by apply vector_move_Ok.
    erewrite (vector_destroy_Ok rhs _ []);
      [|by apply wf_handed_over|apply lookup_insert_eq|apply repr_empty
       |unfold INT_MAX; simpl; lia].
    eexists _, _. split; [done|]. unfold destroyed, handed_over. simpl.
    split; [by apply delete_id, wf_null_fresh|].
    split; [apply lookup_delete_eq|].
    split; [rewrite delete_insert_eq, lookup_delete_ne by done;
            apply lookup_insert_eq|].
    split; [done|].
    rewrite (delete_id (heap s)) by by apply wf_null_fresh.
    destruct r. by eapply repr_alloc.
Qed.

Lemma copies_and_moved_from_destroy_safely_witness :
  wf one_vector ∧
  objs one_vector !! 0%nat = Some (Vector 7 (Ptr 1%nat 0) 4 3) ∧
  repr (heap one_vector) (Vector 7 (Ptr 1%nat 0) 4 3) [1; 2; 3] ∧
  objs one_vector !! 1%nat = None ∧ 3 ≤ INT_MAX ∧
  (∃ s',
     (vector.vector_copy 1%nat 0%nat;; vector.vector_destroy 1%nat) one_vector
     = Ok () s' ∧
     heap s' = heap one_vector ∧ objs s' = objs one_vector) ∧
  (∃ s' b,
     (vector.vector_move 1%nat 0%nat;; vector.vector_destroy 0%nat) one_vector
     = Ok () s' ∧
     objs s' !! 1%nat = Some b ∧ repr (heap s') b [1; 2; 3]).
Proof.
  pose proof one_vector_wf as Hwf. pose proof one_vector_repr as Hxs.
  assert (objs one_vector !! 0%nat = Some (Vector 7 (Ptr 1%nat 0) 4 3)) as Hr
    by reflexivity.
  assert (3 ≤ INT_MAX) as Hmax by (unfold INT_MAX; lia).
  split; [exact Hwf|]. split; [exact Hr|]. split; [exact Hxs|].
  split; [reflexivity|]. split; [exact Hmax|].
  destruct (copies_and_moved_from_destroy_safely (T:=Z) (A:=Z) 1%nat 0%nat
              one_vector _ _ Hwf Hr Hxs eq_refl Hmax) as [Hcopy Hmove].
  split; [exact Hcopy|].
  destruct Hmove as (s' & b & Hrun & _ & _ & Hb & _ & Hxb).
  exists s', b. split; [exact Hrun|]. split; [exact Hb|exact Hxb].
Defined.

(** X27: Every public operation of the vector keeps the representation
    invariants: called on a store in which every vector has [0 <= size <=
    capacity <= max_size], its elements in the slots [0 .. size) of a buffer
    for [capacity] objects with no object in the slots behind them, and a
    buffer no other vector uses, an operation that completes leaves such a
    store.  The null pointer goes with capacity [0] and only with it
    afterwards as well, unless the operation is a construction of zero
    elements from an allocation strategy that answers [allocate(0)] with a
    pointer that is not null. *)
Theorem public_operations_keep_invariants {T A : Type} `{!Allocator A}
    `{!DefaultConstructible T} (o : op) (s s' : state T A) :
  wf s → well_called o s → run o s = Ok () s' →
  wf s' ∧
  (∀ l v, objs s' !! l = Some v →
     0 ≤ numElements v ≤ numCapacity v ∧ numCapacity v ≤ max_size ∧
     ∃ xs, repr (heap s') v xs ∧
           ∀ i, Z.of_nat (length xs) ≤ i → load (data v +ₚ i) s' = UB) ∧
  (all_null_iff_no_capacity s → ¬ allocates_nothing o →
   all_null_iff_no_capacity s').
Proof.
  intros Hwf Hcall Hrun.
  destruct (run_preserves_invariants o s s' Hwf Hcall Hrun) as [Hwf' HI2].
  split; [done|]. split; [|done].
  intros l v Hv. destruct (wf_repr _ Hwf' _ _ Hv) as [xs Hxs].
  pose proof (repr_bounds _ _ _ Hxs) as Hb.
  split; [lia|]. split; [lia|]. exists xs. split; [done|].
  intros i Hi. by eapply repr_load_beyond.
Qed.

Lemma public_operations_keep_invariants_witness :
  wf two_vectors ∧
  well_called (Resize_fill 0%nat 6 (At (Ptr 2%nat 1))) two_vectors ∧
  ∃ s',
    run (Resize_fill 0%nat 6 (At (Ptr 2%nat 1))) two_vectors = Ok () s' ∧
    wf s' ∧
    (all_null_iff_no_capacity two_vectors → all_null_iff_no_capacity s').
Proof.
  pose proof two_vectors_wf as Hwf.
  assert (well_called (Resize_fill 0%nat 6 (At (Ptr 2%nat 1))) two_vectors)
    as Hcall by (simpl; lia).
  split; [exact Hwf|]. split; [exact Hcall|].
  eexists. split; [vm_compute; reflexivity|].
  match goal with
  | |- wf ?s' ∧ _ =>
      destruct (public_operations_keep_invariants (T:=Z) (A:=Z)
                  (Resize_fill 0%nat 6 (At (Ptr 2%nat 1))) two_vectors s'
                  Hwf Hcall)
        as (Hwf' & _ & HI2); [vm_compute; reflexivity|]
  end.
  split; [exact Hwf'|]. intros H. apply HI2; [exact H|]. simpl. tauto.
Defined.

(** X28: The copy constructor on a source of at most [INT_MAX] elements: the
    new vector holds the elements of the source in a buffer of its own, with a
    capacity equal to the size of the source (not to its capacity), no buffer
    at all when the source is empty, and a default-constructed allocation
    strategy; the source is unchanged.  The two are independent: assigning to
    any element of the copy leaves the source as it was. *)
Theorem copy_constructor_copies_within_int_range {T A : Type} `{!Allocator A}
    `{!DefaultConstructible T} this rhs (s : state T A) r xs :
  wf s → objs s !! rhs = Some r → repr (heap s) r xs →
  objs s !! this = None → numElements r ≤ INT_MAX →
  ∃ s' b,
    vector.vector_copy this rhs s = Ok () s' ∧ wf s' ∧
    objs s' !! this = Some b ∧ objs s' !! rhs = Some r ∧
    numElements b = numElements r ∧ numCapacity b = numElements r ∧
    alloc b = A_default ∧
    (numElements r = 0 → data b = nullptr) ∧
    repr (heap s') b xs ∧ repr (heap s') r xs ∧
    (∀ (i : nat) x, (i < length xs)%nat →
       ∃ s'',
         (q ← vector.subscript this (Z.of_nat i); store q x) s' = Ok () s'' ∧
         repr (heap s'') b (<[i := x]> xs) ∧
         objs s'' !! rhs = Some r ∧ repr (heap s'') r xs).
Proof.
  intros Hwf Hr Hxs Hfree Hmax.
  assert (this ≠ rhs) as Hne by congruence.
  destruct (vector_copy_spec this rhs r xs s Hwf Hr Hxs Hfree Hmax)
    as (s' & b & Hrun & Hwf' & Hb & Hr' & Hc & Hn & Hnull & Hxb & Hxr & _).
  destruct (vector_copy_alloc this rhs r s s' Hwf Hr Hne Hrun)
    as (b' & Hb' & Ha & _).
  rewrite Hb in Hb'. injection Hb' as <-.
  exists s', b. split; [done|]. split; [done|]. split; [done|].
  split; [done|]. split; [done|]. split; [done|]. split; [done|].
  split; [done|]. split; [done|]. split; [done|].
  intros i x Hi.
  destruct (subscript_store_spec this s' b xs i x Hwf' Hb Hxb Hi)
    as (s'' & Hstore & _ & Hobjs & _ & Hxb' & _ & _ & _ & Hkept).
  exists s''. split; [done|]. split; [done|].
  split; [by rewrite Hobjs|]. by eapply (Hkept rhs).
Qed.

Lemma copy_constructor_copies_within_int_range_witness :
  wf one_vector ∧
  objs one_vector !! 0%nat = Some (Vector 7 (Ptr 1%nat 0) 4 3) ∧
  repr (heap one_vector) (Vector 7 (Ptr 1%nat 0) 4 3) [1; 2; 3] ∧
  objs one_vector !! 1%nat = None ∧ 3 ≤ INT_MAX ∧
  ∃ s' b s'',
    vector.vector_copy 1%nat 0%nat one_vector = Ok () s' ∧
    objs s' !! 1%nat = Some b ∧ numCapacity b = 3 ∧ alloc b = 0 ∧
    repr (heap s') b [1; 2; 3] ∧
    (q ← vector.subscript 1%nat 0; store q 9) s' = Ok () s'' ∧
    repr (heap s'') b [9; 2; 3] ∧
    repr (heap s'') (Vector 7 (Ptr 1%nat 0) 4 3) [1; 2; 3].
Proof.
  pose proof one_vector_wf as Hwf. pose proof one_vector_repr as Hxs.
  assert (objs one_vector !! 0%nat = Some (Vector 7 (Ptr 1%nat 0) 4 3)) as Hr
    by reflexivity.
  assert (3 ≤ INT_MAX) as Hmax by (unfold INT_MAX; lia).
  split; [exact Hwf|]. split; [exact Hr|]. split; [exact Hxs|].
  split; [reflexivity|]. split; [exact Hmax|].
  destruct (copy_constructor_copies_within_int_range (T:=Z) (A:=Z) 1%nat
              0%nat one_vector _ _ Hwf Hr Hxs eq_refl Hmax)
    as (s' & b & Hrun & _ & Hb & _ & _ & Hc & Ha & _ & Hxb & _ & Hindep).
  destruct (Hindep 0%nat 9) as (s'' & Hstore & Hxb' & _ & Hxr'); [simpl; lia|].
  exists s', b, s''. split; [exact Hrun|]. split; [exact Hb|].
  split; [exact Hc|]. split; [exact Ha|]. split; [exact Hxb|].
  split; [exact Hstore|]. split; [exact Hxb'|exact Hxr'].
Defined.

(** ** Capacity is only given up on request *)

Section Capacity.
Context {T A : Type} `{!Allocator A} `{!DefaultConstructible T}.
Implicit Types (s : state T A) (v r : vector A) (xs ys : list T) (t : T)
  (o : op (T:=T) (A:=A)).

Lemma kept_none s : capacity_kept s s.
Proof. intros l v Hl. by exists v. Qed.

Lemma kept_in_place this v0 xs' s :
  objs s !! this = Some v0 → capacity_kept s (in_place this v0 xs' s).
Proof.
  intros Hv l v Hl. unfold in_place. simpl.
  destruct (decide (l = this)) as [->|Hne].
  - rewrite lookup_insert_eq. eexists. split; [done|].
    rewrite Hv in Hl. injection Hl as <-. by split.
  - rewrite lookup_insert_ne by done. by exists v.
Qed.

Lemma kept_relocated this v0 cap' xs' s :
  objs s !! this = Some v0 → numCapacity v0 ≤ cap' →
  capacity_kept s (relocated this v0 cap' xs' s).
Proof.
  intros Hv Hcap l v Hl. unfold relocated. simpl.
  destruct (decide (l = this)) as [->|Hne].
  - rewrite lookup_insert_eq. eexists. split; [done|].
    rewrite Hv in Hl. injection Hl as <-. by split.
  - rewrite lookup_insert_ne by done. by exists v.
Qed.

Lemma kept_created this a cap xs s :
  objs s !! this = None → capacity_kept s (created this a cap xs s).
Proof.
  intros Hfree l v Hl. unfold created. simpl.
  rewrite lookup_insert_ne by congruence. by exists v.
Qed.

Lemma kept_created_empty this a s :
  objs s !! this = None → capacity_kept s (created_empty this a s).
Proof.
  intros Hfree l v Hl. unfold created_empty. simpl.
  rewrite lookup_insert_ne by congruence. by exists v.
Qed.

Lemma fill_kept this n x a s s' :
  objs s !! this = None → 0 ≤ n →
  vector.vector_fill this n x a s = Ok () s' → capacity_kept s s'.
Proof.
  intros Hfree Hn Hrun.
  destruct (decide (n = 0)) as [->|Hn0].
  - rewrite vector_fill_zero in Hrun. injection Hrun as <-.
    destruct (allocate_zero_is_null a);
      [by apply kept_created_empty|by apply kept_created].
  - destruct (decide (n ≤ INT_MAX)).
    + rewrite vector_fill_Ok in Hrun by lia. injection Hrun as <-.
      by apply kept_created.
    + destruct (decide (n ≤ max_size)).
      * by rewrite vector_fill_overflow in Hrun by lia.
      * by rewrite vector_fill_Throw in Hrun by lia.
Qed.

Lemma push_back_kept this (t : ref T) s s' :
  wf s → vector.push_back this t s = Ok () s' → capacity_kept s s'.
Proof.
  intros Hwf Hrun. apply push_back_Ok_inv in Hrun as (x & Hrun); [|done].
  destruct (objs s !! this) as [v|] eqn:Hv;
    [|unfold vector.push_back in Hrun; by rewrite (get_None this) in Hrun].
  destruct (wf_repr _ Hwf _ _ Hv) as [xs Hxs].
  pose proof (repr_bounds _ _ _ Hxs) as Hb.
  destruct (decide (numElements v < numCapacity v)) as [Hroom|Hfull].
  - rewrite (push_back_room _ _ xs) in Hrun by done. injection Hrun as <-.
    by apply kept_in_place.
  - assert (numCapacity v = numElements v) as Heq by lia.
    destruct (decide (grown (numCapacity v) ≤ max_size)) as [Hmax|Hmax].
    + rewrite (push_back_grow _ _ xs) in Hrun by done. injection Hrun as <-.
      apply kept_relocated; [done|]. unfold grown. case_decide; lia.
    + by rewrite (push_back_Throw _ v) in Hrun by (done || lia).
Qed.

Lemma resize_fill_kept this n (t : ref T) s s' :
  wf s → 0 ≤ n → vector.resize_fill this n t s = Ok () s' →
  capacity_kept s s'.
Proof.
  intros Hwf Hn Hrun.
  destruct (objs s !! this) as [v|] eqn:Hv;
    [|unfold vector.resize_fill in Hrun; by rewrite (get_None this) in Hrun].
  destruct (wf_repr _ Hwf _ _ Hv) as [xs Hxs].
  pose proof (repr_bounds _ _ _ Hxs) as Hb.
  destruct (decide (n < numElements v)) as [Hlt|Hge].
  { rewrite (resize_fill_shrink _ _ xs) in Hrun by done. injection Hrun as <-.
    by apply kept_in_place. }
  destruct (decide (n = numElements v)) as [Heq|Hne].
  { rewrite (resize_fill_same _ v) in Hrun by done. injection Hrun as <-.
    apply kept_none. }
  destruct (decide (n ≤ numCapacity v)) as [Hroom|Hgrow].
  { destruct (read_cases t s) as [Hub|(x & Hx)];
      [by rewrite (resize_fill_room_UB _ v xs) in Hrun by (done || lia)|].
    rewrite (resize_fill_room_ref _ v xs n t x) in Hrun by (done || lia).
    injection Hrun as <-. by apply kept_in_place. }
  destruct (decide (n ≤ max_size)) as [Hmax|Hmax].
  - destruct (read_cases t (relocated this v n xs s)) as [Hub|(x & Hx)];
      [by rewrite (resize_fill_grow_UB _ v xs) in Hrun by (done || lia)|].
    rewrite (resize_fill_grow_ref _ v xs n t x) in Hrun by (done || lia).
    injection Hrun as <-. apply kept_relocated; [done|lia].
  - by rewrite (resize_fill_Throw _ v) in Hrun by (done || lia).
Qed.

Lemma run_capacity_kept o s s' :
  wf s → well_called o s → ¬ gives_up_capacity o → run o s = Ok () s' →
  capacity_kept s s'.
Proof.
  intros Hwf Hcall Hkeep Hrun. destruct o as
    [this a|this n a|this n x a|this l a|this rhs|this rhs|this rhs|this rhs
    |this rhs|this t|this t|this n|this n|this n t|this|this|this
    |this|this|this|this|this|this i|this|this]; simpl in Hrun, Hcall, Hkeep;
    try (by destruct Hkeep);
    try (apply observer_Ok in Hrun as ->; apply kept_none).
  - (* vector() *)
    injection Hrun as <-. by apply kept_created_empty.
  - (* vector(num) *)
    destruct Hcall as [Hfree Hn]. by eapply (fill_kept this n T_default a).
  - (* vector(num, t) *)
    destruct Hcall as [Hfree Hn]. by eapply fill_kept.
  - (* vector(initializer_list) *)
    destruct l as [|y l].
    + rewrite vector_init_list_nil in Hrun. injection Hrun as <-.
      destruct (allocate_zero_is_null a);
        [by apply kept_created_empty|by apply kept_created].
    + destruct (decide (Z.of_nat (length (y :: l)) ≤ max_size)) as [Hmax|Hmax].
      * rewrite vector_init_list_Ok in Hrun by (simpl in *; lia).
        injection Hrun as <-. by apply kept_created.
      * unfold vector.vector_init_list in Hrun.
        erewrite bind_Throw in Hrun; [done|].
        unfold allocate. by rewrite decide_True by lia.
  - (* vector(const vector&) *)
    destruct (objs s !! rhs) as [r|] eqn:Hr;
      [|unfold vector.vector_copy in Hrun; by rewrite (get_None rhs) in Hrun].
    destruct (wf_repr _ Hwf _ _ Hr) as [ys Hys].
    pose proof (repr_bounds _ _ _ Hys) as Hb.
    destruct (decide (numElements r = 0)) as [Hz|Hnz].
    + rewrite (vector_copy_empty _ _ r) in Hrun by done. injection Hrun as <-.
      by apply kept_created_empty.
    + destruct (decide (numElements r ≤ INT_MAX)).
      * rewrite (vector_copy_Ok _ _ r ys) in Hrun by (done || lia).
        injection Hrun as <-. by apply kept_created.
      * by rewrite (vector_copy_overflow _ _ r) in Hrun by (done || lia).
  - (* operator = (const vector&) *)
    destruct (decide (this = rhs)) as [->|Hne].
    { rewrite assign_copy_self in Hrun. injection Hrun as <-. apply kept_none. }
    destruct (objs s !! this) as [v|] eqn:Hv; last first.
    { unfold vector.assign_copy in Hrun. rewrite decide_True in Hrun by done.
      by rewrite (get_None this) in Hrun. }
    destruct (objs s !! rhs) as [r|] eqn:Hr; last first.
    { unfold vector.assign_copy in Hrun. rewrite decide_True in Hrun by done.
      erewrite bind_Ok in Hrun by by apply get_Ok.
      by rewrite (get_None rhs) in Hrun. }
    destruct (wf_repr _ Hwf _ _ Hv) as [xs Hxs].
    destruct (wf_repr _ Hwf _ _ Hr) as [ys Hys].
    destruct (decide (numCapacity v < numElements r)) as [Hlt|Hge].
    + rewrite (assign_copy_relocate this rhs v r xs ys) in Hrun by done.
      injection Hrun as <-. apply kept_relocated; [done|lia].
    + rewrite (assign_copy_in_place this rhs v r xs ys) in Hrun by (done || lia).
      injection Hrun as <-. by apply kept_in_place.
  - (* push_back(const T&) *)
    by eapply push_back_kept.
  - (* push_back(T&&) *)
    by eapply push_back_kept.
  - (* reserve *)
    destruct (objs s !! this) as [v|] eqn:Hv;
      [|unfold vector.reserve in Hrun; by rewrite (get_None this) in Hrun].
    destruct (wf_repr _ Hwf _ _ Hv) as [xs Hxs].
    pose proof (repr_bounds _ _ _ Hxs) as Hb.
    destruct (decide (n ≤ numCapacity v)).
    + rewrite (reserve_noop _ v) in Hrun by done. injection Hrun as <-.
      apply kept_none.
    + destruct (decide (n ≤ max_size)).
      * rewrite (reserve_Ok _ v xs) in Hrun by (done || lia).
        injection Hrun as <-. apply kept_relocated; [done|lia].
      * by rewrite (reserve_Throw _ v) in Hrun by (done || lia).
  - (* resize(n) *)
    by eapply (resize_fill_kept this n (Val T_default)).
  - (* resize(n, t) *)
    by eapply resize_fill_kept.
  - (* clear *)
    destruct (objs s !! this) as [v|] eqn:Hv;
      [|unfold vector.clear in Hrun; by rewrite (get_None this) in Hrun].
    destruct (wf_repr _ Hwf _ _ Hv) as [xs Hxs].
    rewrite (clear_Ok _ v xs) in Hrun by done. injection Hrun as <-.
    by apply kept_in_place.
  - (* pop_back *)
    destruct (objs s !! this) as [v|] eqn:Hv;
      [|unfold vector.pop_back in Hrun; by rewrite (get_None this) in Hrun].
    destruct (wf_repr _ Hwf _ _ Hv) as [xs Hxs].
    pose proof (repr_length _ _ _ Hxs) as Hlen.
    destruct xs as [|x xs _] using rev_ind.
    + rewrite (pop_back_empty _ v) in Hrun by done. injection Hrun as <-.
      apply kept_none.
    + rewrite (pop_back_Ok _ v xs x) in Hrun by done. injection Hrun as <-.
      by apply kept_in_place.
Qed.

End Capacity.

(** X29: A vector's capacity is only given up on request.  Of the public
    operations only [shrink_to_fit], [swap], move construction and move
    assignment can leave a vector with less capacity than it had; after any
    other operation that completes (the constructors of other vectors, copy
    assignment, [push_back], [reserve], [resize], [clear], [pop_back] and the
    accessors) every vector that existed before still exists, has at least the
    capacity it had, and carries the allocation strategy it carried. *)
Theorem capacity_is_given_up_only_on_request {T A : Type} `{!Allocator A}
    `{!DefaultConstructible T} (o : op) (s s' : state T A) l v :
  wf s → well_called o s → ¬ gives_up_capacity o → run o s = Ok () s' →
  objs s !! l = Some v →
  ∃ v', objs s' !! l = Some v' ∧ numCapacity v ≤ numCapacity v' ∧
        alloc v' = alloc v.
Proof.
  intros Hwf Hcall Hkeep Hrun Hl.
  by apply (run_capacity_kept o s s' Hwf Hcall Hkeep Hrun).
Qed.

Lemma capacity_is_given_up_only_on_request_witness :
  wf one_vector ∧ well_called (Clear 0%nat) one_vector ∧
  ¬ gives_up_capacity (T:=Z) (A:=Z) (Clear 0%nat) ∧
  objs one_vector !! 0%nat = Some (Vector 7 (Ptr 1%nat 0) 4 3) ∧
  ∃ s' v',
    run (Clear 0%nat) one_vector = Ok () s' ∧
    objs s' !! 0%nat = Some v' ∧ 4 ≤ numCapacity v' ∧ alloc v' = 7.
Proof.
  pose proof one_vector_wf as Hwf.
  assert (well_called (Clear 0%nat) one_vector) as Hcall by exact I.
  assert (¬ gives_up_capacity (T:=Z) (A:=Z) (Clear 0%nat)) as Hkeep
    by (simpl; tauto).
  assert (objs one_vector !! 0%nat = Some (Vector 7 (Ptr 1%nat 0) 4 3)) as Hv
    by reflexivity.
  split; [exact Hwf|]. split; [exact Hcall|]. split; [exact Hkeep|].
  split; [exact Hv|].
  eexists. 
  match goal with
  | |- ∃ v', run ?o ?s = Ok () ?s' ∧ _ =>
      assert (run o s = Ok () s') as Hrun by (vm_compute; reflexivity)
  end.
  destruct (capacity_is_given_up_only_on_request (T:=Z) (A:=Z) (Clear 0%nat)
              one_vector _ 0%nat _ Hwf Hcall Hkeep Hrun Hv)
    as (v' & Hv' & Hc & Ha).
  exists v'. split; [exact Hrun|]. split; [exact Hv'|]. split; [exact Hc|].
  exact Ha.
Defined.

(** X30: Doubling keeps the capacity within a factor of two of the size: after
    [n >= 1] calls of [push_back] on a vector that started without a buffer,
    the capacity is the least power of two that is not below [n], hence less
    than [2 n]. *)
Theorem pushes_leave_power_of_two_capacity {T A : Type} `{!Allocator A}
    `{!DefaultConstructible T} this (a : A) (ts : list T) (s : state T A) :
  wf s → objs s !! this = Some (Vector a nullptr 0 0) →
  0 < Z.of_nat (length ts) ≤ 2 ^ 62 →
  ∃ s' v',
    push_all this ts s = Ok () s' ∧ objs s' !! this = Some v' ∧
    repr (heap s') v' ts ∧
    numCapacity v' = 2 ^ Z.log2_up (Z.of_nat (length ts)) ∧
    Z.of_nat (length ts) ≤ numCapacity v' < 2 * Z.of_nat (length ts) ∧
    (∀ k, 0 ≤ k → Z.of_nat (length ts) ≤ 2 ^ k → numCapacity v' ≤ 2 ^ k).
Proof.
  intros Hwf Hv Hlen.
  destruct (push_all_from_empty this a ts s Hwf Hv)
    as (s' & v' & Hrun & _ & Hv' & Hxs' & Hcap & _); [lia|].
  set (n := Z.of_nat (length ts)) in *.
  unfold capacity_after in Hcap. rewrite decide_False in Hcap by lia.
  exists s', v'. split; [done|]. split; [done|]. split; [done|].
  split; [done|]. rewrite Hcap. split; [split|].
  - destruct (decide (n = 1)) as [->|Hn1]; [done|].
    apply (Z.log2_up_spec n). lia.
  - destruct (decide (n = 1)) as [->|Hn1]; [done|].
    pose proof (Z.log2_up_spec n ltac:(lia)) as [Hlo _].
    pose proof (Z.log2_up_pos n ltac:(lia)) as Hpos.
    replace (Z.log2_up n) with (Z.succ (Z.pred (Z.log2_up n))) by lia.
    rewrite Z.pow_succ_r by lia. lia.
  - intros k Hk Hle. apply Z.pow_le_mono_r; [lia|].
    apply Z.log2_up_le_pow2; lia.
Qed.

Lemma pushes_leave_power_of_two_capacity_witness :
  wf one_empty_vector ∧
  objs one_empty_vector !! 0%nat = Some (Vector 7 nullptr 0 0) ∧
  0 < Z.of_nat (length [1; 2; 3; 4; 5]) ≤ 2 ^ 62 ∧
  ∃ s' v',
    push_all 0%nat [1; 2; 3; 4; 5] one_empty_vector = Ok () s' ∧
    objs s' !! 0%nat = Some v' ∧ repr (heap s') v' [1; 2; 3; 4; 5] ∧
    numCapacity v' = 8.
Proof.
  pose proof one_empty_vector_wf as Hwf.
  assert (objs one_empty_vector !! 0%nat = Some (Vector 7 nullptr 0 0)) as Hv
    by reflexivity.
  assert (0 < Z.of_nat (length [1; 2; 3; 4; 5]) ≤ 2 ^ 62) as Hlen
    by (simpl; lia).
  split; [exact Hwf|]. split; [exact Hv|]. split; [exact Hlen|].
  destruct (pushes_leave_power_of_two_capacity (T:=Z) (A:=Z) 0%nat 7
              [1; 2; 3; 4; 5] one_empty_vector Hwf Hv Hlen)
    as (s' & v' & Hrun & Hv' & Hxs' & Hcap & _).
  exists s', v'. split; [exact Hrun|]. split; [exact Hv'|].
  split; [exact Hxs'|]. rewrite Hcap. reflexivity.
Defined.
